(** * PCK evaluation of the Hourglass keypoint model (eval.py)

    A shallow embedding of [eval.py] and the properties of its metric
    accumulator, its model-format dispatch and its command line.

    Conventions of the embedding.
    - The numbers the script decides on, that is the rows of the keypoint
      arrays, the thresholds and the normalisation, are IEEE 754 binary64
      floating-point numbers ([float64]): every operation rounds to the
      nearest float, overflows to an infinity, and a division by zero gives
      an infinity or a nan without raising.
    - The numbers the script only hands on or prints (the elements of
      images and heatmaps, the accuracies) are idealised as real numbers
      ([R]); the total accuracy, a numpy division of counters that does not
      raise on zero, is [None] when the divisor is zero.
    - Python integers are [Z].
    - A function that may raise returns a [result]; a function that also
      talks to the outside world (console, files, inference engines) runs
      in the monad [M], which records the events in program order and keeps
      the events emitted before an exception.
    - Functions of other modules and of third-party libraries are Section
      variables; an inference runtime is a function of the image it is
      given.
    - The generator of the dataset is the sequence of the samples it
      yields, which need not end: the evaluation loop takes a fuel, and
      [None] is a loop that has not come to its end within the fuel. *)

From Stdlib Require Import Reals Lra ZArith Lia List String Ascii Bool Arith.
From Stdlib Require Import SpecFloat.
Import ListNotations.

Local Open Scope string_scope.
Local Open Scope list_scope.
Local Open Scope Z_scope.

(* ================================================================== *)
(** * Exceptions and results *)

Module Py.

(** The exceptions the script can meet. *)
Inductive exn : Type :=
| ValueError (msg : string)
| AssertionError (msg : string)
| IndexError
| AttributeError
| KeyError (key : string)
| TypeError
| ZeroDivisionError
| SystemExit (code : Z).

Inductive result (A : Type) : Type :=
| Ok (a : A)
| Raise (e : exn).
Arguments Ok {A} a.
Arguments Raise {A} e.

Definition rbind {A B} (r : result A) (f : A -> result B) : result B :=
  match r with
  | Ok a => f a
  | Raise e => Raise e
  end.

Definition is_ok {A} (r : result A) : bool :=
  match r with Ok _ => true | Raise _ => false end.

(** [l[i]] for a non-negative index. *)
Definition getitem {A} (l : list A) (i : nat) : result A :=
  match nth_error l i with
  | Some a => Ok a
  | None => Raise IndexError
  end.

(** [l[-1]]. *)
Definition getitem_last {A} (l : list A) : result A :=
  match rev l with
  | a :: _ => Ok a
  | [] => Raise IndexError
  end.

End Py.
Import Py.

Declare Scope result_scope.
Delimit Scope result_scope with result.
Notation "'try' x <- c1 ;; c2" := (rbind c1 (fun x => c2))
  (at level 100, x pattern, c1 at next level, right associativity) : result_scope.

(* ================================================================== *)
(** * Numbers *)

(** ** binary64

    numpy's [float64] and Python's [float]: the floats of precision 53 with
    exponents up to 1024, with the operations of IEEE 754 in the default
    rounding mode (to nearest, ties to even). *)

Definition float64 : Type := spec_float.

Definition f64_prec : Z := 53.
Definition f64_emax : Z := 1024.

Definition f64_add : float64 -> float64 -> float64 := SFadd f64_prec f64_emax.
Definition f64_sub : float64 -> float64 -> float64 := SFsub f64_prec f64_emax.
Definition f64_mul : float64 -> float64 -> float64 := SFmul f64_prec f64_emax.
Definition f64_div : float64 -> float64 -> float64 := SFdiv f64_prec f64_emax.
Definition f64_sqrt : float64 -> float64 := SFsqrt f64_prec f64_emax.

(** [x < y], [x <= y], [x > y] and [x == y]: all false on a nan. *)
Definition f64_lt : float64 -> float64 -> bool := SFltb.
Definition f64_le : float64 -> float64 -> bool := SFleb.
Definition f64_gt (x y : float64) : bool := SFltb y x.
Definition f64_eq : float64 -> float64 -> bool := SFeqb.

(** The float of an integer: the integer itself when it has no more than
    53 bits. *)
Definition f64_of_Z (n : Z) : float64 :=
  binary_normalize f64_prec f64_emax n 0 false.

Definition f64_zero : float64 := S754_zero false.
(** The literals [0.5] and [1e-6]: the floats nearest to 1/2 and 1/1000000. *)
Definition f64_0_5 : float64 := f64_div (f64_of_Z 1) (f64_of_Z 2).
Definition f64_1em6 : float64 := f64_div (f64_of_Z 1) (f64_of_Z 1000000).

(** ** Real numbers *)

(** numpy's [a / b] on the sums of the counters: division by zero does not
    raise, it warns and gives [inf] or [nan]; both are outside the real
    line. *)
Definition np_true_divide (a b : R) : option R :=
  if Req_dec_T b 0 then None else Some (a / b)%R.

(** ** Arrays of float64 *)

(** Elementwise difference of two arrays of the same length. *)
Fixpoint np_subtract (a b : list float64) : list float64 :=
  match a, b with
  | x :: a', y :: b' => f64_sub x y :: np_subtract a' b'
  | _, _ => []
  end.

(** [a.dot(b)] of two one-dimensional arrays: the products are summed from
    the left, starting from zero, each product and each sum rounded. *)
Definition np_dot (a b : list float64) : float64 :=
  fold_left (fun acc xy => f64_add acc (f64_mul (fst xy) (snd xy)))
            (combine a b) f64_zero.

(** [np.linalg.norm] of a one-dimensional array: [sqrt(x.dot(x))]. *)
Definition np_linalg_norm (x : list float64) : float64 :=
  f64_sqrt (np_dot x x).

(* ================================================================== *)
(** * Keypoints *)

(** A row of a keypoint array of shape (N, k) with k >= 2: the x and y
    coordinates, then whatever else the row carries (confidence or
    visibility). *)
Record keypoint : Type := mkKeypoint {
  kp_x : float64;
  kp_y : float64;
  kp_rest : list float64
}.

(** The slice [keypoint[0:2]]. *)
Definition kp_xy (k : keypoint) : list float64 := [kp_x k; kp_y k].

Definition check_pred_keypoints
    (pred_keypoint gt_keypoint : keypoint) (threshold normalize : float64) : Z :=
  (* check if ground truth keypoint is valid *)
  if f64_gt (kp_x gt_keypoint) (f64_of_Z 1)
     && f64_gt (kp_y gt_keypoint) (f64_of_Z 1) then
    (* calculate normalized euclidean distance between pred and gt keypoints *)
    let distance :=
      f64_div
        (np_linalg_norm (np_subtract (kp_xy gt_keypoint) (kp_xy pred_keypoint)))
        normalize in
    if f64_lt distance threshold then 1 else 0
  else
    (* invalid gt keypoint *)
    -1.

(** The loop of [keypoint_accuracy] over [range(gt_keypoints.shape[0])],
    appending one result per index to [result_list]. *)
Fixpoint keypoint_accuracy_loop
    (pred_keypoints gt_keypoints : list keypoint)
    (threshold normalize : float64) (range : list nat) (result_list : list Z)
    : result (list Z) :=
  match range with
  | [] => Ok result_list
  | i :: range' =>
      (try p <- getitem pred_keypoints i ;;
       try g <- getitem gt_keypoints i ;;
       (* compare pred keypoint with gt keypoint to get result *)
       let result := check_pred_keypoints p g threshold normalize in
       keypoint_accuracy_loop pred_keypoints gt_keypoints threshold normalize
         range' (result_list ++ [result]))%result
  end.

Definition keypoint_accuracy
    (pred_keypoints gt_keypoints : list keypoint)
    (threshold normalize : float64) : result (list Z) :=
  if Nat.eqb (List.length pred_keypoints) (List.length gt_keypoints) then
    keypoint_accuracy_loop pred_keypoints gt_keypoints threshold normalize
      (seq 0 (List.length gt_keypoints)) []
  else Raise (AssertionError "keypoint number mismatch").

(* ================================================================== *)
(** * Python dictionaries

    A [dict] keeps its keys in insertion order; assigning to a key that is
    already present replaces the value in place. *)

Module PyDict.

Definition t (V : Type) : Type := list (string * V).

Fixpoint get {V} (d : t V) (k : string) : option V :=
  match d with
  | [] => None
  | (k', v) :: d' => if String.eqb k k' then Some v else get d' k
  end.

(** [d[k] = v]. *)
Fixpoint set {V} (d : t V) (k : string) (v : V) : t V :=
  match d with
  | [] => [(k, v)]
  | (k', v') :: d' =>
      if String.eqb k k' then (k', v) :: d' else (k', v') :: set d' k v
  end.

(** [d[k]], raising [KeyError] on a missing key. *)
Definition getitem {V} (d : t V) (k : string) : result V :=
  match get d k with
  | Some v => Ok v
  | None => Raise (KeyError k)
  end.

(** [{k: v for k in ks}]. *)
Definition from_keys {V} (ks : list string) (v : V) : t V :=
  fold_left (fun d k => set d k v) ks [].

Definition keys {V} (d : t V) : list string := map fst d.
Definition values {V} (d : t V) : list V := map snd d.
Definition items {V} (d : t V) : list (string * V) := d.

End PyDict.

(* ================================================================== *)
(** * numpy arrays

    An array is its shape and its elements in row-major (C) order. *)

Record ndarray : Type := mkArray {
  shape : list nat;
  data : list R
}.

Definition shape_size (sh : list nat) : nat := fold_right Nat.mul 1%nat sh.

(** [np.array(flat).reshape(sh)]. *)
Definition np_reshape (flat : list R) (sh : list nat) : result ndarray :=
  if Nat.eqb (List.length flat) (shape_size sh) then Ok (mkArray sh flat)
  else Raise (ValueError "cannot reshape array").

(** The check numpy makes for [a.reshape(n, -1)] on an array of [size]
    elements: the unknown dimension must come out as a whole number. *)
Definition np_reshape_rows_ok (size n : nat) : result unit :=
  if Nat.eqb n 0 then Raise (ValueError "cannot reshape array")
  else if Nat.eqb (size mod n) 0 then Ok tt
  else Raise (ValueError "cannot reshape array").

(** [a[0]]: the first slab along axis 0. *)
Definition nd_getitem0 (a : ndarray) : result ndarray :=
  match shape a with
  | [] => Raise IndexError
  | O :: _ => Raise IndexError
  | S _ :: sh => Ok (mkArray sh (firstn (shape_size sh) (data a)))
  end.

(** [a.transpose((0,2,3,1))]: from (N, C, H, W) to (N, H, W, C). *)
Definition np_transpose_0231 (a : ndarray) : result ndarray :=
  match shape a with
  | [n; c; h; w] =>
      Ok (mkArray [n; h; w; c]
            (flat_map (fun i =>
             flat_map (fun y =>
             flat_map (fun x =>
             map (fun k => nth (((i * c + k) * h + y) * w + x)%nat (data a) 0%R)
                 (seq 0 c)) (seq 0 w)) (seq 0 h)) (seq 0 n)))
  | _ => Raise (ValueError "axes don't match array")
  end.

(** Element [a[i0, i1, ...]] of an array, by its row-major offset. *)
Fixpoint nd_offset (sh : list nat) (idx : list nat) : nat :=
  match sh, idx with
  | n :: sh', i :: idx' => (i * shape_size sh' + nd_offset sh' idx')%nat
  | _, _ => O
  end.

Definition nd_get (a : ndarray) (idx : list nat) : R :=
  nth (nd_offset (shape a) idx) (data a) 0%R.

(** [MNN.Tensor(shape, dtype, tuple(a.reshape(n, -1)), dimType)] on an
    array of [size] elements cut into [n] rows: the binding takes a tuple of
    numbers, one per element of the tensor, and raises [TypeError] on a
    tuple of rows that hold more than one value each. *)
Definition MNN_Tensor_rows_ok (size n : nat) : result unit :=
  if Nat.eqb size n then Ok tt else Raise TypeError.

(** [functools.reduce(operator.mul, shape)], which has no initial value. *)
Definition reduce_mul (sh : list nat) : result nat :=
  match sh with
  | [] => Raise TypeError
  | n :: sh' => Ok (fold_left Nat.mul sh' n)
  end.

(* ================================================================== *)
(** * Events and the monad of the script *)

(** An argument of a [print] statement. *)
Inductive print_arg : Type :=
| ArgStr (s : string)
| ArgFloat (x : option R).

(** Keypoints by class name, as [render_skeleton] takes them. *)
Definition keypoints_dict : Type := PyDict.t (float64 * float64 * float64).

Inductive event : Type :=
(** a call into an inference runtime, with the image it is given *)
| EvInference (callee : string) (image : ndarray)
(** tqdm progress bar *)
| EvPbarOpen (total : Z)
| EvPbarUpdate (n : Z)
| EvPbarClose
(** [touchdir(path)] *)
| EvTouchDir (path : string)
(** [image.save(path)] of the image rendered from the two skeletons *)
| EvImageSave (path : string) (gt pred : keypoints_dict)
(** [fig.savefig(output_path)] of the bar plot of [dictionary] *)
| EvSaveFig (output_path : string) (dictionary : PyDict.t R)
            (score_threshold : float64) (total_accuracy : option R)
(** [print(fmt % args)] *)
| EvPrint (fmt : string) (args : list print_arg).

Definition M (A : Type) : Type := (list event * result A)%type.

Definition ret {A} (a : A) : M A := ([], Ok a).

Definition bind {A B} (m : M A) (f : A -> M B) : M B :=
  match m with
  | (tr, Ok a) => let (tr', r) := f a in (tr ++ tr', r)
  | (tr, Raise e) => (tr, Raise e)
  end.

Definition emit (e : event) : M unit := ([e], Ok tt).
Definition lift {A} (r : result A) : M A := ([], r).
Definition raise {A} (e : exn) : M A := ([], Raise e).

Definition trace {A} (m : M A) : list event := fst m.
Definition outcome {A} (m : M A) : result A := snd m.

Declare Scope monad_scope.
Delimit Scope monad_scope with monad.
Notation "x <- c1 ;; c2" := (bind c1 (fun x => c2))
  (at level 100, c1 at next level, right associativity) : monad_scope.
Notation "c1 ;;; c2" := (bind c1 (fun _ => c2))
  (at level 100, right associativity) : monad_scope.

(** An event that writes to the file system. *)
Definition is_file_event (e : event) : bool :=
  match e with
  | EvTouchDir _ | EvImageSave _ _ _ | EvSaveFig _ _ _ _ => true
  | _ => false
  end.

Definition is_print_event (e : event) : bool :=
  match e with EvPrint _ _ => true | _ => false end.

Definition is_inference_event (e : event) : bool :=
  match e with EvInference _ _ => true | _ => false end.

(* ================================================================== *)
(** * The inference runtimes, as the script sees them *)

(** What [model.predict] of a Keras model gives: one array, or a list of
    arrays for a multi-output model. *)
Inductive keras_prediction : Type :=
| PredictionList (outputs : list ndarray)
| PredictionArray (output : ndarray).

Record keras_model : Type := {
  keras_predict : ndarray -> keras_prediction
}.

(** An entry of [get_input_details()] or [get_output_details()]. *)
Record tensor_detail : Type := {
  detail_index : Z;
  detail_shape : list Z
}.

Record tflite_interpreter : Type := {
  get_input_details : list tensor_detail;
  get_output_details : list tensor_detail;
  (** [set_tensor(index, data)] then [invoke()]: the tensors by index *)
  tflite_invoke : Z -> ndarray -> Z -> ndarray
}.

Record tf_graph : Type := {
  has_tensor : string -> bool;
  (** [sess.run(output, feed_dict={input: data})] by tensor names *)
  sess_run : string -> string -> ndarray -> ndarray
}.

Inductive halide_type : Type :=
| Halide_Type_Float | Halide_Type_Double | Halide_Type_Int
| Halide_Type_Int64 | Halide_Type_Uint8 | Halide_Type_String.

Inductive dimension_type : Type :=
| Tensor_DimensionType_Tensorflow
| Tensor_DimensionType_Caffe
| Tensor_DimensionType_Caffe_C4.

Definition halide_type_eqb (a b : halide_type) : bool :=
  match a, b with
  | Halide_Type_Float, Halide_Type_Float
  | Halide_Type_Double, Halide_Type_Double
  | Halide_Type_Int, Halide_Type_Int
  | Halide_Type_Int64, Halide_Type_Int64
  | Halide_Type_Uint8, Halide_Type_Uint8
  | Halide_Type_String, Halide_Type_String => true
  | _, _ => false
  end.

Definition dimension_type_eqb (a b : dimension_type) : bool :=
  match a, b with
  | Tensor_DimensionType_Tensorflow, Tensor_DimensionType_Tensorflow
  | Tensor_DimensionType_Caffe, Tensor_DimensionType_Caffe
  | Tensor_DimensionType_Caffe_C4, Tensor_DimensionType_Caffe_C4 => true
  | _, _ => false
  end.

Record mnn_tensor : Type := {
  getShape : list nat;
  getDataType : halide_type;
  getDimensionType : dimension_type;
  (** the elements, as [getData()] of a host copy gives them *)
  getData : list R
}.

Record mnn_interpreter : Type := {
  getSessionInput : mnn_tensor;
  (** copy the elements into the input tensor, [runSession], and look at
      the session output *)
  runSession : list R -> mnn_tensor
}.

(** The object that [load_eval_model] returns. *)
Inductive model_object : Type :=
| KerasModel (m : keras_model)
| TFLiteInterpreter (i : tflite_interpreter)
| TFGraph (g : tf_graph)
| MNNInterpreter (i : mnn_interpreter).

(* ================================================================== *)
(** * Strings and paths *)

(** [s.split(sep)] for a one-character separator. *)
Fixpoint str_split (sep : ascii) (s : string) : list string :=
  match s with
  | EmptyString => [EmptyString]
  | String c s' =>
      if Ascii.eqb c sep then EmptyString :: str_split sep s'
      else match str_split sep s' with
           | w :: ws => String c w :: ws
           | [] => [String c EmptyString]
           end
  end.

(** [c in s]: the character occurs in the string. *)
Fixpoint str_contains (c : ascii) (s : string) : bool :=
  match s with
  | EmptyString => false
  | String c' s' => Ascii.eqb c' c || str_contains c s'
  end.

(** [s.split(sep, 1)] of a string in which [sep] occurs: what is before the
    first [sep], and what is after it. *)
Fixpoint str_partition (sep : ascii) (s : string) : string * string :=
  match s with
  | EmptyString => (EmptyString, EmptyString)
  | String c s' =>
      if Ascii.eqb c sep then (EmptyString, s')
      else let (before, after) := str_partition sep s' in
           (String c before, after)
  end.

(** [s.endswith(suffix)]. *)
Definition endswith (s suffix : string) : bool :=
  let n := String.length s in
  let m := String.length suffix in
  (m <=? n)%nat && String.eqb (substring (n - m) m s) suffix.

Definition startswith (s pre : string) : bool := String.prefix pre s.

Definition os_path_sep : ascii := "/"%char.

(** [os.path.join(a, b)] of posixpath. *)
Definition os_path_join (a b : string) : string :=
  if startswith b "/" then b
  else if String.eqb a EmptyString || endswith a "/" then String.append a b
  else String.append a (String os_path_sep b).

(** [enumerate(l)]. *)
Definition enumerate {A} (l : list A) : list (nat * A) :=
  combine (seq 0 (List.length l)) l.

(* ================================================================== *)
(** * The evaluation dataset *)

(** The entries of a sample's [metainfo] dictionary that the script reads. *)
Record metainfo_t : Type := {
  meta_name : string;
  meta_pts : list keypoint;
  meta_tpts : list keypoint;
  meta_center : list R;
  meta_scale : R
}.

(** What the generator yields: a batch of images, the ground-truth
    heatmaps and one metainfo per image of the batch. *)
Record sample : Type := {
  image_data : ndarray;
  gt_heatmap : ndarray;
  metainfo : list metainfo_t
}.

(** [hourglass_dataset]: its size, and its generator as the sequence of the
    samples it yields ([None] once it is exhausted; it may also never be). *)
Record hourglass_dataset_t : Type := {
  get_dataset_size : Z;
  generator : forall (batch_size num_hgstack sigma : Z)
                     (is_shuffle with_meta : bool), nat -> option sample
}.

(** The counters of [eval_PCK]. *)
Record counters : Type := mkCounters {
  succeed_dict : PyDict.t Z;
  fail_dict : PyDict.t Z
}.

(** [np.sum] of a list of Python integers.  The counters count samples,
    so the sums stay within the 64 bits of the integer that numpy returns. *)
Definition np_sum (l : list Z) : Z := fold_right Z.add 0 l.

(* ================================================================== *)
(** * The script *)

(** A computation that may also run out of fuel ([None]): the evaluation
    loop reads from a generator that need not end. *)
Definition obind {A B} (m : M A) (f : A -> option (M B)) : option (M B) :=
  match m with
  | (tr, Ok a) =>
      match f a with
      | Some (tr', r) => Some (tr ++ tr', r)
      | None => None
      end
  | (tr, Raise e) => Some (tr, Raise e)
  end.

(** Continue after a computation that may have run out of fuel. *)
Definition obind_loop {A B} (m : option (M A)) (f : A -> M B) : option (M B) :=
  match m with
  | Some m' => Some (bind m' f)
  | None => None
  end.

Section Script.

(** ** Functions of other modules *)

(** [a.astype('float32')] *)
Variable astype_float32 : ndarray -> ndarray.
(** [hourglass.postprocess.post_process_heatmap(heatmap, conf_threshold)] *)
Variable post_process_heatmap : ndarray -> float64 -> list keypoint.
(** [common.data_utils.invert_transform_kp(kps, center, scale, size, rot)] *)
Variable invert_transform_kp :
  list keypoint -> list R -> R -> list nat -> R -> list keypoint.
(** skeleton definitions, as [get_skeleton] returns them *)
Variable skeleton : Type.

(** ** Inference with the four runtimes *)

Definition hourglass_predict_keras
    (model : model_object) (image_data : ndarray) : M ndarray :=
  match model with
  | KerasModel m =>
      (emit (EvInference "model.predict" image_data) ;;;
       let prediction := keras_predict m image_data in
       (* check to handle multi-output model *)
       prediction <- lift (match prediction with
                           | PredictionList l => getitem_last l
                           | PredictionArray a => Ok a
                           end) ;;
       lift (nd_getitem0 prediction))%monad
  | _ => raise AttributeError
  end.

Definition hourglass_predict_tflite
    (interpreter : model_object) (image_data : ndarray) : M ndarray :=
  match interpreter with
  | TFLiteInterpreter itp =>
      let input_details := get_input_details itp in
      let output_details := get_output_details itp in
      (input0 <- lift (getitem input_details 0) ;;
       height <- lift (getitem (detail_shape input0) 1) ;;
       input0' <- lift (getitem input_details 0) ;;
       width <- lift (getitem (detail_shape input0') 2) ;;
       let image_data := astype_float32 image_data in
       input0'' <- lift (getitem input_details 0) ;;
       emit (EvInference "interpreter.invoke" image_data) ;;;
       let tensors := tflite_invoke itp (detail_index input0'') image_data in
       let prediction :=
         map (fun output_detail => tensors (detail_index output_detail))
             output_details in
       last <- lift (getitem_last prediction) ;;
       lift (nd_getitem0 last))%monad
  | _ => raise AttributeError
  end.

Definition hourglass_predict_pb
    (model : model_object) (image_data : ndarray) : M ndarray :=
  let output_tensor_name := "graph/1_conv_1x1_parts/BiasAdd:0" in
  let input_tensor_name := "graph/image_input:0" in
  match model with
  | TFGraph g =>
      if negb (has_tensor g input_tensor_name)
      then raise (KeyError input_tensor_name)
      else if negb (has_tensor g output_tensor_name)
      then raise (KeyError output_tensor_name)
      else
        (emit (EvInference "sess.run" image_data) ;;;
         let prediction :=
           sess_run g output_tensor_name input_tensor_name image_data in
         lift (nd_getitem0 prediction))%monad
  | _ => raise AttributeError
  end.

Definition hourglass_predict_mnn
    (interpreter : model_object) (session : unit) (image_data : ndarray)
    : M ndarray :=
  match interpreter with
  | MNNInterpreter itp =>
      let input_tensor := getSessionInput itp in
      let input_shape := getShape input_tensor in
      (input_elementsize <- lift (reduce_mul input_shape) ;;
       _ <- lift (np_reshape_rows_ok (List.length (data image_data))
                                     input_elementsize) ;;
       (* use a temp tensor to copy data *)
       _ <- lift (MNN_Tensor_rows_ok (List.length (data image_data))
                                     input_elementsize) ;;
       emit (EvInference "interpreter.runSession" image_data) ;;;
       (* we only handle single output model *)
       let output_tensor := runSession itp (data image_data) in
       let output_shape := getShape output_tensor in
       _ <- lift (if halide_type_eqb (getDataType output_tensor)
                                     Halide_Type_Float
                  then Ok tt else Raise (AssertionError EmptyString)) ;;
       (* copy output tensor to host, for further postprocess *)
       output_elementsize <- lift (reduce_mul output_shape) ;;
       _ <- lift (np_reshape_rows_ok (shape_size output_shape)
                                     output_elementsize) ;;
       _ <- lift (MNN_Tensor_rows_ok (shape_size output_shape)
                                     output_elementsize) ;;
       output_data <- lift (np_reshape (getData output_tensor) output_shape) ;;
       (* our postprocess code based on TF channel last format, so if the
          output format doesn't match, we need to transpose *)
       output_data <-
         lift (if dimension_type_eqb (getDimensionType output_tensor)
                                     Tensor_DimensionType_Caffe
               then np_transpose_0231 output_data
               else if dimension_type_eqb (getDimensionType output_tensor)
                                          Tensor_DimensionType_Caffe_C4
               then Raise (ValueError "unsupported output tensor dimension type")
               else Ok output_data) ;;
       lift (nd_getitem0 output_data))%monad
  | _ => raise AttributeError
  end.

(** [model.createSession()] *)
Definition createSession (model : model_object) : M unit :=
  match model with
  | MNNInterpreter _ => ret tt
  | _ => raise AttributeError
  end.

(** ** Rendering of the results *)

Definition revert_keypoints
    (keypoints : list keypoint) (metainfo : metainfo_t)
    (heatmap_size : list nat) : list keypoint :=
  (* invert transform keypoints based on center & scale *)
  let center := meta_center metainfo in
  let scale := meta_scale metainfo in
  invert_transform_kp keypoints center scale heatmap_size 0%R.

(** [for i, keypoint in enumerate(keypoints): d[class_names[i]] = f(keypoint)] *)
Fixpoint keypoints_dict_loop
    (f : keypoint -> result (float64 * float64 * float64))
    (class_names : list string)
    (enum : list (nat * keypoint)) (d : keypoints_dict)
    : result keypoints_dict :=
  match enum with
  | [] => Ok d
  | (i, keypoint) :: enum' =>
      (try class_name <- getitem class_names i ;;
       try v <- f keypoint ;;
       keypoints_dict_loop f class_names enum' (PyDict.set d class_name v)
      )%result
  end.

(** Opening the image and drawing the two skeletons on it is the work of
    PIL and of [render_skeleton]; what is recorded is the file that is
    written and the two dictionaries it is rendered from. *)
Definition save_keypoints_detection
    (pred_keypoints : list keypoint) (metainfo : metainfo_t)
    (class_names : list string) (skeleton_lines : option skeleton)
    : M unit :=
  let result_dir := os_path_join "result" "detection" in
  (emit (EvTouchDir result_dir) ;;;
   let image_name := meta_name metainfo in
   let gt_keypoints := meta_pts metainfo in
   (* form up gt keypoints & predict keypoints dict *)
   gt_keypoints_dict <-
     lift (keypoints_dict_loop
             (fun keypoint => Ok (kp_x keypoint, kp_y keypoint, f64_of_Z 1))
             class_names (enumerate gt_keypoints) []) ;;
   pred_keypoints_dict <-
     lift (keypoints_dict_loop
             (fun keypoint =>
                (try conf <- getitem (kp_rest keypoint) 0 ;;
                 Ok (kp_x keypoint, kp_y keypoint, conf))%result)
             class_names (enumerate pred_keypoints) []) ;;
   (* render gt and predict keypoints skeleton on image *)
   file_name <- lift (getitem_last (str_split os_path_sep image_name)) ;;
   emit (EvImageSave (os_path_join result_dir file_name)
                     gt_keypoints_dict pred_keypoints_dict))%monad.

(** The bar plot is matplotlib's; what is recorded is that the figure of
    [dictionary] is saved at [output_path].  Unpacking the sorted items
    fails on an empty dictionary. *)
Definition draw_plot_func
    (dictionary : PyDict.t R) (n_classes : nat) (output_path : string)
    (score_threshold : float64) (total_accuracy : option R) : M unit :=
  (* sorted_keys, sorted_values = zip( *sorted_dic_by_value ) *)
  match dictionary with
  | [] => raise (ValueError "not enough values to unpack (expected 2, got 0)")
  | _ => emit (EvSaveFig output_path dictionary score_threshold total_accuracy)
  end.

(** ** The PCK evaluation *)

Definition batch_size : Z := 1.

(** The branch on [model_format] that runs the inference. *)
Definition predict_heatmap
    (model : model_object) (model_format : string) (session : unit)
    (image_data : ndarray) : M ndarray :=
  (* support of tflite model *)
  if String.eqb model_format "TFLITE" then
    hourglass_predict_tflite model image_data
  (* support of MNN model *)
  else if String.eqb model_format "MNN" then
    hourglass_predict_mnn model session image_data
  (* support of TF 1.x frozen pb model *)
  else if String.eqb model_format "PB" then
    hourglass_predict_pb model image_data
  (* normal keras h5 model *)
  else if String.eqb model_format "H5" then
    hourglass_predict_keras model image_data
  else raise (ValueError "invalid model format").

(** [for i, class_name in enumerate(class_names)]: count the result of
    keypoint [i] for the class [class_name]. *)
Fixpoint update_counters
    (enum : list (nat * string)) (result_list : list Z) (c : counters)
    : result counters :=
  match enum with
  | [] => Ok c
  | (i, class_name) :: enum' =>
      (try r <- getitem result_list i ;;
       if r =? 0 then
         try n <- PyDict.getitem (fail_dict c) class_name ;;
         update_counters enum' result_list
           (mkCounters (succeed_dict c)
                       (PyDict.set (fail_dict c) class_name (n + 1)))
       else if r =? 1 then
         try n <- PyDict.getitem (succeed_dict c) class_name ;;
         update_counters enum' result_list
           (mkCounters (PyDict.set (succeed_dict c) class_name (n + 1))
                       (fail_dict c))
       else update_counters enum' result_list c)%result
  end.

Section EvalPCK.

Variable model : model_object.
Variable model_format : string.
Variable eval_dataset : hourglass_dataset_t.
Variable class_names : list string.
Variables score_threshold normalize conf_threshold : float64.
Variable save_result : bool.
Variable skeleton_lines : option skeleton.

(** The body of the evaluation loop, after the [break] test. *)
Definition eval_sample (session : unit) (smp : sample) (c : counters)
    : M counters :=
  (heatmap <- predict_heatmap model model_format session (image_data smp) ;;
   let heatmap_size := firstn 2 (shape heatmap) in
   (* get predict keypoints from heatmap *)
   let pred_keypoints := post_process_heatmap heatmap conf_threshold in
   (* get ground truth keypoints (transformed) *)
   metainfo <- lift (getitem (metainfo smp) 0) ;;
   let gt_keypoints := meta_tpts metainfo in
   (* calculate succeed & failed keypoints for prediction *)
   result_list <- lift (keypoint_accuracy pred_keypoints gt_keypoints
                                          score_threshold normalize) ;;
   c' <- lift (update_counters (enumerate class_names) result_list c) ;;
   (if save_result then
      (* revert predict keypoints back to origin image size *)
      let reverted_pred_keypoints :=
        revert_keypoints pred_keypoints metainfo heatmap_size in
      (* render keypoints skeleton on image and save result *)
      save_keypoints_detection reverted_pred_keypoints metainfo
                               class_names skeleton_lines
    else ret tt) ;;;
   emit (EvPbarUpdate batch_size) ;;;
   ret c')%monad.

(** The samples that the [for] loop draws from. *)
Definition eval_generator : nat -> option sample :=
  generator eval_dataset batch_size 8 1 false true.

(** The [for] loop, from the [k]-th sample of the generator on. *)
Fixpoint eval_loop (fuel : nat) (session : unit) (k : nat) (count : Z)
    (c : counters) : option (M counters) :=
  match fuel with
  | O => None
  | S fuel' =>
      match eval_generator k with
      | None => Some (ret c)
      | Some smp =>
          let count := count + batch_size in
          if count >? get_dataset_size eval_dataset then Some (ret c)
          else obind (eval_sample session smp c)
                     (fun c' => eval_loop fuel' session (S k) count c')
      end
  end.

(** [for i, class_name in enumerate(class_names)]: the accuracy of each
    class. *)
Fixpoint accuracy_loop
    (enum : list (nat * string)) (c : counters) (accuracy_dict : PyDict.t R)
    : result (PyDict.t R) :=
  match enum with
  | [] => Ok accuracy_dict
  | (i, class_name) :: enum' =>
      (try s <- PyDict.getitem (succeed_dict c) class_name ;;
       try s' <- PyDict.getitem (succeed_dict c) class_name ;;
       try f <- PyDict.getitem (fail_dict c) class_name ;;
       if s' + f =? 0 then Raise ZeroDivisionError
       else accuracy_loop enum' c
              (PyDict.set accuracy_dict class_name
                          (IZR s * 1.0 / IZR (s' + f))%R))%result
  end.

(** What [eval_PCK] does once the loop is over. *)
Definition eval_finish (c : counters)
    : M (option R * PyDict.t R) :=
  (emit EvPbarClose ;;;
   (* calculate accuracy for each class *)
   accuracy_dict <-
     lift (accuracy_loop (enumerate class_names) c
                         (PyDict.from_keys class_names 0%R)) ;;
   (* get PCK accuracy from succeed & failed keypoints *)
   let total_succeed := np_sum (PyDict.values (succeed_dict c)) in
   let total_fail := np_sum (PyDict.values (fail_dict c)) in
   let total_accuracy :=
     np_true_divide (IZR total_succeed * 1.0)%R
                    (IZR (total_fail + total_succeed)) in
   (if save_result then
      (* Draw PCK plot *)
      emit (EvTouchDir "result") ;;;
      let output_path := os_path_join "result" "PCK.jpg" in
      draw_plot_func accuracy_dict (List.length accuracy_dict) output_path
                     score_threshold total_accuracy
    else ret tt) ;;;
   ret (total_accuracy, accuracy_dict))%monad.

Definition init_counters : counters :=
  mkCounters (PyDict.from_keys class_names 0)
             (PyDict.from_keys class_names 0).

Definition eval_PCK (fuel : nat) : option (M (option R * PyDict.t R)) :=
  obind (if String.eqb model_format "MNN"
         (* MNN inference engine need create session *)
         then createSession model else ret tt)
    (fun session =>
  obind (emit (EvPbarOpen (get_dataset_size eval_dataset)))
    (fun _ =>
  obind_loop (eval_loop fuel session 0 0 init_counters) eval_finish)).

End EvalPCK.

(** ** Loading the model *)

(** [tensorflow.lite ... Interpreter(model_path=...)] with [allocate_tensors] *)
Variable tflite_Interpreter : string -> tflite_interpreter.
(** [MNN.Interpreter(model_path)] *)
Variable MNN_Interpreter : string -> mnn_interpreter.
(** [tf.import_graph_def] of the graph parsed from the file *)
Variable tf_import_graph_def : string -> tf_graph.
(** [tensorflow.keras.models.load_model(model_path, compile=False)] *)
Variable load_model : string -> keras_model.

(* load TF 1.x frozen pb graph *)
Definition load_graph (model_path : string) : tf_graph :=
  tf_import_graph_def model_path.

Definition load_eval_model (model_path : string)
    : result (model_object * string) :=
  (* support of tflite model *)
  if endswith model_path ".tflite" then
    Ok (TFLiteInterpreter (tflite_Interpreter model_path), "TFLITE")
  (* support of MNN model *)
  else if endswith model_path ".mnn" then
    Ok (MNNInterpreter (MNN_Interpreter model_path), "MNN")
  (* support of TF 1.x frozen pb model *)
  else if endswith model_path ".pb" then
    Ok (TFGraph (load_graph model_path), "PB")
  (* normal keras h5 model *)
  else if endswith model_path ".h5" then
    Ok (KerasModel (load_model model_path), "H5")
  else Raise (ValueError "invalid model file").

(** ** The command line *)

Inductive arg_value : Type :=
| VStr (s : string)
| VFloat (x : float64)
| VBool (b : bool)
| VNone.

Inductive arg_type : Type := type_str | type_float.
Inductive arg_action : Type := action_store | action_store_true.

(** One [parser.add_argument(...)]. *)
Record argument : Type := mkArgument {
  option_string : string;
  dest : string;
  arg_type_of : arg_type;
  required : bool;
  (** [None]: no default given, which is [argparse.SUPPRESS] here *)
  default : option arg_value;
  action : arg_action
}.

Definition parser_arguments : list argument := [
  mkArgument "--model_path" "model_path" type_str true None action_store;
  mkArgument "--classes_path" "classes_path" type_str false
             (Some (VStr "configs/mpii_classes.txt")) action_store;
  mkArgument "--dataset_path" "dataset_path" type_str true None action_store;
  mkArgument "--score_threshold" "score_threshold" type_float false
             (Some (VFloat f64_0_5)) action_store;
  mkArgument "--conf_threshold" "conf_threshold" type_float false
             (Some (VFloat f64_1em6)) action_store;
  mkArgument "--model_image_size" "model_image_size" type_str false
             (Some (VStr "256x256")) action_store;
  mkArgument "--save_result" "save_result" type_str false
             (Some (VBool false)) action_store_true;
  mkArgument "--skeleton_path" "skeleton_path" type_str false
             (Some VNone) action_store
].

(** [float(s)] and [int(s)]; [None] when they raise [ValueError]. *)
Variable py_float : string -> option float64.
Variable py_int : string -> option Z.

Definition namespace : Type := PyDict.t arg_value.

(** [sys.argv[1:]]: the strings of the command line, which [parse_args]
    reads. *)
Definition command_line : Type := list string.

(** *** argparse

    [parser.parse_args()] for this parser: no positional argument, the
    prefix character [-], abbreviations allowed, and the help option that
    every parser has.  argparse leaves through [SystemExit]: status 0 after
    the help text, status 2 after a usage error. *)

(** What an option string stands for. *)
Inductive parser_action : Type :=
| HelpAction
| ArgumentAction (a : argument).

(** [parser._option_string_actions], in the order of registration. *)
Definition option_string_actions : PyDict.t parser_action :=
  ("-h", HelpAction) :: ("--help", HelpAction)
  :: map (fun a => (option_string a, ArgumentAction a)) parser_arguments.

(** The number of strings an action takes: one for a stored value, none for
    a flag and for the help. *)
Definition nargs (act : parser_action) : nat :=
  match act with
  | HelpAction => 0
  | ArgumentAction a =>
      match action a with
      | action_store => 1
      | action_store_true => 0
      end
  end.

Definition is_digit (c : ascii) : bool :=
  (48 <=? nat_of_ascii c)%nat && (nat_of_ascii c <=? 57)%nat.

Fixpoint all_digits (s : string) : bool :=
  match s with
  | EmptyString => true
  | String c s' => is_digit c && all_digits s'
  end.

(** [s] without the newline it may end with. *)
Fixpoint strip_final_newline (s : string) : string :=
  match s with
  | EmptyString => EmptyString
  | String c EmptyString =>
      if Ascii.eqb c (ascii_of_nat 10) then EmptyString else s
  | String c s' => String c (strip_final_newline s')
  end.

(** [parser._negative_number_matcher]: the pattern [^-\d+$|^-\d*\.\d+$],
    on a command line of ASCII characters. *)
Definition negative_number (s : string) : bool :=
  match strip_final_newline s with
  | String c body =>
      Ascii.eqb c "-"
      && ((negb (String.eqb body EmptyString) && all_digits body)
          || (str_contains "." body
              && let (int_part, frac_part) := str_partition "." body in
                 all_digits int_part
                 && negb (String.eqb frac_part EmptyString)
                 && all_digits frac_part))
  | EmptyString => false
  end.

(** [parser._get_option_tuples(option_string)]: the options that the string
    may abbreviate. *)
Definition get_option_tuples (arg_string : string)
    : list (parser_action * string * option string) :=
  match arg_string with
  | String c0 (String c1 short_explicit_arg) =>
      if Ascii.eqb c0 "-" && Ascii.eqb c1 "-" then
        (* option strings starting with two prefix characters are only
           split at the '=' *)
        let (option_prefix, explicit_arg) :=
          if str_contains "=" arg_string
          then let (before, after) := str_partition "=" arg_string in
               (before, Some after)
          else (arg_string, None) in
        flat_map (fun entry =>
                    if startswith (fst entry) option_prefix
                    then [(snd entry, fst entry, explicit_arg)] else [])
                 option_string_actions
      else if Ascii.eqb c0 "-" then
        (* single character options can be concatenated with their
           arguments *)
        let short_option_prefix := String c0 (String c1 EmptyString) in
        flat_map (fun entry =>
                    if String.eqb (fst entry) short_option_prefix
                    then [(snd entry, fst entry, Some short_explicit_arg)]
                    else if startswith (fst entry) arg_string
                    then [(snd entry, fst entry, None)] else [])
                 option_string_actions
      else []
  | _ => []
  end.

(** What [parser._parse_optional] makes of a string of the command line. *)
Inductive parsed_optional : Type :=
(** meant to be a positional argument: the value of an option, here *)
| IsPositional
(** an option: its action if the parser has it, the option string in full
    and the argument written in the same string, if any *)
| IsOptional (act : option parser_action) (option_string : string)
             (explicit_arg : option string)
(** an abbreviation of several options, which is a usage error *)
| IsAmbiguous.

Definition parse_optional (arg_string : string) : parsed_optional :=
  match arg_string with
  (* if it's an empty string, it was meant to be a positional *)
  | EmptyString => IsPositional
  | String c _ =>
      (* if it doesn't start with a prefix, it was meant to be positional *)
      if negb (Ascii.eqb c "-") then IsPositional
      else
        (* if the option string is present in the parser, return the action *)
        match PyDict.get option_string_actions arg_string with
        | Some act => IsOptional (Some act) arg_string None
        | None =>
            (* if it's just a single character, it was meant to be positional *)
            if Nat.eqb (String.length arg_string) 1 then IsPositional
            else
              (* if the option string before the "=" is present, return the
                 action *)
              match (if str_contains "=" arg_string
                     then let (option_string, explicit_arg) :=
                            str_partition "=" arg_string in
                          match PyDict.get option_string_actions option_string with
                          | Some act => Some (act, option_string, explicit_arg)
                          | None => None
                          end
                     else None) with
              | Some (act, option_string, explicit_arg) =>
                  IsOptional (Some act) option_string (Some explicit_arg)
              | None =>
                  (* search through all possible prefixes of the option string *)
                  match get_option_tuples arg_string with
                  | _ :: _ :: _ => IsAmbiguous
                  | [(act, option_string, explicit_arg)] =>
                      IsOptional (Some act) option_string explicit_arg
                  | [] =>
                      (* if it looks like a negative number, or contains a
                         space, it was meant to be positional *)
                      if negative_number arg_string then IsPositional
                      else if str_contains " " arg_string then IsPositional
                      (* it was meant to be an optional but there is no such
                         option in this parser *)
                      else IsOptional None arg_string None
                  end
              end
        end
  end.

(** A letter of [arg_strings_pattern]. *)
Inductive arg_pattern : Type :=
(** [A]: an argument *)
| PatA
(** [-]: the string [--] *)
| PatDash
(** [O]: an option, with what [_parse_optional] found *)
| PatO (act : option parser_action) (option_string : string)
       (explicit_arg : option string).

(** The pattern of the command line: every string with its letter.  All
    strings after a [--] are arguments. *)
Fixpoint arg_strings_pattern (arg_strings : list string)
    : result (list (string * arg_pattern)) :=
  match arg_strings with
  | [] => Ok []
  | arg_string :: arg_strings' =>
      if String.eqb arg_string "--"
      then Ok ((arg_string, PatDash)
               :: map (fun s => (s, PatA)) arg_strings')
      else
        match parse_optional arg_string with
        | IsAmbiguous => Raise (SystemExit 2)
        | IsPositional =>
            (try pattern <- arg_strings_pattern arg_strings' ;;
             Ok ((arg_string, PatA) :: pattern))%result
        | IsOptional act option_string explicit_arg =>
            (try pattern <- arg_strings_pattern arg_strings' ;;
             Ok ((arg_string, PatO act option_string explicit_arg) :: pattern)
            )%result
        end
  end.

(** [parser._match_argument(action, arg_strings_pattern[start:])]: the
    number of the following strings that the action takes.  The value of an
    option is the next string, which must be an argument. *)
Definition match_argument (act : parser_action)
    (following : list (string * arg_pattern)) : result nat :=
  match nargs act with
  | O => Ok O
  | S _ =>
      match following with
      | (_, PatA) :: _ => Ok 1%nat
      | _ => Raise (SystemExit 2)
      end
  end.

(** The loop of [consume_optional] on an option that comes with an explicit
    argument: an option that takes one argument takes it; a single-dash
    flag goes on with the explicit argument as further single-dash flags;
    anything else is a usage error.  The result is the actions to take,
    each with its arguments, and the number of following strings that are
    consumed. *)
Fixpoint consume_explicit (act : parser_action)
    (option_string explicit_arg : string)
    (following : list (string * arg_pattern)) {struct explicit_arg}
    : result (list (parser_action * list string) * nat) :=
  let arg_count := nargs act in
  if Nat.eqb arg_count 0
     && negb (String.eqb (substring 1 1 option_string) "-")
     && negb (String.eqb explicit_arg EmptyString)
  then
    match explicit_arg with
    | String c new_explicit_arg =>
        let option_string := String "-" (String c EmptyString) in
        match PyDict.get option_string_actions option_string with
        | Some act' =>
            (try (action_tuples, stop) <-
               match new_explicit_arg with
               | EmptyString =>
                   try arg_count <- match_argument act' following ;;
                   Ok ([(act', firstn arg_count (map fst following))],
                       arg_count)
               | _ =>
                   consume_explicit act' option_string new_explicit_arg
                                    following
               end ;;
             Ok ((act, []) :: action_tuples, stop))%result
        | None => Raise (SystemExit 2)
        end
    | EmptyString => Raise (SystemExit 2)
    end
  else if Nat.eqb arg_count 1 then Ok ([(act, [explicit_arg])], O)
  else Raise (SystemExit 2).

(** [consume_optional]: the actions of the option at the head of the
    pattern, and the number of following strings they consume. *)
Definition consume_optional (act : parser_action)
    (option_string : string) (explicit_arg : option string)
    (following : list (string * arg_pattern))
    : result (list (parser_action * list string) * nat) :=
  match explicit_arg with
  | Some explicit_arg =>
      consume_explicit act option_string explicit_arg following
  | None =>
      (try arg_count <- match_argument act following ;;
       Ok ([(act, firstn arg_count (map fst following))], arg_count))%result
  end.

(** [take_action]: the action is seen, its argument is converted by the
    type of the option, and the value is stored in the namespace.  The help
    action prints the help and exits. *)
Definition take_action (act : parser_action) (argument_strings : list string)
    (ns : namespace) (seen : list string) : result (namespace * list string) :=
  match act with
  | HelpAction => Raise (SystemExit 0)
  | ArgumentAction a =>
      match action a with
      | action_store_true =>
          Ok (PyDict.set ns (dest a) (VBool true), dest a :: seen)
      | action_store =>
          match argument_strings with
          | [arg_string] =>
              match arg_type_of a with
              | type_str =>
                  Ok (PyDict.set ns (dest a) (VStr arg_string), dest a :: seen)
              | type_float =>
                  match py_float arg_string with
                  | Some x =>
                      Ok (PyDict.set ns (dest a) (VFloat x), dest a :: seen)
                  | None => Raise (SystemExit 2)
                  end
              end
          | _ => Raise (SystemExit 2)
          end
      end
  end.

Fixpoint take_actions (action_tuples : list (parser_action * list string))
    (ns : namespace) (seen : list string) : result (namespace * list string) :=
  match action_tuples with
  | [] => Ok (ns, seen)
  | (act, argument_strings) :: action_tuples' =>
      (try (ns', seen') <- take_action act argument_strings ns seen ;;
       take_actions action_tuples' ns' seen')%result
  end.

(** The loop of [_parse_known_args] over the pattern: an option is
    consumed with the strings it takes; a string that is no option of the
    parser, and that no option has taken, is an extra. *)
Fixpoint consume_optionals (pattern : list (string * arg_pattern))
    (ns : namespace) (seen extras : list string)
    : result (namespace * list string * list string) :=
  match pattern with
  | [] => Ok (ns, seen, extras)
  | (arg_string, PatO (Some act) option_string explicit_arg) :: following =>
      (try (action_tuples, stop) <-
         consume_optional act option_string explicit_arg following ;;
       try (ns', seen') <- take_actions action_tuples ns seen ;;
       match stop, following with
       | S _, _ :: following' => consume_optionals following' ns' seen' extras
       | _, _ => consume_optionals following ns' seen' extras
       end)%result
  | (arg_string, _) :: following =>
      consume_optionals following ns seen (extras ++ [arg_string])
  end.

(** The namespace before any option is read: the defaults. *)
Definition default_namespace : namespace :=
  fold_left (fun ns a => match default a with
                         | Some v => PyDict.set ns (dest a) v
                         | None => ns
                         end) parser_arguments [].

(** [parser.parse_args()]: the options are consumed from the left, all
    required options must have been seen, and no string may be left over. *)
Definition parse_args (args : command_line) : result namespace :=
  (try pattern <- arg_strings_pattern args ;;
   try (ns, seen, extras) <- consume_optionals pattern default_namespace [] [] ;;
   if forallb (fun a => negb (required a)
                        || existsb (String.eqb (dest a)) seen)
              parser_arguments
   then match extras with
        | [] => Ok ns
        | _ => Raise (SystemExit 2)
        end
   else Raise (SystemExit 2))%result.

(** [args.name] *)
Definition getattr (ns : namespace) (name : string) : result arg_value :=
  match PyDict.get ns name with
  | Some v => Ok v
  | None => Raise AttributeError
  end.

Definition as_str (v : arg_value) : result string :=
  match v with VStr s => Ok s | _ => Raise AttributeError end.
Definition as_float (v : arg_value) : result float64 :=
  match v with VFloat x => Ok x | _ => Raise TypeError end.
(** truth value of an object *)
Definition truthy (v : arg_value) : bool :=
  match v with
  | VStr s => negb (String.eqb s EmptyString)
  | VFloat x => negb (f64_eq x f64_zero)
  | VBool b => b
  | VNone => false
  end.

(** ** main *)

Variable get_skeleton : string -> skeleton.
Variable get_classes : string -> list string.
Variable get_normalize : Z * Z -> float64.
(** [hourglass_dataset(dataset_path, class_names, input_size, is_train)] *)
Variable hourglass_dataset :
  string -> list string -> Z * Z -> bool -> hourglass_dataset_t.

Definition newline : string := String (ascii_of_nat 10) EmptyString.

(** [for (class_name, accuracy) in accuracy_dict.items(): print(...)] *)
Fixpoint print_accuracies (items : list (string * R)) : M unit :=
  match items with
  | [] => ret tt
  | (class_name, accuracy) :: items' =>
      (emit (EvPrint "%s: %f" [ArgStr class_name; ArgFloat (Some accuracy)]) ;;;
       print_accuracies items')%monad
  end.

(** The part of [main] before the evaluation: it reads the options. *)
Definition main_setup (args : namespace)
    : result (option skeleton * list string * float64
              * (model_object * string)
              * hourglass_dataset_t * (float64 * float64 * bool)) :=
  (* param parse *)
  (try skeleton_path <- getattr args "skeleton_path" ;;
   try skeleton_lines <-
     (if truthy skeleton_path
      then try p <- as_str skeleton_path ;; Ok (Some (get_skeleton p))
      else Ok None) ;;
   try classes_path <- rbind (getattr args "classes_path") as_str ;;
   let class_names := get_classes classes_path in
   try size_str <- rbind (getattr args "model_image_size") as_str ;;
   try (height, width) <-
     match str_split "x"%char size_str with
     | [h; w] => Ok (h, w)
     | [] | [_] => Raise (ValueError "not enough values to unpack")
     | _ => Raise (ValueError "too many values to unpack")
     end ;;
   try height <- match py_int height with
                 | Some n => Ok n
                 | None => Raise (ValueError "invalid literal for int()")
                 end ;;
   try width <- match py_int width with
                | Some n => Ok n
                | None => Raise (ValueError "invalid literal for int()")
                end ;;
   let model_image_size := (height, width) in
   let normalize := get_normalize model_image_size in
   try model_path <- rbind (getattr args "model_path") as_str ;;
   try loaded <- load_eval_model model_path ;;
   try dataset_path <- rbind (getattr args "dataset_path") as_str ;;
   let eval_dataset :=
     hourglass_dataset dataset_path class_names model_image_size false in
   try score_threshold <- rbind (getattr args "score_threshold") as_float ;;
   try conf_threshold <- rbind (getattr args "conf_threshold") as_float ;;
   try save_result <- getattr args "save_result" ;;
   Ok (skeleton_lines, class_names, normalize, loaded, eval_dataset,
       (score_threshold, conf_threshold, truthy save_result)))%result.

Definition main (fuel : nat) (cl : command_line) : option (M unit) :=
  obind (lift (rbind (parse_args cl) main_setup))
    (fun '(skeleton_lines, class_names, normalize, (model, model_format),
           eval_dataset, (score_threshold, conf_threshold, save_result)) =>
  obind_loop
    (eval_PCK model model_format eval_dataset class_names score_threshold
              normalize conf_threshold save_result skeleton_lines fuel)
    (fun '(total_accuracy, accuracy_dict) =>
       (emit (EvPrint (String.append newline "PCK evaluation") []) ;;;
        print_accuracies (PyDict.items accuracy_dict) ;;;
        emit (EvPrint "total acc: %f" [ArgFloat total_accuracy]))%monad)).

End Script.

(* ================================================================== *)
(** * Notions used to state the properties *)

(** The real number that a float stands for; the infinities and the nan
    stand for none, and are given 0. *)
Definition pow2 (e : Z) : R :=
  match e with
  | Z0 => 1%R
  | Zpos p => IZR (Z.pow_pos 2 p)
  | Zneg p => (/ IZR (Z.pow_pos 2 p))%R
  end.

Definition f64_real (x : float64) : R :=
  match x with
  | S754_finite s m e => ((if s then -1 else 1) * IZR (Zpos m) * pow2 e)%R
  | _ => 0%R
  end.

Definition f64_finite (x : float64) : bool :=
  match x with
  | S754_zero _ | S754_finite _ _ _ => true
  | S754_infinity _ | S754_nan => false
  end.

(** The distance between the (x, y) of two keypoints, over the real
    numbers. *)
Definition euclidean_distance (p g : keypoint) : R :=
  sqrt ((f64_real (kp_x g) - f64_real (kp_x p))
        * (f64_real (kp_x g) - f64_real (kp_x p))
        + (f64_real (kp_y g) - f64_real (kp_y p))
          * (f64_real (kp_y g) - f64_real (kp_y p)))%R.

(** The distance between the (x, y) of two keypoints divided by
    [normalize], as [check_pred_keypoints] computes it. *)
Definition computed_distance (p g : keypoint) (normalize : float64) : float64 :=
  let dx := f64_sub (kp_x g) (kp_x p) in
  let dy := f64_sub (kp_y g) (kp_y p) in
  f64_div (f64_sqrt (f64_add (f64_mul dx dx) (f64_mul dy dy))) normalize.

(** The claim that [check_pred_keypoints], on finite numbers, a positive
    [normalize] and a valid ground truth, decides by the Euclidean distance
    of the real numbers. *)
Definition euclidean_criterion : Prop :=
  forall (p g : keypoint) (threshold normalize : float64),
    f64_finite (kp_x p) = true -> f64_finite (kp_y p) = true ->
    f64_finite (kp_x g) = true -> f64_finite (kp_y g) = true ->
    f64_finite threshold = true -> f64_finite normalize = true ->
    (0 < f64_real normalize)%R ->
    (f64_real (kp_x g) > 1)%R -> (f64_real (kp_y g) > 1)%R ->
    (check_pred_keypoints p g threshold normalize = 1
     <-> (euclidean_distance p g / f64_real normalize < f64_real threshold)%R)
    /\ (check_pred_keypoints p g threshold normalize = 0
        <-> ~ (euclidean_distance p g / f64_real normalize
               < f64_real threshold)%R).

(** The three values that [check_pred_keypoints] can return. *)
Definition is_check_result (r : Z) : Prop := r = -1 \/ r = 0 \/ r = 1.

(** The class [name] has the succeed counter [s] and the fail counter [f]. *)
Definition has_counters (c : counters) (name : string) (s f : Z) : Prop :=
  PyDict.get (succeed_dict c) name = Some s
  /\ PyDict.get (fail_dict c) name = Some f.

(** No counter of the dictionary is negative. *)
Definition nonneg_dict (d : PyDict.t Z) : Prop :=
  Forall (fun kv => 0 <= snd kv) d.

Definition nonneg_counters (c : counters) : Prop :=
  nonneg_dict (succeed_dict c) /\ nonneg_dict (fail_dict c).

(** The model object can create a session whenever the format asks for one. *)
Definition session_ok (model : model_object) (model_format : string) : Prop :=
  model_format = "MNN" -> exists itp, model = MNNInterpreter itp.

Definition is_mnn_interpreter (model : model_object) : bool :=
  match model with MNNInterpreter _ => true | _ => false end.

(** The images that the inference runtimes were given, in order. *)
Definition inference_images (tr : list event) : list ndarray :=
  flat_map (fun e => match e with
                     | EvInference _ img => [img]
                     | _ => []
                     end) tr.

(** The samples that a generator yields from the [start]-th on, [n] of
    them at most. *)
Definition generator_samples (gen : nat -> option sample) (start n : nat)
    : list sample :=
  flat_map (fun j => match gen j with
                     | Some smp => [smp]
                     | None => []
                     end) (seq start n).

(** The image that the runtime of a format is given for a sample: the
    TFLite path converts it to float32 first. *)
Definition fed_image (astype_float32 : ndarray -> ndarray)
    (model_format : string) (img : ndarray) : ndarray :=
  if String.eqb model_format "TFLITE" then astype_float32 img else img.

(** The input side of an MNN inference goes through: the input tensor has
    a shape, the image can be cut into as many rows as the tensor has
    elements, and it holds one value for each of them, which is what the
    temporary tensor is made from. *)
Definition mnn_input_ok (itp : mnn_interpreter) (img : ndarray) : Prop :=
  exists n,
    reduce_mul (getShape (getSessionInput itp)) = Ok n
    /\ np_reshape_rows_ok (List.length (data img)) n = Ok tt
    /\ List.length (data img) = n.

(** A four-dimensional tensor of floats without an empty axis, holding as
    many elements as its shape says. *)
Definition mnn_output_ok (out : mnn_tensor) (d0 d1 d2 d3 : nat) : Prop :=
  getDataType out = Halide_Type_Float
  /\ getShape out = [d0; d1; d2; d3]
  /\ (0 < d0 * (d1 * (d2 * d3)))%nat
  /\ List.length (getData out) = (d0 * (d1 * (d2 * d3)))%nat.

(** The last character of a string. *)
Definition last_char (s : string) : option ascii :=
  String.get (String.length s - 1) s.

(** One of the four formats that [eval_PCK] knows. *)
Definition known_format (model_format : string) : Prop :=
  model_format = "H5" \/ model_format = "PB"
  \/ model_format = "TFLITE" \/ model_format = "MNN".

(** The path ends with one of the four extensions. *)
Definition known_extension (model_path : string) : bool :=
  endswith model_path ".tflite" || endswith model_path ".mnn"
  || endswith model_path ".pb" || endswith model_path ".h5".

(** The events that an evaluation may emit: calls of the runtime and the
    progress bar always, writes to the file system when [save_result] is
    set, and nothing on the console. *)
Definition eval_event_ok (save_result : bool) (e : event) : bool :=
  match e with
  | EvInference _ _ | EvPbarOpen _ | EvPbarUpdate _ | EvPbarClose => true
  | EvTouchDir _ | EvImageSave _ _ _ | EvSaveFig _ _ _ _ => save_result
  | EvPrint _ _ => false
  end.

(** The path of what a file event writes. *)
Definition event_path (e : event) : option string :=
  match e with
  | EvTouchDir path | EvImageSave path _ _ | EvSaveFig path _ _ _ => Some path
  | _ => None
  end.

(** The lines that [main] prints for a result of [eval_PCK]. *)
Definition accuracy_report (total_accuracy : option R)
    (accuracy_dict : PyDict.t R) : list event :=
  EvPrint (String.append newline "PCK evaluation") []
  :: map (fun item => EvPrint "%s: %f" [ArgStr (fst item);
                                        ArgFloat (Some (snd item))])
         (PyDict.items accuracy_dict)
  ++ [EvPrint "total acc: %f" [ArgFloat total_accuracy]].

(** The path is the result directory or lies in it. *)
Definition under_result (path : string) : bool :=
  String.eqb path "result" || startswith path "result/".

(** Whatever an event writes, it writes in the result directory. *)
Definition writes_under_result (e : event) : Prop :=
  match event_path e with
  | Some path => under_result path = true
  | None => True
  end.

Definition is_image_save (e : event) : bool :=
  match e with EvImageSave _ _ _ => true | _ => false end.

Definition is_save_fig (e : event) : bool :=
  match e with EvSaveFig _ _ _ _ => true | _ => false end.

(** The string of the command line names the option of destination [d]:
    in full, by an abbreviation that fits no other option, or with its
    value after an [=]. *)
Definition names_option (d : string) (arg_string : string) : bool :=
  match parse_optional arg_string with
  | IsOptional (Some (ArgumentAction a)) _ _ => String.eqb (dest a) d
  | _ => false
  end.

(** The option of destination [d] is given on the command line. *)
Definition option_given (d : string) (cl : command_line) : bool :=
  existsb (names_option d) cl.

(** An action of the parser: the help, or a declared argument. *)
Definition declared_action (act : parser_action) : Prop :=
  match act with
  | HelpAction => True
  | ArgumentAction a => In a parser_arguments
  end.

(** The string is one that the parser accepts: an option that is declared,
    or the value of one. *)
Definition accepted_string (arg_string : string) : Prop :=
  match parse_optional arg_string with
  | IsPositional => True
  | IsOptional (Some (ArgumentAction a)) _ _ => In a parser_arguments
  | _ => False
  end.

(** The destinations of the parser: the attributes of its namespace. *)
Definition destinations : list string := map dest parser_arguments.

(** A value that an occurrence of the option stores: [True] for a flag,
    and the following string, converted by the type of the option, for the
    others. *)
Definition stored_value (a : argument) (v : arg_value) : Prop :=
  match action a with
  | action_store_true => v = VBool true
  | action_store =>
      match arg_type_of a with
      | type_str => exists s, v = VStr s
      | type_float => exists x, v = VFloat x
      end
  end.

(** A letter of the pattern that no option takes: the string goes to the
    extras, unless it is an argument that the option before it takes. *)
Definition is_extra (pat : arg_pattern) : bool :=
  match pat with
  | PatO (Some _) _ _ => false
  | _ => true
  end.

(** What is left of the pattern after an option that takes [stop] of the
    following strings. *)
Definition after_stop {A} (stop : nat) (following : list A) : list A :=
  match stop, following with
  | S _, _ :: following' => following'
  | _, _ => following
  end.

(** A run of [consume_optionals] that comes to its end: every option of
    the pattern has stored a value at its destination, and has taken the
    argument that follows it if it needs one; everything else went to the
    extras. *)
Inductive consumed
    : list (string * arg_pattern) -> namespace -> list string -> list string ->
      namespace -> list string -> list string -> Prop :=
| consumed_nil (ns : namespace) (seen extras : list string) :
    consumed [] ns seen extras ns seen extras
| consumed_extra (arg_string : string) (pat : arg_pattern)
    (following : list (string * arg_pattern))
    (ns : namespace) (seen extras : list string)
    (ns' : namespace) (seen' extras' : list string) :
    is_extra pat = true ->
    consumed following ns seen (extras ++ [arg_string]) ns' seen' extras' ->
    consumed ((arg_string, pat) :: following) ns seen extras ns' seen' extras'
| consumed_option (arg_string : string) (a : argument)
    (option_string : string) (explicit_arg : option string)
    (following : list (string * arg_pattern)) (stop : nat) (v : arg_value)
    (ns : namespace) (seen extras : list string)
    (ns' : namespace) (seen' extras' : list string) :
    In a parser_arguments ->
    stored_value a v ->
    (stop = O \/ exists s rest, following = (s, PatA) :: rest) ->
    consumed (after_stop stop following)
             (PyDict.set ns (dest a) v) (dest a :: seen) extras
             ns' seen' extras' ->
    consumed ((arg_string, PatO (Some (ArgumentAction a)) option_string
                                explicit_arg) :: following)
             ns seen extras ns' seen' extras'.

(** What the pattern says of the strings when the command line has no
    [--]. *)
Definition scanned (item : string * arg_pattern) : Prop :=
  match snd item with
  | PatA => parse_optional (fst item) = IsPositional
  | PatO act o e => parse_optional (fst item) = IsOptional act o e
  | PatDash => False
  end.

(** The strings of a pattern that is consumed without extras. *)
Definition accepted_pattern (item : string * arg_pattern) : Prop :=
  match snd item with
  | PatA => True
  | PatO (Some (ArgumentAction a)) _ _ => In a parser_arguments
  | _ => False
  end.

(** The pattern has an option of the destination [d]. *)
Definition pattern_names (d : string) (item : string * arg_pattern) : bool :=
  match snd item with
  | PatO (Some (ArgumentAction a)) _ _ => String.eqb (dest a) d
  | _ => false
  end.

(** The claim that [main] prints the accuracies on every command line that
    the parser accepts. *)
Definition always_prints (parse : command_line -> result namespace)
    (run : command_line -> option (M unit)) : Prop :=
  forall cl ns tr r,
    parse cl = Ok ns ->
    run cl = Some (tr, r) ->
    exists total_accuracy accuracy_dict,
      filter is_print_event tr = accuracy_report total_accuracy accuracy_dict.

(** The string is one that argparse takes as the value of an option: it
    does not start with the prefix character. *)
Definition is_value (s : string) : bool :=
  match s with
  | String c _ => negb (Ascii.eqb c "-")
  | EmptyString => true
  end.

(** Ground-truth keypoint [i] of the (first image of the) sample is valid:
    both transformed coordinates are greater than 1. *)
Definition gt_valid (smp : sample) (i : nat) : bool :=
  match metainfo smp with
  | m :: _ =>
      match nth_error (meta_tpts m) i with
      | Some g => f64_gt (kp_x g) (f64_of_Z 1) && f64_gt (kp_y g) (f64_of_Z 1)
      | None => false
      end
  | [] => false
  end.

(** How many of the first [k] samples of a generator have a valid
    ground-truth keypoint [i]. *)
Fixpoint valid_count (gen : nat -> option sample) (i k : nat) : Z :=
  match k with
  | O => 0
  | S k' =>
      valid_count gen i k'
      + match gen k' with
        | Some smp => if gt_valid smp i then 1 else 0
        | None => 0
        end
  end.

(** How many entries [(i, name)] of an enumeration have result [r] at
    index [i] of [result_list]. *)
Fixpoint hits (r : Z) (enum : list (nat * string)) (result_list : list Z)
    (name : string) : Z :=
  match enum with
  | [] => 0
  | (i, n) :: enum' =>
      (if String.eqb name n
          && match nth_error result_list i with
             | Some r' => r' =? r
             | None => false
             end
       then 1 else 0)
      + hits r enum' result_list name
  end.

(** The evaluation loop as a step relation: [loop_run step gen size k c tr k' c']
    when, from the [k]-th sample and the counters [c], the samples
    [k .. k'-1] are drawn from the generator, pass the [break] test and are
    processed by [step] without an exception, emitting [tr] and leaving the
    counters [c']. *)
Inductive loop_run (step : sample -> counters -> M counters)
    (gen : nat -> option sample) (size : Z)
    : nat -> counters -> list event -> nat -> counters -> Prop :=
| loop_run_refl (k : nat) (c : counters) :
    loop_run step gen size k c [] k c
| loop_run_step (k : nat) (c : counters) (smp : sample)
    (tr1 : list event) (c1 : counters)
    (tr2 : list event) (k' : nat) (c' : counters) :
    gen k = Some smp ->
    Z.of_nat k + batch_size <= size ->
    step smp c = (tr1, Ok c1) ->
    loop_run step gen size (S k) c1 tr2 k' c' ->
    loop_run step gen size k c (tr1 ++ tr2) k' c'.

(** The loop stops before the [k]-th sample: the generator is exhausted,
    or the sample is beyond the dataset size. *)
Definition loop_stops (gen : nat -> option sample) (size : Z) (k : nat) : Prop :=
  gen k = None \/ Z.of_nat k + batch_size > size.

(* ================================================================== *)
(** * A small evaluation, used to exercise the statements *)

Module Example.

Definition class_names : list string := ["head"; "neck"].

(** The float of an integer, and the float nearest to a number of tenths. *)
Definition fl (n : Z) : float64 := f64_of_Z n.
Definition tenths (n : Z) : float64 := f64_div (f64_of_Z n) (f64_of_Z 10).

Definition pred_keypoints : list keypoint :=
  [mkKeypoint (fl 2) (fl 0) [tenths 9]; mkKeypoint (fl 7) (fl 7) [tenths 8]].

(** Both ground-truth keypoints are valid; the first prediction is within
    the threshold, the second is not. *)
Definition gt_keypoints : list keypoint :=
  [mkKeypoint (fl 5) (fl 4) [fl 1]; mkKeypoint (fl 20) (fl 7) [fl 1]].

(** The first keypoint is valid, the second is not. *)
Definition gt_keypoints_invalid : list keypoint :=
  [mkKeypoint (fl 5) (fl 4) [fl 1]; mkKeypoint (fl 0) (fl 0) [fl 0]].

Definition image : ndarray := mkArray [1; 1; 1; 3]%nat [0.1%R; 0.2%R; 0.3%R].
Definition stage1 : ndarray := mkArray [1; 1; 1; 2]%nat [0.5%R; 0.5%R].
Definition stage2 : ndarray := mkArray [1; 1; 1; 2]%nat [0.7%R; 0.2%R].

(** A Keras model with two stages. *)
Definition keras_m : keras_model :=
  {| keras_predict := fun _ => PredictionList [stage1; stage2] |}.
Definition keras : model_object := KerasModel keras_m.

(** A TFLite interpreter with two output tensors. *)
Definition tflite_i : tflite_interpreter :=
  {| get_input_details := [{| detail_index := 0; detail_shape := [1; 1; 1; 3] |}];
     get_output_details := [{| detail_index := 5; detail_shape := [1; 1; 1; 2] |};
                            {| detail_index := 7; detail_shape := [1; 1; 1; 2] |}];
     tflite_invoke := fun _ _ index => if index =? 7 then stage2 else stage1 |}.
Definition tflite : model_object := TFLiteInterpreter tflite_i.

Definition graph_g : tf_graph :=
  {| has_tensor := fun _ => true; sess_run := fun _ _ _ => stage2 |}.
Definition graph : model_object := TFGraph graph_g.

Definition mnn_input : mnn_tensor :=
  {| getShape := [1; 3; 1; 1]%nat; getDataType := Halide_Type_Float;
     getDimensionType := Tensor_DimensionType_Caffe; getData := [] |}.

(** An MNN interpreter whose output is a (1, 2, 1, 3) tensor in the given
    layout and of the given type. *)
Definition mnn_interp (dt : halide_type) (layout : dimension_type)
    : mnn_interpreter :=
  {| getSessionInput := mnn_input;
     runSession := fun _ =>
       {| getShape := [1; 2; 1; 3]%nat; getDataType := dt;
          getDimensionType := layout;
          getData := [1; 2; 3; 4; 5; 6]%R |} |}.

Definition mnn (layout : dimension_type) : model_object :=
  MNNInterpreter (mnn_interp Halide_Type_Float layout).

Definition astype_float32 (a : ndarray) : ndarray := a.
Definition post_process_heatmap (heatmap : ndarray) (conf : float64)
    : list keypoint := pred_keypoints.
Definition invert_transform_kp (kps : list keypoint) (center : list R)
    (scale : R) (heatmap_size : list nat) (rot : R) : list keypoint := kps.

Definition meta : metainfo_t :=
  {| meta_name := "images/a.jpg"; meta_pts := gt_keypoints;
     meta_tpts := gt_keypoints; meta_center := [8%R; 8%R]; meta_scale := 1%R |}.

Definition meta_invalid : metainfo_t :=
  {| meta_name := "images/b.jpg"; meta_pts := gt_keypoints_invalid;
     meta_tpts := gt_keypoints_invalid; meta_center := [8%R; 8%R];
     meta_scale := 1%R |}.

Definition smp : sample :=
  {| image_data := image; gt_heatmap := stage2; metainfo := [meta] |}.

Definition smp_invalid : sample :=
  {| image_data := image; gt_heatmap := stage2; metainfo := [meta_invalid] |}.

(** A dataset of one sample whose generator yields it again and again. *)
Definition dataset : hourglass_dataset_t :=
  {| get_dataset_size := 1;
     generator := fun _ _ _ _ _ _ => Some smp |}.

Definition dataset_invalid : hourglass_dataset_t :=
  {| get_dataset_size := 1;
     generator := fun _ _ _ _ _ _ => Some smp_invalid |}.

(** A dataset without samples. *)
Definition dataset_empty : hourglass_dataset_t :=
  {| get_dataset_size := 0;
     generator := fun _ _ _ _ _ _ => None |}.

(** A sample with one ground-truth keypoint, where two are predicted. *)
Definition meta_mismatch : metainfo_t :=
  {| meta_name := "images/c.jpg"; meta_pts := [mkKeypoint (fl 5) (fl 4) [fl 1]];
     meta_tpts := [mkKeypoint (fl 5) (fl 4) [fl 1]]; meta_center := [8%R; 8%R];
     meta_scale := 1%R |}.

Definition dataset_mismatch : hourglass_dataset_t :=
  {| get_dataset_size := 1;
     generator := fun _ _ _ _ _ _ =>
       Some {| image_data := image; gt_heatmap := stage2;
               metainfo := [meta_mismatch] |} |}.

(** The counters and the accuracies after the one sample of [dataset]. *)
Definition counters_after : counters :=
  mkCounters [("head", 1); ("neck", 0)] [("head", 0); ("neck", 1)].

Definition accuracy_after : PyDict.t R :=
  [("head", (IZR 1 * 1.0 / IZR (1 + 0))%R);
   ("neck", (IZR 0 * 1.0 / IZR (0 + 1))%R)].

(** The rest of the world of [main]. *)
Definition tflite_Interpreter (path : string) : tflite_interpreter := tflite_i.
Definition MNN_Interpreter (path : string) : mnn_interpreter :=
  mnn_interp Halide_Type_Float Tensor_DimensionType_Caffe.
Definition tf_import_graph_def (path : string) : tf_graph := graph_g.
Definition load_model (path : string) : keras_model := keras_m.

Definition py_float (s : string) : option float64 :=
  if String.eqb s "1" then Some (fl 1)
  else if String.eqb s "0.5" then Some f64_0_5
  else None.
Definition py_int (s : string) : option Z :=
  if String.eqb s "256" then Some 256 else None.
Definition get_skeleton (path : string) : unit := tt.
Definition get_classes (path : string) : list string := class_names.
Definition get_normalize (size : Z * Z) : float64 := fl 10.
Definition hourglass_dataset (path : string) (classes : list string)
    (input_size : Z * Z) (is_train : bool) : hourglass_dataset_t :=
  if String.eqb path "empty" then dataset_empty
  else if String.eqb path "invalid" then dataset_invalid
  else if String.eqb path "mismatch" then dataset_mismatch
  else dataset.

(** The script in this world. *)
Definition run_main (fuel : nat) (cl : command_line) : option (M unit) :=
  main astype_float32 post_process_heatmap invert_transform_kp unit
       tflite_Interpreter MNN_Interpreter tf_import_graph_def load_model
       py_float py_int get_skeleton get_classes get_normalize
       hourglass_dataset fuel cl.

Definition run_eval_PCK (model : model_object) (model_format : string)
    (eval_dataset : hourglass_dataset_t) (save_result : bool) (fuel : nat)
    : option (M (option R * PyDict.t R)) :=
  eval_PCK astype_float32 post_process_heatmap invert_transform_kp unit
           model model_format eval_dataset class_names (fl 1) (fl 10) f64_1em6
           save_result None fuel.

(** Command lines. *)
Definition cl_plain : command_line :=
  ["--model_path"; "model.h5"; "--dataset_path"; "val";
   "--score_threshold"; "1"].

(** The same with the flag, abbreviated. *)
Definition cl_saved : command_line :=
  ["--model_path"; "model.h5"; "--dataset_path"; "val";
   "--score_threshold=1"; "--save"].

Definition cl_mismatch : command_line :=
  ["--model_path"; "model.h5"; "--dataset_path"; "mismatch"].

Definition cl_bad_size : command_line :=
  ["--model_path"; "model.h5"; "--dataset_path"; "val";
   "--model_image_size"; "256"].

End Example.

(** The claim that a run raises nothing but the two documented errors. *)
Definition only_documented_errors (run : option (M unit)) : Prop :=
  forall tr e,
    run = Some (tr, Raise e) ->
    e = ValueError "invalid model file"
    \/ e = ValueError "unsupported output tensor dimension type".



(* ================================================================== *)
(** * Further notions *)

(** The model object is of the kind that the predict function of the
    format works on. *)
Definition model_matches (model : model_object) (model_format : string)
    : bool :=
  match model with
  | KerasModel _ => String.eqb model_format "H5"
  | TFLiteInterpreter _ => String.eqb model_format "TFLITE"
  | TFGraph _ => String.eqb model_format "PB"
  | MNNInterpreter _ => String.eqb model_format "MNN"
  end.

(** An event of the progress bar. *)
Definition is_pbar_event (e : event) : bool :=
  match e with
  | EvPbarOpen _ | EvPbarUpdate _ | EvPbarClose => true
  | _ => false
  end.

(** The exceptions that an evaluation can end with when the model object
    is of the kind of its format. *)
Definition eval_exceptions : list exn :=
  [IndexError; TypeError; ZeroDivisionError;
   KeyError "graph/image_input:0";
   KeyError "graph/1_conv_1x1_parts/BiasAdd:0";
   AssertionError EmptyString;
   AssertionError "keypoint number mismatch";
   ValueError "cannot reshape array";
   ValueError "axes don't match array";
   ValueError "unsupported output tensor dimension type";
   ValueError "not enough values to unpack (expected 2, got 0)"].

(** A computation raises nothing but exceptions of [P]. *)
Definition raises_only {A} (P : exn -> Prop) (m : M A) : Prop :=
  forall e, outcome m = Raise e -> P e.

(** The exceptions that [main] can end with before the evaluation starts:
    the exits of argparse, what the parsing of the image size raises, and
    the error of [load_eval_model]. *)
Definition setup_exceptions : list exn :=
  [SystemExit 0; SystemExit 2;
   ValueError "not enough values to unpack";
   ValueError "too many values to unpack";
   ValueError "invalid literal for int()";
   ValueError "invalid model file"].

(** The result of a keypoint at a threshold and at a larger one: an
    invalid ground truth stays invalid, a correct keypoint stays correct,
    and a wrong one stays wrong or becomes correct. *)
Definition check_le (r r' : Z) : Prop :=
  (r = -1 /\ r' = -1) \/ (r = 0 /\ (r' = 0 \/ r' = 1)) \/ (r = 1 /\ r' = 1).

(** How many entries of an enumeration have result [r] at their index of
    [result_list]. *)
Fixpoint result_count (r : Z) (enum : list (nat * string))
    (result_list : list Z) : Z :=
  match enum with
  | [] => 0
  | (i, _) :: enum' =>
      match nth_error result_list i with
      | Some r' => if r' =? r then 1 else 0
      | None => 0
      end
      + result_count r enum' result_list
  end.

(** The counters of an evaluation at a threshold and of one at a larger
    threshold, after the same samples: class by class and in total, no
    fewer keypoints are correct and as many are counted. *)
Definition counters_le (class_names : list string) (c c' : counters) : Prop :=
  (forall name,
      In name class_names ->
      exists s f s' f',
        has_counters c name s f /\ has_counters c' name s' f'
        /\ s <= s' /\ s + f = s' + f')
  /\ np_sum (PyDict.values (succeed_dict c))
     <= np_sum (PyDict.values (succeed_dict c'))
  /\ np_sum (PyDict.values (succeed_dict c))
     + np_sum (PyDict.values (fail_dict c))
     = np_sum (PyDict.values (succeed_dict c'))
       + np_sum (PyDict.values (fail_dict c')).

(** An event that does not write to the file system. *)
Definition not_file_event (e : event) : bool := negb (is_file_event e).

(** The paths of the detection images that are saved, in order. *)
Definition image_save_paths (tr : list event) : list string :=
  flat_map (fun e => match e with
                     | EvImageSave path _ _ => [path]
                     | _ => []
                     end) tr.

(** Where the detection image of a sample goes: in [result/detection],
    under the last piece of the name of its image. *)
Definition detection_path (smp : sample) : list string :=
  match metainfo smp with
  | m :: _ =>
      match getitem_last (str_split os_path_sep (meta_name m)) with
      | Ok file_name => [String.append "result/detection/" file_name]
      | Raise _ => []
      end
  | [] => []
  end.

(* ================================================================== *)
(** * Floating-point numbers *)

(** The order of the floats is transitive. *)
Lemma SFltb_leb_trans (x y z : spec_float) :
  SFltb x y = true -> SFleb y z = true -> SFltb x z = true.
Proof.
  unfold SFltb, SFleb, SFcompare.
  destruct x as [sx | sx | | sx mx ex], y as [sy | sy | | sy my ey],
           z as [sz | sz | | sz mz ez];
    try discriminate; try reflexivity;
    repeat match goal with s : bool |- _ => destruct s end;
    try discriminate; try reflexivity;
    rewrite ?Pos.compare_cont_spec; cbn [Pos.switch_Eq];
    destruct (Z.compare_spec ex ey), (Z.compare_spec ey ez),
             (Z.compare_spec ex ez);
    try discriminate; try reflexivity; try lia;
    destruct (Pos.compare_spec mx my), (Pos.compare_spec my mz),
             (Pos.compare_spec mx mz);
    cbn; try discriminate; try reflexivity; try lia.
Qed.

Lemma f64_lt_le_trans (x y z : float64) :
  f64_lt x y = true -> f64_le y z = true -> f64_lt x z = true.
Proof. apply SFltb_leb_trans. Qed.

(** A rounded result has the sign it is rounded with. *)
Lemma binary_round_aux_sign (sx : bool) (mx ex : Z) (lx : location) :
  let r := binary_round_aux f64_prec f64_emax sx mx ex lx in
  r = S754_zero sx \/ r = S754_infinity sx \/ r = S754_nan
  \/ exists m e, r = S754_finite sx m e.
Proof.
  unfold binary_round_aux.
  destruct (shr_fexp f64_prec f64_emax mx ex lx) as [mrs' e'].
  destruct (shr_fexp f64_prec f64_emax _ e' loc_Exact) as [mrs'' e''].
  destruct (shr_m mrs'') as [| m | m]; cbv zeta; auto.
  destruct (Z.leb e'' _); eauto 6.
Qed.

(** A square is no negative zero, so adding it to zero gives it back. *)
Lemma f64_add_zero_square (d : float64) :
  f64_add f64_zero (f64_mul d d) = f64_mul d d.
Proof.
  unfold f64_add, f64_mul, f64_zero.
  destruct d as [s | s | | s m e]; try (destruct s; reflexivity); [reflexivity |].
  cbn [SFmul].
  pose proof (binary_round_aux_sign (xorb s s) (Zpos (Pos.mul m m)) (Z.add e e)
                loc_Exact) as H.
  cbv zeta in H. rewrite xorb_nilpotent in *.
  destruct H as [-> | [-> | [-> | (m' & e' & ->)]]]; reflexivity.
Qed.

(* ================================================================== *)
(** * Properties of the keypoint check *)

Lemma np_true_divide_nonzero (a b : R) :
  b <> 0%R -> np_true_divide a b = Some (a / b)%R.
Proof.
  intros Hb. unfold np_true_divide.
  destruct (Req_dec_T b 0); [contradiction | reflexivity].
Qed.

(** The norm of the difference of the two [[0:2]] slices: the rounded
    square root of the rounded sum of the rounded squares of the rounded
    differences of the coordinates. *)
Lemma np_linalg_norm_xy (g p : keypoint) :
  np_linalg_norm (np_subtract (kp_xy g) (kp_xy p))
  = f64_sqrt (f64_add (f64_mul (f64_sub (kp_x g) (kp_x p))
                               (f64_sub (kp_x g) (kp_x p)))
                      (f64_mul (f64_sub (kp_y g) (kp_y p))
                               (f64_sub (kp_y g) (kp_y p)))).
Proof.
  unfold np_linalg_norm, np_dot, kp_xy.
  cbn [np_subtract combine fold_left fst snd].
  now rewrite f64_add_zero_square.
Qed.

Lemma check_pred_keypoints_eq (p g : keypoint) (threshold normalize : float64) :
  check_pred_keypoints p g threshold normalize
  = if f64_gt (kp_x g) (f64_of_Z 1) && f64_gt (kp_y g) (f64_of_Z 1)
    then if f64_lt (computed_distance p g normalize) threshold then 1 else 0
    else -1.
Proof.
  unfold check_pred_keypoints, computed_distance.
  now rewrite np_linalg_norm_xy.
Qed.

Lemma check_pred_keypoints_range
    (p g : keypoint) (threshold normalize : float64) :
  check_pred_keypoints p g threshold normalize = -1
  \/ check_pred_keypoints p g threshold normalize = 0
  \/ check_pred_keypoints p g threshold normalize = 1.
Proof.
  rewrite check_pred_keypoints_eq.
  destruct (f64_gt (kp_x g) (f64_of_Z 1) && f64_gt (kp_y g) (f64_of_Z 1));
    [| now left].
  destruct (f64_lt _ _); auto.
Qed.

Lemma check_pred_keypoints_invalid_iff
    (p g : keypoint) (threshold normalize : float64) :
  check_pred_keypoints p g threshold normalize = -1
  <-> f64_gt (kp_x g) (f64_of_Z 1) && f64_gt (kp_y g) (f64_of_Z 1) = false.
Proof.
  rewrite check_pred_keypoints_eq.
  destruct (f64_gt (kp_x g) (f64_of_Z 1) && f64_gt (kp_y g) (f64_of_Z 1)).
  - destruct (f64_lt _ _); split; discriminate.
  - split; reflexivity.
Qed.

Lemma check_pred_keypoints_valid
    (pred gt : keypoint) (threshold normalize : float64) :
  f64_gt (kp_x gt) (f64_of_Z 1) = true ->
  f64_gt (kp_y gt) (f64_of_Z 1) = true ->
  (check_pred_keypoints pred gt threshold normalize = 1
   <-> f64_lt (computed_distance pred gt normalize) threshold = true)
  /\ (check_pred_keypoints pred gt threshold normalize = 0
      <-> f64_lt (computed_distance pred gt normalize) threshold = false).
Proof.
  intros Hx Hy. rewrite check_pred_keypoints_eq, Hx, Hy. cbn [andb].
  destruct (f64_lt _ _); split; split; intros; auto; discriminate.
Qed.

(** C1, as it holds.  With a valid ground-truth keypoint (both coordinates
    greater than 1), [check_pred_keypoints] returns 1 exactly when the
    distance it computes in float64 is less than [threshold], and 0
    otherwise, whatever [normalize] is.  The distance it computes is the
    rounded quotient by [normalize] of the rounded square root of the
    rounded sum of the rounded squares of the rounded differences of the
    coordinates: it is the Euclidean distance up to these roundings and to
    overflow. *)
Theorem check_pred_keypoints_valid_gt
    (pred gt : keypoint) (threshold normalize : float64) :
  f64_gt (kp_x gt) (f64_of_Z 1) = true ->
  f64_gt (kp_y gt) (f64_of_Z 1) = true ->
  let dx := f64_sub (kp_x gt) (kp_x pred) in
  let dy := f64_sub (kp_y gt) (kp_y pred) in
  let distance :=
    f64_div (f64_sqrt (f64_add (f64_mul dx dx) (f64_mul dy dy))) normalize in
  (check_pred_keypoints pred gt threshold normalize = 1
   <-> f64_lt distance threshold = true)
  /\ (check_pred_keypoints pred gt threshold normalize = 0
      <-> f64_lt distance threshold = false).
Proof. exact (check_pred_keypoints_valid pred gt threshold normalize). Qed.

Lemma check_pred_keypoints_valid_gt_witness :
  check_pred_keypoints (mkKeypoint (Example.fl 2) (Example.fl 0) [])
                       (mkKeypoint (Example.fl 5) (Example.fl 4) [])
                       (Example.fl 1) (Example.fl 10) = 1
  /\ check_pred_keypoints (mkKeypoint (Example.fl 2) (Example.fl 0) [])
                          (mkKeypoint (Example.fl 5) (Example.fl 4) [])
                          f64_0_5 (Example.fl 10) = 0.
Proof.
  split.
  - apply (check_pred_keypoints_valid_gt
             (mkKeypoint (Example.fl 2) (Example.fl 0) [])
             (mkKeypoint (Example.fl 5) (Example.fl 4) [])
             (Example.fl 1) (Example.fl 10));
      vm_compute; reflexivity.
  - apply (check_pred_keypoints_valid_gt
             (mkKeypoint (Example.fl 2) (Example.fl 0) [])
             (mkKeypoint (Example.fl 5) (Example.fl 4) [])
             f64_0_5 (Example.fl 10));
      vm_compute; reflexivity.
Defined.

(** The real numbers of the floats 1 and 2, and of the float that the
    square root of 2 rounds to. *)
Lemma f64_real_1 : f64_real (f64_of_Z 1) = 1%R.
Proof.
  change (f64_of_Z 1) with (S754_finite false 4503599627370496 (-52)).
  unfold f64_real, pow2.
  change (Z.pow_pos 2 52) with 4503599627370496%Z. field.
Qed.

Lemma f64_real_2 : f64_real (f64_of_Z 2) = 2%R.
Proof.
  change (f64_of_Z 2) with (S754_finite false 4503599627370496 (-51)).
  unfold f64_real, pow2.
  change (Z.pow_pos 2 51) with 2251799813685248%Z. field.
Qed.

Lemma f64_real_sqrt_2 :
  f64_real (f64_sqrt (f64_of_Z 2))
  = (6369051672525773 / 4503599627370496)%R.
Proof.
  change (f64_sqrt (f64_of_Z 2))
    with (S754_finite false 6369051672525773 (-52)).
  unfold f64_real, pow2.
  change (Z.pow_pos 2 52) with 4503599627370496%Z. field.
Qed.

(** The square root of 2 is below the float it rounds to. *)
Lemma sqrt_2_below_float : (sqrt 2 < 6369051672525773 / 4503599627370496)%R.
Proof.
  assert (Hc : (0 <= 6369051672525773 / 4503599627370496)%R) by lra.
  rewrite <- (sqrt_square _ Hc).
  apply sqrt_lt_1; [lra | nra | lra].
Qed.

(** C1, as the claim has it, does not hold: the Euclidean distance of the
    real numbers does not decide the result.  For the prediction (1, 1), the
    ground truth (2, 2), [normalize] 1 and the threshold that the square
    root of 2 rounds to, the distance, which is the square root of 2, is
    below the threshold; yet the result is 0, because the distance that is
    computed is the threshold itself. *)
Lemma euclidean_criterion_counterexample : ~ euclidean_criterion.
Proof.
  intros H.
  specialize (H (mkKeypoint (f64_of_Z 1) (f64_of_Z 1) [])
                (mkKeypoint (f64_of_Z 2) (f64_of_Z 2) [])
                (f64_sqrt (f64_of_Z 2)) (f64_of_Z 1)).
  unfold euclidean_distance in H. cbn [kp_x kp_y] in H.
  rewrite f64_real_1, f64_real_2, f64_real_sqrt_2 in H.
  destruct H as [H1 _]; try reflexivity; try lra.
  assert (E : check_pred_keypoints
                (mkKeypoint (f64_of_Z 1) (f64_of_Z 1) [])
                (mkKeypoint (f64_of_Z 2) (f64_of_Z 2) [])
                (f64_sqrt (f64_of_Z 2)) (f64_of_Z 1) = 0)
    by (vm_compute; reflexivity).
  rewrite E in H1.
  assert (H01 : 0 = 1); [| discriminate].
  apply H1.
  replace ((2 - 1) * (2 - 1) + (2 - 1) * (2 - 1))%R with 2%R by ring.
  pose proof sqrt_2_below_float. lra.
Qed.

(* ================================================================== *)
(** * Properties of [keypoint_accuracy] *)

Lemma getitem_Some {A} (l : list A) (i : nat) (a : A) :
  nth_error l i = Some a -> getitem l i = Ok a.
Proof. unfold getitem. intros ->. reflexivity. Qed.

Lemma getitem_lt {A} (l : list A) (i : nat) :
  (i < List.length l)%nat -> exists a, nth_error l i = Some a /\ getitem l i = Ok a.
Proof.
  intros H. destruct (nth_error l i) as [a |] eqn:E.
  - exists a. split; [reflexivity | now apply getitem_Some].
  - apply nth_error_None in E. lia.
Qed.

Lemma keypoint_accuracy_loop_ok
    (pred gt : list keypoint) (threshold normalize : float64) :
  forall (n start : nat) (acc : list Z),
    (start + n <= List.length pred)%nat ->
    (start + n <= List.length gt)%nat ->
    exists l,
      keypoint_accuracy_loop pred gt threshold normalize (seq start n) acc
      = Ok (acc ++ l)
      /\ List.length l = n
      /\ Forall is_check_result l
      /\ forall j p g,
           nth_error pred (start + j) = Some p ->
           nth_error gt (start + j) = Some g ->
           (j < n)%nat ->
           nth_error l j = Some (check_pred_keypoints p g threshold normalize).
Proof.
  induction n as [| n IH]; intros start acc Hp Hg.
  - exists []. simpl. rewrite app_nil_r. repeat split; auto. intros; lia.
  - destruct (getitem_lt pred start) as (p & Ep & Gp); [lia |].
    destruct (getitem_lt gt start) as (g & Eg & Gg); [lia |].
    destruct (IH (S start)
                 (acc ++ [check_pred_keypoints p g threshold normalize]))
      as (l & Hl & Hlen & Hall & Hnth); [lia | lia |].
    exists (check_pred_keypoints p g threshold normalize :: l).
    simpl seq. cbn [keypoint_accuracy_loop]. rewrite Gp, Gg. cbn [rbind].
    rewrite Hl, <- app_assoc. simpl.
    repeat split; auto.
    + constructor; [apply check_pred_keypoints_range | assumption].
    + intros [| j] p' g' Hp' Hg' Hj.
      * rewrite Nat.add_0_r in Hp', Hg'. simpl. congruence.
      * simpl. apply Hnth; [| | lia].
        -- now replace (S start + j)%nat with (start + S j)%nat by lia.
        -- now replace (S start + j)%nat with (start + S j)%nat by lia.
Qed.

Lemma keypoint_accuracy_mismatch
    (pred_keypoints gt_keypoints : list keypoint) (threshold normalize : float64) :
  List.length pred_keypoints <> List.length gt_keypoints ->
  keypoint_accuracy pred_keypoints gt_keypoints threshold normalize
  = Raise (AssertionError "keypoint number mismatch").
Proof.
  unfold keypoint_accuracy. intros H. apply Nat.eqb_neq in H. now rewrite H.
Qed.

Lemma keypoint_accuracy_ok
    (pred_keypoints gt_keypoints : list keypoint) (threshold normalize : float64) :
  List.length pred_keypoints = List.length gt_keypoints ->
  exists result_list,
    keypoint_accuracy pred_keypoints gt_keypoints threshold normalize
    = Ok result_list
    /\ List.length result_list = List.length gt_keypoints
    /\ (forall r, In r result_list -> r = -1 \/ r = 0 \/ r = 1)
    /\ (forall i p g,
          nth_error pred_keypoints i = Some p ->
          nth_error gt_keypoints i = Some g ->
          nth_error result_list i
          = Some (check_pred_keypoints p g threshold normalize)).
Proof.
  unfold keypoint_accuracy. intros H.
  rewrite H, Nat.eqb_refl.
  destruct (keypoint_accuracy_loop_ok pred_keypoints gt_keypoints
              threshold normalize (List.length gt_keypoints) 0 [])
    as (l & Hl & Hlen & Hall & Hnth); [lia | lia |].
  exists l. simpl in Hl. repeat split; auto.
  - intros r Hr. rewrite Forall_forall in Hall. exact (Hall r Hr).
  - intros i p g Hp Hg. apply (Hnth i p g Hp Hg).
    apply nth_error_Some. congruence.
Qed.

Lemma keypoint_accuracy_Ok_length
    (pred_keypoints gt_keypoints : list keypoint) (threshold normalize : float64)
    (result_list : list Z) :
  keypoint_accuracy pred_keypoints gt_keypoints threshold normalize
  = Ok result_list ->
  List.length pred_keypoints = List.length gt_keypoints.
Proof.
  intros H.
  destruct (Nat.eq_dec (List.length pred_keypoints) (List.length gt_keypoints))
    as [E | E]; [exact E |].
  rewrite (keypoint_accuracy_mismatch _ _ _ _ E) in H. discriminate.
Qed.

(** C10. [keypoint_accuracy] asserts that the predicted and the
    ground-truth arrays have the same number of rows; when they have, it
    returns a list as long as the ground truth, made of -1, 0 and 1, whose
    element [i] is [check_pred_keypoints] of the [i]-th predicted and
    ground-truth keypoints. *)
Theorem keypoint_accuracy_spec
    (pred_keypoints gt_keypoints : list keypoint) (threshold normalize : float64) :
  (List.length pred_keypoints <> List.length gt_keypoints ->
   keypoint_accuracy pred_keypoints gt_keypoints threshold normalize
   = Raise (AssertionError "keypoint number mismatch"))
  /\ (List.length pred_keypoints = List.length gt_keypoints ->
      exists result_list,
        keypoint_accuracy pred_keypoints gt_keypoints threshold normalize
        = Ok result_list
        /\ List.length result_list = List.length gt_keypoints
        /\ (forall r, In r result_list -> r = -1 \/ r = 0 \/ r = 1)
        /\ (forall i p g,
              nth_error pred_keypoints i = Some p ->
              nth_error gt_keypoints i = Some g ->
              nth_error result_list i
              = Some (check_pred_keypoints p g threshold normalize))).
Proof.
  split.
  - apply keypoint_accuracy_mismatch.
  - apply keypoint_accuracy_ok.
Qed.

Lemma keypoint_accuracy_spec_witness :
  keypoint_accuracy [mkKeypoint (Example.fl 2) (Example.fl 0) []]
                    [mkKeypoint (Example.fl 5) (Example.fl 4) [];
                     mkKeypoint (Example.fl 0) (Example.fl 0) []]
                    (Example.fl 1) (Example.fl 10)
  = Raise (AssertionError "keypoint number mismatch")
  /\ exists result_list,
       keypoint_accuracy [mkKeypoint (Example.fl 2) (Example.fl 0) [];
                          mkKeypoint (Example.fl 7) (Example.fl 7) []]
                         [mkKeypoint (Example.fl 5) (Example.fl 4) [];
                          mkKeypoint (Example.fl 0) (Example.fl 0) []]
                         (Example.fl 1) (Example.fl 10)
       = Ok result_list
       /\ List.length result_list = 2%nat.
Proof.
  split.
  - apply (proj1 (keypoint_accuracy_spec
                    [mkKeypoint (Example.fl 2) (Example.fl 0) []]
                    [mkKeypoint (Example.fl 5) (Example.fl 4) [];
                     mkKeypoint (Example.fl 0) (Example.fl 0) []]
                    (Example.fl 1) (Example.fl 10))).
    simpl. discriminate.
  - destruct (proj2 (keypoint_accuracy_spec
                       [mkKeypoint (Example.fl 2) (Example.fl 0) [];
                        mkKeypoint (Example.fl 7) (Example.fl 7) []]
                       [mkKeypoint (Example.fl 5) (Example.fl 4) [];
                        mkKeypoint (Example.fl 0) (Example.fl 0) []]
                       (Example.fl 1) (Example.fl 10))
                    eq_refl) as (l & Hl & Hlen & _).
    exists l. split; assumption.
Defined.

(* ================================================================== *)
(** * Dictionaries *)

Module PyDictFacts.
Import PyDict.

Lemma get_set_eq {V} (d : t V) (k : string) (v : V) :
  get (set d k v) k = Some v.
Proof.
  induction d as [| [k' v'] d IH]; simpl.
  - now rewrite String.eqb_refl.
  - destruct (String.eqb k k') eqn:E; simpl; rewrite E; auto.
Qed.

Lemma get_set_neq {V} (d : t V) (k k' : string) (v : V) :
  k' <> k -> get (set d k v) k' = get d k'.
Proof.
  intros Hne. induction d as [| [k0 v0] d IH]; simpl.
  - apply String.eqb_neq in Hne. now rewrite Hne.
  - destruct (String.eqb k k0) eqn:E; simpl.
    + apply String.eqb_eq in E. subst k0.
      apply String.eqb_neq in Hne. now rewrite Hne.
    + destruct (String.eqb k' k0); auto.
Qed.

Lemma get_set {V} (d : t V) (k k' : string) (v : V) :
  get (set d k v) k' = if String.eqb k' k then Some v else get d k'.
Proof.
  destruct (String.eqb k' k) eqn:E.
  - apply String.eqb_eq in E. subst. apply get_set_eq.
  - apply String.eqb_neq in E. now apply get_set_neq.
Qed.

Lemma keys_set_present {V} (d : t V) (k : string) (v : V) :
  get d k <> None -> keys (set d k v) = keys d.
Proof.
  unfold keys. induction d as [| [k' v'] d IH]; simpl; intros H.
  - congruence.
  - destruct (String.eqb k k') eqn:E; simpl; [reflexivity |].
    f_equal. now apply IH.
Qed.

Lemma get_In_keys {V} (d : t V) (k : string) :
  get d k <> None <-> In k (keys d).
Proof.
  unfold keys. induction d as [| [k' v'] d IH]; simpl.
  - split; [congruence | tauto].
  - destruct (String.eqb k k') eqn:E.
    + apply String.eqb_eq in E. subst. split; [auto | congruence].
    + apply String.eqb_neq in E. rewrite IH. split; [auto |].
      intros [H | H]; [congruence | assumption].
Qed.

Lemma get_fold_set {V} (ks : list string) (v : V) :
  forall (d : t V) (k : string),
    get (fold_left (fun d k => set d k v) ks d) k
    = if existsb (String.eqb k) ks then Some v else get d k.
Proof.
  induction ks as [| k0 ks IH]; intros d k; simpl; [reflexivity |].
  rewrite IH, get_set.
  destruct (String.eqb k k0); simpl; [| reflexivity].
  now destruct (existsb (String.eqb k) ks).
Qed.

Lemma get_from_keys {V} (ks : list string) (v : V) (k : string) :
  In k ks -> get (from_keys ks v) k = Some v.
Proof.
  intros H. unfold from_keys. rewrite get_fold_set.
  assert (E : existsb (String.eqb k) ks = true).
  { apply existsb_exists. exists k. split; [assumption | apply String.eqb_refl]. }
  now rewrite E.
Qed.

Lemma get_from_keys_notin {V} (ks : list string) (v : V) (k : string) :
  ~ In k ks -> get (from_keys ks v) k = None.
Proof.
  intros H. unfold from_keys. rewrite get_fold_set.
  destruct (existsb (String.eqb k) ks) eqn:E; [| reflexivity].
  apply existsb_exists in E. destruct E as (x & Hx & Ex).
  apply String.eqb_eq in Ex. subst. contradiction.
Qed.

Lemma getitem_Ok {V} (d : t V) (k : string) (v : V) :
  getitem d k = Ok v <-> get d k = Some v.
Proof.
  unfold getitem. destruct (get d k); split; intros H; congruence.
Qed.

Lemma keys_set_absent {V} (d : t V) (k : string) (v : V) :
  ~ In k (keys d) -> keys (set d k v) = keys d ++ [k].
Proof.
  unfold keys. induction d as [| [k' v'] d IH]; simpl; intros H.
  - reflexivity.
  - destruct (String.eqb k k') eqn:E.
    + apply String.eqb_eq in E. subst. exfalso. apply H. now left.
    + simpl. f_equal. apply IH. intros Hin. apply H. now right.
Qed.

Lemma keys_fold_set {V} (v : V) :
  forall (ks : list string) (d : t V),
    NoDup (keys d ++ ks) ->
    keys (fold_left (fun d k => set d k v) ks d) = keys d ++ ks.
Proof.
  induction ks as [| k ks IH]; intros d H; simpl.
  - now rewrite app_nil_r.
  - assert (Hk : ~ In k (keys d)).
    { intros Hin. apply NoDup_remove_2 in H. apply H.
      apply in_or_app. now left. }
    rewrite IH; rewrite keys_set_absent by assumption.
    + now rewrite <- app_assoc.
    + now rewrite <- app_assoc.
Qed.

Lemma keys_from_keys {V} (ks : list string) (v : V) :
  NoDup ks -> keys (from_keys ks v) = ks.
Proof. intros H. unfold from_keys. now rewrite keys_fold_set. Qed.

Lemma In_get_NoDup {V} (d : t V) (k : string) (v : V) :
  NoDup (keys d) -> In (k, v) d -> get d k = Some v.
Proof.
  unfold keys. induction d as [| [k' v'] d IH]; simpl; intros Hnd Hin.
  - contradiction.
  - inversion Hnd as [| ? ? Hk Hnd']; subst.
    destruct Hin as [E | Hin].
    + inversion E; subst. now rewrite String.eqb_refl.
    + destruct (String.eqb k k') eqn:E.
      * apply String.eqb_eq in E. subst. exfalso. apply Hk.
        apply in_map_iff. exists (k', v). auto.
      * now apply IH.
Qed.

End PyDictFacts.

(* ================================================================== *)
(** * The monad *)

Lemma bind_Ok_inv {A B} (m : M A) (f : A -> M B) (tr : list event) (b : B) :
  bind m f = (tr, Ok b) ->
  exists tr1 a tr2, m = (tr1, Ok a) /\ f a = (tr2, Ok b) /\ tr = tr1 ++ tr2.
Proof.
  destruct m as [tr1 [a | e]]; simpl; [| discriminate].
  destruct (f a) as [tr2 r] eqn:E. intros H. inversion H; subst.
  exists tr1, a, tr2. auto.
Qed.

Lemma lift_Ok_inv {A} (r : result A) (tr : list event) (a : A) :
  lift r = (tr, Ok a) -> r = Ok a /\ tr = [].
Proof. unfold lift. intros H. inversion H; subst. auto. Qed.

Lemma emit_inv (e : event) (tr : list event) (r : result unit) :
  emit e = (tr, r) -> tr = [e] /\ r = Ok tt.
Proof. unfold emit. intros H. inversion H; subst. auto. Qed.

Lemma ret_inv {A} (a : A) (tr : list event) (r : result A) :
  ret a = (tr, r) -> tr = [] /\ r = Ok a.
Proof. unfold ret. intros H. inversion H; subst. auto. Qed.

Lemma rbind_Ok_inv {A B} (r : result A) (f : A -> result B) (b : B) :
  rbind r f = Ok b -> exists a, r = Ok a /\ f a = Ok b.
Proof. destruct r as [a | e]; simpl; [eauto | discriminate]. Qed.

Lemma trace_bind {A B} (m : M A) (f : A -> M B) :
  trace (bind m f)
  = match outcome m with
    | Ok a => trace m ++ trace (f a)
    | Raise _ => trace m
    end.
Proof.
  destruct m as [tr [a | e]]; simpl; [| reflexivity].
  destruct (f a); reflexivity.
Qed.

Lemma outcome_bind {A B} (m : M A) (f : A -> M B) :
  outcome (bind m f)
  = match outcome m with
    | Ok a => outcome (f a)
    | Raise e => Raise e
    end.
Proof.
  destruct m as [tr [a | e]]; simpl; [| reflexivity].
  destruct (f a); reflexivity.
Qed.

Lemma bind_lift {A B} (r : result A) (f : A -> M B) :
  bind (lift r) f = match r with
                    | Ok a => f a
                    | Raise e => ([], Raise e)
                    end.
Proof. destruct r as [a | e]; simpl; [| reflexivity]. now destruct (f a). Qed.

Lemma bind_emit {B} (e : event) (f : unit -> M B) :
  bind (emit e) f = (e :: trace (f tt), outcome (f tt)).
Proof. unfold emit. simpl. now destruct (f tt). Qed.

Lemma bind_ret {A B} (a : A) (f : A -> M B) : bind (ret a) f = f a.
Proof. unfold ret. simpl. now destruct (f a). Qed.

Lemma M_eta {A} (m : M A) : m = (trace m, outcome m).
Proof. now destruct m. Qed.

Lemma inference_images_app (tr1 tr2 : list event) :
  inference_images (tr1 ++ tr2) = inference_images tr1 ++ inference_images tr2.
Proof. unfold inference_images. apply flat_map_app. Qed.

(** Invert one [bind] of a computation that returned. *)
Ltac bind_inv H :=
  let tr1 := fresh "tr" in
  let tr2 := fresh "tr" in
  let a := fresh "a" in
  let H1 := fresh "H" in
  let Htr := fresh "Htr" in
  apply bind_Ok_inv in H; destruct H as (tr1 & a & tr2 & H1 & H & Htr);
  first [ apply lift_Ok_inv in H1; destruct H1 as [H1 ?]
        | apply emit_inv in H1; destruct H1 as [? _]
        | idtac ];
  subst.

(** ** Properties of all the events of a computation *)

Lemma Forall_trace_bind {A B} (P : event -> Prop) (m : M A) (f : A -> M B) :
  Forall P (trace m) ->
  (forall a, outcome m = Ok a -> Forall P (trace (f a))) ->
  Forall P (trace (bind m f)).
Proof.
  intros Hm Hf. rewrite trace_bind.
  destruct (outcome m) as [a | e]; [| exact Hm].
  apply Forall_app. split; [exact Hm | now apply Hf].
Qed.

Lemma Forall_trace_lift {A} (P : event -> Prop) (r : result A) :
  Forall P (trace (lift r)).
Proof. constructor. Qed.

Lemma Forall_trace_ret {A} (P : event -> Prop) (a : A) :
  Forall P (trace (ret a)).
Proof. constructor. Qed.

Lemma Forall_trace_raise {A} (P : event -> Prop) (e : exn) :
  Forall P (trace (@raise A e)).
Proof. constructor. Qed.

Lemma Forall_trace_emit (P : event -> Prop) (e : event) :
  P e -> Forall P (trace (emit e)).
Proof. intros H. constructor; [exact H | constructor]. Qed.

Lemma Forall_trace_obind {A B} (P : event -> Prop) (m : M A)
    (f : A -> option (M B)) (mb : M B) :
  obind m f = Some mb ->
  Forall P (trace m) ->
  (forall a mb', f a = Some mb' -> Forall P (trace mb')) ->
  Forall P (trace mb).
Proof.
  destruct m as [tr [a | e]]; simpl; intros H Hm Hf.
  - destruct (f a) as [[tr' r] |] eqn:E; [| discriminate].
    inversion H; subst. simpl. apply Forall_app. split; [exact Hm |].
    exact (Hf a _ E).
  - inversion H; subst. exact Hm.
Qed.

(** Solve a goal [Forall P (trace m)] for a computation built from binds. *)
Ltac trace_forall :=
  repeat first
    [ apply Forall_trace_lift
    | apply Forall_trace_ret
    | apply Forall_trace_raise
    | apply Forall_trace_emit; reflexivity
    | apply Forall_trace_bind; [| intros ? _] ].

(* ================================================================== *)
(** * The counters *)

Section Counters.
Import PyDict PyDictFacts.

Lemma update_counters_spec (result_list : list Z) :
  forall (enum : list (nat * string)) (c c' : counters),
    update_counters enum result_list c = Ok c' ->
    forall name,
      get (succeed_dict c') name
      = option_map (fun v => v + hits 1 enum result_list name)
                   (get (succeed_dict c) name)
      /\ get (fail_dict c') name
         = option_map (fun v => v + hits 0 enum result_list name)
                      (get (fail_dict c) name).
Proof.
  induction enum as [| [i n] enum IH]; intros c c' H name.
  - simpl in H. inversion H; subst. simpl.
    split; destruct (get _ name); simpl; f_equal; lia.
  - cbn [update_counters] in H.
    apply rbind_Ok_inv in H. destruct H as (r & Hr & H).
    unfold Py.getitem in Hr.
    destruct (nth_error result_list i) as [r' |] eqn:Er; [| discriminate].
    inversion Hr; subst r'. clear Hr.
    cbn [hits]. rewrite Er.
    destruct (r =? 0) eqn:E0.
    + apply rbind_Ok_inv in H. destruct H as (v & Hv & H).
      apply getitem_Ok in Hv.
      destruct (IH _ _ H name) as [Hs Hf]. simpl in Hs, Hf.
      apply Z.eqb_eq in E0. subst r. simpl (0 =? 1).
      rewrite andb_false_r, Z.add_0_l. split; [exact Hs |].
      rewrite Hf, get_set.
      destruct (String.eqb name n) eqn:En; cbn [andb].
      * apply String.eqb_eq in En. subst n. rewrite Hv.
        cbn [option_map]. f_equal. lia.
      * destruct (get (fail_dict c) name); cbn [option_map]; f_equal; lia.
    + destruct (r =? 1) eqn:E1.
      * apply rbind_Ok_inv in H. destruct H as (v & Hv & H).
        apply getitem_Ok in Hv.
        destruct (IH _ _ H name) as [Hs Hf]. simpl in Hs, Hf.
        rewrite andb_false_r, Z.add_0_l. split; [| exact Hf].
        rewrite Hs, get_set.
        destruct (String.eqb name n) eqn:En; cbn [andb].
        -- apply String.eqb_eq in En. subst n. rewrite Hv.
           cbn [option_map]. f_equal. lia.
        -- destruct (get (succeed_dict c) name); cbn [option_map]; f_equal; lia.
      * rewrite !andb_false_r, !Z.add_0_l. apply (IH _ _ H name).
Qed.

(** With pairwise distinct class names, only the entry of the class
    itself can hit. *)
Lemma hits_NoDup (r : Z) (result_list : list Z) :
  forall (names : list string) (start i : nat) (name : string),
    NoDup names ->
    nth_error names i = Some name ->
    hits r (combine (seq start (List.length names)) names) result_list name
    = match nth_error result_list (start + i) with
      | Some r' => if r' =? r then 1 else 0
      | None => 0
      end.
Proof.
  assert (Hnotin : forall (names : list string) start name,
             ~ In name names ->
             hits r (combine (seq start (List.length names)) names)
                  result_list name = 0).
  { induction names as [| n names IH]; intros start name Hn; [reflexivity |].
    simpl. assert (E : String.eqb name n = false).
    { apply String.eqb_neq. intros ->. apply Hn. now left. }
    rewrite E. simpl. apply IH. intros Hin. apply Hn. now right. }
  induction names as [| n names IH]; intros start i name Hnd Hi.
  - destruct i; discriminate.
  - inversion Hnd as [| ? ? Hn Hnd']; subst. simpl.
    destruct i as [| i]; simpl in Hi.
    + inversion Hi; subst n. rewrite String.eqb_refl, Nat.add_0_r. simpl.
      rewrite Hnotin by assumption.
      destruct (nth_error result_list start) as [r' |]; [| reflexivity].
      destruct (r' =? r); reflexivity.
    + assert (E : String.eqb name n = false).
      { apply String.eqb_neq. intros ->. apply Hn.
        eapply nth_error_In; eassumption. }
      rewrite E. simpl. rewrite (IH (S start) i name Hnd' Hi).
      now replace (S start + i)%nat with (start + S i)%nat by lia.
Qed.

Lemma update_counters_getitem (result_list : list Z) :
  forall (enum : list (nat * string)) (c c' : counters),
    update_counters enum result_list c = Ok c' ->
    forall i n, In (i, n) enum -> nth_error result_list i <> None.
Proof.
  induction enum as [| [i0 n0] enum IH]; intros c c' H i n Hin; [inversion Hin |].
  cbn [update_counters] in H.
  apply rbind_Ok_inv in H. destruct H as (r & Hr & H).
  destruct Hin as [Heq | Hin].
  - inversion Heq; subst. unfold Py.getitem in Hr.
    destruct (nth_error result_list i); [discriminate | discriminate].
  - destruct (r =? 0).
    + apply rbind_Ok_inv in H. destruct H as (v & _ & H). eapply IH; eauto.
    + destruct (r =? 1).
      * apply rbind_Ok_inv in H. destruct H as (v & _ & H). eapply IH; eauto.
      * eapply IH; eauto.
Qed.

Lemma update_counters_keys (result_list : list Z) :
  forall (enum : list (nat * string)) (c c' : counters),
    update_counters enum result_list c = Ok c' ->
    keys (succeed_dict c') = keys (succeed_dict c)
    /\ keys (fail_dict c') = keys (fail_dict c).
Proof.
  induction enum as [| [i n] enum IH]; intros c c' H.
  - simpl in H. inversion H; subst. auto.
  - cbn [update_counters] in H.
    apply rbind_Ok_inv in H. destruct H as (r & _ & H).
    destruct (r =? 0).
    + apply rbind_Ok_inv in H. destruct H as (v & Hv & H).
      apply getitem_Ok in Hv. destruct (IH _ _ H) as [Hs Hf]. simpl in Hs, Hf.
      split; [exact Hs |]. rewrite Hf. apply keys_set_present. congruence.
    + destruct (r =? 1).
      * apply rbind_Ok_inv in H. destruct H as (v & Hv & H).
        apply getitem_Ok in Hv. destruct (IH _ _ H) as [Hs Hf]. simpl in Hs, Hf.
        split; [| exact Hf]. rewrite Hs. apply keys_set_present. congruence.
      * apply (IH _ _ H).
Qed.

Lemma map_snd_enumerate {A} (l : list A) : map snd (enumerate l) = l.
Proof.
  unfold enumerate. generalize 0%nat.
  induction l as [| a l IH]; intros start; simpl; [reflexivity |].
  f_equal. apply IH.
Qed.

Lemma accuracy_loop_Ok (c : counters) :
  forall (enum : list (nat * string)) (acc0 acc : PyDict.t R),
    accuracy_loop enum c acc0 = Ok acc ->
    forall name,
      (In name (map snd enum) ->
       exists s f,
         has_counters c name s f /\ s + f <> 0
         /\ get acc name = Some (IZR s / IZR (s + f))%R)
      /\ (~ In name (map snd enum) -> get acc name = get acc0 name).
Proof.
  induction enum as [| [i n] enum IH]; intros acc0 acc H name.
  - simpl in H. inversion H; subst. split; [intros [] | reflexivity].
  - cbn [accuracy_loop] in H.
    apply rbind_Ok_inv in H. destruct H as (s & Hs & H).
    apply rbind_Ok_inv in H. destruct H as (s' & Hs' & H).
    apply rbind_Ok_inv in H. destruct H as (f & Hf & H).
    rewrite Hs in Hs'. inversion Hs'; subst s'. clear Hs'.
    apply getitem_Ok in Hs. apply getitem_Ok in Hf.
    destruct (s + f =? 0) eqn:E; [discriminate |].
    apply Z.eqb_neq in E.
    destruct (IH _ _ H name) as [Hin Hout].
    destruct (in_dec string_dec name (map snd enum)) as [Hi | Hi].
    + split; [intros _; now apply Hin |].
      intros Hn. exfalso. apply Hn. simpl. now right.
    + rewrite (Hout Hi), get_set. simpl. split.
      * intros [-> | Hi']; [| contradiction].
        rewrite String.eqb_refl. exists s, f. repeat split; auto.
        f_equal. replace 1.0%R with 1%R by lra. field.
        apply not_0_IZR. exact E.
      * intros Hn. destruct (String.eqb name n) eqn:En; [| reflexivity].
        apply String.eqb_eq in En. subst. exfalso. apply Hn. now left.
Qed.

Lemma accuracy_loop_keys (c : counters) :
  forall (enum : list (nat * string)) (acc0 acc : PyDict.t R),
    accuracy_loop enum c acc0 = Ok acc ->
    (forall name, In name (map snd enum) -> In name (keys acc0)) ->
    keys acc = keys acc0.
Proof.
  induction enum as [| [i n] enum IH]; intros acc0 acc H Hk.
  - simpl in H. now inversion H.
  - cbn [accuracy_loop] in H.
    apply rbind_Ok_inv in H. destruct H as (s & Hs & H).
    apply rbind_Ok_inv in H. destruct H as (s' & Hs' & H).
    apply rbind_Ok_inv in H. destruct H as (f & Hf & H).
    destruct (s' + f =? 0); [discriminate |].
    assert (Hn : In n (keys acc0)) by (apply Hk; now left).
    assert (Hset : keys (set acc0 n (IZR s * 1.0 / IZR (s' + f))%R) = keys acc0).
    { apply keys_set_present. now apply get_In_keys. }
    rewrite (IH _ _ H); [exact Hset |].
    intros name Hin. rewrite Hset. apply Hk. now right.
Qed.

Lemma accuracy_loop_zero (c : counters) :
  forall (enum : list (nat * string)) (acc0 : PyDict.t R),
    (forall name, In name (map snd enum) -> exists s f, has_counters c name s f) ->
    (exists name s f,
        In name (map snd enum) /\ has_counters c name s f /\ s + f = 0) ->
    accuracy_loop enum c acc0 = Raise ZeroDivisionError.
Proof.
  induction enum as [| [i n] enum IH]; intros acc0 Hall (name & s & f & Hin & Hc & Hz).
  - destruct Hin.
  - cbn [accuracy_loop].
    destruct (Hall n) as (sn & fn & Hsn & Hfn); [now left |].
    unfold PyDict.getitem. rewrite Hsn, Hfn. cbn [rbind].
    destruct (sn + fn =? 0) eqn:E; [reflexivity |].
    apply Z.eqb_neq in E. apply IH.
    + intros name' Hin'. apply Hall. now right.
    + exists name, s, f. repeat split; try apply Hc; auto.
      simpl in Hin. destruct Hin as [En | Hin]; [| exact Hin].
      subst name. destruct Hc as [Hs Hf]. rewrite Hsn in Hs. rewrite Hfn in Hf.
      inversion Hs; inversion Hf; subst. contradiction.
Qed.

Lemma accuracy_loop_complete (c : counters) :
  forall (enum : list (nat * string)) (acc0 : PyDict.t R),
    (forall name, In name (map snd enum) ->
                  exists s f, has_counters c name s f /\ s + f <> 0) ->
    exists acc, accuracy_loop enum c acc0 = Ok acc.
Proof.
  induction enum as [| [i n] enum IH]; intros acc0 Hall.
  - exists acc0. reflexivity.
  - cbn [accuracy_loop].
    destruct (Hall n) as (sn & fn & (Hsn & Hfn) & Hnz); [now left |].
    unfold PyDict.getitem. rewrite Hsn, Hfn. cbn [rbind].
    apply Z.eqb_neq in Hnz. rewrite Hnz.
    apply IH. intros name Hin. apply Hall. now right.
Qed.

Lemma accuracy_loop_Raise (c : counters) :
  forall (enum : list (nat * string)) (acc0 : PyDict.t R) (e : exn),
    (forall name, In name (map snd enum) -> exists s f, has_counters c name s f) ->
    accuracy_loop enum c acc0 = Raise e ->
    e = ZeroDivisionError
    /\ exists name s f,
         In name (map snd enum) /\ has_counters c name s f /\ s + f = 0.
Proof.
  induction enum as [| [i n] enum IH]; intros acc0 e Hall H.
  - discriminate.
  - cbn [accuracy_loop] in H.
    destruct (Hall n) as (sn & fn & Hsn & Hfn); [now left |].
    unfold PyDict.getitem in H. rewrite Hsn, Hfn in H. cbn [rbind] in H.
    destruct (sn + fn =? 0) eqn:E.
    + inversion H; subst. split; [reflexivity |].
      apply Z.eqb_eq in E. exists n, sn, fn. repeat split; auto. now left.
    + destruct (IH _ _ (fun name Hin => Hall name (or_intror Hin)) H)
        as (He & name & s & f & Hin & Hc & Hz).
      split; [exact He |]. exists name, s, f. repeat split; try apply Hc; auto.
      now right.
Qed.

Lemma get_In {V} (d : t V) (k : string) (v : V) :
  get d k = Some v -> In (k, v) d.
Proof.
  induction d as [| [k' v'] d IH]; simpl; [discriminate |].
  destruct (String.eqb k k') eqn:E.
  - apply String.eqb_eq in E. subst. intros H. inversion H. now left.
  - intros H. right. now apply IH.
Qed.

Lemma nonneg_dict_set (d : t Z) (k : string) (v : Z) :
  nonneg_dict d -> 0 <= v -> nonneg_dict (set d k v).
Proof.
  unfold nonneg_dict. induction d as [| [k' v'] d IH]; simpl; intros Hd Hv.
  - constructor; auto.
  - inversion Hd; subst. destruct (String.eqb k k'); constructor; auto.
Qed.

Lemma nonneg_dict_get (d : t Z) (k : string) (v : Z) :
  nonneg_dict d -> get d k = Some v -> 0 <= v.
Proof.
  unfold nonneg_dict. intros Hd Hg. apply get_In in Hg.
  rewrite Forall_forall in Hd. exact (Hd _ Hg).
Qed.

Lemma nonneg_dict_from_keys (ks : list string) : nonneg_dict (from_keys ks 0).
Proof.
  unfold from_keys.
  assert (G : forall ks d, nonneg_dict d ->
                           nonneg_dict (fold_left (fun d k => set d k 0) ks d)).
  { clear. induction ks as [| k ks IH]; intros d Hd; simpl; [exact Hd |].
    apply IH. apply nonneg_dict_set; [exact Hd | lia]. }
  apply G. constructor.
Qed.

Lemma np_sum_nonneg (d : t Z) : nonneg_dict d -> 0 <= np_sum (values d).
Proof.
  unfold nonneg_dict, values. induction d as [| [k v] d IH]; simpl; intros H.
  - lia.
  - inversion H; subst. simpl in *. specialize (IH ltac:(assumption)). lia.
Qed.

Lemma np_sum_ge (d : t Z) (k : string) (v : Z) :
  nonneg_dict d -> get d k = Some v -> v <= np_sum (values d).
Proof.
  intros Hd Hg. apply get_In in Hg. revert Hd Hg.
  unfold nonneg_dict, values. induction d as [| [k' v'] d IH]; simpl; intros Hd Hin.
  - contradiction.
  - inversion Hd; subst. simpl in *. destruct Hin as [E | Hin].
    + inversion E; subst. pose proof (np_sum_nonneg d ltac:(assumption)).
      unfold values in *. lia.
    + specialize (IH ltac:(assumption) Hin). lia.
Qed.

Lemma update_counters_nonneg (result_list : list Z) :
  forall (enum : list (nat * string)) (c c' : counters),
    update_counters enum result_list c = Ok c' ->
    nonneg_counters c -> nonneg_counters c'.
Proof.
  induction enum as [| [i n] enum IH]; intros c c' H [Hs Hf].
  - simpl in H. inversion H; subst. split; assumption.
  - cbn [update_counters] in H.
    apply rbind_Ok_inv in H. destruct H as (r & _ & H).
    destruct (r =? 0).
    + apply rbind_Ok_inv in H. destruct H as (v & Hv & H).
      apply getitem_Ok in Hv. apply (IH _ _ H). split; simpl; [exact Hs |].
      apply nonneg_dict_set; [exact Hf |].
      pose proof (nonneg_dict_get _ _ _ Hf Hv). lia.
    + destruct (r =? 1).
      * apply rbind_Ok_inv in H. destruct H as (v & Hv & H).
        apply getitem_Ok in Hv. apply (IH _ _ H). split; simpl; [| exact Hf].
        apply nonneg_dict_set; [exact Hs |].
        pose proof (nonneg_dict_get _ _ _ Hs Hv). lia.
      * apply (IH _ _ H). split; assumption.
Qed.

End Counters.

(* ================================================================== *)
(** * Arrays *)

Section Arrays.

Context {A : Type}.

Lemma length_flat_map_seq (f : nat -> list A) (m : nat) :
  forall (n start : nat),
    (forall i, (start <= i < start + n)%nat -> List.length (f i) = m) ->
    List.length (flat_map f (seq start n)) = (n * m)%nat.
Proof.
  induction n as [| n IH]; intros start H; simpl; [reflexivity |].
  rewrite length_app, H by lia. rewrite IH; [reflexivity |].
  intros i Hi. apply H. lia.
Qed.

(** In a concatenation of [n] blocks of length [m], element [j] of block
    [i] is at position [i * m + j]. *)
Lemma nth_flat_map_seq (f : nat -> list A) (m : nat) (d : A) :
  forall (n start i j : nat),
    (forall i, (start <= i < start + n)%nat -> List.length (f i) = m) ->
    (i < n)%nat -> (j < m)%nat ->
    nth (i * m + j) (flat_map f (seq start n)) d = nth j (f (start + i)%nat) d.
Proof.
  induction n as [| n IH]; intros start i j H Hi Hj; [lia |].
  simpl. destruct i as [| i].
  - rewrite app_nth1 by (rewrite H; lia). now rewrite Nat.add_0_r.
  - rewrite app_nth2 by (rewrite H; lia). rewrite H by lia.
    replace (S i * m + j - m)%nat with (i * m + j)%nat by lia.
    rewrite IH; try lia.
    + f_equal. f_equal. lia.
    + intros i' Hi'. apply H. lia.
Qed.

End Arrays.

Lemma reduce_mul_shape_size (n : nat) (sh : list nat) :
  reduce_mul (n :: sh) = Ok (shape_size (n :: sh)).
Proof.
  unfold reduce_mul. f_equal. simpl. revert n.
  induction sh as [| m sh IH]; intros n; simpl; [lia |].
  rewrite IH. lia.
Qed.

(** What [transpose((0,2,3,1))] and then [[0]] give on an (N, C, H, W)
    array: the (H, W, C) array whose element [y, x, k] is the element
    [0, k, y, x] of the original. *)
Lemma np_transpose_0231_getitem0 (n c h w : nat) (flat : list R) :
  (0 < n)%nat ->
  exists heatmap,
    rbind (np_transpose_0231 (mkArray [n; c; h; w] flat)) nd_getitem0
    = Ok heatmap
    /\ shape heatmap = [h; w; c]
    /\ forall y x k,
         (y < h)%nat -> (x < w)%nat -> (k < c)%nat ->
         nd_get heatmap [y; x; k] = nd_get (mkArray [n; c; h; w] flat) [0; k; y; x]%nat.
Proof.
  intros Hn. destruct n as [| n]; [lia |].
  eexists. split; [reflexivity |]. split; [reflexivity |].
  intros y x k Hy Hx Hk.
  unfold nd_get. cbn [shape data nd_offset shape_size fold_right].
  set (G := fun i y0 : nat =>
              flat_map (fun x0 : nat =>
                map (fun k0 : nat =>
                  nth (((i * c + k0) * h + y0) * w + x0) flat 0%R) (seq 0 c))
                (seq 0 w)).
  set (F := fun i : nat => flat_map (G i) (seq 0 h)).
  assert (LG : forall i y0, List.length (G i y0) = (w * c)%nat).
  { intros i y0. unfold G. apply length_flat_map_seq.
    intros x0 _. now rewrite length_map, length_seq. }
  assert (LF : forall i, List.length (F i) = (h * (w * c))%nat).
  { intros i. unfold F. apply length_flat_map_seq. intros y0 _. apply LG. }
  assert (Hxk : (x * c + k < w * c)%nat).
  { pose proof (Nat.mul_le_mono_r (S x) w c Hx). simpl in *. lia. }
  assert (Hlt : (y * (w * c) + (x * c + k) < h * (w * c))%nat).
  { pose proof (Nat.mul_le_mono_r (S y) h (w * c) Hy). simpl in *. lia. }
  rewrite nth_firstn.
  replace (y * (w * (c * 1)) + (x * (c * 1) + (k * 1 + 0)))%nat
    with (0 * (h * (w * c)) + (y * (w * c) + (x * c + k)))%nat by lia.
  replace (h * (w * (c * 1)))%nat with (h * (w * c))%nat by lia.
  replace (0 * (h * (w * c)) + (y * (w * c) + (x * c + k)) <? h * (w * c))%nat
    with true by (symmetry; apply Nat.ltb_lt; lia).
  change (flat_map _ (seq 0 (S n))) with (flat_map F (seq 0 (S n))).
  rewrite (nth_flat_map_seq F (h * (w * c)) 0%R (S n) 0 0) by (auto; lia).
  unfold F. rewrite (nth_flat_map_seq (G 0%nat) (w * c) 0%R h 0 y)
    by (auto; lia).
  unfold G.
  rewrite (nth_flat_map_seq
             (fun x0 => map (fun k0 => nth (((0 * c + k0) * h + (0 + y)) * w + x0)
                                           flat 0%R) (seq 0 c))
             c 0%R w 0 x); try assumption.
  - rewrite (nth_indep _ 0%R
               (nth (((0 * c + 0) * h + (0 + y)) * w + (0 + x)) flat 0%R))
      by (now rewrite length_map, length_seq).
    rewrite (map_nth (fun k0 => nth (((0 * c + k0) * h + (0 + y)) * w + (0 + x))
                                    flat 0%R) (seq 0 c) 0%nat k).
    rewrite seq_nth by assumption.
    f_equal. ring.
  - intros x0 _. now rewrite length_map, length_seq.
Qed.

(* ================================================================== *)
(** * Strings *)

Lemma endswith_last_char (s suffix : string) :
  endswith s suffix = true ->
  (0 < String.length suffix)%nat ->
  last_char s = last_char suffix.
Proof.
  unfold endswith, last_char. intros H Hpos.
  apply andb_true_iff in H. destruct H as [Hle Heq].
  apply Nat.leb_le in Hle. apply String.eqb_eq in Heq.
  rewrite <- Heq at 2.
  rewrite substring_correct1 by lia.
  f_equal. lia.
Qed.

(** The four extensions end with four different characters, so a path
    has at most one of them. *)
Lemma endswith_exclusive (s a b : string) :
  endswith s a = true ->
  (0 < String.length a)%nat -> (0 < String.length b)%nat ->
  last_char a <> last_char b ->
  endswith s b = false.
Proof.
  intros Ha La Lb Hne. destruct (endswith s b) eqn:Hb; [| reflexivity].
  exfalso. apply Hne.
  rewrite <- (endswith_last_char _ _ Ha La). now apply endswith_last_char.
Qed.

Lemma str_split_no_sep (sep : ascii) (s : string) :
  Forall (fun w => str_contains sep w = false) (str_split sep s).
Proof.
  induction s as [| c s IH]; simpl.
  - constructor; [reflexivity | constructor].
  - destruct (Ascii.eqb c sep) eqn:E.
    + constructor; [reflexivity | exact IH].
    + destruct (str_split sep s) as [| w ws].
      * constructor; [simpl; now rewrite E | constructor].
      * inversion IH; subst. constructor; [simpl; now rewrite E | assumption].
Qed.

Lemma getitem_last_In {A} (l : list A) (a : A) :
  getitem_last l = Ok a -> In a l.
Proof.
  unfold getitem_last. destruct (rev l) as [| x xs] eqn:E; [discriminate |].
  intros H. inversion H; subst. apply in_rev. rewrite E. now left.
Qed.

(** A file name without separator, joined to the detection directory, is
    in the result directory. *)
Lemma os_path_join_detection (file_name : string) :
  str_contains os_path_sep file_name = false ->
  os_path_join (os_path_join "result" "detection") file_name
  = String.append "result/detection/" file_name
  /\ under_result (os_path_join (os_path_join "result" "detection") file_name)
     = true.
Proof.
  intros H.
  assert (E : os_path_join (os_path_join "result" "detection") file_name
              = String.append "result/detection/" file_name).
  { change (os_path_join "result" "detection") with "result/detection".
    unfold os_path_join, startswith.
    destruct file_name as [| c f]; [reflexivity |].
    simpl in H. apply orb_false_iff in H. destruct H as [Hc _].
    cbn [String.prefix]. unfold os_path_sep in Hc.
    destruct (ascii_dec "/"%char c) as [<- | Hne]; [discriminate | reflexivity]. }
  split; [exact E |]. rewrite E. reflexivity.
Qed.

(* ================================================================== *)
(** * The evaluation loop *)

Section ScriptFacts.

Variable astype_float32 : ndarray -> ndarray.
Variable post_process_heatmap : ndarray -> float64 -> list keypoint.
Variable invert_transform_kp :
  list keypoint -> list R -> R -> list nat -> R -> list keypoint.
Variable skeleton : Type.
Variable tflite_Interpreter : string -> tflite_interpreter.
Variable MNN_Interpreter : string -> mnn_interpreter.
Variable tf_import_graph_def : string -> tf_graph.
Variable load_model : string -> keras_model.

Local Abbreviation load :=
  (load_eval_model tflite_Interpreter MNN_Interpreter tf_import_graph_def
                   load_model).

Section Loading.

Lemma load_eval_model_tflite (path : string) :
  endswith path ".tflite" = true ->
  load path = Ok (TFLiteInterpreter (tflite_Interpreter path), "TFLITE").
Proof. unfold load_eval_model. now intros ->. Qed.

Lemma load_eval_model_mnn (path : string) :
  endswith path ".mnn" = true ->
  load path = Ok (MNNInterpreter (MNN_Interpreter path), "MNN").
Proof.
  unfold load_eval_model. intros H.
  rewrite (endswith_exclusive path ".mnn" ".tflite" H); simpl; try lia;
    [| unfold last_char; simpl; discriminate].
  now rewrite H.
Qed.

Lemma load_eval_model_pb (path : string) :
  endswith path ".pb" = true ->
  load path = Ok (TFGraph (load_graph tf_import_graph_def path), "PB").
Proof.
  unfold load_eval_model. intros H.
  rewrite (endswith_exclusive path ".pb" ".tflite" H); simpl; try lia;
    [| unfold last_char; simpl; discriminate].
  rewrite (endswith_exclusive path ".pb" ".mnn" H); simpl; try lia;
    [| unfold last_char; simpl; discriminate].
  now rewrite H.
Qed.

Lemma load_eval_model_h5 (path : string) :
  endswith path ".h5" = true ->
  load path = Ok (KerasModel (load_model path), "H5").
Proof.
  unfold load_eval_model. intros H.
  rewrite (endswith_exclusive path ".h5" ".tflite" H); simpl; try lia;
    [| unfold last_char; simpl; discriminate].
  rewrite (endswith_exclusive path ".h5" ".mnn" H); simpl; try lia;
    [| unfold last_char; simpl; discriminate].
  rewrite (endswith_exclusive path ".h5" ".pb" H); simpl; try lia;
    [| unfold last_char; simpl; discriminate].
  now rewrite H.
Qed.

(** [load_eval_model] raises exactly on a path without one of the four
    extensions, and what it raises is its [ValueError]. *)
Lemma load_eval_model_raises (path : string) :
  (known_extension path = false
   <-> load path = Raise (ValueError "invalid model file"))
  /\ (forall e, load path = Raise e -> e = ValueError "invalid model file").
Proof.
  unfold known_extension, load_eval_model.
  destruct (endswith path ".tflite"); simpl;
    [split; [split; discriminate | discriminate] |].
  destruct (endswith path ".mnn"); simpl;
    [split; [split; discriminate | discriminate] |].
  destruct (endswith path ".pb"); simpl;
    [split; [split; discriminate | discriminate] |].
  destruct (endswith path ".h5"); simpl;
    [split; [split; discriminate | discriminate] |].
  split; [split; reflexivity |]. intros e H. now inversion H.
Qed.

Lemma load_eval_model_format (path : string) (m : model_object) (fmt : string) :
  load path = Ok (m, fmt) -> known_format fmt /\ session_ok m fmt.
Proof.
  unfold load_eval_model, known_format, session_ok.
  destruct (endswith path ".tflite");
    [intros H; inversion H; subst; split; [auto | discriminate] |].
  destruct (endswith path ".mnn");
    [intros H; inversion H; subst; split; [auto | eauto] |].
  destruct (endswith path ".pb");
    [intros H; inversion H; subst; split; [auto | discriminate] |].
  destruct (endswith path ".h5");
    [intros H; inversion H; subst; split; [auto | discriminate] |].
  discriminate.
Qed.

End Loading.

Section Backends.

Lemma hourglass_predict_keras_eq (m : keras_model) (img : ndarray) :
  hourglass_predict_keras (KerasModel m) img
  = ([EvInference "model.predict" img],
     rbind (match keras_predict m img with
            | PredictionList l => getitem_last l
            | PredictionArray a => Ok a
            end) nd_getitem0).
Proof.
  unfold hourglass_predict_keras. rewrite bind_emit, bind_lift.
  destruct (keras_predict m img) as [l | a].
  - destruct (getitem_last l) as [a | e]; simpl; [| reflexivity].
    now destruct (nd_getitem0 a).
  - simpl. now destruct (nd_getitem0 a).
Qed.

Lemma hourglass_predict_tflite_eq (itp : tflite_interpreter) (img : ndarray)
    (input0 : tensor_detail) :
  nth_error (get_input_details itp) 0 = Some input0 ->
  (3 <= List.length (detail_shape input0))%nat ->
  hourglass_predict_tflite astype_float32 (TFLiteInterpreter itp) img
  = ([EvInference "interpreter.invoke" (astype_float32 img)],
     rbind (getitem_last
              (map (fun output_detail =>
                      tflite_invoke itp (detail_index input0)
                                    (astype_float32 img)
                                    (detail_index output_detail))
                   (get_output_details itp)))
           nd_getitem0).
Proof.
  intros H0 Hsh. unfold hourglass_predict_tflite.
  rewrite (getitem_Some _ _ _ H0).
  destruct (getitem_lt (detail_shape input0) 1) as (hh & _ & Hh); [lia |].
  destruct (getitem_lt (detail_shape input0) 2) as (ww & _ & Hw); [lia |].
  repeat (rewrite ?bind_lift, ?Hh, ?Hw; cbv beta iota).
  rewrite bind_emit.
  destruct (getitem_last _) as [a | e]; simpl; [| reflexivity].
  now destruct (nd_getitem0 a).
Qed.

Lemma hourglass_predict_pb_eq (g : tf_graph) (img : ndarray) :
  has_tensor g "graph/image_input:0" = true ->
  has_tensor g "graph/1_conv_1x1_parts/BiasAdd:0" = true ->
  hourglass_predict_pb (TFGraph g) img
  = ([EvInference "sess.run" img],
     nd_getitem0 (sess_run g "graph/1_conv_1x1_parts/BiasAdd:0"
                           "graph/image_input:0" img)).
Proof.
  intros Hi Ho. unfold hourglass_predict_pb. rewrite Hi, Ho. simpl negb. cbv iota.
  rewrite bind_emit. simpl. now destruct (nd_getitem0 _).
Qed.

(** A runtime that returns has been called exactly once, on the image of
    the sample. *)
Lemma predict_heatmap_Ok_trace (model : model_object) (model_format : string)
    (img : ndarray) (tr : list event) (heatmap : ndarray) :
  predict_heatmap astype_float32 model model_format tt img = (tr, Ok heatmap) ->
  inference_images tr = [fed_image astype_float32 model_format img].
Proof.
  unfold predict_heatmap, fed_image.
  destruct (String.eqb model_format "TFLITE").
  { unfold hourglass_predict_tflite. destruct model; try discriminate.
    intros H. do 6 bind_inv H. bind_inv H.
    apply lift_Ok_inv in H. destruct H as [_ ->]. reflexivity. }
  destruct (String.eqb model_format "MNN").
  { unfold hourglass_predict_mnn. destruct model; try discriminate.
    intros H. do 10 bind_inv H.
    apply lift_Ok_inv in H. destruct H as [_ ->]. reflexivity. }
  destruct (String.eqb model_format "PB").
  { unfold hourglass_predict_pb. destruct model; try discriminate.
    destruct (negb _); [discriminate |]. destruct (negb _); [discriminate |].
    intros H. bind_inv H.
    apply lift_Ok_inv in H. destruct H as [_ ->]. reflexivity. }
  destruct (String.eqb model_format "H5"); [| discriminate].
  unfold hourglass_predict_keras. destruct model; try discriminate.
  intros H. do 2 bind_inv H.
  apply lift_Ok_inv in H. destruct H as [_ ->]. reflexivity.
Qed.

Lemma getitem_last_app {A} (l : list A) (a : A) : getitem_last (l ++ [a]) = Ok a.
Proof. unfold getitem_last. now rewrite rev_app_distr. Qed.

Lemma hourglass_predict_mnn_eq (itp : mnn_interpreter) (img : ndarray) :
  mnn_input_ok itp img ->
  hourglass_predict_mnn (MNNInterpreter itp) tt img
  = ([EvInference "interpreter.runSession" img],
     let output_tensor := runSession itp (data img) in
     if halide_type_eqb (getDataType output_tensor) Halide_Type_Float then
       (try output_elementsize <- reduce_mul (getShape output_tensor) ;;
        try _ <- np_reshape_rows_ok (shape_size (getShape output_tensor))
                                    output_elementsize ;;
        try _ <- MNN_Tensor_rows_ok (shape_size (getShape output_tensor))
                                    output_elementsize ;;
        try output_data <- np_reshape (getData output_tensor)
                                      (getShape output_tensor) ;;
        try output_data <-
          (if dimension_type_eqb (getDimensionType output_tensor)
                                 Tensor_DimensionType_Caffe
           then np_transpose_0231 output_data
           else if dimension_type_eqb (getDimensionType output_tensor)
                                      Tensor_DimensionType_Caffe_C4
           then Raise (ValueError "unsupported output tensor dimension type")
           else Ok output_data) ;;
        nd_getitem0 output_data)%result
     else Raise (AssertionError EmptyString)).
Proof.
  intros (n & Hn & Hrows & Hone). unfold hourglass_predict_mnn.
  rewrite Hn. cbn [bind lift app]. rewrite Hrows. cbn [bind lift app].
  unfold MNN_Tensor_rows_ok at 1. rewrite Hone, Nat.eqb_refl.
  cbv zeta. clear Hn Hrows Hone.
  cbn [bind lift emit app].
  destruct (halide_type_eqb _ _); cbn [bind lift emit app]; [| reflexivity].
  destruct (reduce_mul _) as [sz | e]; cbn [bind lift app rbind]; [| reflexivity].
  destruct (np_reshape_rows_ok _ sz) as [u | e]; cbn [bind lift app rbind];
    [| reflexivity].
  destruct (MNN_Tensor_rows_ok _ sz) as [u' | e]; cbn [bind lift app rbind];
    [| reflexivity].
  destruct (np_reshape _ _) as [od | e]; cbn [bind lift app rbind]; [| reflexivity].
  destruct (if dimension_type_eqb _ _ then _ else _) as [od' | e];
    cbn [bind lift app rbind]; reflexivity.
Qed.

(** The checks between the session and the layout test pass on a
    well-formed output. *)
Lemma mnn_output_ok_reshape (out : mnn_tensor) (d0 d1 d2 d3 : nat) :
  mnn_output_ok out d0 d1 d2 d3 ->
  halide_type_eqb (getDataType out) Halide_Type_Float = true
  /\ reduce_mul (getShape out) = Ok (shape_size (getShape out))
  /\ np_reshape_rows_ok (shape_size (getShape out)) (shape_size (getShape out))
     = Ok tt
  /\ MNN_Tensor_rows_ok (shape_size (getShape out)) (shape_size (getShape out))
     = Ok tt
  /\ np_reshape (getData out) (getShape out)
     = Ok (mkArray [d0; d1; d2; d3] (getData out))
  /\ (0 < d0)%nat.
Proof.
  intros (Ht & Hs & Hpos & Hlen). rewrite Ht, Hs.
  assert (Hsz : shape_size [d0; d1; d2; d3] = (d0 * (d1 * (d2 * d3)))%nat)
    by (simpl; lia).
  split; [reflexivity |]. split; [apply reduce_mul_shape_size |].
  split; [| split; [| split]].
  - unfold np_reshape_rows_ok. rewrite Hsz.
    destruct (Nat.eqb_spec (d0 * (d1 * (d2 * d3))) 0) as [E | E]; [lia |].
    now rewrite Nat.Div0.mod_same.
  - unfold MNN_Tensor_rows_ok. now rewrite Nat.eqb_refl.
  - unfold np_reshape. now rewrite Hsz, Hlen, Nat.eqb_refl.
  - destruct d0; [simpl in Hpos; lia | lia].
Qed.

Lemma hourglass_predict_mnn_layouts (itp : mnn_interpreter) (img : ndarray)
    (d0 d1 d2 d3 : nat) :
  mnn_input_ok itp img ->
  mnn_output_ok (runSession itp (data img)) d0 d1 d2 d3 ->
  outcome (hourglass_predict_mnn (MNNInterpreter itp) tt img)
  = match getDimensionType (runSession itp (data img)) with
    | Tensor_DimensionType_Tensorflow =>
        nd_getitem0 (mkArray [d0; d1; d2; d3] (getData (runSession itp (data img))))
    | Tensor_DimensionType_Caffe =>
        rbind (np_transpose_0231
                 (mkArray [d0; d1; d2; d3] (getData (runSession itp (data img)))))
              nd_getitem0
    | Tensor_DimensionType_Caffe_C4 =>
        Raise (ValueError "unsupported output tensor dimension type")
    end.
Proof.
  intros Hin Hout. rewrite (hourglass_predict_mnn_eq _ _ Hin).
  destruct (mnn_output_ok_reshape _ _ _ _ _ Hout)
    as (Ht & Hr & Hrows & Hone & Hresh & _).
  cbn [outcome snd]. cbv zeta. rewrite Ht, Hr. cbn [rbind].
  rewrite Hrows. cbn [rbind]. rewrite Hone. cbn [rbind].
  rewrite Hresh. cbn [rbind].
  destruct (getDimensionType (runSession itp (data img))); reflexivity.
Qed.

Lemma predict_heatmap_events (b : bool) (model : model_object)
    (model_format : string) (img : ndarray) :
  Forall (fun e => eval_event_ok b e = true)
         (trace (predict_heatmap astype_float32 model model_format tt img)).
Proof.
  unfold predict_heatmap.
  destruct (String.eqb model_format "TFLITE").
  { unfold hourglass_predict_tflite. destruct model; trace_forall. }
  destruct (String.eqb model_format "MNN").
  { unfold hourglass_predict_mnn. destruct model; trace_forall. }
  destruct (String.eqb model_format "PB").
  { unfold hourglass_predict_pb. destruct model; trace_forall.
    destruct (negb _); trace_forall. destruct (negb _); trace_forall. }
  destruct (String.eqb model_format "H5"); trace_forall.
  unfold hourglass_predict_keras. destruct model; trace_forall.
Qed.

(** C7. The four predict functions return the same thing: the heatmap of
    batch element 0, channel last.  Keras and TFLite take the last output
    of a model with several outputs, the frozen graph its one output
    tensor, and MNN transposes a channel-first (Caffe) output to channel
    last. *)
Theorem predict_uniform_contract :
  (forall m img outputs final,
      keras_predict m img = PredictionList (outputs ++ [final]) ->
      hourglass_predict_keras (KerasModel m) img
      = ([EvInference "model.predict" img], nd_getitem0 final))
  /\ (forall m img output,
         keras_predict m img = PredictionArray output ->
         hourglass_predict_keras (KerasModel m) img
         = ([EvInference "model.predict" img], nd_getitem0 output))
  /\ (forall itp img input0 details final,
         nth_error (get_input_details itp) 0 = Some input0 ->
         (3 <= List.length (detail_shape input0))%nat ->
         get_output_details itp = details ++ [final] ->
         hourglass_predict_tflite astype_float32 (TFLiteInterpreter itp) img
         = ([EvInference "interpreter.invoke" (astype_float32 img)],
            nd_getitem0 (tflite_invoke itp (detail_index input0)
                                       (astype_float32 img)
                                       (detail_index final))))
  /\ (forall g img,
         has_tensor g "graph/image_input:0" = true ->
         has_tensor g "graph/1_conv_1x1_parts/BiasAdd:0" = true ->
         hourglass_predict_pb (TFGraph g) img
         = ([EvInference "sess.run" img],
            nd_getitem0 (sess_run g "graph/1_conv_1x1_parts/BiasAdd:0"
                                  "graph/image_input:0" img)))
  /\ (forall itp img n h w c,
         mnn_input_ok itp img ->
         mnn_output_ok (runSession itp (data img)) n h w c ->
         getDimensionType (runSession itp (data img))
         = Tensor_DimensionType_Tensorflow ->
         hourglass_predict_mnn (MNNInterpreter itp) tt img
         = ([EvInference "interpreter.runSession" img],
            nd_getitem0 (mkArray [n; h; w; c]
                                 (getData (runSession itp (data img))))))
  /\ (forall itp img n c h w,
         mnn_input_ok itp img ->
         mnn_output_ok (runSession itp (data img)) n c h w ->
         getDimensionType (runSession itp (data img))
         = Tensor_DimensionType_Caffe ->
         exists heatmap,
           hourglass_predict_mnn (MNNInterpreter itp) tt img
           = ([EvInference "interpreter.runSession" img], Ok heatmap)
           /\ shape heatmap = [h; w; c]
           /\ forall y x k,
                (y < h)%nat -> (x < w)%nat -> (k < c)%nat ->
                nd_get heatmap [y; x; k]
                = nd_get (mkArray [n; c; h; w]
                                  (getData (runSession itp (data img))))
                         [0; k; y; x]%nat).
Proof.
  repeat split.
  - intros m img outputs final H.
    rewrite hourglass_predict_keras_eq, H, getitem_last_app. reflexivity.
  - intros m img output H.
    rewrite hourglass_predict_keras_eq, H. reflexivity.
  - intros itp img input0 details final H0 Hsh Hout.
    rewrite (hourglass_predict_tflite_eq _ _ _ H0 Hsh), Hout, map_app.
    simpl map. rewrite getitem_last_app. reflexivity.
  - intros g img Hi Ho. now apply hourglass_predict_pb_eq.
  - intros itp img n h w c Hin Hout Hdim.
    rewrite (M_eta (hourglass_predict_mnn _ _ _)).
    rewrite (hourglass_predict_mnn_layouts _ _ _ _ _ _ Hin Hout), Hdim.
    rewrite (hourglass_predict_mnn_eq _ _ Hin). reflexivity.
  - intros itp img n c h w Hin Hout Hdim.
    destruct (mnn_output_ok_reshape _ _ _ _ _ Hout)
      as (_ & _ & _ & _ & _ & Hpos).
    destruct (np_transpose_0231_getitem0 n c h w
                (getData (runSession itp (data img))) Hpos)
      as (heatmap & Hh & Hshape & Hget).
    exists heatmap. split; [| split; assumption].
    rewrite (M_eta (hourglass_predict_mnn _ _ _)).
    rewrite (hourglass_predict_mnn_layouts _ _ _ _ _ _ Hin Hout), Hdim, Hh.
    rewrite (hourglass_predict_mnn_eq _ _ Hin). reflexivity.
Qed.

End Backends.

Section Loop.

Variable model : model_object.
Variable model_format : string.
Variable eval_dataset : hourglass_dataset_t.
Variable class_names : list string.
Variables score_threshold normalize conf_threshold : float64.
Variable save_result : bool.
Variable skeleton_lines : option skeleton.

Local Abbreviation step :=
  (eval_sample astype_float32 post_process_heatmap invert_transform_kp
               skeleton model model_format class_names score_threshold
               normalize conf_threshold save_result skeleton_lines tt).
Local Abbreviation loop :=
  (eval_loop astype_float32 post_process_heatmap invert_transform_kp
             skeleton model model_format eval_dataset class_names
             score_threshold normalize conf_threshold save_result
             skeleton_lines).
Local Abbreviation gen := (eval_generator eval_dataset).
Local Abbreviation size := (get_dataset_size eval_dataset).

(** Whatever the loop returns, it has run some steps without an
    exception and then either stopped or met an exception in a step. *)
Lemma eval_loop_inv :
  forall (fuel k : nat) (c : counters) (tr : list event) (r : result counters),
    loop fuel tt k (Z.of_nat k) c = Some (tr, r) ->
    exists k' c1 tr1,
      loop_run step gen size k c tr1 k' c1
      /\ ((r = Ok c1 /\ tr = tr1 /\ loop_stops gen size k')
          \/ (exists smp tr2 e,
                 gen k' = Some smp
                 /\ Z.of_nat k' + batch_size <= size
                 /\ step smp c1 = (tr2, Raise e)
                 /\ r = Raise e /\ tr = tr1 ++ tr2)).
Proof.
  induction fuel as [| fuel IH]; intros k c tr r H; [discriminate |].
  cbn [eval_loop] in H.
  destruct (gen k) as [smp |] eqn:Eg.
  - destruct (Z.of_nat k + batch_size >? size) eqn:Ec.
    + inversion H; subst. exists k, c, []. split; [constructor |].
      left. repeat split. right. apply Z.gtb_lt in Ec. lia.
    + assert (Hle : Z.of_nat k + batch_size <= size).
      { destruct (Z.gtb_spec (Z.of_nat k + batch_size) size); [discriminate | lia]. }
      destruct (step smp c) as [tr1 [c1 | e]] eqn:Es; cbn [obind] in H.
      * replace (Z.of_nat k + batch_size) with (Z.of_nat (S k)) in H
          by (unfold batch_size; lia).
        destruct (loop fuel tt (S k) (Z.of_nat (S k)) c1) as [[tr2 r2] |] eqn:El;
          [| discriminate].
        inversion H; subst. clear H.
        destruct (IH _ _ _ _ El) as (k' & c2 & tr3 & Hrun & Hend).
        exists k', c2, (tr1 ++ tr3). split.
        -- econstructor; eassumption.
        -- destruct Hend as [(-> & -> & Hstop) | (smp' & tr4 & e & H1 & H2 & H3 & -> & ->)].
           ++ left. auto.
           ++ right. exists smp', tr4, e. repeat split; auto.
              now rewrite app_assoc.
      * inversion H; subst. exists k, c, []. split; [constructor |].
        right. exists smp, tr, e. repeat split; auto.
  - inversion H; subst. exists k, c, []. split; [constructor |].
    left. repeat split. now left.
Qed.

(** The loop needs at most one iteration more than there are samples
    left in the dataset. *)
Lemma eval_loop_terminates :
  forall (fuel k : nat) (c : counters),
    (Z.to_nat (size - Z.of_nat k) < fuel)%nat ->
    loop fuel tt k (Z.of_nat k) c <> None.
Proof.
  induction fuel as [| fuel IH]; intros k c Hf; [lia |].
  cbn [eval_loop].
  destruct (gen k) as [smp |]; [| discriminate].
  destruct (Z.gtb_spec (Z.of_nat k + batch_size) size) as [Hgt | Hle];
    [discriminate |].
  destruct (step smp c) as [tr1 [c1 | e]]; cbn [obind]; [| discriminate].
  replace (Z.of_nat k + batch_size) with (Z.of_nat (S k))
    by (unfold batch_size; lia).
  specialize (IH (S k) c1).
  destruct (loop fuel tt (S k) (Z.of_nat (S k)) c1) as [[tr2 r2] |];
    [discriminate |].
  apply IH. unfold batch_size in Hle. lia.
Qed.

Lemma loop_run_le (k k' : nat) (c c' : counters) (tr : list event) :
  loop_run step gen size k c tr k' c' ->
  (k <= k')%nat /\ Z.of_nat k' <= Z.max size (Z.of_nat k)
  /\ forall j, (k <= j < k')%nat -> gen j <> None.
Proof.
  induction 1 as [k c | k c smp tr1 c1 tr2 k' c' Hg Hs Hstep Hrun IH].
  - repeat split; try lia.
  - destruct IH as (H1 & H2 & H3). unfold batch_size in Hs.
    repeat split; try lia.
    intros j Hj. destruct (Nat.eq_dec j k) as [-> | Hne].
    + congruence.
    + apply H3. lia.
Qed.

(** What a step that returns has done. *)
Lemma eval_sample_Ok_inv (smp : sample) (c c' : counters) (tr : list event) :
  step smp c = (tr, Ok c') ->
  exists tr_h heatmap m0 result_list,
    predict_heatmap astype_float32 model model_format tt (image_data smp)
    = (tr_h, Ok heatmap)
    /\ nth_error (metainfo smp) 0 = Some m0
    /\ keypoint_accuracy (post_process_heatmap heatmap conf_threshold)
                         (meta_tpts m0) score_threshold normalize
       = Ok result_list
    /\ update_counters (enumerate class_names) result_list c = Ok c'.
Proof.
  unfold eval_sample. intros H.
  apply bind_Ok_inv in H. destruct H as (tr_h & heatmap & tr2 & Hh & H & _).
  apply bind_Ok_inv in H. destruct H as (tr3 & m0 & tr4 & Hm & H & _).
  apply lift_Ok_inv in Hm. destruct Hm as [Hm _].
  apply bind_Ok_inv in H. destruct H as (tr5 & rl & tr6 & Hrl & H & _).
  apply lift_Ok_inv in Hrl. destruct Hrl as [Hrl _].
  apply bind_Ok_inv in H. destruct H as (tr7 & c1 & tr8 & Hc & H & _).
  apply lift_Ok_inv in Hc. destruct Hc as [Hc _].
  apply bind_Ok_inv in H. destruct H as (tr9 & u & tr10 & _ & H & _).
  apply bind_Ok_inv in H. destruct H as (tr11 & u' & tr12 & _ & H & _).
  apply ret_inv in H. destruct H as [_ H]. inversion H; subst c1.
  exists tr_h, heatmap, m0, rl. repeat split; auto.
  unfold Py.getitem in Hm. destruct (nth_error (metainfo smp) 0); congruence.
Qed.

Lemma nth_error_enumerate {A} (l : list A) (i : nat) (a : A) :
  nth_error l i = Some a -> In (i, a) (enumerate l).
Proof.
  unfold enumerate. intros H.
  assert (G : forall (l : list A) start i a,
             nth_error l i = Some a ->
             In ((start + i)%nat, a) (combine (seq start (List.length l)) l)).
  { clear. induction l as [| x l IH]; intros start i a H.
    - destruct i; discriminate.
    - destruct i as [| i]; simpl in *.
      + inversion H; subst. left. f_equal. lia.
      + right. replace (start + S i)%nat with (S start + i)%nat by lia.
        now apply IH. }
  exact (G l 0%nat i a H).
Qed.

(** One step computes the list of the results of the keypoints, and
    changes the counters of the class at index [i] by the result at index
    [i], which is [check_pred_keypoints] of the [i]-th predicted and
    ground-truth keypoints: the succeed counter grows by one on 1, the fail
    counter by one on 0, neither on -1; and the result is -1 exactly on an
    invalid ground-truth keypoint. *)
Lemma eval_sample_counters (smp : sample) (c c' : counters) (tr : list event) :
  NoDup class_names ->
  step smp c = (tr, Ok c') ->
  exists tr_h heatmap m0 result_list,
    predict_heatmap astype_float32 model model_format tt (image_data smp)
    = (tr_h, Ok heatmap)
    /\ nth_error (metainfo smp) 0 = Some m0
    /\ keypoint_accuracy (post_process_heatmap heatmap conf_threshold)
                         (meta_tpts m0) score_threshold normalize
       = Ok result_list
    /\ forall i name,
         nth_error class_names i = Some name ->
         exists r p g,
           nth_error result_list i = Some r
           /\ nth_error (post_process_heatmap heatmap conf_threshold) i = Some p
           /\ nth_error (meta_tpts m0) i = Some g
           /\ r = check_pred_keypoints p g score_threshold normalize
           /\ is_check_result r
           /\ (r = -1 <-> gt_valid smp i = false)
           /\ PyDict.get (succeed_dict c') name
              = option_map (fun v => v + (if r =? 1 then 1 else 0))
                           (PyDict.get (succeed_dict c) name)
           /\ PyDict.get (fail_dict c') name
              = option_map (fun v => v + (if r =? 0 then 1 else 0))
                           (PyDict.get (fail_dict c) name).
Proof.
  intros Hnd H.
  destruct (eval_sample_Ok_inv _ _ _ _ H)
    as (tr_h & heatmap & m0 & rl & Hh & Hm & Hrl & Hc).
  exists tr_h, heatmap, m0, rl.
  split; [exact Hh |]. split; [exact Hm |]. split; [exact Hrl |].
  intros i name Hi.
  pose proof (update_counters_getitem _ _ _ _ Hc i name
                (nth_error_enumerate _ _ _ Hi)) as Hget.
  destruct (nth_error rl i) as [r |] eqn:Er; [| congruence].
  destruct (update_counters_spec _ _ _ _ Hc name) as [Hs Hf].
  unfold enumerate in Hs, Hf.
  rewrite (hits_NoDup 1 rl class_names 0 i name Hnd Hi) in Hs.
  rewrite (hits_NoDup 0 rl class_names 0 i name Hnd Hi) in Hf.
  simpl in Hs, Hf. rewrite Er in Hs, Hf.
  (* the result list, by the specification of keypoint_accuracy *)
  pose proof (keypoint_accuracy_Ok_length _ _ _ _ _ Hrl) as Hlen.
  destruct (keypoint_accuracy_ok _ _ score_threshold normalize Hlen)
    as (rl' & Hrl' & Hlen' & Hrange & Hnth).
  rewrite Hrl in Hrl'. inversion Hrl'; subst rl'. clear Hrl'.
  assert (Hilt : (i < List.length (meta_tpts m0))%nat).
  { rewrite <- Hlen'. apply nth_error_Some. congruence. }
  destruct (nth_error (meta_tpts m0) i) as [g |] eqn:Eg;
    [| apply nth_error_None in Eg; lia].
  destruct (nth_error (post_process_heatmap heatmap conf_threshold) i)
    as [p |] eqn:Ep; [| apply nth_error_None in Ep; lia].
  specialize (Hnth i p g Ep Eg). rewrite Er in Hnth.
  inversion Hnth as [Hr]. clear Hnth.
  exists r, p, g.
  split; [now rewrite Hr |]. split; [reflexivity |]. split; [reflexivity |].
  split; [exact Hr |]. split; [| split; [| split]].
  - apply Hrange. eapply nth_error_In; eassumption.
  - unfold gt_valid. destruct (metainfo smp) as [| m1 ms]; [discriminate |].
    simpl in Hm. inversion Hm; subst m1. rewrite Eg, Hr.
    apply check_pred_keypoints_invalid_iff.
  - rewrite Hs. destruct (PyDict.get (succeed_dict c) name); simpl; [| reflexivity].
    f_equal.
  - rewrite Hf. destruct (PyDict.get (fail_dict c) name); simpl; [| reflexivity].
    f_equal.
Qed.

Lemma init_counters_get (name : string) :
  In name class_names ->
  PyDict.get (succeed_dict (init_counters class_names)) name = Some 0
  /\ PyDict.get (fail_dict (init_counters class_names)) name = Some 0.
Proof.
  intros H. unfold init_counters. simpl.
  split; now apply PyDictFacts.get_from_keys.
Qed.

(** Along the loop, the two counters of a class only grow, and their sum
    grows by the number of valid ground-truth keypoints of the class. *)
Lemma loop_run_counters (k k' : nat) (c c' : counters) (tr : list event) :
  NoDup class_names ->
  loop_run step gen size k c tr k' c' ->
  forall i name s f,
    nth_error class_names i = Some name ->
    PyDict.get (succeed_dict c) name = Some s ->
    PyDict.get (fail_dict c) name = Some f ->
    exists s' f',
      PyDict.get (succeed_dict c') name = Some s'
      /\ PyDict.get (fail_dict c') name = Some f'
      /\ s <= s' /\ f <= f'
      /\ s' + f' = s + f + (valid_count gen i k' - valid_count gen i k).
Proof.
  intros Hnd Hrun.
  induction Hrun as [k c | k c smp tr1 c1 tr2 k' c' Hg Hs Hstep Hrun IH];
    intros i name s f Hi Hgs Hgf.
  - exists s, f. repeat split; auto; lia.
  - destruct (eval_sample_counters _ _ _ _ Hnd Hstep)
      as (tr_h & hm & m0 & rl & _ & _ & _ & Hall).
    destruct (Hall i name Hi)
      as (r & p & g & _ & _ & _ & _ & Hr & Hvalid & Hs1 & Hf1).
    rewrite Hgs in Hs1. rewrite Hgf in Hf1. simpl in Hs1, Hf1.
    destruct (IH i name _ _ Hi Hs1 Hf1) as (s' & f' & Hs' & Hf' & Hles & Hlef & Hsum).
    exists s', f'. split; [exact Hs' |]. split; [exact Hf' |].
    assert (Hv : valid_count gen i (S k)
                 = valid_count gen i k + (if gt_valid smp i then 1 else 0)).
    { simpl. now rewrite Hg. }
    destruct Hr as [-> | [-> | ->]]; simpl in *.
    + assert (E : gt_valid smp i = false) by (now apply Hvalid).
      rewrite E in Hv. repeat split; lia.
    + destruct (gt_valid smp i) eqn:E.
      * repeat split; lia.
      * exfalso. assert (0 = -1) by (now apply Hvalid). discriminate.
    + destruct (gt_valid smp i) eqn:E.
      * repeat split; lia.
      * exfalso. assert (1 = -1) by (now apply Hvalid). discriminate.
Qed.

Lemma loop_run_counters_init (k : nat) (c : counters) (tr : list event) :
  NoDup class_names ->
  loop_run step gen size 0 (init_counters class_names) tr k c ->
  forall i name,
    nth_error class_names i = Some name ->
    exists s f,
      PyDict.get (succeed_dict c) name = Some s
      /\ PyDict.get (fail_dict c) name = Some f
      /\ 0 <= s /\ 0 <= f
      /\ s + f = valid_count gen i k.
Proof.
  intros Hnd Hrun i name Hi.
  destruct (init_counters_get name) as [Hs Hf];
    [eapply nth_error_In; eassumption |].
  destruct (loop_run_counters _ _ _ _ _ Hnd Hrun i name 0 0 Hi Hs Hf)
    as (s & f & Hs' & Hf' & H1 & H2 & H3).
  exists s, f. simpl in H3. repeat split; auto; lia.
Qed.

(** C5. The counters of [eval_PCK] start at 0 for every class.  A sample
    that is processed has its list of results computed by
    [keypoint_accuracy] from the predicted and the ground-truth keypoints;
    the result of the class at index [i] is the element [i] of that list,
    which is [check_pred_keypoints] of the [i]-th keypoints, and the sample
    adds one to the succeed counter of the class when this result is 1, one
    to its fail counter when it is 0, and nothing when it is -1, which
    marks an invalid ground truth; so after any number of samples the two
    counters of a class sum up to the number of its valid ground-truth
    keypoints among them.  A class is a key of the two dictionaries, and
    its keypoint is the one at its index in [class_names]: the names are
    pairwise distinct. *)
Theorem eval_PCK_counters :
  NoDup class_names ->
  (forall name,
      In name class_names ->
      PyDict.get (succeed_dict (init_counters class_names)) name = Some 0
      /\ PyDict.get (fail_dict (init_counters class_names)) name = Some 0)
  /\ (forall smp c tr c',
         step smp c = (tr, Ok c') ->
         exists tr_h heatmap m0 result_list,
           predict_heatmap astype_float32 model model_format tt (image_data smp)
           = (tr_h, Ok heatmap)
           /\ nth_error (metainfo smp) 0 = Some m0
           /\ keypoint_accuracy (post_process_heatmap heatmap conf_threshold)
                                (meta_tpts m0) score_threshold normalize
              = Ok result_list
           /\ forall i name,
                nth_error class_names i = Some name ->
                exists r p g,
                  nth_error result_list i = Some r
                  /\ nth_error (post_process_heatmap heatmap conf_threshold) i
                     = Some p
                  /\ nth_error (meta_tpts m0) i = Some g
                  /\ r = check_pred_keypoints p g score_threshold normalize
                  /\ (r = -1 \/ r = 0 \/ r = 1)
                  /\ (r = -1 <-> gt_valid smp i = false)
                  /\ PyDict.get (succeed_dict c') name
                     = option_map (fun v => v + (if r =? 1 then 1 else 0))
                                  (PyDict.get (succeed_dict c) name)
                  /\ PyDict.get (fail_dict c') name
                     = option_map (fun v => v + (if r =? 0 then 1 else 0))
                                  (PyDict.get (fail_dict c) name))
  /\ (forall k tr c,
         loop_run step gen size 0 (init_counters class_names) tr k c ->
         forall i name,
           nth_error class_names i = Some name ->
           exists s f,
             PyDict.get (succeed_dict c) name = Some s
             /\ PyDict.get (fail_dict c) name = Some f
             /\ s + f = valid_count gen i k)
  /\ (forall fuel tr c,
         loop fuel tt 0 0 (init_counters class_names) = Some (tr, Ok c) ->
         exists k,
           loop_run step gen size 0 (init_counters class_names) tr k c
           /\ loop_stops gen size k).
Proof.
  intros Hnd. split; [| split; [| split]].
  - apply init_counters_get.
  - intros smp c tr c' H.
    exact (eval_sample_counters smp c c' tr Hnd H).
  - intros k tr c Hrun i name Hi.
    destruct (loop_run_counters_init k c tr Hnd Hrun i name Hi)
      as (s & f & Hs & Hf & _ & _ & Hsum).
    exists s, f. auto.
  - intros fuel tr c H.
    destruct (eval_loop_inv fuel 0 _ _ _ H) as (k & c1 & tr1 & Hrun & Hend).
    destruct Hend as [(E & -> & Hstop) | (smp & tr2 & e & _ & _ & _ & E & _)];
      [| discriminate].
    inversion E; subst c1. exists k. auto.
Qed.

Local Abbreviation finish := (eval_finish class_names score_threshold save_result).
Local Abbreviation evalPCK :=
  (eval_PCK astype_float32 post_process_heatmap invert_transform_kp
            skeleton model model_format eval_dataset class_names
            score_threshold normalize conf_threshold save_result
            skeleton_lines).
Local Abbreviation init := (init_counters class_names).

Lemma eval_sample_keys (smp : sample) (c c' : counters) (tr : list event) :
  step smp c = (tr, Ok c') ->
  PyDict.keys (succeed_dict c') = PyDict.keys (succeed_dict c)
  /\ PyDict.keys (fail_dict c') = PyDict.keys (fail_dict c).
Proof.
  intros H.
  destruct (eval_sample_Ok_inv _ _ _ _ H) as (? & ? & ? & rl & _ & _ & _ & Hc).
  exact (update_counters_keys _ _ _ _ Hc).
Qed.

Lemma eval_sample_nonneg (smp : sample) (c c' : counters) (tr : list event) :
  step smp c = (tr, Ok c') -> nonneg_counters c -> nonneg_counters c'.
Proof.
  intros H.
  destruct (eval_sample_Ok_inv _ _ _ _ H) as (? & ? & ? & rl & _ & _ & _ & Hc).
  exact (update_counters_nonneg _ _ _ _ Hc).
Qed.

Lemma loop_run_keys (k k' : nat) (c c' : counters) (tr : list event) :
  loop_run step gen size k c tr k' c' ->
  PyDict.keys (succeed_dict c') = PyDict.keys (succeed_dict c)
  /\ PyDict.keys (fail_dict c') = PyDict.keys (fail_dict c).
Proof.
  induction 1 as [k c | k c smp tr1 c1 tr2 k' c' Hg Hs Hstep Hrun IH]; [auto |].
  destruct (eval_sample_keys _ _ _ _ Hstep) as [E1 E2].
  destruct IH as [E3 E4]. split; congruence.
Qed.

Lemma loop_run_nonneg (k k' : nat) (c c' : counters) (tr : list event) :
  loop_run step gen size k c tr k' c' ->
  nonneg_counters c -> nonneg_counters c'.
Proof.
  induction 1 as [k c | k c smp tr1 c1 tr2 k' c' Hg Hs Hstep Hrun IH]; [auto |].
  intros Hc. apply IH. eapply eval_sample_nonneg; eassumption.
Qed.

Lemma init_counters_nonneg : nonneg_counters init.
Proof. split; apply nonneg_dict_from_keys. Qed.

(** Every class keeps its two counters from the start of the loop on. *)
Lemma loop_run_has_counters (k : nat) (c : counters) (tr : list event) :
  loop_run step gen size 0 init tr k c ->
  forall name, In name class_names ->
               exists s f, has_counters c name s f /\ 0 <= s /\ 0 <= f.
Proof.
  intros Hrun name Hin.
  destruct (loop_run_keys _ _ _ _ _ Hrun) as [Ks Kf].
  destruct (loop_run_nonneg _ _ _ _ _ Hrun init_counters_nonneg) as [Ns Nf].
  destruct (init_counters_get name Hin) as [Is If].
  assert (Hs : PyDict.get (succeed_dict c) name <> None).
  { apply PyDictFacts.get_In_keys. rewrite Ks.
    apply PyDictFacts.get_In_keys. congruence. }
  assert (Hf : PyDict.get (fail_dict c) name <> None).
  { apply PyDictFacts.get_In_keys. rewrite Kf.
    apply PyDictFacts.get_In_keys. congruence. }
  destruct (PyDict.get (succeed_dict c) name) as [s |] eqn:Es; [| congruence].
  destruct (PyDict.get (fail_dict c) name) as [f |] eqn:Ef; [| congruence].
  exists s, f. repeat split; auto.
  - exact (nonneg_dict_get _ _ _ Ns Es).
  - exact (nonneg_dict_get _ _ _ Nf Ef).
Qed.

(** [eval_PCK], unfolded: the session, the loop, the accuracies. *)
Lemma eval_PCK_eq (fuel : nat) :
  evalPCK fuel
  = if String.eqb model_format "MNN" && negb (is_mnn_interpreter model)
    then Some ([], Raise AttributeError)
    else match loop fuel tt 0 0 init with
         | None => None
         | Some (trl, Ok c) =>
             Some (EvPbarOpen size :: trl ++ trace (finish c), outcome (finish c))
         | Some (trl, Raise e) => Some (EvPbarOpen size :: trl, Raise e)
         end.
Proof.
  unfold eval_PCK.
  assert (E : (if String.eqb model_format "MNN"
               then createSession model else ret tt)
              = if String.eqb model_format "MNN" && negb (is_mnn_interpreter model)
                then raise AttributeError else ret tt).
  { destruct (String.eqb model_format "MNN"); [| reflexivity].
    destruct model; reflexivity. }
  rewrite E.
  destruct (String.eqb model_format "MNN" && negb (is_mnn_interpreter model));
    [reflexivity |].
  cbn [ret obind emit]. 
  destruct (loop fuel tt 0 0 init) as [[trl [c | e]] |]; cbn [obind_loop bind].
  - destruct (finish c) as [trf r]. reflexivity.
  - reflexivity.
  - reflexivity.
Qed.

Lemma session_ok_eqb :
  session_ok model model_format ->
  String.eqb model_format "MNN" && negb (is_mnn_interpreter model) = false.
Proof.
  intros H. destruct (String.eqb model_format "MNN") eqn:E; [| reflexivity].
  apply String.eqb_eq in E. destruct (H E) as (itp & ->). reflexivity.
Qed.

Lemma eval_finish_Ok_inv (c : counters) (tr : list event)
    (total : option R) (acc : PyDict.t R) :
  finish c = (tr, Ok (total, acc)) ->
  accuracy_loop (enumerate class_names) c (PyDict.from_keys class_names 0%R)
  = Ok acc
  /\ total = np_true_divide
               (IZR (np_sum (PyDict.values (succeed_dict c))) * 1.0)%R
               (IZR (np_sum (PyDict.values (fail_dict c))
                     + np_sum (PyDict.values (succeed_dict c)))).
Proof.
  unfold eval_finish. intros H.
  apply bind_Ok_inv in H. destruct H as (tr1 & u & tr2 & _ & H & _).
  apply bind_Ok_inv in H. destruct H as (tr3 & acc' & tr4 & Ha & H & _).
  apply lift_Ok_inv in Ha. destruct Ha as [Ha _].
  apply bind_Ok_inv in H. destruct H as (tr5 & u' & tr6 & _ & H & _).
  apply ret_inv in H. destruct H as [_ H]. inversion H; subst. auto.
Qed.

Lemma eval_finish_Raise (c : counters) (e : exn) :
  accuracy_loop (enumerate class_names) c (PyDict.from_keys class_names 0%R)
  = Raise e ->
  finish c = ([EvPbarClose], Raise e).
Proof. unfold eval_finish. intros H. rewrite H. reflexivity. Qed.


Lemma loop_Ok_run (fuel : nat) (trl : list event) (c : counters) :
  loop fuel tt 0 0 init = Some (trl, Ok c) ->
  exists k, loop_run step gen size 0 init trl k c /\ loop_stops gen size k.
Proof.
  intros H.
  destruct (eval_loop_inv fuel 0 _ _ _ H) as (k & c1 & tr1 & Hrun & Hend).
  destruct Hend as [(E & -> & Hstop) | (smp & tr2 & e & _ & _ & _ & E & _)];
    [| discriminate].
  inversion E; subst c1. exists k. auto.
Qed.

Lemma eval_PCK_Ok_inv (fuel : nat) (tr : list event)
    (res : option R * PyDict.t R) :
  evalPCK fuel = Some (tr, Ok res) ->
  exists trl c,
    loop fuel tt 0 0 init = Some (trl, Ok c)
    /\ finish c = (trace (finish c), Ok res)
    /\ tr = EvPbarOpen size :: trl ++ trace (finish c).
Proof.
  rewrite eval_PCK_eq. intros H.
  destruct (String.eqb model_format "MNN" && negb (is_mnn_interpreter model));
    [discriminate |].
  destruct (loop fuel tt 0 0 init) as [[trl [c | e]] |]; try discriminate.
  inversion H as [[Htr Hout]]. exists trl, c. repeat split.
  destruct (finish c) as [trf r]. simpl in *. now subst.
Qed.

(** C2. When [eval_PCK] returns, the accuracy it reports for each class is
    the succeed counter of the class divided by the sum of its succeed and
    fail counters, and the total accuracy is the sum of all succeed
    counters divided by the sum of all succeed and all fail counters. *)
Theorem eval_PCK_accuracy (fuel : nat) (tr : list event)
    (total_accuracy : option R) (accuracy_dict : PyDict.t R) :
  evalPCK fuel = Some (tr, Ok (total_accuracy, accuracy_dict)) ->
  exists trl c,
    loop fuel tt 0 0 init = Some (trl, Ok c)
    /\ (forall name,
           In name class_names ->
           exists s f,
             has_counters c name s f /\ s + f <> 0
             /\ PyDict.get accuracy_dict name = Some (IZR s / IZR (s + f))%R)
    /\ (forall name,
           In name (PyDict.keys accuracy_dict) -> In name class_names)
    /\ let total_succeed := np_sum (PyDict.values (succeed_dict c)) in
       let total_fail := np_sum (PyDict.values (fail_dict c)) in
       total_accuracy
       = np_true_divide (IZR total_succeed) (IZR (total_succeed + total_fail))
       /\ (class_names <> [] ->
           total_succeed + total_fail <> 0
           /\ total_accuracy
              = Some (IZR total_succeed / IZR (total_succeed + total_fail))%R).
Proof.
  intros H.
  destruct (eval_PCK_Ok_inv _ _ _ H) as (trl & c & Hloop & Hfin & _).
  destruct (eval_finish_Ok_inv _ _ _ _ Hfin) as [Hacc Htotal].
  exists trl, c. split; [exact Hloop |].
  assert (Hper : forall name,
             In name class_names ->
             exists s f,
               has_counters c name s f /\ s + f <> 0
               /\ PyDict.get accuracy_dict name = Some (IZR s / IZR (s + f))%R).
  { intros name Hin.
    destruct (accuracy_loop_Ok _ _ _ _ Hacc name) as [Hok _].
    apply Hok. now rewrite map_snd_enumerate. }
  split; [exact Hper |]. split.
  - intros name Hin.
    rewrite (accuracy_loop_keys _ _ _ _ Hacc) in Hin.
    + destruct (in_dec string_dec name class_names) as [Hi | Hi]; [exact Hi |].
      apply PyDictFacts.get_In_keys in Hin.
      now rewrite PyDictFacts.get_from_keys_notin in Hin.
    + intros name' Hin'. rewrite map_snd_enumerate in Hin'.
      apply PyDictFacts.get_In_keys.
      now rewrite PyDictFacts.get_from_keys.
  - cbv zeta.
    assert (Ht : total_accuracy
                 = np_true_divide
                     (IZR (np_sum (PyDict.values (succeed_dict c))))
                     (IZR (np_sum (PyDict.values (succeed_dict c))
                           + np_sum (PyDict.values (fail_dict c))))).
    { rewrite Htotal. f_equal; [lra | f_equal; lia]. }
    split; [exact Ht |].
    intros Hne.
    destruct (loop_Ok_run _ _ _ Hloop) as (k & Hrun & _).
    destruct (loop_run_nonneg _ _ _ _ _ Hrun init_counters_nonneg) as [Ns Nf].
    destruct class_names as [| n0 names] eqn:Ecn; [congruence |].
    destruct (Hper n0 (or_introl eq_refl)) as (s & f & [Hs Hf] & Hnz & _).
    pose proof (nonneg_dict_get _ _ _ Ns Hs).
    pose proof (nonneg_dict_get _ _ _ Nf Hf).
    pose proof (np_sum_ge _ _ _ Ns Hs).
    pose proof (np_sum_ge _ _ _ Nf Hf).
    assert (Hsum : np_sum (PyDict.values (succeed_dict c))
                   + np_sum (PyDict.values (fail_dict c)) <> 0) by lia.
    split; [exact Hsum |].
    rewrite Ht. apply np_true_divide_nonzero. now apply not_0_IZR.
Qed.

(** C9. When the loop is over and some class has both counters at 0, the
    division for the accuracy of that class raises [ZeroDivisionError] and
    [eval_PCK] ends with it instead of a result; the divisions go through
    for all classes exactly when every class has a valid ground-truth
    keypoint among the samples that were evaluated. *)
Theorem eval_PCK_zero_division (fuel : nat) (trl : list event) (c : counters) :
  NoDup class_names ->
  session_ok model model_format ->
  loop fuel tt 0 0 init = Some (trl, Ok c) ->
  exists k,
    loop_run step gen size 0 init trl k c
    /\ loop_stops gen size k
    /\ ((exists name, In name class_names /\ has_counters c name 0 0) ->
        exists tr, evalPCK fuel = Some (tr, Raise ZeroDivisionError))
    /\ ((exists tr res, evalPCK fuel = Some (tr, Ok res)) ->
        forall i name,
          nth_error class_names i = Some name -> 0 < valid_count gen i k)
    /\ ((exists acc,
            accuracy_loop (enumerate class_names) c
                          (PyDict.from_keys class_names 0%R) = Ok acc)
        <-> (forall i name,
                nth_error class_names i = Some name ->
                0 < valid_count gen i k)).
Proof.
  intros Hnd Hsess Hloop.
  destruct (loop_Ok_run _ _ _ Hloop) as (k & Hrun & Hstop).
  exists k. split; [exact Hrun |]. split; [exact Hstop |].
  assert (Hall : forall name,
             In name (map snd (enumerate class_names)) ->
             exists s f, has_counters c name s f).
  { intros name Hin. rewrite map_snd_enumerate in Hin.
    destruct (loop_run_has_counters _ _ _ Hrun name Hin) as (s & f & Hc & _).
    eauto. }
  assert (Hiff : (exists acc,
                     accuracy_loop (enumerate class_names) c
                                   (PyDict.from_keys class_names 0%R) = Ok acc)
                 <-> (forall i name,
                         nth_error class_names i = Some name ->
                         0 < valid_count gen i k)).
  { split.
    - intros (acc & Hacc) i name Hi.
      destruct (accuracy_loop_Ok _ _ _ _ Hacc name) as [Hok _].
      destruct Hok as (s & f & [Hs Hf] & Hnz & _).
      { rewrite map_snd_enumerate. eapply nth_error_In; eassumption. }
      destruct (loop_run_counters_init _ _ _ Hnd Hrun i name Hi)
        as (s' & f' & Hs' & Hf' & H0s & H0f & Hsum).
      rewrite Hs in Hs'. rewrite Hf in Hf'.
      inversion Hs'; inversion Hf'; subst. lia.
    - intros Hvalid. apply accuracy_loop_complete.
      intros name Hin. rewrite map_snd_enumerate in Hin.
      destruct (In_nth_error _ _ Hin) as (i & Hi).
      destruct (loop_run_counters_init _ _ _ Hnd Hrun i name Hi)
        as (s & f & Hs & Hf & H0s & H0f & Hsum).
      exists s, f. repeat split; auto.
      specialize (Hvalid i name Hi). lia. }
  split; [| split; [| exact Hiff]].
  - intros (name & Hin & Hc).
    rewrite eval_PCK_eq, (session_ok_eqb Hsess), Hloop.
    rewrite (eval_finish_Raise c ZeroDivisionError).
    + eexists. reflexivity.
    + apply accuracy_loop_zero; [exact Hall |].
      exists name, 0, 0. repeat split; try apply Hc.
      now rewrite map_snd_enumerate.
  - intros (tr & [total acc] & H).
    destruct (eval_PCK_Ok_inv _ _ _ H) as (trl' & c' & Hloop' & Hfin & _).
    rewrite Hloop in Hloop'. inversion Hloop'; subst trl' c'.
    destruct (eval_finish_Ok_inv _ _ _ _ Hfin) as [Hacc _].
    apply Hiff. eauto.
Qed.

(** ** One call of the inference per sample, in the order of the generator *)

Lemma save_keypoints_detection_trace (pred : list keypoint) (m : metainfo_t) :
  inference_images
    (trace (save_keypoints_detection skeleton pred m class_names skeleton_lines))
  = [].
Proof.
  unfold save_keypoints_detection. rewrite bind_emit. cbn [trace fst].
  rewrite bind_lift.
  destruct (keypoints_dict_loop _ _ _ _) as [gd | e]; [| reflexivity].
  rewrite bind_lift.
  destruct (keypoints_dict_loop _ _ _ _) as [pd | e]; [| reflexivity].
  rewrite bind_lift.
  destruct (getitem_last _) as [f | e]; reflexivity.
Qed.

Lemma eval_sample_Ok_trace (smp : sample) (c c' : counters) (tr : list event) :
  step smp c = (tr, Ok c') ->
  exists tr_h heatmap tr_save,
    predict_heatmap astype_float32 model model_format tt (image_data smp)
    = (tr_h, Ok heatmap)
    /\ inference_images tr_save = []
    /\ (save_result = false -> tr_save = [])
    /\ tr = tr_h ++ tr_save ++ [EvPbarUpdate batch_size].
Proof.
  unfold eval_sample. intros H.
  bind_inv H. do 3 bind_inv H.
  apply bind_Ok_inv in H.
  destruct H as (tr_save & u & tr3 & Hsave & H & ->).
  bind_inv H. apply ret_inv in H. destruct H as [-> _].
  eexists _, _, tr_save. split; [eassumption |]. split; [| split].
  - destruct save_result.
    + rewrite (M_eta (save_keypoints_detection _ _ _ _ _)) in Hsave.
      inversion Hsave. apply save_keypoints_detection_trace.
    + apply ret_inv in Hsave. destruct Hsave as [-> _]. reflexivity.
  - intros ->. apply ret_inv in Hsave. now destruct Hsave.
  - simpl. reflexivity.
Qed.

Lemma eval_sample_inference (smp : sample) (c c' : counters) (tr : list event) :
  step smp c = (tr, Ok c') ->
  inference_images tr = [fed_image astype_float32 model_format (image_data smp)].
Proof.
  intros H.
  destruct (eval_sample_Ok_trace _ _ _ _ H)
    as (tr_h & heatmap & tr_save & Hh & Hsave & _ & ->).
  rewrite !inference_images_app, Hsave.
  rewrite (predict_heatmap_Ok_trace _ _ _ _ _ Hh). reflexivity.
Qed.

Lemma loop_run_inference (k k' : nat) (c c' : counters) (tr : list event) :
  loop_run step gen size k c tr k' c' ->
  inference_images tr
  = map (fun smp => fed_image astype_float32 model_format (image_data smp))
        (generator_samples gen k (k' - k)).
Proof.
  induction 1 as [k c | k c smp tr1 c1 tr2 k' c' Hg Hs Hstep Hrun IH].
  - now rewrite Nat.sub_diag.
  - destruct (loop_run_le _ _ _ _ _ Hrun) as (Hle & _ & _).
    rewrite inference_images_app, (eval_sample_inference _ _ _ _ Hstep), IH.
    replace (k' - k)%nat with (S (k' - S k)) by lia.
    unfold generator_samples. simpl. now rewrite Hg.
Qed.

Lemma loop_stops_exact (k : nat) :
  Z.of_nat k <= Z.max size 0 ->
  loop_stops gen size k ->
  (forall j, Z.of_nat j < size -> gen j <> None) ->
  k = Z.to_nat size.
Proof.
  intros Hle Hstop Hyield.
  assert (Hge : size <= Z.of_nat k).
  { destruct Hstop as [Hnone | Hgt].
    - destruct (Z_lt_le_dec (Z.of_nat k) size) as [Hlt | Hge]; [| exact Hge].
      exfalso. exact (Hyield k Hlt Hnone).
    - unfold batch_size in Hgt. lia. }
  lia.
Qed.

(** C6. The evaluation is sequential: the generator is asked for batches
    of one sample, unshuffled; the samples are evaluated one at a time in
    the order they are yielded; the loop ends, and when the generator
    yields as many samples as the dataset has it ends after exactly
    [get_dataset_size()] of them, a further sample being dropped before
    any inference. *)
Theorem eval_PCK_sequential :
  gen = generator eval_dataset 1 8 1 false true
  /\ (forall fuel c, (Z.to_nat size < fuel)%nat -> loop fuel tt 0 0 c <> None)
  /\ (forall fuel, (Z.to_nat size < fuel)%nat -> evalPCK fuel <> None)
  /\ (forall fuel tr c c',
         loop fuel tt 0 0 c = Some (tr, Ok c') ->
         exists k,
           loop_run step gen size 0 c tr k c'
           /\ loop_stops gen size k
           /\ Z.of_nat k <= Z.max size 0
           /\ inference_images tr
              = map (fun smp =>
                       fed_image astype_float32 model_format (image_data smp))
                    (generator_samples gen 0 k)
           /\ ((forall j, Z.of_nat j < size -> gen j <> None) ->
               k = Z.to_nat size)).
Proof.
  split; [reflexivity |]. split; [| split].
  - intros fuel c Hf. apply (eval_loop_terminates fuel 0 c). simpl. lia.
  - intros fuel Hf. rewrite eval_PCK_eq.
    destruct (String.eqb model_format "MNN" && negb (is_mnn_interpreter model));
      [discriminate |].
    pose proof (eval_loop_terminates fuel 0 init) as Ht.
    simpl Z.of_nat in Ht. rewrite Z.sub_0_r in Ht. specialize (Ht Hf).
    destruct (loop fuel tt 0 0 init) as [[trl [c | e]] |]; try discriminate.
    now exfalso.
  - intros fuel tr c c' H.
    destruct (eval_loop_inv fuel 0 _ _ _ H) as (k & c1 & tr1 & Hrun & Hend).
    destruct Hend as [(E & -> & Hstop) | (smp & tr2 & e & _ & _ & _ & E & _)];
      [| discriminate].
    inversion E; subst c1. exists k.
    destruct (loop_run_le _ _ _ _ _ Hrun) as (_ & Hle & _).
    split; [exact Hrun |]. split; [exact Hstop |]. split; [lia |]. split.
    + rewrite (loop_run_inference _ _ _ _ _ Hrun). now rewrite Nat.sub_0_r.
    + apply loop_stops_exact; [lia | exact Hstop].
Qed.

(** ** The dispatch on the model format *)

Lemma predict_heatmap_unknown (img : ndarray) :
  ~ known_format model_format ->
  predict_heatmap astype_float32 model model_format tt img
  = raise (ValueError "invalid model format").
Proof.
  unfold known_format, predict_heatmap. intros H.
  destruct (String.eqb_spec model_format "TFLITE"); [tauto |].
  destruct (String.eqb_spec model_format "MNN"); [tauto |].
  destruct (String.eqb_spec model_format "PB"); [tauto |].
  destruct (String.eqb_spec model_format "H5"); [tauto |].
  reflexivity.
Qed.

Lemma eval_sample_predict_Raise (smp : sample) (c : counters) (e : exn) :
  outcome (predict_heatmap astype_float32 model model_format tt (image_data smp))
  = Raise e ->
  step smp c
  = (trace (predict_heatmap astype_float32 model model_format tt (image_data smp)),
     Raise e).
Proof.
  unfold eval_sample. intros H.
  destruct (predict_heatmap _ _ _ _ _) as [tr [h | e']]; simpl in *;
    [discriminate | congruence].
Qed.

Lemma eval_PCK_unknown_format (fuel : nat) (smp : sample) :
  ~ known_format model_format ->
  gen 0%nat = Some smp ->
  1 <= size ->
  evalPCK (S fuel)
  = Some ([EvPbarOpen size], Raise (ValueError "invalid model format")).
Proof.
  intros Hfmt Hg Hsize. rewrite eval_PCK_eq.
  assert (E : String.eqb model_format "MNN" = false).
  { apply String.eqb_neq. intros ->. apply Hfmt. unfold known_format. tauto. }
  rewrite E. cbn [andb eval_loop]. rewrite Hg.
  destruct (Z.gtb_spec (0 + batch_size) size) as [Hgt | _];
    [unfold batch_size in Hgt; lia |].
  rewrite (eval_sample_predict_Raise smp init (ValueError "invalid model format"))
    by (now rewrite predict_heatmap_unknown).
  rewrite predict_heatmap_unknown by assumption. reflexivity.
Qed.

(** C4. Four formats and no other: [load_eval_model] gives the format by
    the extension of the path, and for every sample [eval_PCK] runs the
    predict function of the format, raising an error on any other format. *)
Theorem model_format_dispatch :
  (forall path,
      (endswith path ".h5" = true ->
       load path = Ok (KerasModel (load_model path), "H5"))
      /\ (endswith path ".pb" = true ->
          load path = Ok (TFGraph (load_graph tf_import_graph_def path), "PB"))
      /\ (endswith path ".tflite" = true ->
          load path
          = Ok (TFLiteInterpreter (tflite_Interpreter path), "TFLITE"))
      /\ (endswith path ".mnn" = true ->
          load path = Ok (MNNInterpreter (MNN_Interpreter path), "MNN"))
      /\ (forall m fmt, load path = Ok (m, fmt) -> known_format fmt))
  /\ (forall img,
         (model_format = "H5" ->
          predict_heatmap astype_float32 model model_format tt img
          = hourglass_predict_keras model img)
         /\ (model_format = "PB" ->
             predict_heatmap astype_float32 model model_format tt img
             = hourglass_predict_pb model img)
         /\ (model_format = "TFLITE" ->
             predict_heatmap astype_float32 model model_format tt img
             = hourglass_predict_tflite astype_float32 model img)
         /\ (model_format = "MNN" ->
             predict_heatmap astype_float32 model model_format tt img
             = hourglass_predict_mnn model tt img)
         /\ (~ known_format model_format ->
             predict_heatmap astype_float32 model model_format tt img
             = raise (ValueError "invalid model format")))
  /\ (forall smp c,
         (forall tr c',
             step smp c = (tr, Ok c') ->
             exists tr_h heatmap,
               predict_heatmap astype_float32 model model_format tt
                               (image_data smp)
               = (tr_h, Ok heatmap))
         /\ (forall e,
                outcome (predict_heatmap astype_float32 model model_format tt
                                         (image_data smp)) = Raise e ->
                outcome (step smp c) = Raise e))
  /\ (forall fuel smp,
         ~ known_format model_format ->
         gen 0%nat = Some smp ->
         1 <= size ->
         evalPCK (S fuel)
         = Some ([EvPbarOpen size], Raise (ValueError "invalid model format"))).
Proof.
  split; [| split; [| split; [| exact eval_PCK_unknown_format]]].
  - intros path. repeat split.
    + apply load_eval_model_h5.
    + apply load_eval_model_pb.
    + apply load_eval_model_tflite.
    + apply load_eval_model_mnn.
    + intros m fmt H. exact (proj1 (load_eval_model_format _ _ _ H)).
  - intros img. repeat split.
    + intros ->. reflexivity.
    + intros ->. reflexivity.
    + intros ->. reflexivity.
    + intros ->. reflexivity.
    + apply predict_heatmap_unknown.
  - intros smp c. split.
    + intros tr c' H.
      destruct (eval_sample_Ok_inv _ _ _ _ H) as (tr_h & heatmap & _ & _ & Hh & _).
      eauto.
    + intros e H. now rewrite (eval_sample_predict_Raise smp c e H).
Qed.

(** ** The events of an evaluation *)

Local Abbreviation eval_event :=
  (fun e => eval_event_ok save_result e = true /\ writes_under_result e).

Lemma save_keypoints_detection_events (pred : list keypoint) (m : metainfo_t) :
  Forall (fun e => eval_event_ok true e = true /\ writes_under_result e)
    (trace (save_keypoints_detection skeleton pred m class_names skeleton_lines)).
Proof.
  unfold save_keypoints_detection.
  apply Forall_trace_bind.
  { apply Forall_trace_emit. split; reflexivity. }
  intros _ _. apply Forall_trace_bind; [apply Forall_trace_lift |].
  intros gd _. apply Forall_trace_bind; [apply Forall_trace_lift |].
  intros pd _. apply Forall_trace_bind; [apply Forall_trace_lift |].
  intros file_name Hf. apply Forall_trace_emit.
  split; [reflexivity |].
  unfold writes_under_result. cbn [event_path].
  apply os_path_join_detection.
  cbn [outcome lift snd] in Hf. apply getitem_last_In in Hf.
  pose proof (str_split_no_sep os_path_sep (meta_name m)) as Hall.
  rewrite Forall_forall in Hall. exact (Hall _ Hf).
Qed.

Lemma eval_sample_events (smp : sample) (c : counters) :
  Forall eval_event (trace (step smp c)).
Proof.
  unfold eval_sample.
  apply Forall_trace_bind.
  { eapply Forall_impl; [| apply (predict_heatmap_events false)].
    intros e He. destruct e; try discriminate; split; (reflexivity || exact I). }
  intros heatmap _. apply Forall_trace_bind; [apply Forall_trace_lift |].
  intros m0 _. apply Forall_trace_bind; [apply Forall_trace_lift |].
  intros rl _. apply Forall_trace_bind; [apply Forall_trace_lift |].
  intros c' _. apply Forall_trace_bind.
  { destruct save_result.
    - apply save_keypoints_detection_events.
    - apply Forall_trace_ret. }
  intros _ _. apply Forall_trace_bind; [| intros; apply Forall_trace_ret].
  apply Forall_trace_emit. split; [reflexivity | exact I].
Qed.

Lemma eval_loop_events :
  forall (fuel k : nat) (count : Z) (c : counters) (m : M counters),
    loop fuel tt k count c = Some m -> Forall eval_event (trace m).
Proof.
  induction fuel as [| fuel IH]; intros k count c m H; [discriminate |].
  cbn [eval_loop] in H.
  destruct (gen k) as [smp |]; [| inversion H; constructor].
  destruct (count + batch_size >? size); [inversion H; constructor |].
  eapply Forall_trace_obind; [exact H | apply eval_sample_events |].
  intros c' m' Hm'. exact (IH _ _ _ _ Hm').
Qed.

Lemma draw_plot_func_events (dictionary : PyDict.t R) (n : nat)
    (total : option R) :
  Forall (fun e => eval_event_ok true e = true /\ writes_under_result e)
    (trace (draw_plot_func dictionary n (os_path_join "result" "PCK.jpg")
                           score_threshold total)).
Proof.
  unfold draw_plot_func.
  destruct dictionary; [apply Forall_trace_raise |].
  apply Forall_trace_emit. split; reflexivity.
Qed.

Lemma eval_finish_events (c : counters) : Forall eval_event (trace (finish c)).
Proof.
  unfold eval_finish.
  apply Forall_trace_bind.
  { apply Forall_trace_emit. split; [reflexivity | exact I]. }
  intros _ _. apply Forall_trace_bind; [apply Forall_trace_lift |].
  intros acc _. apply Forall_trace_bind; [| intros; apply Forall_trace_ret].
  destruct save_result; [| apply Forall_trace_ret].
  apply Forall_trace_bind.
  { apply Forall_trace_emit. split; reflexivity. }
  intros _ _. apply draw_plot_func_events.
Qed.

Lemma eval_PCK_events (fuel : nat) (m : M (option R * PyDict.t R)) :
  evalPCK fuel = Some m -> Forall eval_event (trace m).
Proof.
  rewrite eval_PCK_eq.
  destruct (String.eqb model_format "MNN" && negb (is_mnn_interpreter model)).
  { intros H. inversion H. constructor. }
  destruct (loop fuel tt 0 0 init) as [[trl [c | e]] |] eqn:El; [| | discriminate].
  - intros H. inversion H; subst. cbn [trace fst].
    constructor; [split; [reflexivity | exact I] |].
    apply Forall_app. split.
    + exact (eval_loop_events _ _ _ _ _ El).
    + apply eval_finish_events.
  - intros H. inversion H; subst. cbn [trace fst].
    constructor; [split; [reflexivity | exact I] |].
    exact (eval_loop_events _ _ _ _ _ El).
Qed.

(** ** What is written when the results are saved *)

Lemma filter_nil_Forall {A} (f : A -> bool) (l : list A) :
  Forall (fun a => f a = false) l -> filter f l = [].
Proof.
  induction 1 as [| a l Ha _ IH]; simpl; [reflexivity |]. now rewrite Ha.
Qed.

Lemma eval_finish_Ok_trace (c : counters) (tr : list event)
    (total : option R) (acc : PyDict.t R) :
  finish c = (tr, Ok (total, acc)) ->
  tr = EvPbarClose
       :: (if save_result
           then [EvTouchDir "result";
                 EvSaveFig "result/PCK.jpg" acc score_threshold total]
           else []).
Proof.
  unfold eval_finish. intros H.
  do 2 bind_inv H.
  apply bind_Ok_inv in H. destruct H as (tr3 & u & tr4 & Hsave & H & ->).
  apply ret_inv in H. destruct H as [-> H].
  inversion H; subst; clear H.
  destruct save_result.
  - bind_inv Hsave. unfold draw_plot_func in Hsave.
    match type of Hsave with
    | match ?d with _ => _ end = _ => destruct d as [| item items]
    end; [discriminate |].
    apply emit_inv in Hsave. destruct Hsave as [-> _]. reflexivity.
  - apply ret_inv in Hsave. destruct Hsave as [-> _]. reflexivity.
Qed.

Lemma save_keypoints_detection_Ok (pred : list keypoint) (m : metainfo_t)
    (tr : list event) (u : unit) :
  save_keypoints_detection skeleton pred m class_names skeleton_lines
  = (tr, Ok u) ->
  List.length (filter is_image_save tr) = 1%nat.
Proof.
  unfold save_keypoints_detection. intros H.
  do 4 bind_inv H. apply emit_inv in H. destruct H as [-> _]. reflexivity.
Qed.

Lemma eval_sample_image_saves (smp : sample) (c c' : counters) (tr : list event) :
  step smp c = (tr, Ok c') ->
  List.length (filter is_image_save tr) = if save_result then 1%nat else 0%nat.
Proof.
  unfold eval_sample. intros H.
  apply bind_Ok_inv in H. destruct H as (tr_h & heatmap & tr1 & Hh & H & ->).
  do 3 bind_inv H.
  apply bind_Ok_inv in H. destruct H as (tr_save & u & tr3 & Hsave & H & ->).
  bind_inv H. apply ret_inv in H. destruct H as [-> _].
  rewrite !filter_app, !length_app. simpl.
  assert (Hnone : filter is_image_save tr_h = []).
  { apply filter_nil_Forall.
    pose proof (predict_heatmap_events false model model_format (image_data smp))
      as Hev.
    rewrite Hh in Hev. simpl in Hev.
    eapply Forall_impl; [| exact Hev].
    intros e He. destruct e; try discriminate; reflexivity. }
  rewrite Hnone. simpl.
  destruct save_result.
  - rewrite (save_keypoints_detection_Ok _ _ _ _ Hsave). reflexivity.
  - apply ret_inv in Hsave. destruct Hsave as [-> _]. reflexivity.
Qed.

(** One detection image per evaluated sample when the results are saved. *)
Lemma loop_run_image_saves (k k' : nat) (c c' : counters) (tr : list event) :
  loop_run step gen size k c tr k' c' ->
  List.length (inference_images tr) = (k' - k)%nat
  /\ List.length (filter is_image_save tr)
     = if save_result then (k' - k)%nat else 0%nat.
Proof.
  induction 1 as [k c | k c smp tr1 c1 tr2 k' c' Hg Hs Hstep Hrun IH].
  - rewrite Nat.sub_diag. simpl. now destruct save_result.
  - destruct (loop_run_le _ _ _ _ _ Hrun) as (Hle & _ & _).
    destruct IH as [IH1 IH2].
    rewrite inference_images_app, filter_app, !length_app.
    rewrite (eval_sample_inference _ _ _ _ Hstep), IH1.
    rewrite (eval_sample_image_saves _ _ _ _ Hstep), IH2.
    simpl. destruct save_result; lia.
Qed.

(** What a whole evaluation that returns has written. *)
Lemma eval_PCK_Ok_saved (fuel : nat) (tr : list event)
    (total : option R) (acc : PyDict.t R) :
  evalPCK fuel = Some (tr, Ok (total, acc)) ->
  if save_result
  then In (EvTouchDir "result") tr
       /\ In (EvSaveFig "result/PCK.jpg" acc score_threshold total) tr
       /\ List.length (filter is_image_save tr)
          = List.length (inference_images tr)
  else filter is_file_event tr = [].
Proof.
  intros H.
  pose proof (eval_PCK_events _ _ H) as Hev. cbn [trace fst] in Hev.
  destruct (eval_PCK_Ok_inv _ _ _ H) as (trl & c & Hloop & Hfin & Htr).
  pose proof (eval_finish_Ok_trace _ _ _ _ Hfin) as Hft.
  destruct (loop_Ok_run _ _ _ Hloop) as (k & Hrun & _).
  destruct (loop_run_image_saves _ _ _ _ _ Hrun) as [Hinf Himg].
  rewrite Hft in Htr. clear H Hloop Hfin Hrun Hft.
  revert Hev Himg Htr. destruct save_result; intros Hev Himg ->.
  - split; [| split].
    + right. apply in_or_app. right. simpl. auto.
    + right. apply in_or_app. right. simpl. auto.
    + cbn [filter is_image_save inference_images flat_map app].
      rewrite filter_app, inference_images_app, !length_app, Hinf, Himg.
      reflexivity.
  - apply filter_nil_Forall.
    eapply Forall_impl; [| exact Hev].
    intros e [He _]. destruct e; try discriminate; reflexivity.
Qed.
End Loop.

(* ================================================================== *)
(** * The errors that the script raises itself *)

Section Errors.

Lemma hourglass_predict_mnn_raises (itp : mnn_interpreter) (img : ndarray)
    (d0 d1 d2 d3 : nat) :
  mnn_input_ok itp img ->
  mnn_output_ok (runSession itp (data img)) d0 d1 d2 d3 ->
  ((exists e, outcome (hourglass_predict_mnn (MNNInterpreter itp) tt img)
              = Raise e)
   <-> getDimensionType (runSession itp (data img))
       = Tensor_DimensionType_Caffe_C4)
  /\ (getDimensionType (runSession itp (data img))
      = Tensor_DimensionType_Caffe_C4 ->
      outcome (hourglass_predict_mnn (MNNInterpreter itp) tt img)
      = Raise (ValueError "unsupported output tensor dimension type")).
Proof.
  intros Hin Hout.
  rewrite (hourglass_predict_mnn_layouts _ _ _ _ _ _ Hin Hout).
  destruct (mnn_output_ok_reshape _ _ _ _ _ Hout) as (_ & _ & _ & _ & _ & Hpos).
  destruct (getDimensionType (runSession itp (data img))).
  - split; [split |]; try discriminate.
    intros (e & He). destruct d0; [lia | discriminate].
  - split; [split |]; try discriminate.
    intros (e & He).
    destruct (np_transpose_0231_getitem0 d0 d1 d2 d3
                (getData (runSession itp (data img))) Hpos) as (h & Hh & _).
    rewrite Hh in He. discriminate.
  - split; [split |]; eauto.
Qed.

Lemma hourglass_predict_mnn_not_float (itp : mnn_interpreter) (img : ndarray) :
  mnn_input_ok itp img ->
  getDataType (runSession itp (data img)) <> Halide_Type_Float ->
  outcome (hourglass_predict_mnn (MNNInterpreter itp) tt img)
  = Raise (AssertionError EmptyString).
Proof.
  intros Hin Hne. rewrite (hourglass_predict_mnn_eq _ _ Hin).
  cbn [outcome snd]. cbv zeta.
  destruct (getDataType (runSession itp (data img))); try reflexivity.
  congruence.
Qed.

Lemma keypoint_accuracy_raises
    (pred_keypoints gt_keypoints : list keypoint) (threshold normalize : float64) :
  (List.length pred_keypoints <> List.length gt_keypoints
   <-> exists e,
         keypoint_accuracy pred_keypoints gt_keypoints threshold normalize
         = Raise e)
  /\ (forall e,
         keypoint_accuracy pred_keypoints gt_keypoints threshold normalize
         = Raise e ->
         e = AssertionError "keypoint number mismatch").
Proof.
  split; [split |].
  - intros H. eexists. now apply keypoint_accuracy_mismatch.
  - intros (e & He) Hlen.
    destruct (keypoint_accuracy_ok _ _ threshold normalize Hlen) as (l & Hl & _).
    congruence.
  - intros e He.
    destruct (Nat.eq_dec (List.length pred_keypoints) (List.length gt_keypoints))
      as [Hlen | Hlen].
    + destruct (keypoint_accuracy_ok _ _ threshold normalize Hlen) as (l & Hl & _).
      congruence.
    + rewrite (keypoint_accuracy_mismatch _ _ _ _ Hlen) in He. now inversion He.
Qed.

(** C3, as it holds.  The script raises on its own account in these
    places: [load_eval_model] raises its [ValueError] exactly when the model
    path has none of the four extensions; [hourglass_predict_mnn], on a
    well-formed output tensor of floats, raises exactly when the dimension
    type is Caffe_C4, and fails its assertion on an output that is not of
    floats; [eval_PCK] raises on a format that is none of the four as soon
    as a sample is evaluated; and [keypoint_accuracy] fails its assertion
    exactly when the two arrays differ in their number of rows. *)
Theorem error_conditions :
  (forall path,
      (known_extension path = false
       <-> load path = Raise (ValueError "invalid model file"))
      /\ (forall e, load path = Raise e -> e = ValueError "invalid model file"))
  /\ (forall itp img d0 d1 d2 d3,
         mnn_input_ok itp img ->
         mnn_output_ok (runSession itp (data img)) d0 d1 d2 d3 ->
         ((exists e, outcome (hourglass_predict_mnn (MNNInterpreter itp) tt img)
                     = Raise e)
          <-> getDimensionType (runSession itp (data img))
              = Tensor_DimensionType_Caffe_C4)
         /\ (getDimensionType (runSession itp (data img))
             = Tensor_DimensionType_Caffe_C4 ->
             outcome (hourglass_predict_mnn (MNNInterpreter itp) tt img)
             = Raise (ValueError "unsupported output tensor dimension type")))
  /\ (forall itp img,
         mnn_input_ok itp img ->
         getDataType (runSession itp (data img)) <> Halide_Type_Float ->
         outcome (hourglass_predict_mnn (MNNInterpreter itp) tt img)
         = Raise (AssertionError EmptyString))
  /\ (forall model model_format eval_dataset class_names score_threshold
             normalize conf_threshold save_result
             (skeleton_lines : option skeleton) fuel smp,
         ~ known_format model_format ->
         eval_generator eval_dataset 0%nat = Some smp ->
         1 <= get_dataset_size eval_dataset ->
         eval_PCK astype_float32 post_process_heatmap invert_transform_kp
                  skeleton model model_format eval_dataset class_names
                  score_threshold normalize conf_threshold save_result
                  skeleton_lines (S fuel)
         = Some ([EvPbarOpen (get_dataset_size eval_dataset)],
                 Raise (ValueError "invalid model format")))
  /\ (forall pred_keypoints gt_keypoints threshold normalize,
         (List.length pred_keypoints <> List.length gt_keypoints
          <-> exists e,
                keypoint_accuracy pred_keypoints gt_keypoints threshold normalize
                = Raise e)
         /\ (forall e,
                keypoint_accuracy pred_keypoints gt_keypoints threshold normalize
                = Raise e ->
                e = AssertionError "keypoint number mismatch")).
Proof.
  split; [| split; [| split; [| split]]].
  - apply load_eval_model_raises.
  - apply hourglass_predict_mnn_raises.
  - apply hourglass_predict_mnn_not_float.
  - intros. now apply eval_PCK_unknown_format with (smp := smp).
  - apply keypoint_accuracy_raises.
Qed.

End Errors.

(* ================================================================== *)
(** * The command line and [main] *)

Section Main.

Variable py_float : string -> option float64.
Variable py_int : string -> option Z.
Variable get_skeleton : string -> skeleton.
Variable get_classes : string -> list string.
Variable get_normalize : Z * Z -> float64.
Variable hourglass_dataset :
  string -> list string -> Z * Z -> bool -> hourglass_dataset_t.

Local Abbreviation parse := (parse_args py_float).

(** ** argparse *)

Lemma option_string_actions_In (entry : string * parser_action) :
  In entry option_string_actions -> declared_action (snd entry).
Proof.
  unfold option_string_actions. intros [<- | [<- | H]]; simpl; auto.
  apply in_map_iff in H. destruct H as (a & <- & Ha). exact Ha.
Qed.

Lemma option_string_actions_get (s : string) (act : parser_action) :
  PyDict.get option_string_actions s = Some act -> declared_action act.
Proof.
  intros H. exact (option_string_actions_In (s, act) (get_In _ _ _ H)).
Qed.

(** The only option of one dash and one letter is the help. *)
Lemma short_option_help (c0 c : ascii) (act : parser_action) :
  PyDict.get option_string_actions (String c0 (String c EmptyString)) = Some act ->
  act = HelpAction.
Proof.
  unfold option_string_actions, parser_arguments.
  cbn [map option_string PyDict.get String.eqb].
  repeat match goal with
         | |- context [Ascii.eqb ?x ?y] => destruct (Ascii.eqb x y)
         end; congruence.
Qed.

Lemma get_option_tuples_declared (s : string) (act : parser_action)
    (o : string) (e : option string) :
  In (act, o, e) (get_option_tuples s) -> declared_action act.
Proof.
  unfold get_option_tuples.
  destruct s as [| c0 [| c1 rest]]; try contradiction.
  destruct (Ascii.eqb c0 "-" && Ascii.eqb c1 "-").
  - destruct (if str_contains "=" _ then _ else _) as [prefix ex].
    intros H. apply in_flat_map in H. destruct H as (entry & Hin & H).
    destruct (startswith _ _); [| contradiction].
    destruct H as [H | []]. inversion H; subst.
    now apply option_string_actions_In.
  - destruct (Ascii.eqb c0 "-"); [| contradiction].
    intros H. apply in_flat_map in H. destruct H as (entry & Hin & H).
    destruct (String.eqb _ _).
    + destruct H as [H | []]. inversion H; subst.
      now apply option_string_actions_In.
    + destruct (startswith _ _); [| contradiction].
      destruct H as [H | []]. inversion H; subst.
      now apply option_string_actions_In.
Qed.

Lemma parse_optional_declared (s : string) (act : parser_action)
    (o : string) (e : option string) :
  parse_optional s = IsOptional (Some act) o e -> declared_action act.
Proof.
  unfold parse_optional. destruct s as [| c s]; [discriminate |].
  destruct (negb _); [discriminate |].
  destruct (PyDict.get option_string_actions (String c s)) as [act0 |] eqn:E0.
  { intros H. inversion H; subst. exact (option_string_actions_get _ _ E0). }
  destruct (Nat.eqb _ 1); [discriminate |].
  destruct (if str_contains "=" (String c s) then _ else _)
    as [[[act1 o1] e1] |] eqn:E1.
  { intros H. inversion H; subst.
    destruct (str_contains "=" (String c s)); [| discriminate].
    destruct (str_partition "=" (String c s)) as [before after].
    destruct (PyDict.get option_string_actions before) as [act2 |] eqn:E2;
      [| discriminate].
    inversion E1; subst. exact (option_string_actions_get _ _ E2). }
  destruct (get_option_tuples (String c s)) as [| [[act2 o2] e2] [| t l]] eqn:E2.
  - destruct (negative_number _); [discriminate |].
    destruct (str_contains " " _); discriminate.
  - intros H. inversion H; subst.
    apply (get_option_tuples_declared (String c s) act o e).
    rewrite E2. now left.
  - discriminate.
Qed.

Lemma arg_strings_pattern_inv :
  forall (cl : command_line) (pattern : list (string * arg_pattern)),
    arg_strings_pattern cl = Ok pattern ->
    map fst pattern = cl
    /\ Forall (fun item => forall act o e,
                   snd item = PatO (Some act) o e -> declared_action act)
              pattern
    /\ (Forall (fun item => snd item <> PatDash) pattern ->
        Forall scanned pattern).
Proof.
  induction cl as [| s cl IH]; intros pattern H.
  - inversion H; subst. repeat split; constructor.
  - cbn [arg_strings_pattern] in H.
    destruct (String.eqb_spec s "--") as [-> | Hne].
    + inversion H; subst. clear H. cbn [map fst]. split; [| split].
      * f_equal. rewrite map_map. cbn [fst]. apply map_id.
      * constructor; [discriminate |].
        apply Forall_forall. intros item Hin.
        apply in_map_iff in Hin. destruct Hin as (x & <- & _). discriminate.
      * intros Hd. inversion Hd; subst. cbn [snd] in *. congruence.
    + destruct (parse_optional s) as [| act o e |] eqn:Ep; [| | discriminate].
      * apply rbind_Ok_inv in H. destruct H as (p & Hp & H).
        inversion H; subst. clear H.
        destruct (IH _ Hp) as (H1 & H2 & H3).
        cbn [map fst]. split; [now rewrite H1 |]. split.
        -- constructor; [discriminate | exact H2].
        -- intros Hd. inversion Hd; subst.
           constructor; [exact Ep | now apply H3].
      * apply rbind_Ok_inv in H. destruct H as (p & Hp & H).
        inversion H; subst. clear H.
        destruct (IH _ Hp) as (H1 & H2 & H3).
        cbn [map fst]. split; [now rewrite H1 |]. split.
        -- constructor; [| exact H2].
           cbn [snd]. intros act' o' e' E. inversion E; subst.
           exact (parse_optional_declared _ _ _ _ Ep).
        -- intros Hd. inversion Hd; subst.
           constructor; [exact Ep | now apply H3].
Qed.

(** One turn of the loop of [consume_optional]. *)
Lemma consume_explicit_eq (act : parser_action) (o e : string)
    (following : list (string * arg_pattern)) :
  consume_explicit act o e following
  = if Nat.eqb (nargs act) 0
       && negb (String.eqb (substring 1 1 o) "-")
       && negb (String.eqb e EmptyString)
    then
      match e with
      | String c e' =>
          match PyDict.get option_string_actions (String "-" (String c EmptyString)) with
          | Some act' =>
              (try (action_tuples, stop) <-
                 match e' with
                 | EmptyString =>
                     try arg_count <- match_argument act' following ;;
                     Ok ([(act', firstn arg_count (map fst following))],
                         arg_count)
                 | _ =>
                     consume_explicit act' (String "-" (String c EmptyString))
                                      e' following
                 end ;;
               Ok ((act, []) :: action_tuples, stop))%result
          | None => Raise (SystemExit 2)
          end
      | EmptyString => Raise (SystemExit 2)
      end
    else if Nat.eqb (nargs act) 1 then Ok ([(act, [e])], O)
    else Raise (SystemExit 2).
Proof. destruct e; reflexivity. Qed.

(** The first action that [consume_explicit] gives is the action of the
    option. *)
Lemma consume_explicit_head (act : parser_action) (o e : string)
    (following : list (string * arg_pattern))
    (tuples : list (parser_action * list string)) (stop : nat) :
  consume_explicit act o e following = Ok (tuples, stop) ->
  exists args more, tuples = (act, args) :: more.
Proof.
  rewrite consume_explicit_eq.
  destruct (_ && _ && _).
  - destruct e as [| c e']; [discriminate |].
    destruct (PyDict.get _ _) as [act' |]; [| discriminate].
    intros H. apply rbind_Ok_inv in H. destruct H as ([tuples' stop'] & _ & H).
    inversion H; subst. eauto.
  - destruct (Nat.eqb _ 1); [| discriminate].
    intros H. inversion H; subst. eauto.
Qed.

Lemma match_argument_inv (act : parser_action)
    (following : list (string * arg_pattern)) (n : nat) :
  match_argument act following = Ok n ->
  (n = O /\ nargs act = O)
  \/ (n = 1%nat /\ nargs act = 1%nat
      /\ exists s rest, following = (s, PatA) :: rest).
Proof.
  unfold match_argument. destruct act as [| a]; cbn [nargs].
  - intros H. inversion H. now left.
  - destruct (action a).
    + destruct following as [| [s [| | act o e]] rest]; try discriminate.
      intros H. inversion H. right. eauto.
    + intros H. inversion H. now left.
Qed.

Lemma take_action_inv (act : parser_action) (args : list string)
    (ns : namespace) (seen : list string) (ns1 : namespace)
    (seen1 : list string) :
  take_action py_float act args ns seen = Ok (ns1, seen1) ->
  exists a v,
    act = ArgumentAction a /\ stored_value a v
    /\ ns1 = PyDict.set ns (dest a) v /\ seen1 = dest a :: seen.
Proof.
  unfold take_action. destruct act as [| a]; [discriminate |].
  destruct (action a) eqn:Ea.
  - destruct args as [| s [| s' l]]; try discriminate.
    destruct (arg_type_of a) eqn:Et.
    + intros H. inversion H; subst. exists a, (VStr s).
      repeat split. unfold stored_value. rewrite Ea, Et. eauto.
    + destruct (py_float s) as [x |]; [| discriminate].
      intros H. inversion H; subst. exists a, (VFloat x).
      repeat split. unfold stored_value. rewrite Ea, Et. eauto.
  - intros H. inversion H; subst. exists a, (VBool true).
    repeat split. unfold stored_value. now rewrite Ea.
Qed.

(** An option whose actions are all taken stores one value: a chain of
    single-dash flags ends in the help, which exits. *)
Lemma consume_optional_taken (act : parser_action) (o : string)
    (e : option string) (following : list (string * arg_pattern))
    (tuples : list (parser_action * list string)) (stop : nat)
    (ns : namespace) (seen : list string) (ns1 : namespace)
    (seen1 : list string) :
  consume_optional act o e following = Ok (tuples, stop) ->
  take_actions py_float tuples ns seen = Ok (ns1, seen1) ->
  exists a v,
    act = ArgumentAction a /\ stored_value a v
    /\ ns1 = PyDict.set ns (dest a) v /\ seen1 = dest a :: seen
    /\ (stop = O \/ exists s rest, following = (s, PatA) :: rest).
Proof.
  unfold consume_optional. destruct e as [e |].
  - rewrite consume_explicit_eq.
    destruct (_ && _ && _).
    + destruct e as [| c e']; [discriminate |].
      destruct (PyDict.get _ _) as [act' |] eqn:Eg; [| discriminate].
      apply short_option_help in Eg. subst act'.
      intros H Ht. exfalso.
      apply rbind_Ok_inv in H. destruct H as ([tuples' stop'] & Hc & H).
      inversion H; subst. clear H.
      cbn [take_actions] in Ht.
      apply rbind_Ok_inv in Ht. destruct Ht as ([ns2 seen2] & _ & Ht).
      assert (Hhead : exists args more, tuples' = (HelpAction, args) :: more).
      { destruct e' as [| c' e''].
        - apply rbind_Ok_inv in Hc. destruct Hc as (n & _ & Hc).
          inversion Hc; subst. eauto.
        - exact (consume_explicit_head _ _ _ _ _ _ Hc). }
      destruct Hhead as (args & more & ->).
      cbn [take_actions take_action rbind] in Ht. discriminate.
    + destruct (Nat.eqb _ 1); [| discriminate].
      intros H Ht. inversion H; subst. clear H.
      cbn [take_actions] in Ht.
      apply rbind_Ok_inv in Ht. destruct Ht as ([ns2 seen2] & Ht & H).
      inversion H; subst. clear H.
      destruct (take_action_inv _ _ _ _ _ _ Ht) as (a & v & -> & Hv & -> & ->).
      exists a, v. auto 6.
  - intros H Ht.
    apply rbind_Ok_inv in H. destruct H as (n & Hm & H).
    inversion H; subst. clear H.
    cbn [take_actions] in Ht.
    apply rbind_Ok_inv in Ht. destruct Ht as ([ns2 seen2] & Ht & H).
    inversion H; subst. clear H.
    destruct (take_action_inv _ _ _ _ _ _ Ht) as (a & v & -> & Hv & -> & ->).
    exists a, v. repeat split; auto.
    destruct (match_argument_inv _ _ _ Hm) as [[-> _] | (_ & _ & Hf)]; auto.
Qed.

Lemma after_stop_length {A} (stop : nat) (l : list A) :
  (List.length (after_stop stop l) <= List.length l)%nat.
Proof. destruct stop, l; simpl; lia. Qed.

(** A run of [consume_optionals] that comes to its end, as a derivation. *)
Lemma consume_optionals_consumed :
  forall (n : nat) (pattern : list (string * arg_pattern))
         (ns : namespace) (seen extras : list string)
         (ns' : namespace) (seen' extras' : list string),
    (List.length pattern <= n)%nat ->
    Forall (fun item => forall act o e,
                snd item = PatO (Some act) o e -> declared_action act)
           pattern ->
    consume_optionals py_float pattern ns seen extras = Ok (ns', seen', extras') ->
    consumed pattern ns seen extras ns' seen' extras'.
Proof.
  induction n as [| n IH]; intros pattern ns seen extras ns' seen' extras' Hn Hd H.
  - destruct pattern; [| simpl in Hn; lia].
    inversion H; subst. constructor.
  - destruct pattern as [| [s pat] following].
    { inversion H; subst. constructor. }
    inversion Hd as [| ? ? Hd1 Hd2]; subst.
    simpl in Hn.
    destruct pat as [| | [act |] o e];
      cbn [consume_optionals] in H;
      try (apply consumed_extra; [reflexivity |];
           apply IH; [lia | exact Hd2 | exact H]).
    apply rbind_Ok_inv in H. destruct H as ([tuples stop] & Hc & H).
    apply rbind_Ok_inv in H. destruct H as ([ns1 seen1] & Ht & H).
    destruct (consume_optional_taken _ _ _ _ _ _ _ _ _ _ Hc Ht)
      as (a & v & -> & Hv & -> & -> & Hstop).
    apply consumed_option with (stop := stop) (v := v).
    + exact (Hd1 _ _ _ eq_refl).
    + exact Hv.
    + exact Hstop.
    + apply IH.
      * pose proof (after_stop_length stop following). lia.
      * destruct stop as [| stop], following as [| item following'];
          cbn [after_stop]; auto.
        now inversion Hd2.
      * destruct stop as [| stop], following as [| item following'];
          cbn [after_stop]; exact H.
Qed.

(** The extras only grow. *)
Lemma consumed_extras :
  forall pattern ns seen extras ns' seen' extras',
    consumed pattern ns seen extras ns' seen' extras' ->
    exists l, extras' = extras ++ l.
Proof.
  induction 1 as [ns seen extras
                 | s pat following ns seen extras ns' seen' extras' Hx Hc IH
                 | s a o e following stop v ns seen extras ns' seen' extras'
                     Ha Hv Hstop Hc IH].
  - exists []. now rewrite app_nil_r.
  - destruct IH as (l & ->). exists (s :: l). now rewrite <- app_assoc.
  - exact IH.
Qed.

Lemma after_stop_Forall {P : string * arg_pattern -> Prop} (stop : nat)
    (following : list (string * arg_pattern)) :
  (forall s, P (s, PatA)) ->
  (stop = O \/ exists s rest, following = (s, PatA) :: rest) ->
  Forall P (after_stop stop following) -> Forall P following.
Proof.
  intros HA [-> | (s & rest & ->)] H.
  - destruct following; exact H.
  - destruct stop; cbn [after_stop] in H; [exact H |].
    constructor; [apply HA | exact H].
Qed.

Lemma consumed_accepted :
  forall pattern ns seen extras ns' seen' extras',
    consumed pattern ns seen extras ns' seen' extras' ->
    extras' = [] ->
    Forall accepted_pattern pattern.
Proof.
  induction 1 as [ns seen extras
                 | s pat following ns seen extras ns' seen' extras' Hx Hc IH
                 | s a o e following stop v ns seen extras ns' seen' extras'
                     Ha Hv Hstop Hc IH]; intros He.
  - constructor.
  - exfalso. destruct (consumed_extras _ _ _ _ _ _ _ Hc) as (l & Hl).
    rewrite He, <- app_assoc in Hl. destruct extras; discriminate.
  - constructor; [exact Ha |].
    apply (after_stop_Forall stop); [intros; exact I | exact Hstop | auto].
Qed.

Lemma after_stop_existsb (f : string * arg_pattern -> bool) (stop : nat)
    (following : list (string * arg_pattern)) :
  (forall s, f (s, PatA) = false) ->
  (stop = O \/ exists s rest, following = (s, PatA) :: rest) ->
  existsb f (after_stop stop following) = existsb f following.
Proof.
  intros HA [-> | (s & rest & ->)].
  - now destruct following.
  - destruct stop; cbn [after_stop existsb]; [reflexivity |].
    now rewrite HA.
Qed.

(** The namespace after the options: a destination that an option of the
    pattern names holds a value stored by such an option, and any other
    holds what it held. *)
Lemma consumed_namespace :
  forall pattern ns seen extras ns' seen' extras',
    consumed pattern ns seen extras ns' seen' extras' ->
    forall d,
      if existsb (pattern_names d) pattern
      then exists a v, In a parser_arguments /\ dest a = d
                       /\ stored_value a v /\ PyDict.get ns' d = Some v
      else PyDict.get ns' d = PyDict.get ns d.
Proof.
  induction 1 as [ns seen extras
                 | s pat following ns seen extras ns' seen' extras' Hx Hc IH
                 | s a o e following stop v ns seen extras ns' seen' extras'
                     Ha Hv Hstop Hc IH]; intros d.
  - reflexivity.
  - cbn [existsb]. replace (pattern_names d (s, pat)) with false.
    + exact (IH d).
    + unfold pattern_names. cbn [snd]. now destruct pat as [| | [[| a] |] o e].
  - cbn [existsb]. specialize (IH d).
    rewrite (after_stop_existsb (pattern_names d) stop following) in IH;
      [| reflexivity | exact Hstop].
    destruct (existsb (pattern_names d) following).
    + rewrite orb_true_r. exact IH.
    + rewrite orb_false_r. unfold pattern_names at 1. cbn [snd].
      rewrite IH, PyDictFacts.get_set.
      rewrite (String.eqb_sym d (dest a)).
      destruct (String.eqb_spec (dest a) d) as [E | E]; [| reflexivity].
      exists a, v. auto.
Qed.

(** An option that is seen is an option of the pattern. *)
Lemma consumed_seen :
  forall pattern ns seen extras ns' seen' extras',
    consumed pattern ns seen extras ns' seen' extras' ->
    forall d, In d seen' ->
              In d seen \/ existsb (pattern_names d) pattern = true.
Proof.
  induction 1 as [ns seen extras
                 | s pat following ns seen extras ns' seen' extras' Hx Hc IH
                 | s a o e following stop v ns seen extras ns' seen' extras'
                     Ha Hv Hstop Hc IH]; intros d Hd.
  - now left.
  - destruct (IH d Hd) as [Hs | Hp]; [now left |].
    right. cbn [existsb]. rewrite Hp. apply orb_true_r.
  - destruct (IH d Hd) as [[<- | Hs] | Hp].
    + right. cbn [existsb]. unfold pattern_names at 1. cbn [snd].
      now rewrite String.eqb_refl.
    + now left.
    + right. cbn [existsb].
      rewrite (after_stop_existsb (pattern_names d) stop following) in Hp;
        [| reflexivity | exact Hstop].
      rewrite Hp. apply orb_true_r.
Qed.

Lemma scanned_names (d : string) (pattern : list (string * arg_pattern)) :
  Forall scanned pattern ->
  existsb (pattern_names d) pattern = existsb (names_option d) (map fst pattern).
Proof.
  induction 1 as [| [s pat] pattern Hs _ IH]; [reflexivity |].
  cbn [existsb map fst]. rewrite IH. f_equal.
  unfold scanned in Hs. unfold pattern_names, names_option.
  cbn [fst snd] in *.
  destruct pat as [| | act o e]; [| contradiction |]; now rewrite Hs.
Qed.

Lemma scanned_accepted (pattern : list (string * arg_pattern)) :
  Forall scanned pattern ->
  Forall accepted_pattern pattern ->
  forall s, In s (map fst pattern) -> accepted_string s.
Proof.
  intros Hs Ha s Hin. apply in_map_iff in Hin.
  destruct Hin as ([s' pat] & <- & Hin).
  rewrite Forall_forall in Hs, Ha.
  specialize (Hs _ Hin). specialize (Ha _ Hin).
  unfold scanned, accepted_pattern in *. unfold accepted_string.
  cbn [fst snd] in *.
  destruct pat as [| | act o e]; [| contradiction |]; now rewrite Hs.
Qed.

(** What [parse_args] has done when it returns a namespace. *)
Lemma parse_args_inv (cl : command_line) (ns : namespace) :
  parse cl = Ok ns ->
  exists pattern seen,
    arg_strings_pattern cl = Ok pattern
    /\ map fst pattern = cl
    /\ Forall scanned pattern
    /\ Forall accepted_pattern pattern
    /\ consumed pattern default_namespace [] [] ns seen []
    /\ In "model_path" seen /\ In "dataset_path" seen.
Proof.
  unfold parse_args. intros H.
  apply rbind_Ok_inv in H. destruct H as (pattern & Hp & H).
  apply rbind_Ok_inv in H. destruct H as ([[ns' seen] extras] & Hc & H).
  destruct (forallb _ parser_arguments) eqn:Hreq; [| discriminate].
  destruct extras as [| x xs]; [| discriminate].
  inversion H; subst ns'. clear H.
  destruct (arg_strings_pattern_inv _ _ Hp) as (Hfst & Hdecl & Hscan).
  pose proof (consume_optionals_consumed _ _ _ _ _ _ _ _ (Nat.le_refl _) Hdecl Hc)
    as Hcons.
  pose proof (consumed_accepted _ _ _ _ _ _ _ Hcons eq_refl) as Hacc.
  exists pattern, seen.
  split; [exact Hp |]. split; [exact Hfst |]. split.
  { apply Hscan. eapply Forall_impl; [| exact Hacc].
    intros [s pat] Ha E. unfold accepted_pattern in Ha. cbn [snd] in *.
    now rewrite E in Ha. }
  split; [exact Hacc |]. split; [exact Hcons |].
  rewrite forallb_forall in Hreq.
  split.
  - specialize (Hreq (mkArgument "--model_path" "model_path" type_str true None
                                 action_store) (or_introl eq_refl)).
    cbn [required dest negb orb] in Hreq.
    apply existsb_exists in Hreq. destruct Hreq as (d & Hd & Heq).
    apply String.eqb_eq in Heq. now subst d.
  - specialize (Hreq (mkArgument "--dataset_path" "dataset_path" type_str true
                                 None action_store)
                     (or_intror (or_intror (or_introl eq_refl)))).
    cbn [required dest negb orb] in Hreq.
    apply existsb_exists in Hreq. destruct Hreq as (d & Hd & Heq).
    apply String.eqb_eq in Heq. now subst d.
Qed.

(** The value of a destination in the namespace that [parse_args] returns:
    what an occurrence of its option stores when the option is given, and
    its default otherwise. *)
Lemma parse_args_namespace (cl : command_line) (ns : namespace) (d : string) :
  parse cl = Ok ns ->
  if option_given d cl
  then exists a v, In a parser_arguments /\ dest a = d
                   /\ stored_value a v /\ PyDict.get ns d = Some v
  else PyDict.get ns d = PyDict.get default_namespace d.
Proof.
  intros H.
  destruct (parse_args_inv _ _ H)
    as (pattern & seen & _ & Hfst & Hscan & _ & Hcons & _).
  pose proof (consumed_namespace _ _ _ _ _ _ _ Hcons d) as Hn.
  rewrite (scanned_names d pattern Hscan), Hfst in Hn. exact Hn.
Qed.

Lemma parse_args_required (cl : command_line) (ns : namespace) :
  parse cl = Ok ns ->
  option_given "model_path" cl = true /\ option_given "dataset_path" cl = true.
Proof.
  intros H.
  destruct (parse_args_inv _ _ H)
    as (pattern & seen & _ & Hfst & Hscan & _ & Hcons & Hm & Hd).
  unfold option_given. rewrite <- Hfst, <- !(scanned_names _ pattern Hscan).
  split.
  - destruct (consumed_seen _ _ _ _ _ _ _ Hcons _ Hm) as [[] | E]; exact E.
  - destruct (consumed_seen _ _ _ _ _ _ _ Hcons _ Hd) as [[] | E]; exact E.
Qed.

(** The argument of a destination. *)
Ltac the_argument Ha Hd :=
  unfold parser_arguments in Ha; simpl in Ha;
  repeat (destruct Ha as [<- | Ha]; [try discriminate Hd |]);
  try contradiction.

(** The attributes of the namespace have the types that [main] expects. *)
Lemma parse_args_typed (cl : command_line) (ns : namespace) :
  parse cl = Ok ns ->
  (exists s, PyDict.get ns "classes_path" = Some (VStr s))
  /\ (exists s, PyDict.get ns "model_image_size" = Some (VStr s))
  /\ (exists s, PyDict.get ns "model_path" = Some (VStr s))
  /\ (exists s, PyDict.get ns "dataset_path" = Some (VStr s))
  /\ (exists x, PyDict.get ns "score_threshold" = Some (VFloat x))
  /\ (exists x, PyDict.get ns "conf_threshold" = Some (VFloat x))
  /\ (PyDict.get ns "skeleton_path" = Some VNone
      \/ exists s, PyDict.get ns "skeleton_path" = Some (VStr s))
  /\ PyDict.get ns "save_result"
     = Some (VBool (option_given "save_result" cl)).
Proof.
  intros H.
  destruct (parse_args_required _ _ H) as [Hm Hd].
  pose proof (parse_args_namespace cl ns "classes_path" H) as H1.
  pose proof (parse_args_namespace cl ns "model_image_size" H) as H2.
  pose proof (parse_args_namespace cl ns "model_path" H) as H3.
  pose proof (parse_args_namespace cl ns "dataset_path" H) as H4.
  pose proof (parse_args_namespace cl ns "score_threshold" H) as H5.
  pose proof (parse_args_namespace cl ns "conf_threshold" H) as H6.
  pose proof (parse_args_namespace cl ns "skeleton_path" H) as H7.
  pose proof (parse_args_namespace cl ns "save_result" H) as H8.
  rewrite Hm in H3. rewrite Hd in H4.
  repeat split.
  - destruct (option_given "classes_path" cl).
    + destruct H1 as (a & v & Ha & Hda & Hv & Hg). the_argument Ha Hda.
      destruct Hv as (s & ->). eauto.
    + rewrite H1. eexists. reflexivity.
  - destruct (option_given "model_image_size" cl).
    + destruct H2 as (a & v & Ha & Hda & Hv & Hg). the_argument Ha Hda.
      destruct Hv as (s & ->). eauto.
    + rewrite H2. eexists. reflexivity.
  - destruct H3 as (a & v & Ha & Hda & Hv & Hg). the_argument Ha Hda.
    destruct Hv as (s & ->). eauto.
  - destruct H4 as (a & v & Ha & Hda & Hv & Hg). the_argument Ha Hda.
    destruct Hv as (s & ->). eauto.
  - destruct (option_given "score_threshold" cl).
    + destruct H5 as (a & v & Ha & Hda & Hv & Hg). the_argument Ha Hda.
      destruct Hv as (x & ->). eauto.
    + rewrite H5. eexists. reflexivity.
  - destruct (option_given "conf_threshold" cl).
    + destruct H6 as (a & v & Ha & Hda & Hv & Hg). the_argument Ha Hda.
      destruct Hv as (x & ->). eauto.
    + rewrite H6. eexists. reflexivity.
  - destruct (option_given "skeleton_path" cl).
    + destruct H7 as (a & v & Ha & Hda & Hv & Hg). the_argument Ha Hda.
      destruct Hv as (s & ->). eauto.
    + left. rewrite H7. reflexivity.
  - destruct (option_given "save_result" cl).
    + destruct H8 as (a & v & Ha & Hda & Hv & Hg). the_argument Ha Hda.
      unfold stored_value in Hv. cbn in Hv. now subst v.
    + rewrite H8. reflexivity.
Qed.

(** The namespace holds the eight destinations, and nothing else. *)
Lemma parse_args_attributes (cl : command_line) (ns : namespace) (d : string) :
  parse cl = Ok ns ->
  (PyDict.get ns d <> None <-> In d destinations).
Proof.
  intros H.
  destruct (parse_args_typed _ _ H)
    as ((s1 & H1) & (s2 & H2) & (s3 & H3) & (s4 & H4) & (x5 & H5) & (x6 & H6)
        & H7 & H8).
  pose proof (parse_args_namespace cl ns d H) as Hn.
  split.
  - intros Hg. destruct (option_given d cl).
    + destruct Hn as (a & v & Ha & <- & _). now apply in_map.
    + rewrite Hn in Hg. unfold destinations, parser_arguments.
      cbn [map dest]. revert Hg. unfold default_namespace, parser_arguments.
      cbn [fold_left default dest PyDict.set PyDict.get String.eqb Ascii.eqb
           Bool.eqb].
      repeat match goal with
             | |- context [String.eqb d ?k] =>
                 destruct (String.eqb_spec d k) as [-> | ?];
                 [intros _; simpl; tauto |]
             end.
      congruence.
  - unfold destinations, parser_arguments. cbn [map dest In].
    intros [<- | [<- | [<- | [<- | [<- | [<- | [<- | [<- | []]]]]]]]];
      try congruence.
    destruct H7 as [E | (s & E)]; congruence.
Qed.

(** ** The exits of argparse *)

Lemma arg_strings_pattern_raises :
  forall (cl : command_line) (e : exn),
    arg_strings_pattern cl = Raise e -> e = SystemExit 2.
Proof.
  induction cl as [| s cl IH]; intros e H; [discriminate |].
  cbn [arg_strings_pattern] in H.
  destruct (String.eqb s "--"); [discriminate |].
  destruct (parse_optional s).
  - destruct (arg_strings_pattern cl); [discriminate |].
    inversion H; subst. now apply IH.
  - destruct (arg_strings_pattern cl); [discriminate |].
    inversion H; subst. now apply IH.
  - now inversion H.
Qed.

Lemma match_argument_raises (act : parser_action)
    (following : list (string * arg_pattern)) (e : exn) :
  match_argument act following = Raise e -> e = SystemExit 2.
Proof.
  unfold match_argument. destruct (nargs act); [discriminate |].
  destruct following as [| [s [| | a o x]] rest]; intros H;
    now inversion H.
Qed.

Lemma consume_explicit_raises :
  forall (e : string) (act : parser_action) (o : string)
         (following : list (string * arg_pattern)) (x : exn),
    consume_explicit act o e following = Raise x -> x = SystemExit 2.
Proof.
  induction e as [| c e IH]; intros act o following x;
    rewrite consume_explicit_eq.
  - destruct (_ && _ && _); [intros H; now inversion H |].
    destruct (Nat.eqb _ 1); intros H; now inversion H.
  - destruct (_ && _ && _).
    + destruct (PyDict.get _ _) as [act' |]; [| intros H; now inversion H].
      destruct e as [| c' e'].
      * destruct (match_argument act' following) as [n | x'] eqn:Em;
          cbn [rbind]; [discriminate |].
        intros H. inversion H; subst.
        exact (match_argument_raises _ _ _ Em).
      * destruct (consume_explicit act' _ (String c' e') following)
          as [[tuples stop] | x'] eqn:Ec; cbn [rbind]; [discriminate |].
        intros H. inversion H; subst. exact (IH _ _ _ _ Ec).
    + destruct (Nat.eqb _ 1); intros H; now inversion H.
Qed.

Lemma consume_optional_raises (act : parser_action) (o : string)
    (e : option string) (following : list (string * arg_pattern)) (x : exn) :
  consume_optional act o e following = Raise x -> x = SystemExit 2.
Proof.
  unfold consume_optional. destruct e as [e |].
  - apply consume_explicit_raises.
  - destruct (match_argument act following) as [n | x'] eqn:Em; cbn [rbind];
      [discriminate |].
    intros H. inversion H; subst. exact (match_argument_raises _ _ _ Em).
Qed.

Lemma take_actions_raises :
  forall (tuples : list (parser_action * list string)) (ns : namespace)
         (seen : list string) (x : exn),
    take_actions py_float tuples ns seen = Raise x ->
    x = SystemExit 0 \/ x = SystemExit 2.
Proof.
  induction tuples as [| [act args] tuples IH]; intros ns seen x H;
    [discriminate |].
  cbn [take_actions] in H.
  destruct (take_action py_float act args ns seen) as [[ns1 seen1] | x'] eqn:Et;
    cbn [rbind] in H.
  - exact (IH _ _ _ H).
  - inversion H; subst. unfold take_action in Et.
    destruct act as [| a]; [inversion Et; auto |].
    destruct (action a); [| discriminate].
    destruct args as [| s [| s' l]]; try (inversion Et; auto; fail).
    destruct (arg_type_of a); [discriminate |].
    destruct (py_float s); [discriminate | inversion Et; auto].
Qed.

Lemma consume_optionals_raises :
  forall (n : nat) (pattern : list (string * arg_pattern))
         (ns : namespace) (seen extras : list string) (x : exn),
    (List.length pattern <= n)%nat ->
    consume_optionals py_float pattern ns seen extras = Raise x ->
    x = SystemExit 0 \/ x = SystemExit 2.
Proof.
  induction n as [| n IH]; intros pattern ns seen extras x Hn H.
  - destruct pattern; [discriminate | simpl in Hn; lia].
  - destruct pattern as [| [s pat] following]; [discriminate |].
    simpl in Hn.
    destruct pat as [| | [act |] o e];
      cbn [consume_optionals] in H;
      try (eapply IH; [| exact H]; lia).
    destruct (consume_optional act o e following) as [[tuples stop] | x']
      eqn:Ec; cbn [rbind] in H.
    + destruct (take_actions py_float tuples ns seen) as [[ns1 seen1] | x']
        eqn:Et; cbn [rbind] in H.
      * destruct stop as [| stop], following as [| item following'];
          (eapply IH; [| exact H]; simpl in *; lia).
      * inversion H; subst. exact (take_actions_raises _ _ _ _ Et).
    + inversion H; subst. right. exact (consume_optional_raises _ _ _ _ _ Ec).
Qed.

Lemma parse_args_raises (cl : command_line) (e : exn) :
  parse cl = Raise e -> e = SystemExit 0 \/ e = SystemExit 2.
Proof.
  unfold parse_args.
  destruct (arg_strings_pattern cl) as [pattern | x] eqn:Ep; cbn [rbind].
  - destruct (consume_optionals py_float pattern default_namespace [] [])
      as [[[ns seen] extras] | x] eqn:Ec; cbn [rbind].
    + destruct (forallb _ parser_arguments); [destruct extras |];
        intros H; inversion H; auto.
    + intros H. inversion H; subst.
      exact (consume_optionals_raises _ _ _ _ _ _ (Nat.le_refl _) Ec).
  - intros H. inversion H; subst. right.
    exact (arg_strings_pattern_raises _ _ Ep).
Qed.

(** ** Command lines that are accepted *)

Lemma is_value_positional (s : string) :
  is_value s = true ->
  String.eqb s "--" = false /\ parse_optional s = IsPositional.
Proof.
  unfold is_value, parse_optional. destruct s as [| c s]; [auto |].
  intros H. rewrite H. split; [| reflexivity].
  cbn [String.eqb]. destruct (Ascii.eqb_spec c "-") as [-> | Hne];
    [discriminate | reflexivity].
Qed.

(** The two required options, with their values, are accepted, and give
    the defaults of the others; an option may be abbreviated, and may come
    with its value in the same string. *)
Lemma parse_args_required_only (m d : string) :
  is_value m = true -> is_value d = true ->
  parse ["--model_path"; m; "--dataset_path"; d]
  = Ok [("classes_path", VStr "configs/mpii_classes.txt");
        ("score_threshold", VFloat f64_0_5);
        ("conf_threshold", VFloat f64_1em6);
        ("model_image_size", VStr "256x256");
        ("save_result", VBool false);
        ("skeleton_path", VNone);
        ("model_path", VStr m);
        ("dataset_path", VStr d)]
  /\ parse ["--model_p"; m; String.append "--dataset_path=" d]
     = parse ["--model_path"; m; "--dataset_path"; d].
Proof.
  intros Hm Hd.
  destruct (is_value_positional m Hm) as [Em Pm].
  destruct (is_value_positional d Hd) as [Ed Pd].
  assert (E1 : parse ["--model_path"; m; "--dataset_path"; d]
               = Ok [("classes_path", VStr "configs/mpii_classes.txt");
                     ("score_threshold", VFloat f64_0_5);
                     ("conf_threshold", VFloat f64_1em6);
                     ("model_image_size", VStr "256x256");
                     ("save_result", VBool false);
                     ("skeleton_path", VNone);
                     ("model_path", VStr m);
                     ("dataset_path", VStr d)]).
  { unfold parse_args. cbn [arg_strings_pattern].
    rewrite Em, Pm, Ed, Pd.
    change (String.eqb "--model_path" "--") with false.
    change (String.eqb "--dataset_path" "--") with false.
    change (parse_optional "--model_path")
      with (IsOptional
              (Some (ArgumentAction
                       (mkArgument "--model_path" "model_path" type_str true
                                   None action_store)))
              "--model_path" None).
    change (parse_optional "--dataset_path")
      with (IsOptional
              (Some (ArgumentAction
                       (mkArgument "--dataset_path" "dataset_path" type_str
                                   true None action_store)))
              "--dataset_path" None).
    reflexivity. }
  split; [exact E1 |].
  rewrite E1. unfold parse_args. cbn [arg_strings_pattern].
  rewrite Em, Pm.
  change (String.eqb "--model_p" "--") with false.
  change (parse_optional "--model_p")
    with (IsOptional
            (Some (ArgumentAction
                     (mkArgument "--model_path" "model_path" type_str true
                                 None action_store)))
            "--model_path" None).
  change (String.eqb (String.append "--dataset_path=" d) "--") with false.
  change (parse_optional (String.append "--dataset_path=" d))
    with (IsOptional
            (Some (ArgumentAction
                     (mkArgument "--dataset_path" "dataset_path" type_str
                                 true None action_store)))
            "--dataset_path" (Some d)).
  cbn -[consume_explicit f64_0_5 f64_1em6].
  rewrite consume_explicit_eq. reflexivity.
Qed.

(** ** [main] *)

Local Abbreviation setup :=
  (main_setup skeleton tflite_Interpreter MNN_Interpreter tf_import_graph_def
              load_model py_int get_skeleton get_classes get_normalize
              hourglass_dataset).
Local Abbreviation mainf :=
  (main astype_float32 post_process_heatmap invert_transform_kp skeleton
        tflite_Interpreter MNN_Interpreter tf_import_graph_def load_model
        py_float py_int get_skeleton get_classes get_normalize
        hourglass_dataset).
Local Abbreviation evalf :=
  (eval_PCK astype_float32 post_process_heatmap invert_transform_kp skeleton).

Lemma print_accuracies_eq (items : list (string * R)) :
  print_accuracies items
  = (map (fun item => EvPrint "%s: %f" [ArgStr (fst item);
                                        ArgFloat (Some (snd item))]) items,
     Ok tt).
Proof.
  induction items as [| [name a] items IH]; [reflexivity |].
  cbn [print_accuracies]. rewrite bind_emit, IH. reflexivity.
Qed.

(** [main], unfolded: the options, the evaluation, the report. *)
Lemma main_eq (fuel : nat) (cl : command_line) :
  mainf fuel cl
  = match rbind (parse cl) setup with
    | Raise e => Some ([], Raise e)
    | Ok (sk, cn, nz, (model, fmt), ds, (st, ct, sr)) =>
        match evalf model fmt ds cn st nz ct sr sk fuel with
        | None => None
        | Some (tr, Ok (total, acc)) =>
            Some (tr ++ accuracy_report total acc, Ok tt)
        | Some (tr, Raise e) => Some (tr, Raise e)
        end
    end.
Proof.
  unfold main.
  destruct (rbind (parse cl) setup)
    as [[[[[[sk cn] nz] [model fmt]] ds] [[st ct] sr]] | e]; [| reflexivity].
  cbn [obind lift].
  destruct (evalf model fmt ds cn st nz ct sr sk fuel)
    as [[tr [[total acc] | e]] |]; cbn [obind_loop]; [| reflexivity | reflexivity].
  cbv beta iota delta [bind]. rewrite print_accuracies_eq.
  unfold accuracy_report, PyDict.items. reflexivity.
Qed.

Lemma main_setup_inv (args : namespace) sk cn nz model fmt ds st ct sr :
  setup args = Ok (sk, cn, nz, (model, fmt), ds, (st, ct, sr)) ->
  (exists path, load path = Ok (model, fmt))
  /\ exists v, getattr args "save_result" = Ok v /\ sr = truthy v.
Proof.
  unfold main_setup. intros H.
  do 5 (apply rbind_Ok_inv in H; destruct H as (? & ? & H)).
  match type of H with (let '(_, _) := ?p in _) = _ => destruct p end.
  repeat (apply rbind_Ok_inv in H; destruct H as (? & ? & H)).
  inversion H; subst. split; eauto.
Qed.

(** A run of [main] ends before the evaluation, with nothing done, or goes
    through the evaluation with the options of the namespace; the
    evaluation saves its results exactly when the flag is given on the
    command line. *)
Lemma main_inv (fuel : nat) (cl : command_line) (tr : list event)
    (r : result unit) :
  mainf fuel cl = Some (tr, r) ->
  (exists e, rbind (parse cl) setup = Raise e /\ tr = [] /\ r = Raise e)
  \/ (exists ns sk cn nz model fmt ds st ct tr_e r_e,
         parse cl = Ok ns
         /\ setup ns = Ok (sk, cn, nz, (model, fmt), ds,
                           (st, ct, option_given "save_result" cl))
         /\ evalf model fmt ds cn st nz ct (option_given "save_result" cl)
                  sk fuel
            = Some (tr_e, r_e)
         /\ match r_e with
            | Ok (total, acc) =>
                tr = tr_e ++ accuracy_report total acc /\ r = Ok tt
            | Raise e => tr = tr_e /\ r = Raise e
            end).
Proof.
  rewrite main_eq. intros H.
  destruct (rbind (parse cl) setup)
    as [[[[[[sk cn] nz] [model fmt]] ds] [[st ct] sr]] | e] eqn:E.
  - right. apply rbind_Ok_inv in E. destruct E as (ns & Hp & Hs).
    destruct (main_setup_inv _ _ _ _ _ _ _ _ _ _ Hs) as (_ & v & Hv & Hsr).
    destruct (parse_args_typed _ _ Hp) as (_ & _ & _ & _ & _ & _ & _ & Hg).
    unfold getattr in Hv. rewrite Hg in Hv. inversion Hv; subst v.
    simpl in Hsr. subst sr.
    destruct (evalf model fmt ds cn st nz ct (option_given "save_result" cl)
                    sk fuel)
      as [[tr_e r_e] |] eqn:Ee; [| discriminate].
    exists ns, sk, cn, nz, model, fmt, ds, st, ct, tr_e, r_e.
    repeat split; auto.
    destruct r_e as [[total acc] | e]; inversion H; subst; auto.
  - left. inversion H; subst. eauto.
Qed.

Lemma accuracy_report_prints (total : option R) (acc : PyDict.t R) :
  filter is_print_event (accuracy_report total acc) = accuracy_report total acc
  /\ filter is_file_event (accuracy_report total acc) = []
  /\ filter is_image_save (accuracy_report total acc) = []
  /\ inference_images (accuracy_report total acc) = []
  /\ Forall writes_under_result (accuracy_report total acc).
Proof.
  unfold accuracy_report, PyDict.items.
  induction acc as [| item acc IH]; simpl.
  - repeat split; auto. repeat constructor.
  - destruct IH as (H1 & H2 & H3 & H4 & H5). simpl in *.
    inversion H1 as [H1']. rewrite !H1'.
    inversion H5 as [| ? ? _ H5']; subst.
    repeat split; auto. repeat constructor; assumption.
Qed.

(** An evaluation prints nothing. *)
Lemma eval_PCK_no_print model fmt ds cn st nz ct sr sk fuel tr r :
  evalf model fmt ds cn st nz ct sr sk fuel = Some (tr, r) ->
  filter is_print_event tr = [].
Proof.
  intros He. apply filter_nil_Forall.
  pose proof (eval_PCK_events _ _ _ _ _ _ _ _ _ _ _ He) as Hev.
  cbn [trace fst] in Hev.
  eapply Forall_impl; [| exact Hev].
  intros ev [Hok _]. destruct ev; simpl in *; congruence.
Qed.

(** A run of [main] that ends with an exception has printed nothing. *)
Lemma main_raise_no_print (fuel : nat) (cl : command_line) (tr : list event)
    (e : exn) :
  mainf fuel cl = Some (tr, Raise e) -> filter is_print_event tr = [].
Proof.
  intros H.
  destruct (main_inv _ _ _ _ H)
    as [(e' & _ & -> & _)
       | (ns & sk & cn & nz & model & fmt & ds & st & ct & tr_e & r_e
          & Hp & Hs & He & Hm)]; [reflexivity |].
  destruct r_e as [[total acc] | e']; [destruct Hm as [_ Hm]; discriminate |].
  destruct Hm as [-> _]. exact (eval_PCK_no_print _ _ _ _ _ _ _ _ _ _ _ _ He).
Qed.

(** C8, as it holds.  The parser declares the model path and the dataset
    path, both required, and the classes path, the score threshold, the
    confidence threshold, the model image size, the save-result flag and
    the skeleton path, with their defaults.  On a command line that it
    accepts, every string is one of these options (in full, abbreviated, or
    with its value after an [=]) or the value of one, the two required
    options are given, and the namespace holds the eight attributes, of
    which [save_result] is true exactly when the flag is given.  A run that
    comes to its end prints the accuracy of each class and the total
    accuracy, whatever the flag, while a run that ends with an exception
    prints nothing.  Whatever is written is written in the result
    directory, nothing is written when [save_result] is false, and a run
    that comes to its end with [save_result] true writes the plot and one
    detection image per sample. *)
Theorem command_line_interface :
  map (fun a => (option_string a, required a, default a)) parser_arguments
  = [("--model_path", true, None);
     ("--classes_path", false, Some (VStr "configs/mpii_classes.txt"));
     ("--dataset_path", true, None);
     ("--score_threshold", false, Some (VFloat f64_0_5));
     ("--conf_threshold", false, Some (VFloat f64_1em6));
     ("--model_image_size", false, Some (VStr "256x256"));
     ("--save_result", false, Some (VBool false));
     ("--skeleton_path", false, Some VNone)]
  /\ (forall cl ns,
         parse cl = Ok ns ->
         (forall s, In s cl -> accepted_string s)
         /\ option_given "model_path" cl = true
         /\ option_given "dataset_path" cl = true
         /\ (forall d, PyDict.get ns d <> None <-> In d destinations)
         /\ PyDict.get ns "save_result"
            = Some (VBool (option_given "save_result" cl)))
  /\ (forall m d,
         is_value m = true -> is_value d = true ->
         parse ["--model_path"; m; "--dataset_path"; d]
         = Ok [("classes_path", VStr "configs/mpii_classes.txt");
               ("score_threshold", VFloat f64_0_5);
               ("conf_threshold", VFloat f64_1em6);
               ("model_image_size", VStr "256x256");
               ("save_result", VBool false);
               ("skeleton_path", VNone);
               ("model_path", VStr m);
               ("dataset_path", VStr d)]
         /\ parse ["--model_p"; m; String.append "--dataset_path=" d]
            = parse ["--model_path"; m; "--dataset_path"; d])
  /\ (forall fuel cl tr,
         mainf fuel cl = Some (tr, Ok tt) ->
         exists ns sk cn nz model fmt ds st ct tr_e total acc,
           parse cl = Ok ns
           /\ setup ns = Ok (sk, cn, nz, (model, fmt), ds,
                             (st, ct, option_given "save_result" cl))
           /\ evalf model fmt ds cn st nz ct (option_given "save_result" cl)
                    sk fuel
              = Some (tr_e, Ok (total, acc))
           /\ tr = tr_e ++ accuracy_report total acc
           /\ filter is_print_event tr = accuracy_report total acc)
  /\ (forall fuel cl tr e,
         mainf fuel cl = Some (tr, Raise e) ->
         filter is_print_event tr = [])
  /\ (forall fuel cl tr r,
         mainf fuel cl = Some (tr, r) ->
         Forall writes_under_result tr
         /\ (forall ns,
                parse cl = Ok ns ->
                PyDict.get ns "save_result" = Some (VBool false) ->
                filter is_file_event tr = []))
  /\ (forall fuel cl tr ns,
         mainf fuel cl = Some (tr, Ok tt) ->
         parse cl = Ok ns ->
         PyDict.get ns "save_result" = Some (VBool true) ->
         In (EvTouchDir "result") tr
         /\ (exists acc st total,
                In (EvSaveFig "result/PCK.jpg" acc st total) tr)
         /\ List.length (filter is_image_save tr)
            = List.length (inference_images tr)).
Proof.
  split; [reflexivity |].
  split; [| split; [| split; [| split; [| split]]]].
  - intros cl ns H.
    destruct (parse_args_inv _ _ H)
      as (pattern & seen & _ & Hfst & Hscan & Hacc & _).
    destruct (parse_args_required _ _ H) as [Hm Hd].
    destruct (parse_args_typed _ _ H) as (_ & _ & _ & _ & _ & _ & _ & Hg).
    split; [| split; [| split; [| split]]]; auto.
    + rewrite <- Hfst. now apply scanned_accepted.
    + intros d. now apply (parse_args_attributes cl).
  - exact parse_args_required_only.
  - intros fuel cl tr H.
    destruct (main_inv _ _ _ _ H)
      as [(e & _ & _ & E) | (ns & sk & cn & nz & model & fmt & ds & st & ct
                              & tr_e & r_e & Hp & Hs & He & Hr)];
      [discriminate |].
    destruct r_e as [[total acc] | e]; [| destruct Hr; discriminate].
    destruct Hr as [-> _].
    exists ns, sk, cn, nz, model, fmt, ds, st, ct, tr_e, total, acc.
    repeat split; auto.
    rewrite filter_app.
    rewrite (proj1 (accuracy_report_prints total acc)).
    now rewrite (eval_PCK_no_print _ _ _ _ _ _ _ _ _ _ _ _ He).
  - exact main_raise_no_print.
  - intros fuel cl tr r H.
    destruct (main_inv _ _ _ _ H)
      as [(e & _ & -> & _) | (ns & sk & cn & nz & model & fmt & ds & st & ct
                               & tr_e & r_e & Hp & Hs & He & Hr)].
    { split; [constructor | reflexivity]. }
    pose proof (eval_PCK_events _ _ _ _ _ _ _ _ _ _ _ He) as Hev.
    cbn [trace fst] in Hev.
    assert (Hpath : Forall writes_under_result tr_e).
    { eapply Forall_impl; [| exact Hev]. now intros e [_ Hw]. }
    assert (Hfile : option_given "save_result" cl = false ->
                    filter is_file_event tr_e = []).
    { intros Hg. apply filter_nil_Forall. rewrite Hg in Hev.
      eapply Forall_impl; [| exact Hev].
      intros e [Hok _]. destruct e; try reflexivity; discriminate. }
    assert (Hns : forall ns',
               parse cl = Ok ns' ->
               PyDict.get ns' "save_result" = Some (VBool false) ->
               option_given "save_result" cl = false).
    { intros ns' Hp' Hg.
      destruct (parse_args_typed _ _ Hp') as (_ & _ & _ & _ & _ & _ & _ & Hg').
      congruence. }
    destruct r_e as [[total acc] | e]; destruct Hr as [-> _].
    + destruct (accuracy_report_prints total acc) as (_ & Hf & _ & _ & Hw).
      split.
      * apply Forall_app. split; assumption.
      * intros ns' Hp' Hg.
        rewrite filter_app, Hf, (Hfile (Hns ns' Hp' Hg)). reflexivity.
    + split; [assumption |]. intros ns' Hp' Hg. exact (Hfile (Hns ns' Hp' Hg)).
  - intros fuel cl tr ns0 H Hp0 Hg0.
    destruct (main_inv _ _ _ _ H)
      as [(e & _ & _ & E) | (ns & sk & cn & nz & model & fmt & ds & st & ct
                              & tr_e & r_e & Hp & Hs & He & Hr)];
      [discriminate |].
    destruct r_e as [[total acc] | e]; [| destruct Hr; discriminate].
    destruct Hr as [-> _].
    assert (Hg : option_given "save_result" cl = true).
    { destruct (parse_args_typed _ _ Hp0) as (_ & _ & _ & _ & _ & _ & _ & Hg').
      congruence. }
    pose proof (eval_PCK_Ok_saved _ _ _ _ _ _ _ _ _ _ _ _ _ He) as Hsaved.
    rewrite Hg in Hsaved. destruct Hsaved as (Hdir & Hfig & Hlen).
    destruct (accuracy_report_prints total acc) as (_ & _ & Hi & Hinf & _).
    split; [apply in_or_app; now left |]. split.
    + exists acc, st, total. apply in_or_app. now left.
    + rewrite filter_app, inference_images_app, !length_app, Hi, Hinf, Hlen.
      reflexivity.
Qed.

End Main.
End ScriptFacts.

(* ================================================================== *)
(** * The small evaluation *)

Module ExampleFacts.
Import Example.

Lemma check_head :
  check_pred_keypoints (mkKeypoint (fl 2) (fl 0) [tenths 9])
                       (mkKeypoint (fl 5) (fl 4) [fl 1]) (fl 1) (fl 10) = 1.
Proof. vm_compute. reflexivity. Qed.

Lemma check_neck :
  check_pred_keypoints (mkKeypoint (fl 7) (fl 7) [tenths 8])
                       (mkKeypoint (fl 20) (fl 7) [fl 1]) (fl 1) (fl 10) = 0.
Proof. vm_compute. reflexivity. Qed.

Lemma check_neck_invalid :
  check_pred_keypoints (mkKeypoint (fl 7) (fl 7) [tenths 8])
                       (mkKeypoint (fl 0) (fl 0) [fl 0]) (fl 1) (fl 10) = -1.
Proof. vm_compute. reflexivity. Qed.

Lemma keypoint_accuracy_example :
  keypoint_accuracy pred_keypoints gt_keypoints (fl 1) (fl 10) = Ok [1; 0].
Proof. vm_compute. reflexivity. Qed.

Lemma keypoint_accuracy_example_invalid :
  keypoint_accuracy pred_keypoints gt_keypoints_invalid (fl 1) (fl 10)
  = Ok [1; -1].
Proof. vm_compute. reflexivity. Qed.

Lemma eval_sample_example :
  eval_sample astype_float32 post_process_heatmap invert_transform_kp unit
    keras "H5" class_names (fl 1) (fl 10) f64_1em6 false None tt smp
    (init_counters class_names)
  = ([EvInference "model.predict" image; EvPbarUpdate 1], Ok counters_after).
Proof. vm_compute. reflexivity. Qed.

Lemma eval_sample_example_saved :
  exists gd pd,
    eval_sample astype_float32 post_process_heatmap invert_transform_kp unit
      keras "H5" class_names (fl 1) (fl 10) f64_1em6 true None tt smp
      (init_counters class_names)
    = ([EvInference "model.predict" image; EvTouchDir "result/detection";
        EvImageSave "result/detection/a.jpg" gd pd; EvPbarUpdate 1],
       Ok counters_after).
Proof. do 2 eexists. vm_compute. reflexivity. Qed.

Lemma eval_loop_example (save_result : bool) :
  exists tr,
    eval_loop astype_float32 post_process_heatmap invert_transform_kp unit
      keras "H5" dataset class_names (fl 1) (fl 10) f64_1em6 save_result None 2 tt 0 0
      (init_counters class_names)
    = Some (tr, Ok counters_after)
    /\ (save_result = false ->
        tr = [EvInference "model.predict" image; EvPbarUpdate 1]).
Proof.
  cbn [eval_loop]. unfold eval_generator, dataset at 1. cbn [generator].
  change (0 + batch_size >? get_dataset_size dataset) with false. cbv iota.
  destruct save_result.
  - destruct eval_sample_example_saved as (gd & pd & ->).
    eexists. split; [reflexivity | discriminate].
  - rewrite eval_sample_example. eexists. split; reflexivity.
Qed.

Lemma np_true_divide_half :
  np_true_divide (IZR (np_sum [1; 0]%Z) * 1.0)%R
                 (IZR (np_sum [0; 1] + np_sum [1; 0]))
  = Some (1 / 2)%R.
Proof.
  cbn [np_sum fold_right]. simpl Z.add.
  rewrite np_true_divide_nonzero by lra. f_equal. lra.
Qed.

Lemma eval_finish_example :
  eval_finish class_names (fl 1) false counters_after
  = ([EvPbarClose], Ok (Some (1 / 2)%R, accuracy_after)).
Proof.
  unfold eval_finish. rewrite bind_emit.
  change (accuracy_loop (enumerate class_names) counters_after
                        (PyDict.from_keys class_names 0%R))
    with (Ok accuracy_after).
  rewrite bind_lift. cbv zeta.
  change (PyDict.values (succeed_dict counters_after)) with [1; 0].
  change (PyDict.values (fail_dict counters_after)) with [0; 1].
  rewrite np_true_divide_half. reflexivity.
Qed.

Lemma run_eval_PCK_example :
  run_eval_PCK keras "H5" dataset false 2
  = Some ([EvPbarOpen 1; EvInference "model.predict" image; EvPbarUpdate 1;
           EvPbarClose],
          Ok (Some (1 / 2)%R, accuracy_after)).
Proof.
  unfold run_eval_PCK. rewrite eval_PCK_eq.
  change (String.eqb "H5" "MNN" && negb (is_mnn_interpreter keras)) with false.
  cbv iota.
  destruct (eval_loop_example false) as (tr & -> & Htr).
  rewrite (Htr eq_refl), eval_finish_example. reflexivity.
Qed.

Lemma eval_finish_example_saved :
  eval_finish class_names (fl 1) true counters_after
  = ([EvPbarClose; EvTouchDir "result";
      EvSaveFig "result/PCK.jpg" accuracy_after (fl 1) (Some (1 / 2)%R)],
     Ok (Some (1 / 2)%R, accuracy_after)).
Proof.
  unfold eval_finish. rewrite bind_emit.
  change (accuracy_loop (enumerate class_names) counters_after
                        (PyDict.from_keys class_names 0%R))
    with (Ok accuracy_after).
  rewrite bind_lift. cbv zeta.
  change (PyDict.values (succeed_dict counters_after)) with [1; 0].
  change (PyDict.values (fail_dict counters_after)) with [0; 1].
  rewrite np_true_divide_half. reflexivity.
Qed.

Lemma run_eval_PCK_example_saved :
  exists tr,
    run_eval_PCK keras "H5" dataset true 2
    = Some (tr, Ok (Some (1 / 2)%R, accuracy_after)).
Proof.
  unfold run_eval_PCK. rewrite eval_PCK_eq.
  change (String.eqb "H5" "MNN" && negb (is_mnn_interpreter keras)) with false.
  cbv iota.
  destruct (eval_loop_example true) as (tr & -> & _).
  rewrite eval_finish_example_saved. eexists. reflexivity.
Qed.

Lemma setup_example (save : bool) :
  rbind (parse_args py_float (if save then cl_saved else cl_plain))
        (main_setup unit tflite_Interpreter MNN_Interpreter tf_import_graph_def
                    load_model py_int get_skeleton get_classes get_normalize
                    hourglass_dataset)
  = Ok (None, class_names, fl 10, (keras, "H5"), dataset,
        (fl 1, f64_1em6, save)).
Proof. destruct save; vm_compute; reflexivity. Qed.

Lemma run_main_plain :
  run_main 2 cl_plain
  = Some ([EvPbarOpen 1; EvInference "model.predict" image; EvPbarUpdate 1;
           EvPbarClose]
          ++ accuracy_report (Some (1 / 2)%R) accuracy_after,
          Ok tt).
Proof.
  unfold run_main. rewrite main_eq, (setup_example false).
  change (eval_PCK _ _ _ _ keras "H5" dataset class_names (fl 1) (fl 10) f64_1em6 false None 2)
    with (run_eval_PCK keras "H5" dataset false 2).
  rewrite run_eval_PCK_example. reflexivity.
Qed.

Lemma run_main_saved : exists tr, run_main 2 cl_saved = Some (tr, Ok tt).
Proof.
  unfold run_main. rewrite main_eq, (setup_example true).
  change (eval_PCK _ _ _ _ keras "H5" dataset class_names (fl 1) (fl 10) f64_1em6 true None 2)
    with (run_eval_PCK keras "H5" dataset true 2).
  destruct run_eval_PCK_example_saved as (tr & ->). eexists. reflexivity.
Qed.

(** ** Runs that raise *)

Lemma run_main_mismatch :
  run_main 2 cl_mismatch
  = Some ([EvPbarOpen 1; EvInference "model.predict" image],
          Raise (AssertionError "keypoint number mismatch")).
Proof. reflexivity. Qed.

Lemma run_main_bad_size :
  run_main 2 cl_bad_size
  = Some ([], Raise (ValueError "not enough values to unpack")).
Proof. reflexivity. Qed.

Lemma run_eval_PCK_empty :
  run_eval_PCK keras "H5" dataset_empty false 1
  = Some ([EvPbarOpen 0; EvPbarClose], Raise ZeroDivisionError).
Proof. reflexivity. Qed.

Lemma mnn_input_ok_example (dt : halide_type) (layout : dimension_type) :
  mnn_input_ok (mnn_interp dt layout) image.
Proof. exists 3%nat. repeat split. Qed.



Lemma mnn_output_ok_example (layout : dimension_type) :
  mnn_output_ok (runSession (mnn_interp Halide_Type_Float layout) (data image))
                1 2 1 3.
Proof. repeat split; simpl; lia. Qed.

Lemma NoDup_class_names : NoDup class_names.
Proof.
  unfold class_names. constructor.
  - simpl. intros [H | []]. discriminate.
  - constructor; [intros [] | constructor].
Qed.

End ExampleFacts.

(* ================================================================== *)
(** * The theorems at the small evaluation *)

Import Example ExampleFacts.

(** The accuracies that the evaluation of [dataset] returns are quotients
    of counters. *)
Lemma eval_PCK_accuracy_witness :
  exists trl c,
    eval_loop astype_float32 post_process_heatmap invert_transform_kp unit
              keras "H5" dataset class_names (fl 1) (fl 10) f64_1em6 false None 2 tt 0 0
              (init_counters class_names)
    = Some (trl, Ok c)
    /\ (exists s f,
          has_counters c "head" s f /\ s + f <> 0
          /\ PyDict.get accuracy_after "head" = Some (IZR s / IZR (s + f))%R)
    /\ np_sum (PyDict.values (succeed_dict c))
         + np_sum (PyDict.values (fail_dict c)) <> 0.
Proof.
  destruct (eval_PCK_accuracy astype_float32 post_process_heatmap
              invert_transform_kp unit keras "H5" dataset class_names (fl 1)
              (fl 10) f64_1em6 false None 2 _ _ _ run_eval_PCK_example)
    as (trl & c & Hloop & Hper & _ & _ & Hne).
  exists trl, c. split; [exact Hloop |]. split.
  - apply Hper. now left.
  - apply Hne. discriminate.
Defined.

(** The counters of the small evaluation. *)
Lemma eval_PCK_counters_witness :
  PyDict.get (succeed_dict (init_counters class_names)) "neck" = Some 0
  /\ (exists r,
         r = check_pred_keypoints (mkKeypoint (fl 2) (fl 0) [tenths 9])
                                  (mkKeypoint (fl 5) (fl 4) [fl 1])
                                  (fl 1) (fl 10)
         /\ PyDict.get (succeed_dict counters_after) "head"
            = option_map (fun v => v + (if r =? 1 then 1 else 0))
                (PyDict.get (succeed_dict (init_counters class_names)) "head"))
  /\ exists k s f,
       has_counters counters_after "neck" s f
       /\ s + f = valid_count (eval_generator dataset) 1 k.
Proof.
  destruct (eval_PCK_counters astype_float32 post_process_heatmap
              invert_transform_kp unit keras "H5" dataset class_names (fl 1)
              (fl 10) f64_1em6 false None NoDup_class_names)
    as (Hinit & Hstep & Hsum & Hend).
  split; [| split].
  - apply Hinit. right. now left.
  - destruct (Hstep smp _ _ _ eval_sample_example)
      as (tr_h & heatmap & m0 & rl & _ & Hm & _ & Hall).
    destruct (Hall 0%nat "head" eq_refl)
      as (r & p & g & _ & Hp & Hg & Hr & _ & _ & Hs & _).
    inversion Hm; subst m0. inversion Hp; subst p. inversion Hg; subst g.
    exists r. split; assumption.
  - destruct (eval_loop_example false) as (tr & Hloop & _).
    destruct (Hend 2%nat tr counters_after Hloop) as (k & Hrun & _).
    destruct (Hsum k tr counters_after Hrun 1%nat "neck" eq_refl)
      as (s & f & Hs & Hf & E).
    exists k, s, f. repeat split; assumption.
Defined.

(** Without samples, the evaluation ends with a division by zero. *)
Lemma eval_PCK_zero_division_witness :
  exists tr,
    eval_PCK astype_float32 post_process_heatmap invert_transform_kp unit
             keras "H5" dataset_empty class_names (fl 1) (fl 10) f64_1em6 false None 1
    = Some (tr, Raise ZeroDivisionError).
Proof.
  assert (Hs : session_ok keras "H5") by (intros H; discriminate).
  destruct (eval_PCK_zero_division astype_float32 post_process_heatmap
              invert_transform_kp unit keras "H5" dataset_empty class_names
              (fl 1) (fl 10) f64_1em6 false None 1 [] (init_counters class_names)
              NoDup_class_names Hs eq_refl)
    as (k & _ & _ & Hzero & _).
  apply Hzero. exists "head". split; [now left | split; reflexivity].
Defined.

(** The loop over [dataset] ends after its one sample. *)
Lemma eval_PCK_sequential_witness :
  exists tr k,
    inference_images tr = [image] /\ k = 1%nat
    /\ eval_loop astype_float32 post_process_heatmap invert_transform_kp unit
                 keras "H5" dataset class_names (fl 1) (fl 10) f64_1em6 false None 2 tt 0 0
                 (init_counters class_names)
       = Some (tr, Ok counters_after).
Proof.
  destruct (eval_PCK_sequential astype_float32 post_process_heatmap
              invert_transform_kp unit keras "H5" dataset class_names (fl 1)
              (fl 10) f64_1em6 false None)
    as (_ & _ & _ & Hrun).
  destruct (eval_loop_example false) as (tr & Hloop & Htr).
  destruct (Hrun 2%nat tr _ _ Hloop) as (k & _ & _ & _ & Himg & Hk).
  exists tr, k. split; [| split; [| exact Hloop]].
  - rewrite (Htr eq_refl). reflexivity.
  - apply Hk. intros j _. discriminate.
Defined.

(** The four formats at the small runtimes. *)
Lemma model_format_dispatch_witness :
  load_eval_model tflite_Interpreter MNN_Interpreter tf_import_graph_def
                  load_model "model.h5"
  = Ok (keras, "H5")
  /\ predict_heatmap astype_float32 keras "ONNX" tt image
     = raise (ValueError "invalid model format")
  /\ eval_PCK astype_float32 post_process_heatmap invert_transform_kp unit
              keras "ONNX" dataset class_names (fl 1) (fl 10) f64_1em6 false None 2
     = Some ([EvPbarOpen 1], Raise (ValueError "invalid model format")).
Proof.
  assert (Hfmt : ~ known_format "ONNX").
  { intros [H | [H | [H | H]]]; discriminate. }
  destruct (model_format_dispatch astype_float32 post_process_heatmap
              invert_transform_kp unit tflite_Interpreter MNN_Interpreter
              tf_import_graph_def load_model keras "ONNX" dataset class_names
              (fl 1) (fl 10) f64_1em6 false None)
    as (Hload & Hdisp & _ & Hraise).
  split; [| split].
  - apply (Hload "model.h5"). reflexivity.
  - apply (Hdisp image). exact Hfmt.
  - apply (Hraise 1%nat smp Hfmt eq_refl). simpl. lia.
Defined.

(** The contract at the small runtimes. *)
Lemma predict_uniform_contract_witness :
  hourglass_predict_keras keras image
  = ([EvInference "model.predict" image], nd_getitem0 stage2)
  /\ hourglass_predict_tflite astype_float32 tflite image
     = ([EvInference "interpreter.invoke" image], nd_getitem0 stage2)
  /\ hourglass_predict_pb graph image
     = ([EvInference "sess.run" image], nd_getitem0 stage2)
  /\ exists heatmap,
       hourglass_predict_mnn (mnn Tensor_DimensionType_Caffe) tt image
       = ([EvInference "interpreter.runSession" image], Ok heatmap)
       /\ shape heatmap = [1; 3; 2]%nat
       /\ nd_get heatmap [0; 2; 1]%nat = 6%R.
Proof.
  destruct (predict_uniform_contract astype_float32)
    as (Hk & _ & Ht & Hp & _ & Hm).
  split; [| split; [| split]].
  - apply (Hk keras_m image [stage1] stage2). reflexivity.
  - apply (Ht tflite_i image
              {| detail_index := 0; detail_shape := [1; 1; 1; 3] |}
              [{| detail_index := 5; detail_shape := [1; 1; 1; 2] |}]
              {| detail_index := 7; detail_shape := [1; 1; 1; 2] |});
      [reflexivity | simpl; lia | reflexivity].
  - apply (Hp graph_g image); reflexivity.
  - destruct (Hm (mnn_interp Halide_Type_Float Tensor_DimensionType_Caffe)
                 image 1%nat 2%nat 1%nat 3%nat
                 (mnn_input_ok_example _ _) (mnn_output_ok_example _) eq_refl)
      as (heatmap & Hh & Hshape & Hget).
    exists heatmap. split; [exact Hh |]. split; [exact Hshape |].
    rewrite (Hget 0%nat 2%nat 1%nat) by lia. reflexivity.
Defined.

(** The command line at the small evaluation. *)
Lemma command_line_interface_witness :
  (exists tr total acc,
      run_main 2 cl_plain = Some (tr, Ok tt)
      /\ filter is_print_event tr = accuracy_report total acc
      /\ filter is_file_event tr = [])
  /\ (exists tr acc st total,
         run_main 2 cl_saved = Some (tr, Ok tt)
         /\ In (EvSaveFig "result/PCK.jpg" acc st total) tr)
  /\ option_given "model_path" cl_saved = true
  /\ filter is_print_event
       [EvPbarOpen 1; EvInference "model.predict" image] = [].
Proof.
  destruct (command_line_interface astype_float32 post_process_heatmap
              invert_transform_kp unit tflite_Interpreter MNN_Interpreter
              tf_import_graph_def load_model py_float py_int get_skeleton
              get_classes get_normalize hourglass_dataset)
    as (_ & Hparse & _ & Hprint & Hraise & Hfile & Hsave).
  split; [| split; [| split]].
  - destruct (Hprint 2%nat cl_plain _ run_main_plain)
      as (ns & sk & cn & nz & model & fmt & ds & st & ct & tr_e & total & acc
          & _ & _ & _ & _ & Hp).
    destruct (Hfile 2%nat cl_plain _ _ run_main_plain) as (_ & Hf).
    eexists _, total, acc. split; [exact run_main_plain |].
    split; [exact Hp |].
    eapply Hf; [vm_compute; reflexivity | reflexivity].
  - destruct run_main_saved as (tr & Hrun).
    assert (Hns : exists ns, parse_args py_float cl_saved = Ok ns
                             /\ PyDict.get ns "save_result" = Some (VBool true)).
    { eexists. split; [vm_compute; reflexivity | reflexivity]. }
    destruct Hns as (ns & Hp & Hg).
    destruct (Hsave 2%nat cl_saved tr ns Hrun Hp Hg)
      as (_ & (acc & st & total & Hin) & _).
    exists tr, acc, st, total. split; assumption.
  - assert (Hns : exists ns, parse_args py_float cl_saved = Ok ns).
    { eexists. vm_compute. reflexivity. }
    destruct Hns as (ns & Hp).
    exact (proj1 (proj2 (Hparse cl_saved ns Hp))).
  - exact (Hraise 2%nat cl_mismatch _ _ run_main_mismatch).
Defined.

(** C8, the claim as it is written, fails: on a command line that the
    parser accepts, a run that ends with an exception prints no accuracy.
    Here the post-processing finds another number of keypoints than the
    ground truth has. *)
Lemma always_prints_counterexample :
  ~ always_prints (parse_args py_float) (run_main 2).
Proof.
  intros H.
  assert (Hns : exists ns, parse_args py_float cl_mismatch = Ok ns).
  { eexists. vm_compute. reflexivity. }
  destruct Hns as (ns & Hp).
  destruct (H cl_mismatch ns _ _ Hp run_main_mismatch) as (total & acc & E).
  discriminate.
Qed.

(** C3, the claim as it is written, fails: a run with a valid model file
    and no MNN tensor raises an [AssertionError] when the post-processing
    finds another number of keypoints than the ground truth has, a
    [ValueError] when the image size is not of the form [<num>x<num>], and
    [hourglass_predict_mnn] fails its assertion on an output that is not of
    floats, whatever its dimension type. *)
Lemma only_documented_errors_counterexample :
  ~ only_documented_errors (run_main 2 cl_mismatch)
  /\ ~ only_documented_errors (run_main 2 cl_bad_size)
  /\ hourglass_predict_mnn
       (MNNInterpreter (mnn_interp Halide_Type_Int
                                   Tensor_DimensionType_Tensorflow)) tt image
     = ([EvInference "interpreter.runSession" image],
        Raise (AssertionError EmptyString)).
Proof.
  split; [| split].
  - intros H. destruct (H _ _ run_main_mismatch) as [E | E]; discriminate.
  - intros H. destruct (H _ _ run_main_bad_size) as [E | E]; discriminate.
  - reflexivity.
Qed.

(** The errors at the small runtimes. *)
Lemma error_conditions_witness :
  load_eval_model tflite_Interpreter MNN_Interpreter tf_import_graph_def
                  load_model "model.onnx"
  = Raise (ValueError "invalid model file")
  /\ outcome (hourglass_predict_mnn (mnn Tensor_DimensionType_Caffe_C4) tt image)
     = Raise (ValueError "unsupported output tensor dimension type")
  /\ outcome (hourglass_predict_mnn
                (MNNInterpreter (mnn_interp Halide_Type_Int
                                            Tensor_DimensionType_Tensorflow))
                tt image)
     = Raise (AssertionError EmptyString).
Proof.
  destruct (error_conditions astype_float32 post_process_heatmap
              invert_transform_kp unit tflite_Interpreter MNN_Interpreter
              tf_import_graph_def load_model)
    as (Hload & Hmnn & Hfloat & _ & _).
  split; [| split].
  - apply (Hload "model.onnx"). reflexivity.
  - apply (Hmnn (mnn_interp Halide_Type_Float Tensor_DimensionType_Caffe_C4)
                image 1%nat 2%nat 1%nat 3%nat
                (mnn_input_ok_example _ _) (mnn_output_ok_example _)).
    reflexivity.
  - apply (Hfloat (mnn_interp Halide_Type_Int Tensor_DimensionType_Tensorflow)
                  image (mnn_input_ok_example _ _)).
    discriminate.
Defined.

(* ================================================================== *)
(** * Further properties of the keypoint check *)

(** X1. Raising the threshold never turns a correct keypoint into a wrong
    one, and lowering it never turns a wrong one into a correct one. *)
Theorem check_pred_keypoints_threshold_monotone
    (pred gt : keypoint) (t t' normalize : float64) :
  f64_le t t' = true ->
  (check_pred_keypoints pred gt t normalize = 1 ->
   check_pred_keypoints pred gt t' normalize = 1)
  /\ (check_pred_keypoints pred gt t' normalize = 0 ->
      check_pred_keypoints pred gt t normalize = 0).
Proof.
  intros Ht. rewrite !check_pred_keypoints_eq.
  destruct (f64_gt (kp_x gt) (f64_of_Z 1) && f64_gt (kp_y gt) (f64_of_Z 1));
    [| split; discriminate].
  destruct (f64_lt (computed_distance pred gt normalize) t) eqn:E;
    destruct (f64_lt (computed_distance pred gt normalize) t') eqn:E';
    split; auto; try discriminate.
  all: rewrite (f64_lt_le_trans _ _ _ E Ht) in E'; discriminate.
Qed.

Lemma check_pred_keypoints_threshold_monotone_witness :
  check_pred_keypoints (mkKeypoint (fl 2) (fl 0) [tenths 9])
                       (mkKeypoint (fl 5) (fl 4) [fl 1]) (fl 2) (fl 10) = 1.
Proof.
  exact (proj1 (check_pred_keypoints_threshold_monotone
                  (mkKeypoint (fl 2) (fl 0) [tenths 9])
                  (mkKeypoint (fl 5) (fl 4) [fl 1]) (fl 1) (fl 2) (fl 10)
                  eq_refl)
               check_head).
Defined.

(** A square root is a nan, the positive infinity, a zero or a positive
    number. *)
Lemma f64_sqrt_cases (x : float64) :
  f64_sqrt x = S754_nan \/ f64_sqrt x = S754_infinity false
  \/ (exists s, f64_sqrt x = S754_zero s)
  \/ exists m e, f64_sqrt x = S754_finite false m e.
Proof.
  unfold f64_sqrt. destruct x as [s | [|] | | [|] m e]; cbn [SFsqrt]; eauto.
  destruct (SFsqrt_core_binary f64_prec f64_emax (Zpos m) e) as [[mz ez] lz].
  pose proof (binary_round_aux_sign false mz ez lz) as H. cbv zeta in H.
  destruct H as [-> | [-> | [-> | H]]]; eauto.
Qed.

(** The difference of a finite number with itself is the positive zero. *)
Lemma f64_sub_diag (x : float64) :
  f64_finite x = true -> f64_sub x x = f64_zero.
Proof.
  unfold f64_sub, f64_zero. destruct x as [[|] | s | | s m e];
    try discriminate; try reflexivity.
  intros _. cbn [SFsub]. rewrite Z.min_id. unfold shl_align.
  rewrite Z.sub_diag. cbn [fst]. rewrite ?Z.sub_diag. reflexivity.
Qed.

(** X3. The edges of the division, with a valid ground truth.  A prediction
    that hits a finite ground truth is correct exactly for a positive
    threshold, when [normalize] is neither a zero nor a nan.  With
    [normalize] the positive zero the quotient is the positive infinity or
    a nan, and no keypoint is correct.  With [normalize] the negative zero
    the quotient of a positive norm is the negative infinity, and the
    keypoint is correct exactly when the norm is positive and the
    threshold is above the negative infinity. *)
Theorem check_pred_keypoints_edges
    (pred gt : keypoint) (threshold normalize : float64) :
  f64_gt (kp_x gt) (f64_of_Z 1) = true ->
  f64_gt (kp_y gt) (f64_of_Z 1) = true ->
  (kp_x pred = kp_x gt -> kp_y pred = kp_y gt ->
   f64_finite (kp_x gt) = true -> f64_finite (kp_y gt) = true ->
   f64_eq normalize f64_zero = false -> f64_eq normalize normalize = true ->
   (check_pred_keypoints pred gt threshold normalize = 1
    <-> f64_gt threshold f64_zero = true))
  /\ (normalize = S754_zero false ->
      check_pred_keypoints pred gt threshold normalize = 0)
  /\ (normalize = S754_zero true ->
      (check_pred_keypoints pred gt threshold normalize = 1
       <-> f64_gt (np_linalg_norm (np_subtract (kp_xy gt) (kp_xy pred)))
                  f64_zero = true
           /\ f64_gt threshold (S754_infinity true) = true)).
Proof.
  intros Hx Hy.
  destruct (check_pred_keypoints_valid pred gt threshold normalize Hx Hy)
    as [H1 H0].
  unfold computed_distance in H1, H0. rewrite <- np_linalg_norm_xy in H1, H0.
  split; [| split].
  - intros Ex Ey Fx Fy Hz Hn. rewrite H1.
    rewrite np_linalg_norm_xy, Ex, Ey, !f64_sub_diag by assumption.
    change (f64_sqrt (f64_add (f64_mul f64_zero f64_zero)
                              (f64_mul f64_zero f64_zero)))
      with (S754_zero false).
    unfold f64_div, f64_lt, f64_gt, f64_eq, f64_zero in *.
    destruct normalize as [s | s | | s m e]; try discriminate;
      destruct threshold as [s' | s' | | s' m' e']; reflexivity.
  - intros ->. apply H0.
    unfold np_linalg_norm.
    destruct (f64_sqrt_cases (np_dot (np_subtract (kp_xy gt) (kp_xy pred))
                                     (np_subtract (kp_xy gt) (kp_xy pred))))
      as [-> | [-> | [(s & ->) | (m & e & ->)]]];
      destruct threshold as [s' | [|] | | s' m' e']; reflexivity.
  - intros ->. rewrite H1.
    unfold np_linalg_norm.
    destruct (f64_sqrt_cases (np_dot (np_subtract (kp_xy gt) (kp_xy pred))
                                     (np_subtract (kp_xy gt) (kp_xy pred))))
      as [-> | [-> | [(s & ->) | (m & e & ->)]]];
      destruct threshold as [s' | [|] | | s' m' e']; cbn;
      split; try (intros [? ?]); auto; discriminate.
Qed.

Lemma check_pred_keypoints_edges_witness :
  check_pred_keypoints (mkKeypoint (fl 5) (fl 4) []) (mkKeypoint (fl 5) (fl 4) [])
                       f64_1em6 (fl 10) = 1
  /\ check_pred_keypoints (mkKeypoint (fl 5) (fl 4) [])
                          (mkKeypoint (fl 5) (fl 4) []) (fl 1) (S754_zero false)
     = 0
  /\ check_pred_keypoints (mkKeypoint (fl 90) (fl 90) [])
                          (mkKeypoint (fl 5) (fl 4) []) (fl 1) (S754_zero true)
     = 1.
Proof.
  split; [| split].
  - destruct (check_pred_keypoints_edges
                (mkKeypoint (fl 5) (fl 4) []) (mkKeypoint (fl 5) (fl 4) [])
                f64_1em6 (fl 10) eq_refl eq_refl)
      as (H & _ & _).
    apply H; reflexivity.
  - destruct (check_pred_keypoints_edges
                (mkKeypoint (fl 5) (fl 4) []) (mkKeypoint (fl 5) (fl 4) [])
                (fl 1) (S754_zero false) eq_refl eq_refl)
      as (_ & H & _).
    apply H. reflexivity.
  - destruct (check_pred_keypoints_edges
                (mkKeypoint (fl 90) (fl 90) []) (mkKeypoint (fl 5) (fl 4) [])
                (fl 1) (S754_zero true) eq_refl eq_refl)
      as (_ & _ & H).
    apply H; try reflexivity. split; vm_compute; reflexivity.
Defined.

(* ================================================================== *)
(** * Further properties of [keypoint_accuracy] and of the counters *)

Lemma nth_error_combine_both {A B} (l1 : list A) (l2 : list B) :
  forall i,
    nth_error (combine l1 l2) i
    = match nth_error l1 i, nth_error l2 i with
      | Some a, Some b => Some (a, b)
      | _, _ => None
      end.
Proof.
  revert l2. induction l1 as [| a l1 IH]; intros l2 i.
  - simpl. now destruct i.
  - destruct l2 as [| b l2]; simpl.
    + destruct i as [| i]; simpl; [reflexivity |].
      now destruct (nth_error l1 i).
    + destruct i as [| i]; simpl; [reflexivity | apply IH].
Qed.

(** The result list is the check, pair by pair. *)
Lemma keypoint_accuracy_map
    (pred gt : list keypoint) (threshold normalize : float64) :
  List.length pred = List.length gt ->
  keypoint_accuracy pred gt threshold normalize
  = Ok (map (fun pg => check_pred_keypoints (fst pg) (snd pg) threshold normalize)
            (combine pred gt)).
Proof.
  intros Hlen.
  destruct (keypoint_accuracy_ok pred gt threshold normalize Hlen)
    as (l & Hl & Hll & _ & Hnth).
  rewrite Hl. f_equal. apply nth_error_ext. intros i.
  rewrite nth_error_map, nth_error_combine_both.
  destruct (nth_error pred i) as [p |] eqn:Ep.
  - destruct (nth_error gt i) as [g |] eqn:Eg.
    + simpl. exact (Hnth i p g Ep Eg).
    + apply nth_error_None in Eg. apply nth_error_None. lia.
  - simpl. apply nth_error_None in Ep. apply nth_error_None. lia.
Qed.

Lemma combine_app_eq {A B} (l1 l1' : list A) (l2 l2' : list B) :
  List.length l1 = List.length l2 ->
  combine (l1 ++ l1') (l2 ++ l2') = combine l1 l2 ++ combine l1' l2'.
Proof.
  revert l2. induction l1 as [| a l1 IH]; intros [| b l2] H;
    try discriminate; simpl; [reflexivity |].
  f_equal. apply IH. now inversion H.
Qed.

(** X4. Two groups of keypoints checked together give the results of the
    first group followed by those of the second. *)
Theorem keypoint_accuracy_app
    (pred1 gt1 pred2 gt2 : list keypoint) (threshold normalize : float64) :
  List.length pred1 = List.length gt1 ->
  List.length pred2 = List.length gt2 ->
  exists l1 l2,
    keypoint_accuracy pred1 gt1 threshold normalize = Ok l1
    /\ keypoint_accuracy pred2 gt2 threshold normalize = Ok l2
    /\ keypoint_accuracy (pred1 ++ pred2) (gt1 ++ gt2) threshold normalize
       = Ok (l1 ++ l2).
Proof.
  intros H1 H2.
  rewrite (keypoint_accuracy_map pred1 gt1 _ _ H1).
  rewrite (keypoint_accuracy_map pred2 gt2 _ _ H2).
  rewrite keypoint_accuracy_map by (rewrite !length_app; lia).
  rewrite (combine_app_eq _ _ _ _ H1), map_app.
  eexists _, _. repeat split.
Qed.

Lemma keypoint_accuracy_app_witness :
  exists l1 l2,
    keypoint_accuracy [mkKeypoint (fl 2) (fl 0) []]
                      [mkKeypoint (fl 5) (fl 4) []] (fl 1) (fl 10) = Ok l1
    /\ keypoint_accuracy [mkKeypoint (fl 7) (fl 7) []]
                         [mkKeypoint (fl 0) (fl 0) []] (fl 1) (fl 10) = Ok l2
    /\ keypoint_accuracy [mkKeypoint (fl 2) (fl 0) []; mkKeypoint (fl 7) (fl 7) []]
                         [mkKeypoint (fl 5) (fl 4) []; mkKeypoint (fl 0) (fl 0) []] (fl 1) (fl 10)
       = Ok (l1 ++ l2).
Proof.
  exact (keypoint_accuracy_app [mkKeypoint (fl 2) (fl 0) []] [mkKeypoint (fl 5) (fl 4) []]
           [mkKeypoint (fl 7) (fl 7) []] [mkKeypoint (fl 0) (fl 0) []] (fl 1) (fl 10)
           eq_refl eq_refl).
Defined.

Section MoreCounters.
Import PyDict PyDictFacts.

Lemma update_counters_from (result_list : list Z) :
  forall (names : list string) (start : nat) (c : counters),
    (start <= List.length result_list)%nat ->
    (forall name, In name names ->
                  get (succeed_dict c) name <> None
                  /\ get (fail_dict c) name <> None) ->
    ((start + List.length names <= List.length result_list)%nat ->
     exists c', update_counters (combine (seq start (List.length names)) names)
                                result_list c = Ok c')
    /\ ((List.length result_list < start + List.length names)%nat ->
        update_counters (combine (seq start (List.length names)) names)
                        result_list c = Raise IndexError).
Proof.
  induction names as [| n names IH]; intros start c Hstart Hkeys.
  - simpl. split; [eauto | lia].
  - cbn [List.length seq combine update_counters].
    destruct (Hkeys n (or_introl eq_refl)) as [Hs Hf].
    destruct (get (succeed_dict c) n) as [vs |] eqn:Es; [| congruence].
    destruct (get (fail_dict c) n) as [vf |] eqn:Ef; [| congruence].
    assert (Hkeys' : forall c1,
               keys (succeed_dict c1) = keys (succeed_dict c) ->
               keys (fail_dict c1) = keys (fail_dict c) ->
               forall name, In name names ->
                            get (succeed_dict c1) name <> None
                            /\ get (fail_dict c1) name <> None).
    { intros c1 K1 K2 name Hin.
      destruct (Hkeys name (or_intror Hin)) as [H1 H2].
      split; apply get_In_keys; [rewrite K1 | rewrite K2];
        now apply get_In_keys. }
    destruct (nth_error result_list start) as [r |] eqn:Er.
    + unfold Py.getitem. rewrite Er. cbn [rbind].
      assert (Hlt : (start < List.length result_list)%nat)
        by (apply nth_error_Some; congruence).
      assert (Hgoal : forall c1,
                 keys (succeed_dict c1) = keys (succeed_dict c) ->
                 keys (fail_dict c1) = keys (fail_dict c) ->
                 ((start + S (List.length names) <= List.length result_list)%nat ->
                  exists c', update_counters
                               (combine (seq (S start) (List.length names)) names)
                               result_list c1 = Ok c')
                 /\ ((List.length result_list < start + S (List.length names))%nat ->
                     update_counters
                       (combine (seq (S start) (List.length names)) names)
                       result_list c1 = Raise IndexError)).
      { intros c1 K1 K2.
        destruct (IH (S start) c1 Hlt (Hkeys' c1 K1 K2)) as [Hok Hraise].
        split; intros H; [apply Hok | apply Hraise]; lia. }
      destruct (r =? 0).
      * unfold getitem. rewrite Ef. cbn [rbind].
        apply Hgoal; simpl; [reflexivity |].
        apply keys_set_present. congruence.
      * destruct (r =? 1).
        -- unfold getitem. rewrite Es. cbn [rbind].
           apply Hgoal; simpl; [| reflexivity].
           apply keys_set_present. congruence.
        -- apply Hgoal; reflexivity.
    + unfold Py.getitem. rewrite Er. cbn [rbind].
      apply nth_error_None in Er. split; [lia | reflexivity].
Qed.

(** X5. The counting loop needs a result for every class: with fewer results
    than class names it raises [IndexError], and results beyond the class
    names are left aside. *)
Theorem update_counters_index_error
    (class_names : list string) (result_list : list Z) (c : counters) :
  (forall name, In name class_names ->
                get (succeed_dict c) name <> None
                /\ get (fail_dict c) name <> None) ->
  ((List.length class_names <= List.length result_list)%nat ->
   exists c', update_counters (enumerate class_names) result_list c = Ok c'
              /\ update_counters (enumerate class_names)
                                 (firstn (List.length class_names) result_list) c
                 = Ok c')
  /\ ((List.length result_list < List.length class_names)%nat ->
      update_counters (enumerate class_names) result_list c = Raise IndexError).
Proof.
  intros Hkeys.
  destruct (update_counters_from result_list class_names 0 c
              (Nat.le_0_l _) Hkeys) as [Hok Hr].
  split; [| exact Hr].
  intros Hlen. destruct (Hok Hlen) as (c' & Hc'). exists c'.
  split; [exact Hc' |].
  revert Hc'. unfold enumerate.
  assert (G : forall names start c0 c1,
             (start + List.length names <= List.length class_names)%nat ->
             update_counters (combine (seq start (List.length names)) names)
                             result_list c0 = Ok c1 ->
             update_counters (combine (seq start (List.length names)) names)
                             (firstn (List.length class_names) result_list) c0
             = Ok c1).
  { induction names as [| n names IH]; intros start c0 c1 Hs H; [exact H |].
    cbn [List.length seq combine update_counters] in *.
    assert (E : Py.getitem (firstn (List.length class_names) result_list) start
                = Py.getitem result_list start).
    { unfold Py.getitem. rewrite nth_error_firstn.
      destruct (Nat.ltb_spec start (List.length class_names)); [reflexivity | lia]. }
    rewrite E. destruct (Py.getitem result_list start) as [r | e];
      [| exact H]. cbn [rbind] in *.
    destruct (r =? 0).
    - destruct (getitem (fail_dict c0) n); [| exact H]. cbn [rbind] in *.
      apply IH; [lia | exact H].
    - destruct (r =? 1).
      + destruct (getitem (succeed_dict c0) n); [| exact H]. cbn [rbind] in *.
        apply IH; [lia | exact H].
      + apply IH; [lia | exact H]. }
  apply G. simpl. lia.
Qed.

End MoreCounters.

Lemma update_counters_index_error_witness :
  (exists c',
      update_counters (enumerate ["head"; "neck"]) [1; 0; 1]
                      (init_counters ["head"; "neck"]) = Ok c'
      /\ update_counters (enumerate ["head"; "neck"]) [1; 0]
                         (init_counters ["head"; "neck"]) = Ok c')
  /\ update_counters (enumerate ["head"; "neck"]) [1]
                     (init_counters ["head"; "neck"]) = Raise IndexError.
Proof.
  assert (Hkeys : forall name,
             In name ["head"; "neck"] ->
             PyDict.get (succeed_dict (init_counters ["head"; "neck"])) name
             <> None
             /\ PyDict.get (fail_dict (init_counters ["head"; "neck"])) name
                <> None).
  { intros name [<- | [<- | []]]; split; discriminate. }
  split.
  - apply (update_counters_index_error ["head"; "neck"] [1; 0; 1] _ Hkeys).
    simpl. lia.
  - apply (update_counters_index_error ["head"; "neck"] [1] _ Hkeys).
    simpl. lia.
Defined.

(* ================================================================== *)
(** * Further properties of the evaluation *)

Lemma ratio_bounds (s f : Z) :
  0 <= s -> 0 <= f -> s + f <> 0 ->
  (0 <= IZR s / IZR (s + f) <= 1)%R.
Proof.
  intros Hs Hf Hsf.
  assert (Hpos : (0 < IZR (s + f))%R) by (apply IZR_lt; lia).
  assert (H0 : (0 <= IZR s)%R) by (apply IZR_le; lia).
  assert (H1 : (IZR s <= IZR (s + f))%R) by (apply IZR_le; lia).
  split.
  - apply Rmult_le_pos; [exact H0 | left; now apply Rinv_0_lt_compat].
  - apply Rmult_le_reg_r with (IZR (s + f)); [exact Hpos |].
    unfold Rdiv. rewrite Rmult_assoc, Rinv_l by lra. lra.
Qed.

Section MoreLoop.

Variable astype_float32 : ndarray -> ndarray.
Variable post_process_heatmap : ndarray -> float64 -> list keypoint.
Variable invert_transform_kp :
  list keypoint -> list R -> R -> list nat -> R -> list keypoint.
Variable skeleton : Type.
Variable model : model_object.
Variable model_format : string.
Variable eval_dataset : hourglass_dataset_t.
Variable class_names : list string.
Variables score_threshold normalize conf_threshold : float64.
Variable save_result : bool.
Variable skeleton_lines : option skeleton.

Local Abbreviation step :=
  (eval_sample astype_float32 post_process_heatmap invert_transform_kp
               skeleton model model_format class_names score_threshold
               normalize conf_threshold save_result skeleton_lines tt).
Local Abbreviation loop :=
  (eval_loop astype_float32 post_process_heatmap invert_transform_kp
             skeleton model model_format eval_dataset class_names
             score_threshold normalize conf_threshold save_result
             skeleton_lines).
Local Abbreviation gen := (eval_generator eval_dataset).
Local Abbreviation size := (get_dataset_size eval_dataset).
Local Abbreviation finish :=
  (eval_finish class_names score_threshold save_result).
Local Abbreviation evalPCK :=
  (eval_PCK astype_float32 post_process_heatmap invert_transform_kp
            skeleton model model_format eval_dataset class_names
            score_threshold normalize conf_threshold save_result
            skeleton_lines).
Local Abbreviation init := (init_counters class_names).

(** X6. Every accuracy that [eval_PCK] returns is a proportion: the accuracy
    of each class and the total accuracy lie between 0 and 1. *)
Theorem eval_PCK_accuracy_bounds (fuel : nat) (tr : list event)
    (total_accuracy : option R) (accuracy_dict : PyDict.t R) :
  evalPCK fuel = Some (tr, Ok (total_accuracy, accuracy_dict)) ->
  (forall name v,
      PyDict.get accuracy_dict name = Some v -> (0 <= v <= 1)%R)
  /\ (forall t, total_accuracy = Some t -> (0 <= t <= 1)%R).
Proof.
  intros H.
  destruct (eval_PCK_Ok_inv astype_float32 post_process_heatmap
              invert_transform_kp skeleton model model_format eval_dataset
              class_names score_threshold normalize conf_threshold
              save_result skeleton_lines fuel tr _ H)
    as (trl & c & Hloop & Hfin & _).
  destruct (loop_Ok_run astype_float32 post_process_heatmap
              invert_transform_kp skeleton model model_format eval_dataset
              class_names score_threshold normalize conf_threshold
              save_result skeleton_lines fuel trl c Hloop)
    as (k & Hrun & _).
  destruct (eval_finish_Ok_inv class_names score_threshold save_result
              c _ _ _ Hfin) as (Hacc & Htotal).
  split.
  - intros name v Hv.
    destruct (accuracy_loop_Ok c _ _ _ Hacc name) as [Hin Hout].
    rewrite map_snd_enumerate in Hin, Hout.
    destruct (in_dec string_dec name class_names) as [Hn | Hn].
    + destruct (Hin Hn) as (s & f & [Hs Hf] & Hsf & Hget).
      destruct (loop_run_has_counters astype_float32 post_process_heatmap
                  invert_transform_kp skeleton model model_format
                  eval_dataset class_names score_threshold normalize
                  conf_threshold save_result skeleton_lines k c trl Hrun
                  name Hn)
        as (s' & f' & [Hs' Hf'] & Hs0 & Hf0).
      assert (s' = s) by congruence. assert (f' = f) by congruence. subst.
      rewrite Hget in Hv. inversion Hv; subst.
      now apply ratio_bounds.
    + rewrite (Hout Hn), PyDictFacts.get_from_keys_notin in Hv by exact Hn.
      discriminate.
  - intros t Ht. rewrite Ht in Htotal. clear Ht.
    pose proof (loop_run_nonneg astype_float32 post_process_heatmap
                  invert_transform_kp skeleton model model_format
                  eval_dataset class_names score_threshold normalize
                  conf_threshold save_result skeleton_lines _ _ _ _ _ Hrun
                  (init_counters_nonneg class_names)) as [Hns Hnf].
    apply np_sum_nonneg in Hns. apply np_sum_nonneg in Hnf.
    unfold np_true_divide in Htotal.
    destruct (Req_dec_T _ 0) as [| Hne]; [discriminate |].
    inversion Htotal; subst t.
    set (S := np_sum (PyDict.values (succeed_dict c))) in *.
    set (F := np_sum (PyDict.values (fail_dict c))) in *.
    assert (Hsf : S + F <> 0).
    { intros E. apply Hne. replace (F + S) with 0 by lia. reflexivity. }
    replace (IZR S * 1.0 / IZR (F + S))%R with (IZR S / IZR (S + F))%R.
    + now apply ratio_bounds.
    + replace (F + S) with (S + F) by lia. unfold Rdiv. lra.
Qed.

(** The loop stops at the first sample that raises. *)
Lemma eval_loop_first_raise :
  forall (k0 k : nat) (c0 c : counters) (tr tr' : list event)
         (smp : sample) (e : exn),
    loop_run step gen size k0 c0 tr k c ->
    gen k = Some smp ->
    Z.of_nat k + batch_size <= size ->
    step smp c = (tr', Raise e) ->
    forall fuel,
      (k - k0 < fuel)%nat ->
      loop fuel tt k0 (Z.of_nat k0) c0 = Some (tr ++ tr', Raise e).
Proof.
  intros k0 k c0 c tr tr' smp e Hrun Hg Hsz Hstep.
  induction Hrun as [k c | k0 c0 smp0 tr1 c1 tr2 k c Hg0 Hsz0 Hstep0 Hrun IH];
    intros fuel Hfuel.
  - destruct fuel as [| fuel]; [lia |].
    cbn [eval_loop]. rewrite Hg.
    destruct (Z.gtb_spec (Z.of_nat k + batch_size) size) as [Hgt | _]; [lia |].
    rewrite Hstep. reflexivity.
  - destruct fuel as [| fuel]; [lia |].
    cbn [eval_loop]. rewrite Hg0.
    destruct (Z.gtb_spec (Z.of_nat k0 + batch_size) size) as [Hgt | _]; [lia |].
    rewrite Hstep0. cbn [obind].
    replace (Z.of_nat k0 + batch_size) with (Z.of_nat (S k0))
      by (unfold batch_size; lia).
    pose proof (loop_run_le astype_float32 post_process_heatmap
                  invert_transform_kp skeleton model model_format
                  eval_dataset class_names score_threshold normalize
                  conf_threshold save_result skeleton_lines _ _ _ _ _ Hrun)
      as (Hle & _).
    rewrite (IH Hg Hsz Hstep fuel) by lia.
    now rewrite app_assoc.
Qed.

(** X7. An exception in a sample ends the evaluation on the spot: the samples
    before it have been processed, the exception is the outcome of
    [eval_PCK], and nothing happens after the events of the failing sample:
    no later sample is touched and the progress bar is left open. *)
Theorem eval_PCK_fail_fast (k : nat) (c : counters) (tr tr' : list event)
    (smp : sample) (e : exn) :
  session_ok model model_format ->
  loop_run step gen size 0 init tr k c ->
  gen k = Some smp ->
  Z.of_nat k + 1 <= size ->
  step smp c = (tr', Raise e) ->
  forall fuel,
    (k < fuel)%nat ->
    evalPCK fuel = Some (EvPbarOpen size :: tr ++ tr', Raise e).
Proof.
  intros Hs Hrun Hg Hsz Hstep fuel Hfuel.
  rewrite eval_PCK_eq, (session_ok_eqb _ _ Hs).
  change 0 with (Z.of_nat 0).
  rewrite (eval_loop_first_raise 0 k init c tr tr' smp e Hrun Hg Hsz Hstep)
    by lia.
  reflexivity.
Qed.

(** X8. A model object of another kind than the format says: with the MNN
    format the evaluation fails when the session is created, before the
    progress bar is opened; with the other formats it fails at the
    inference of the first sample. *)
Theorem eval_PCK_model_mismatch :
  known_format model_format ->
  model_matches model model_format = false ->
  (model_format = "MNN" ->
   forall fuel, evalPCK fuel = Some ([], Raise AttributeError))
  /\ (model_format <> "MNN" ->
      forall fuel smp,
        gen 0%nat = Some smp -> 1 <= size ->
        evalPCK (S fuel) = Some ([EvPbarOpen size], Raise AttributeError)).
Proof.
  intros Hfmt Hm. split.
  - intros -> fuel. rewrite eval_PCK_eq.
    destruct model; try reflexivity. discriminate.
  - intros Hne fuel smp Hg Hsize. rewrite eval_PCK_eq.
    assert (E : String.eqb model_format "MNN" = false)
      by now apply String.eqb_neq.
    rewrite E. cbn [andb eval_loop]. rewrite Hg.
    destruct (Z.gtb_spec (0 + batch_size) size) as [Hgt | _];
      [unfold batch_size in Hgt; lia |].
    assert (Hp : predict_heatmap astype_float32 model model_format tt
                                 (image_data smp)
                 = ([], Raise AttributeError)).
    { destruct Hfmt as [-> | [-> | [-> | ->]]]; [| | | congruence];
        destruct model; try discriminate; reflexivity. }
    rewrite (eval_sample_predict_Raise astype_float32 post_process_heatmap
               invert_transform_kp skeleton model model_format class_names
               score_threshold normalize conf_threshold save_result
               skeleton_lines smp init AttributeError)
      by now rewrite Hp.
    rewrite Hp. reflexivity.
Qed.

(** X9. Without a sample to evaluate, every counter stays at 0 and, as soon
    as there is a class, the evaluation ends with [ZeroDivisionError]
    right after the progress bar is closed. *)
Theorem eval_PCK_no_samples (fuel : nat) :
  session_ok model model_format ->
  loop_stops gen size 0 ->
  class_names <> [] ->
  evalPCK (S fuel)
  = Some ([EvPbarOpen size; EvPbarClose], Raise ZeroDivisionError).
Proof.
  intros Hs Hstop Hne. rewrite eval_PCK_eq, (session_ok_eqb _ _ Hs).
  assert (Hl : loop (S fuel) tt 0 0 init = Some ([], Ok init)).
  { cbn [eval_loop]. destruct Hstop as [-> | Hgt]; [reflexivity |].
    destruct (gen 0%nat); [| reflexivity].
    destruct (Z.gtb_spec (0 + batch_size) size) as [_ | Hle];
      [reflexivity | simpl in *; lia]. }
  rewrite Hl.
  rewrite (eval_finish_Raise class_names score_threshold save_result init
             ZeroDivisionError).
  { reflexivity. }
  apply accuracy_loop_zero; rewrite map_snd_enumerate.
  - intros name Hin. exists 0, 0. now apply init_counters_get.
  - assert (Hex : exists n, In n class_names).
    { clear - Hne. destruct class_names as [| n rest];
        [congruence | exists n; now left]. }
    destruct Hex as (n & Hn). exists n, 0, 0.
    split; [exact Hn |]. split; [now apply init_counters_get | reflexivity].
Qed.

(** The loop of one dataset and of another that has the same size and
    yields the same samples below that size. *)
Lemma eval_loop_generator_prefix (eval_dataset' : hourglass_dataset_t) :
  get_dataset_size eval_dataset' = size ->
  (forall j, Z.of_nat j < size -> eval_generator eval_dataset' j = gen j) ->
  forall fuel k c,
    eval_loop astype_float32 post_process_heatmap invert_transform_kp
              skeleton model model_format eval_dataset' class_names
              score_threshold normalize conf_threshold save_result
              skeleton_lines fuel tt k (Z.of_nat k) c
    = loop fuel tt k (Z.of_nat k) c.
Proof.
  intros Hsize Hgen. induction fuel as [| fuel IH]; intros k c; [reflexivity |].
  cbn [eval_loop]. rewrite Hsize.
  replace (Z.of_nat k + batch_size) with (Z.of_nat (S k))
    by (unfold batch_size; lia).
  destruct (Z.gtb_spec (Z.of_nat (S k)) size) as [Hgt | Hle].
  - destruct (eval_generator eval_dataset' k), (gen k); reflexivity.
  - rewrite Hgen by lia. destruct (gen k) as [smp |]; [| reflexivity].
    destruct (step smp c) as [tr [c' | e]]; [| reflexivity].
    cbn [obind]. now rewrite IH.
Qed.

(** X10. What the generator yields beyond the size of the dataset has no
    effect on the evaluation: two datasets of the same size whose
    generators agree on the samples below that size give the same events
    and the same outcome. *)
Theorem eval_PCK_generator_prefix (eval_dataset' : hourglass_dataset_t) :
  get_dataset_size eval_dataset' = size ->
  (forall j, Z.of_nat j < size -> eval_generator eval_dataset' j = gen j) ->
  forall fuel,
    eval_PCK astype_float32 post_process_heatmap invert_transform_kp
             skeleton model model_format eval_dataset' class_names
             score_threshold normalize conf_threshold save_result
             skeleton_lines fuel
    = evalPCK fuel.
Proof.
  intros Hsize Hgen fuel. rewrite !eval_PCK_eq, Hsize.
  change 0 with (Z.of_nat 0).
  now rewrite (eval_loop_generator_prefix eval_dataset' Hsize Hgen).
Qed.

(** ** The progress bar *)

Lemma filter_trace_bind {A B} (p : event -> bool) (m : M A) (f : A -> M B) :
  filter p (trace (bind m f))
  = filter p (trace m)
    ++ match outcome m with
       | Ok a => filter p (trace (f a))
       | Raise _ => []
       end.
Proof.
  rewrite trace_bind.
  destruct (outcome m); [apply filter_app | now rewrite app_nil_r].
Qed.

Lemma predict_heatmap_no_pbar (img : ndarray) :
  filter is_pbar_event
         (trace (predict_heatmap astype_float32 model model_format tt img))
  = [].
Proof.
  apply filter_nil_Forall. unfold predict_heatmap.
  destruct (String.eqb model_format "TFLITE").
  { unfold hourglass_predict_tflite. destruct model; trace_forall. }
  destruct (String.eqb model_format "MNN").
  { unfold hourglass_predict_mnn. destruct model; trace_forall. }
  destruct (String.eqb model_format "PB").
  { unfold hourglass_predict_pb. destruct model; trace_forall.
    destruct (negb _); trace_forall. destruct (negb _); trace_forall. }
  destruct (String.eqb model_format "H5"); trace_forall.
  unfold hourglass_predict_keras. destruct model; trace_forall.
Qed.

Lemma save_keypoints_detection_no_pbar (pred : list keypoint) (m : metainfo_t) :
  filter is_pbar_event
    (trace (save_keypoints_detection skeleton pred m class_names skeleton_lines))
  = [].
Proof.
  apply filter_nil_Forall. unfold save_keypoints_detection. trace_forall.
Qed.

(** A sample advances the bar by one when it has been processed, and not
    at all when it raises. *)
Lemma eval_sample_pbar (smp : sample) (c : counters) :
  filter is_pbar_event (trace (step smp c))
  = match outcome (step smp c) with
    | Ok _ => [EvPbarUpdate batch_size]
    | Raise _ => []
    end.
Proof.
  unfold eval_sample.
  rewrite filter_trace_bind, outcome_bind, predict_heatmap_no_pbar.
  destruct (outcome (predict_heatmap _ _ _ _ _)) as [h | e]; [| reflexivity].
  rewrite filter_trace_bind, outcome_bind.
  cbn [trace outcome lift fst snd filter app].
  destruct (Py.getitem (metainfo smp) 0) as [m0 | e]; [| reflexivity].
  rewrite filter_trace_bind, outcome_bind.
  cbn [trace outcome lift fst snd filter app].
  destruct (keypoint_accuracy _ _ _ _) as [rl | e]; [| reflexivity].
  rewrite filter_trace_bind, outcome_bind.
  cbn [trace outcome lift fst snd filter app].
  destruct (update_counters _ _ _) as [c' | e]; [| reflexivity].
  rewrite filter_trace_bind, outcome_bind.
  assert (Hs : filter is_pbar_event
                 (trace (if save_result
                         then save_keypoints_detection skeleton
                                (revert_keypoints invert_transform_kp
                                   (post_process_heatmap h conf_threshold) m0
                                   (firstn 2 (shape h)))
                                m0 class_names skeleton_lines
                         else ret tt)) = []).
  { destruct save_result;
      [apply save_keypoints_detection_no_pbar | reflexivity]. }
  rewrite Hs.
  destruct (outcome (if save_result then _ else _)); reflexivity.
Qed.

Lemma loop_run_pbar (k k' : nat) (c c' : counters) (tr : list event) :
  loop_run step gen size k c tr k' c' ->
  filter is_pbar_event tr = repeat (EvPbarUpdate 1) (k' - k).
Proof.
  induction 1 as [k c | k c smp tr1 c1 tr2 k' c' Hg Hsz Hstep Hrun IH].
  - now rewrite Nat.sub_diag.
  - pose proof (loop_run_le astype_float32 post_process_heatmap
                  invert_transform_kp skeleton model model_format
                  eval_dataset class_names score_threshold normalize
                  conf_threshold save_result skeleton_lines _ _ _ _ _ Hrun)
      as (Hle & _).
    pose proof (eval_sample_pbar smp c) as Hp. rewrite Hstep in Hp.
    cbn [trace outcome fst snd] in Hp.
    rewrite filter_app, Hp, IH.
    replace (k' - k)%nat with (S (k' - S k)) by lia. reflexivity.
Qed.

Lemma eval_finish_pbar (c : counters) :
  filter is_pbar_event (trace (finish c)) = [EvPbarClose].
Proof.
  unfold eval_finish.
  rewrite filter_trace_bind. cbn [trace outcome emit fst snd filter is_pbar_event app].
  f_equal.
  rewrite filter_trace_bind. cbn [trace outcome lift fst snd filter app].
  destruct (accuracy_loop _ _ _) as [acc | e]; [| reflexivity].
  rewrite filter_trace_bind.
  assert (Hd : filter is_pbar_event
                 (trace (if save_result
                         then bind (emit (EvTouchDir "result"))
                                (fun _ =>
                                   draw_plot_func acc (List.length acc)
                                     (os_path_join "result" "PCK.jpg")
                                     score_threshold
                                     (np_true_divide
                                        (IZR (np_sum (PyDict.values (succeed_dict c))) * 1.0)
                                        (IZR (np_sum (PyDict.values (fail_dict c))
                                              + np_sum (PyDict.values (succeed_dict c))))))
                         else ret tt)) = []).
  { destruct save_result; [| reflexivity].
    unfold draw_plot_func. destruct acc; reflexivity. }
  rewrite Hd. destruct (outcome (if save_result then _ else _)); reflexivity.
Qed.

(** X11. The progress bar of an evaluation: it is opened once with the size of
    the dataset as its total, advanced by one for each sample that has
    been processed, never beyond its total, and closed once the loop is
    over; after an exception in a sample it is left open. *)
Theorem eval_PCK_progress_bar (fuel : nat) (tr : list event)
    (r : result (option R * PyDict.t R)) :
  session_ok model model_format ->
  evalPCK fuel = Some (tr, r) ->
  exists (k : nat) (closed : bool),
    Z.of_nat k <= Z.max size 0
    /\ filter is_pbar_event tr
       = EvPbarOpen size :: repeat (EvPbarUpdate 1) k
         ++ (if closed then [EvPbarClose] else [])
    /\ (closed = true -> loop_stops gen size k)
    /\ (closed = false -> exists e, r = Raise e).
Proof.
  intros Hs H. rewrite eval_PCK_eq, (session_ok_eqb _ _ Hs) in H.
  destruct (loop fuel tt 0 0 init) as [[trl [c | e]] |] eqn:El;
    [| | discriminate].
  - destruct (loop_Ok_run astype_float32 post_process_heatmap
                invert_transform_kp skeleton model model_format eval_dataset
                class_names score_threshold normalize conf_threshold
                save_result skeleton_lines fuel trl c El)
      as (k & Hrun & Hstop).
    pose proof (loop_run_le astype_float32 post_process_heatmap
                  invert_transform_kp skeleton model model_format
                  eval_dataset class_names score_threshold normalize
                  conf_threshold save_result skeleton_lines _ _ _ _ _ Hrun)
      as (_ & Hk & _).
    inversion H; subst tr r. exists k, true.
    split; [exact Hk |]. split; [| split; [auto | discriminate]].
    cbn [filter is_pbar_event]. f_equal.
    rewrite filter_app, (loop_run_pbar _ _ _ _ _ Hrun), eval_finish_pbar.
    now rewrite Nat.sub_0_r.
  - change 0 with (Z.of_nat 0) in El.
    destruct (eval_loop_inv astype_float32 post_process_heatmap
                invert_transform_kp skeleton model model_format eval_dataset
                class_names score_threshold normalize conf_threshold
                save_result skeleton_lines fuel 0 init trl (Raise e) El)
      as (k & c1 & tr1 & Hrun & [(Hr & _) | (smp & tr2 & e' & Hg & Hsz & Hstep
                                             & Hr & Htr)]);
      [discriminate |].
    pose proof (loop_run_le astype_float32 post_process_heatmap
                  invert_transform_kp skeleton model model_format
                  eval_dataset class_names score_threshold normalize
                  conf_threshold save_result skeleton_lines _ _ _ _ _ Hrun)
      as (_ & Hk & _).
    inversion H; subst tr r. exists k, false.
    split; [exact Hk |]. split; [| split; [discriminate | eauto]].
    cbn [filter is_pbar_event]. f_equal. subst trl.
    pose proof (eval_sample_pbar smp c1) as Hp. rewrite Hstep in Hp.
    cbn [trace outcome fst snd] in Hp.
    rewrite filter_app, (loop_run_pbar _ _ _ _ _ Hrun), Hp.
    now rewrite Nat.sub_0_r.
Qed.

(** X12. Without a class, the loop leaves the two counter dictionaries empty;
    the total accuracy is then the quotient 0/0, which is no number, the
    dictionary of accuracies is empty, and the plot of [save_result] fails
    on it when it unpacks the sorted items. *)
Theorem eval_PCK_no_classes (fuel : nat) (tr : list event) (c : counters) :
  class_names = [] ->
  session_ok model model_format ->
  loop fuel tt 0 0 init = Some (tr, Ok c) ->
  evalPCK fuel
  = Some (EvPbarOpen size :: tr
            ++ (if save_result then [EvPbarClose; EvTouchDir "result"]
                else [EvPbarClose]),
          if save_result
          then Raise (ValueError "not enough values to unpack (expected 2, got 0)")
          else Ok (None, [])).
Proof.
  intros Hcn Hs Hloop.
  destruct (loop_Ok_run astype_float32 post_process_heatmap
              invert_transform_kp skeleton model model_format eval_dataset
              class_names score_threshold normalize conf_threshold
              save_result skeleton_lines fuel tr c Hloop)
    as (k & Hrun & _).
  destruct (loop_run_keys astype_float32 post_process_heatmap
              invert_transform_kp skeleton model model_format eval_dataset
              class_names score_threshold normalize conf_threshold
              save_result skeleton_lines _ _ _ _ _ Hrun) as [Ks Kf].
  rewrite eval_PCK_eq, (session_ok_eqb _ _ Hs), Hloop.
  rewrite Hcn in Ks, Kf. cbn in Ks, Kf.
  apply map_eq_nil in Ks, Kf.
  unfold eval_finish. rewrite Hcn, Ks, Kf.
  cbn [enumerate List.length seq combine accuracy_loop PyDict.from_keys
       fold_left PyDict.values map np_sum fold_right Z.add].
  assert (E : np_true_divide (IZR 0 * 1.0) (IZR 0) = None).
  { unfold np_true_divide. destruct (Req_dec_T (IZR 0) 0) as [_ | Hne];
      [reflexivity | now contradiction Hne]. }
  rewrite E. destruct save_result; reflexivity.
Qed.

End MoreLoop.

Lemma eval_PCK_accuracy_bounds_witness :
  (forall name v,
      PyDict.get accuracy_after name = Some v -> (0 <= v <= 1)%R)
  /\ (forall t, Some (1 / 2)%R = Some t -> (0 <= t <= 1)%R).
Proof.
  exact (eval_PCK_accuracy_bounds astype_float32 post_process_heatmap
           invert_transform_kp unit keras "H5" dataset class_names (fl 1) (fl 10) f64_1em6
           false None 2 _ _ _ run_eval_PCK_example).
Defined.

Lemma eval_PCK_fail_fast_witness :
  eval_PCK astype_float32 post_process_heatmap invert_transform_kp unit
           keras "H5" dataset_mismatch class_names (fl 1) (fl 10) f64_1em6 false None 2
  = Some (EvPbarOpen 1 :: [] ++ [EvInference "model.predict" image],
          Raise (AssertionError "keypoint number mismatch")).
Proof.
  assert (Hs : session_ok keras "H5") by (intros H; discriminate).
  apply (eval_PCK_fail_fast astype_float32 post_process_heatmap
           invert_transform_kp unit keras "H5" dataset_mismatch class_names
           (fl 1) (fl 10) f64_1em6 false None 0 (init_counters class_names) []
           [EvInference "model.predict" image]
           {| image_data := image; gt_heatmap := stage2;
              metainfo := [meta_mismatch] |}
           (AssertionError "keypoint number mismatch") Hs
           (loop_run_refl _ _ _ _ _)).
  - reflexivity.
  - simpl. lia.
  - reflexivity.
  - lia.
Defined.

Lemma eval_PCK_model_mismatch_witness :
  (forall fuel,
      eval_PCK astype_float32 post_process_heatmap invert_transform_kp unit
               keras "MNN" dataset class_names (fl 1) (fl 10) f64_1em6 false None fuel
      = Some ([], Raise AttributeError))
  /\ (forall fuel,
         eval_PCK astype_float32 post_process_heatmap invert_transform_kp unit
                  keras "PB" dataset class_names (fl 1) (fl 10) f64_1em6 false None (S fuel)
         = Some ([EvPbarOpen 1], Raise AttributeError)).
Proof.
  split.
  - apply (eval_PCK_model_mismatch astype_float32 post_process_heatmap
             invert_transform_kp unit keras "MNN" dataset class_names
             (fl 1) (fl 10) f64_1em6 false None);
      [right; right; right; reflexivity | reflexivity | reflexivity].
  - intros fuel.
    apply (eval_PCK_model_mismatch astype_float32 post_process_heatmap
             invert_transform_kp unit keras "PB" dataset class_names
             (fl 1) (fl 10) f64_1em6 false None) with (smp := smp);
      [right; left; reflexivity | reflexivity | discriminate | reflexivity
      | simpl; lia].
Defined.

Lemma eval_PCK_no_samples_witness :
  eval_PCK astype_float32 post_process_heatmap invert_transform_kp unit
           keras "H5" dataset_empty class_names (fl 1) (fl 10) f64_1em6 false None 1
  = Some ([EvPbarOpen 0; EvPbarClose], Raise ZeroDivisionError).
Proof.
  apply (eval_PCK_no_samples astype_float32 post_process_heatmap
           invert_transform_kp unit keras "H5" dataset_empty class_names
           (fl 1) (fl 10) f64_1em6 false None 0).
  - intros H. discriminate.
  - left. reflexivity.
  - discriminate.
Defined.

Lemma eval_PCK_generator_prefix_witness :
  eval_PCK astype_float32 post_process_heatmap invert_transform_kp unit
           keras "H5"
           {| get_dataset_size := 1;
              generator := fun _ _ _ _ _ j =>
                             match j with O => Some smp | S _ => None end |}
           class_names (fl 1) (fl 10) f64_1em6 false None 2
  = eval_PCK astype_float32 post_process_heatmap invert_transform_kp unit
             keras "H5" dataset class_names (fl 1) (fl 10) f64_1em6 false None 2.
Proof.
  apply (eval_PCK_generator_prefix astype_float32 post_process_heatmap
           invert_transform_kp unit keras "H5" dataset class_names
           (fl 1) (fl 10) f64_1em6 false None).
  - reflexivity.
  - intros [| j] H; [reflexivity | simpl in H; lia].
Defined.

Lemma eval_PCK_progress_bar_witness :
  exists (k : nat) (closed : bool),
    Z.of_nat k <= Z.max 1 0
    /\ filter is_pbar_event
              [EvPbarOpen 1; EvInference "model.predict" image;
               EvPbarUpdate 1; EvPbarClose]
       = EvPbarOpen 1 :: repeat (EvPbarUpdate 1) k
         ++ (if closed then [EvPbarClose] else [])
    /\ (closed = true -> loop_stops (eval_generator dataset) 1 k)
    /\ (closed = false ->
        exists e, Ok (Some (1 / 2)%R, accuracy_after) = Raise e).
Proof.
  assert (Hs : session_ok keras "H5") by (intros H; discriminate).
  exact (eval_PCK_progress_bar astype_float32 post_process_heatmap
           invert_transform_kp unit keras "H5" dataset class_names (fl 1) (fl 10) f64_1em6
           false None 2 _ _ Hs run_eval_PCK_example).
Defined.

Lemma eval_PCK_no_classes_witness :
  eval_PCK astype_float32 post_process_heatmap invert_transform_kp unit
           keras "H5" dataset_empty [] (fl 1) (fl 10) f64_1em6 true None 1
  = Some (EvPbarOpen 0 :: [] ++ [EvPbarClose; EvTouchDir "result"],
          Raise (ValueError "not enough values to unpack (expected 2, got 0)")).
Proof.
  assert (Hs : session_ok keras "H5") by (intros H; discriminate).
  exact (eval_PCK_no_classes astype_float32 post_process_heatmap
           invert_transform_kp unit keras "H5" dataset_empty [] (fl 1) (fl 10) f64_1em6
           true None 1 [] (init_counters []) eq_refl Hs eq_refl).
Defined.

(* ================================================================== *)
(** * The detection images *)

Section SaveDetection.
Import PyDict PyDictFacts.

Lemma str_split_nonempty (sep : ascii) (s : string) : str_split sep s <> [].
Proof.
  destruct s as [| c s]; simpl; [discriminate |].
  destruct (Ascii.eqb c sep); [discriminate |].
  destruct (str_split sep s); discriminate.
Qed.

Lemma str_split_single (sep : ascii) (s : string) :
  str_contains sep s = false -> str_split sep s = [s].
Proof.
  induction s as [| c s IH]; simpl; [reflexivity |].
  intros H. apply orb_false_iff in H. destruct H as [Hc Hs].
  now rewrite Hc, (IH Hs).
Qed.

Lemma str_split_append (sep : ascii) (s1 s2 : string) :
  str_split sep (String.append s1 (String sep s2))
  = str_split sep s1 ++ str_split sep s2.
Proof.
  induction s1 as [| c s1 IH]; simpl.
  - now rewrite Ascii.eqb_refl.
  - destruct (Ascii.eqb c sep); [now rewrite IH |].
    rewrite IH. pose proof (str_split_nonempty sep s1) as Hne.
    destruct (str_split sep s1); [contradiction | reflexivity].
Qed.

(** The last piece of a path is what follows its last separator. *)
Lemma str_split_last (sep : ascii) (dir base : string) :
  str_contains sep base = false ->
  getitem_last (str_split sep (String.append dir (String sep base))) = Ok base.
Proof.
  intros H. rewrite str_split_append, (str_split_single _ _ H).
  apply getitem_last_app.
Qed.

Lemma str_split_last_Ok (sep : ascii) (s : string) :
  exists file, getitem_last (str_split sep s) = Ok file.
Proof.
  unfold getitem_last. pose proof (str_split_nonempty sep s) as Hne.
  destruct (rev (str_split sep s)) as [| a l] eqn:E; [| eauto].
  apply (f_equal (@rev string)) in E. rewrite rev_involutive in E.
  contradiction.
Qed.

Lemma skipn_nth_error {A} (l : list A) :
  forall (i : nat) (a : A),
    nth_error l i = Some a -> skipn i l = a :: skipn (S i) l.
Proof.
  induction l as [| x l IH]; intros [| i] a H; try discriminate.
  - now inversion H.
  - simpl in H. rewrite skipn_cons, (IH i a H). reflexivity.
Qed.

Lemma combine_nil_r {A B} (l : list A) : combine l (@nil B) = [].
Proof. now destruct l. Qed.

(** The loop that fills a dictionary of keypoints: when there is a class
    name for every keypoint, it assigns the keypoints to the class names
    in order. *)
Lemma keypoints_dict_loop_Ok (f : keypoint -> result (float64 * float64 * float64))
    (g : keypoint -> float64 * float64 * float64) (class_names : list string) :
  forall (kps : list keypoint) (start : nat) (d : keypoints_dict),
    (start + List.length kps <= List.length class_names)%nat ->
    Forall (fun kp => f kp = Ok (g kp)) kps ->
    keypoints_dict_loop f class_names
                        (combine (seq start (List.length kps)) kps) d
    = Ok (fold_left (fun d nv => set d (fst nv) (snd nv))
                    (combine (skipn start class_names) (map g kps)) d).
Proof.
  induction kps as [| kp kps IH]; intros start d Hlen Hf.
  - simpl. now rewrite combine_nil_r.
  - cbn [List.length seq combine keypoints_dict_loop].
    simpl in Hlen.
    destruct (getitem_lt class_names start) as (name & Hn & Hg); [lia |].
    rewrite Hg. cbn [rbind]. inversion Hf as [| ? ? Hkp Hrest]; subst.
    rewrite Hkp. cbn [rbind]. rewrite IH by (try assumption; lia).
    now rewrite (skipn_nth_error _ _ _ Hn).
Qed.

Lemma keypoints_dict_loop_Raise (f : keypoint -> result (float64 * float64 * float64))
    (class_names : list string) :
  (forall kp e, f kp = Raise e -> e = IndexError) ->
  forall (kps : list keypoint) (start : nat) (d : keypoints_dict),
    (start <= List.length class_names)%nat ->
    (List.length class_names < start + List.length kps)%nat
    \/ Exists (fun kp => exists e, f kp = Raise e) kps ->
    keypoints_dict_loop f class_names
                        (combine (seq start (List.length kps)) kps) d
    = Raise IndexError.
Proof.
  intros Hf. induction kps as [| kp kps IH]; intros start d Hstart H.
  - destruct H as [H | H]; [simpl in H; lia | inversion H].
  - cbn [List.length seq combine keypoints_dict_loop].
    unfold Py.getitem at 1.
    destruct (nth_error class_names start) as [name |] eqn:En;
      [| reflexivity].
    assert (Hlt : (start < List.length class_names)%nat)
      by (apply nth_error_Some; congruence).
    cbn [rbind].
    destruct (f kp) as [v | e] eqn:Ekp;
      [| now rewrite (Hf kp e Ekp)].
    cbn [rbind]. apply IH; [lia |].
    destruct H as [H | H].
    + left. simpl in H. lia.
    + inversion H as [? ? (e & He) | ? ? Hex]; subst;
        [congruence | now right].
Qed.

Lemma set_fresh {V} (d : t V) (k : string) (v : V) :
  get d k = None -> set d k v = d ++ [(k, v)].
Proof.
  induction d as [| [k' v'] d IH]; simpl; [reflexivity |].
  destruct (String.eqb k k'); [discriminate |].
  intros H. now rewrite IH.
Qed.

Lemma get_app {V} (d1 d2 : t V) (k : string) :
  get (d1 ++ d2) k = match get d1 k with
                     | Some v => Some v
                     | None => get d2 k
                     end.
Proof.
  induction d1 as [| [k' v'] d1 IH]; simpl; [reflexivity |].
  destruct (String.eqb k k'); [reflexivity | exact IH].
Qed.

(** Assigning to keys that are new and pairwise distinct appends them in
    order. *)
Lemma fold_set_fresh {V} :
  forall (nvs : list (string * V)) (d : t V),
    NoDup (map fst nvs) ->
    (forall n, In n (map fst nvs) -> get d n = None) ->
    fold_left (fun d nv => set d (fst nv) (snd nv)) nvs d = d ++ nvs.
Proof.
  induction nvs as [| [n v] nvs IH]; intros d Hnd Hfresh; simpl.
  - now rewrite app_nil_r.
  - simpl in Hnd. inversion Hnd as [| ? ? Hnotin Hnd']; subst.
    rewrite set_fresh by (apply Hfresh; now left).
    rewrite IH; [now rewrite <- app_assoc | exact Hnd' |].
    intros n' Hin. rewrite get_app, (Hfresh n') by now right.
    simpl. destruct (String.eqb_spec n' n) as [-> | _];
      [contradiction | reflexivity].
Qed.

Lemma NoDup_map_fst_combine {A B} (l1 : list A) :
  forall (l2 : list B), NoDup l1 -> NoDup (map fst (combine l1 l2)).
Proof.
  induction l1 as [| a l1 IH]; intros [| b l2] H; simpl; try constructor.
  - inversion H as [| ? ? Hnotin Hnd]; subst. intros Hin. apply Hnotin.
    apply in_map_iff in Hin. destruct Hin as ([a' b'] & <- & Hin).
    exact (in_combine_l _ _ _ _ Hin).
  - inversion H; subst. now apply IH.
Qed.

Variable skeleton : Type.

(** What [save_keypoints_detection] does when there is a class name for
    every keypoint and a confidence for every predicted keypoint. *)
Lemma save_keypoints_detection_fits (pred : list keypoint) (m : metainfo_t)
    (class_names : list string) (skeleton_lines : option skeleton)
    (file : string) :
  (List.length (meta_pts m) <= List.length class_names)%nat ->
  (List.length pred <= List.length class_names)%nat ->
  Forall (fun kp => kp_rest kp <> []) pred ->
  getitem_last (str_split os_path_sep (meta_name m)) = Ok file ->
  save_keypoints_detection skeleton pred m class_names skeleton_lines
  = ([EvTouchDir "result/detection";
      EvImageSave (String.append "result/detection/" file)
        (fold_left (fun d nv => set d (fst nv) (snd nv))
           (combine class_names
                    (map (fun kp => (kp_x kp, kp_y kp, f64_of_Z 1)) (meta_pts m))) [])
        (fold_left (fun d nv => set d (fst nv) (snd nv))
           (combine class_names
                    (map (fun kp => (kp_x kp, kp_y kp, hd f64_zero (kp_rest kp)))
                         pred)) [])],
     Ok tt).
Proof.
  intros Hgt Hpred Hconf Hfile.
  unfold save_keypoints_detection, enumerate.
  rewrite bind_emit. cbv beta.
  rewrite (keypoints_dict_loop_Ok _ (fun kp => (kp_x kp, kp_y kp, f64_of_Z 1)))
    by (try (simpl; lia); apply Forall_forall; reflexivity).
  rewrite bind_lift. cbv beta iota.
  rewrite (keypoints_dict_loop_Ok _
             (fun kp => (kp_x kp, kp_y kp, hd f64_zero (kp_rest kp)))).
  2: simpl; lia.
  2: { eapply Forall_impl; [| exact Hconf]. intros kp Hkp. cbv beta in *.
       unfold Py.getitem. destruct (kp_rest kp); [contradiction | reflexivity]. }
  rewrite bind_lift. cbv beta iota.
  rewrite Hfile, bind_lift. cbv beta iota.
  assert (Hsep : str_contains os_path_sep file = false).
  { pose proof (str_split_no_sep os_path_sep (meta_name m)) as Hall.
    rewrite Forall_forall in Hall. apply Hall.
    now apply getitem_last_In. }
  destruct (os_path_join_detection file Hsep) as [-> _].
  reflexivity.
Qed.

(** X13. [save_keypoints_detection] looks up a class name for every
    ground-truth keypoint and every predicted keypoint, and the confidence
    of every predicted keypoint: it goes through when they are all there,
    and otherwise raises [IndexError] after it has made the directory,
    without an image being written. *)
Theorem save_keypoints_detection_outcome (pred : list keypoint)
    (m : metainfo_t) (class_names : list string)
    (skeleton_lines : option skeleton) :
  ((List.length (meta_pts m) <= List.length class_names)%nat ->
   (List.length pred <= List.length class_names)%nat ->
   Forall (fun kp => kp_rest kp <> []) pred ->
   outcome (save_keypoints_detection skeleton pred m class_names
                                     skeleton_lines) = Ok tt)
  /\ ((List.length class_names < List.length (meta_pts m))%nat
      \/ (List.length class_names < List.length pred)%nat
      \/ Exists (fun kp => kp_rest kp = []) pred ->
      save_keypoints_detection skeleton pred m class_names skeleton_lines
      = ([EvTouchDir "result/detection"], Raise IndexError)).
Proof.
  split.
  - intros Hgt Hpred Hconf.
    destruct (str_split_last_Ok os_path_sep (meta_name m)) as (file & Hfile).
    now rewrite (save_keypoints_detection_fits pred m class_names
                   skeleton_lines file Hgt Hpred Hconf Hfile).
  - intros Hbad. unfold save_keypoints_detection, enumerate.
    rewrite bind_emit. cbv beta.
    destruct (le_lt_dec (List.length (meta_pts m)) (List.length class_names))
      as [Hgt | Hgt].
    + rewrite (keypoints_dict_loop_Ok _ (fun kp => (kp_x kp, kp_y kp, f64_of_Z 1)))
        by (try (simpl; lia); apply Forall_forall; reflexivity).
      rewrite bind_lift. cbv beta iota.
      rewrite keypoints_dict_loop_Raise; [reflexivity | | lia |].
      * intros kp e. unfold Py.getitem.
        destruct (nth_error (kp_rest kp) 0); simpl; congruence.
      * destruct Hbad as [H | [H | H]]; [lia | left; simpl; lia | right].
        eapply Exists_impl; [| exact H]. intros kp Hkp. cbv beta in *.
        rewrite Hkp. eexists. reflexivity.
    + rewrite keypoints_dict_loop_Raise; [reflexivity | | lia |].
      * intros kp e He. discriminate.
      * left. simpl. lia.
Qed.

(** X14. The detection image of a sample: it is written in [result/detection]
    under the base name of the image of the sample, whatever the directory
    of that image, and it is rendered from two dictionaries that pair the
    class names, in order, with the ground-truth keypoints at confidence 1
    and with the predicted keypoints at their confidence. *)
Theorem save_keypoints_detection_image (pred : list keypoint)
    (m : metainfo_t) (class_names : list string)
    (skeleton_lines : option skeleton) (dir base : string) :
  NoDup class_names ->
  (List.length (meta_pts m) <= List.length class_names)%nat ->
  (List.length pred <= List.length class_names)%nat ->
  Forall (fun kp => kp_rest kp <> []) pred ->
  meta_name m = String.append dir (String "/" base) ->
  str_contains "/" base = false ->
  save_keypoints_detection skeleton pred m class_names skeleton_lines
  = ([EvTouchDir "result/detection";
      EvImageSave (String.append "result/detection/" base)
        (combine class_names
                 (map (fun kp => (kp_x kp, kp_y kp, f64_of_Z 1)) (meta_pts m)))
        (combine class_names
                 (map (fun kp => (kp_x kp, kp_y kp, hd f64_zero (kp_rest kp)))
                      pred))],
     Ok tt).
Proof.
  intros Hnd Hgt Hpred Hconf Hname Hbase.
  rewrite (save_keypoints_detection_fits pred m class_names skeleton_lines
             base Hgt Hpred Hconf).
  - rewrite !fold_set_fresh;
      try (now apply NoDup_map_fst_combine); try reflexivity.
  - rewrite Hname. now apply str_split_last.
Qed.

End SaveDetection.

Lemma save_keypoints_detection_outcome_witness :
  outcome (save_keypoints_detection unit pred_keypoints meta class_names None)
  = Ok tt
  /\ save_keypoints_detection unit pred_keypoints meta ["head"] None
     = ([EvTouchDir "result/detection"], Raise IndexError).
Proof.
  split.
  - apply (save_keypoints_detection_outcome unit pred_keypoints meta
             class_names None).
    + simpl. lia.
    + simpl. lia.
    + repeat constructor; discriminate.
  - apply (save_keypoints_detection_outcome unit pred_keypoints meta
             ["head"] None).
    left. simpl. lia.
Defined.

Lemma save_keypoints_detection_image_witness :
  save_keypoints_detection unit pred_keypoints meta class_names None
  = ([EvTouchDir "result/detection";
      EvImageSave "result/detection/a.jpg"
        [("head", (fl 5, fl 4, fl 1)); ("neck", (fl 20, fl 7, fl 1))]
        [("head", (fl 2, fl 0, tenths 9)); ("neck", (fl 7, fl 7, tenths 8))]],
     Ok tt).
Proof.
  apply (save_keypoints_detection_image unit pred_keypoints meta class_names
           None "images" "a.jpg" NoDup_class_names).
  - simpl. lia.
  - simpl. lia.
  - repeat constructor; discriminate.
  - reflexivity.
  - reflexivity.
Defined.

(* ================================================================== *)
(** * The exceptions of an evaluation *)

Lemma raises_only_bind {A B} (P : exn -> Prop) (m : M A) (f : A -> M B) :
  raises_only P m ->
  (forall a, outcome m = Ok a -> raises_only P (f a)) ->
  raises_only P (bind m f).
Proof.
  intros Hm Hf e. rewrite outcome_bind.
  destruct (outcome m) as [a | e'] eqn:E.
  - now apply Hf.
  - intros H. inversion H; subst. now apply Hm.
Qed.

Lemma raises_only_lift {A} (P : exn -> Prop) (r : result A) :
  (forall e, r = Raise e -> P e) -> raises_only P (lift r).
Proof. intros H e. exact (H e). Qed.

Lemma raises_only_emit (P : exn -> Prop) (ev : event) :
  raises_only P (emit ev).
Proof. intros e H. discriminate. Qed.

Lemma raises_only_ret {A} (P : exn -> Prop) (a : A) : raises_only P (ret a).
Proof. intros e H. discriminate. Qed.

Lemma raises_only_raise {A} (P : exn -> Prop) (e : exn) :
  P e -> raises_only P (@raise A e).
Proof. intros H e' E. inversion E; subst. exact H. Qed.

Lemma getitem_exn {A} (l : list A) (i : nat) (e : exn) :
  getitem l i = Raise e -> e = IndexError.
Proof. unfold getitem. destruct (nth_error l i); congruence. Qed.

Lemma getitem_last_exn {A} (l : list A) (e : exn) :
  getitem_last l = Raise e -> e = IndexError.
Proof. unfold getitem_last. destruct (rev l); congruence. Qed.

Lemma nd_getitem0_exn (a : ndarray) (e : exn) :
  nd_getitem0 a = Raise e -> e = IndexError.
Proof. unfold nd_getitem0. destruct (shape a) as [| [| n] sh]; congruence. Qed.

Lemma reduce_mul_exn (sh : list nat) (e : exn) :
  reduce_mul sh = Raise e -> e = TypeError.
Proof. unfold reduce_mul. destruct sh; congruence. Qed.

Lemma np_reshape_rows_ok_exn (size n : nat) (e : exn) :
  np_reshape_rows_ok size n = Raise e -> e = ValueError "cannot reshape array".
Proof.
  unfold np_reshape_rows_ok. destruct (Nat.eqb n 0); [congruence |].
  destruct (Nat.eqb (size mod n) 0); congruence.
Qed.

Lemma MNN_Tensor_rows_ok_exn (size n : nat) (e : exn) :
  MNN_Tensor_rows_ok size n = Raise e -> e = TypeError.
Proof.
  unfold MNN_Tensor_rows_ok. destruct (Nat.eqb size n); intros H; now inversion H.
Qed.

Lemma np_reshape_exn (flat : list R) (sh : list nat) (e : exn) :
  np_reshape flat sh = Raise e -> e = ValueError "cannot reshape array".
Proof. unfold np_reshape. destruct (Nat.eqb _ _); congruence. Qed.

Lemma np_transpose_0231_exn (a : ndarray) (e : exn) :
  np_transpose_0231 a = Raise e -> e = ValueError "axes don't match array".
Proof.
  unfold np_transpose_0231.
  destruct (shape a) as [| n [| c [| h [| w [| x sh]]]]]; congruence.
Qed.

Lemma keypoints_dict_loop_exn (f : keypoint -> result (float64 * float64 * float64))
    (class_names : list string) :
  (forall kp e, f kp = Raise e -> e = IndexError) ->
  forall (enum : list (nat * keypoint)) (d : keypoints_dict) (e : exn),
    keypoints_dict_loop f class_names enum d = Raise e -> e = IndexError.
Proof.
  intros Hf. induction enum as [| [i kp] enum IH]; intros d e; simpl;
    [discriminate |].
  destruct (getitem class_names i) as [name | e1] eqn:E1; simpl.
  - destruct (f kp) as [v | e2] eqn:E2; simpl; [apply IH |].
    intros H. inversion H; subst. exact (Hf kp e E2).
  - intros H. inversion H; subst. exact (getitem_exn _ _ _ E1).
Qed.

(** Solve [In e eval_exceptions] for a known exception. *)
Ltac in_exceptions :=
  unfold eval_exceptions; simpl;
  solve [repeat first [left; reflexivity | right]].

(** An exception of one of the primitives is an exception of an
    evaluation. *)
Ltac primitive_exn :=
  let e := fresh "e" in
  let H := fresh "H" in
  intros e H;
  first [ apply getitem_exn in H
        | apply getitem_last_exn in H
        | apply nd_getitem0_exn in H
        | apply reduce_mul_exn in H
        | apply np_reshape_rows_ok_exn in H
        | apply MNN_Tensor_rows_ok_exn in H
        | apply np_reshape_exn in H
        | apply np_transpose_0231_exn in H
        | inversion H ];
  subst; in_exceptions.

Ltac raises_step :=
  first [ apply raises_only_bind; [| intros ? _]
        | apply raises_only_emit
        | apply raises_only_ret
        | apply raises_only_lift ].

Section Exceptions.

Variable astype_float32 : ndarray -> ndarray.
Variable post_process_heatmap : ndarray -> float64 -> list keypoint.
Variable invert_transform_kp :
  list keypoint -> list R -> R -> list nat -> R -> list keypoint.
Variable skeleton : Type.
Variable tflite_Interpreter : string -> tflite_interpreter.
Variable MNN_Interpreter : string -> mnn_interpreter.
Variable tf_import_graph_def : string -> tf_graph.
Variable load_model : string -> keras_model.

Local Abbreviation load :=
  (load_eval_model tflite_Interpreter MNN_Interpreter tf_import_graph_def
                   load_model).
Local Abbreviation eval_raises := (raises_only (fun e => In e eval_exceptions)).

(** [load_eval_model] returns a model object of the kind of the format. *)
Lemma load_eval_model_matches (path : string) (model : model_object)
    (model_format : string) :
  load path = Ok (model, model_format) ->
  model_matches model model_format = true.
Proof.
  unfold load_eval_model.
  repeat (destruct (endswith path _);
          [intros H; inversion H; subst; reflexivity |]).
  discriminate.
Qed.

Lemma predict_heatmap_raises (model : model_object) (model_format : string)
    (img : ndarray) :
  model_matches model model_format = true ->
  eval_raises (predict_heatmap astype_float32 model model_format tt img).
Proof.
  intros Hm. unfold predict_heatmap.
  destruct model as [m | itp | g | itp]; cbn [model_matches] in Hm;
    apply String.eqb_eq in Hm; subst model_format;
    cbn [String.eqb Ascii.eqb Bool.eqb andb].
  - unfold hourglass_predict_keras. repeat raises_step.
    + destruct (keras_predict m img); primitive_exn.
    + primitive_exn.
  - unfold hourglass_predict_tflite. repeat raises_step; primitive_exn.
  - unfold hourglass_predict_pb.
    destruct (negb _); [apply raises_only_raise; in_exceptions |].
    destruct (negb _); [apply raises_only_raise; in_exceptions |].
    repeat raises_step. primitive_exn.
  - unfold hourglass_predict_mnn. repeat raises_step; try primitive_exn.
    + destruct (halide_type_eqb _ _); primitive_exn.
    + destruct (dimension_type_eqb _ _); [primitive_exn |].
      destruct (dimension_type_eqb _ _); primitive_exn.
Qed.

Section EvalExceptions.

Variable model : model_object.
Variable model_format : string.
Variable eval_dataset : hourglass_dataset_t.
Variable class_names : list string.
Variables score_threshold normalize conf_threshold : float64.
Variable save_result : bool.
Variable skeleton_lines : option skeleton.

Local Abbreviation step :=
  (eval_sample astype_float32 post_process_heatmap invert_transform_kp
               skeleton model model_format class_names score_threshold
               normalize conf_threshold save_result skeleton_lines tt).
Local Abbreviation loop :=
  (eval_loop astype_float32 post_process_heatmap invert_transform_kp
             skeleton model model_format eval_dataset class_names
             score_threshold normalize conf_threshold save_result
             skeleton_lines).
Local Abbreviation finish :=
  (eval_finish class_names score_threshold save_result).
Local Abbreviation evalPCK :=
  (eval_PCK astype_float32 post_process_heatmap invert_transform_kp
            skeleton model model_format eval_dataset class_names
            score_threshold normalize conf_threshold save_result
            skeleton_lines).
Local Abbreviation init := (init_counters class_names).

Lemma save_keypoints_detection_raises (pred : list keypoint) (m : metainfo_t) :
  eval_raises
    (save_keypoints_detection skeleton pred m class_names skeleton_lines).
Proof.
  unfold save_keypoints_detection. repeat raises_step.
  - intros e H. apply keypoints_dict_loop_exn in H; [subst; in_exceptions |].
    intros kp e' H'. discriminate.
  - intros e H. apply keypoints_dict_loop_exn in H; [subst; in_exceptions |].
    intros kp e' H'. unfold getitem in H'.
    destruct (nth_error (kp_rest kp) 0); simpl in H'; congruence.
  - primitive_exn.
Qed.

Lemma eval_sample_raises (smp : sample) (c : counters) :
  model_matches model model_format = true ->
  (forall name, In name class_names ->
                PyDict.get (succeed_dict c) name <> None
                /\ PyDict.get (fail_dict c) name <> None) ->
  eval_raises (step smp c).
Proof.
  intros Hm Hkeys. unfold eval_sample.
  apply raises_only_bind; [now apply predict_heatmap_raises |]. intros h _.
  apply raises_only_bind; [apply raises_only_lift; primitive_exn |].
  intros m0 _.
  apply raises_only_bind.
  { apply raises_only_lift. intros e H.
    apply (proj2 (keypoint_accuracy_raises _ _ _ _)) in H.
    subst. in_exceptions. }
  intros rl _.
  apply raises_only_bind.
  { apply raises_only_lift. intros e H. unfold enumerate in H.
    destruct (update_counters_from rl class_names 0 c (Nat.le_0_l _) Hkeys)
      as [Hok Hr].
    destruct (le_lt_dec (List.length class_names) (List.length rl))
      as [Hle | Hlt].
    - destruct (Hok Hle) as (c' & Hc'). congruence.
    - rewrite (Hr Hlt) in H. inversion H; subst. in_exceptions. }
  intros c' _.
  apply raises_only_bind.
  { destruct save_result;
      [apply save_keypoints_detection_raises | apply raises_only_ret]. }
  intros _ _. repeat raises_step.
Qed.

Lemma eval_finish_raises (c : counters) :
  (forall name, In name class_names -> exists s f, has_counters c name s f) ->
  eval_raises (finish c).
Proof.
  intros Hc. unfold eval_finish.
  apply raises_only_bind; [apply raises_only_emit |]. intros _ _.
  apply raises_only_bind.
  { apply raises_only_lift. intros e H.
    apply accuracy_loop_Raise in H;
      [| now rewrite map_snd_enumerate].
    destruct H as [-> _]. in_exceptions. }
  intros acc _.
  apply raises_only_bind; [| intros _ _; apply raises_only_ret].
  destruct save_result; [| apply raises_only_ret].
  apply raises_only_bind; [apply raises_only_emit |]. intros _ _.
  unfold draw_plot_func.
  destruct acc; [apply raises_only_raise; in_exceptions
                | apply raises_only_emit].
Qed.

Lemma eval_PCK_raises (fuel : nat) (m : M (option R * PyDict.t R)) :
  model_matches model model_format = true ->
  evalPCK fuel = Some m ->
  eval_raises m.
Proof.
  intros Hm H e He.
  assert (Hs : session_ok model model_format).
  { intros ->. destruct model; try discriminate. eauto. }
  rewrite eval_PCK_eq, (session_ok_eqb _ _ Hs) in H.
  destruct (loop fuel tt 0 0 init) as [[trl [c | e']] |] eqn:El;
    [| | discriminate]; inversion H; subst m; cbn [outcome snd] in He.
  - destruct (loop_Ok_run astype_float32 post_process_heatmap
                invert_transform_kp skeleton model model_format eval_dataset
                class_names score_threshold normalize conf_threshold
                save_result skeleton_lines fuel trl c El)
      as (k & Hrun & _).
    apply (eval_finish_raises c); [| exact He].
    intros name Hin.
    destruct (loop_run_has_counters astype_float32 post_process_heatmap
                invert_transform_kp skeleton model model_format eval_dataset
                class_names score_threshold normalize conf_threshold
                save_result skeleton_lines k c trl Hrun name Hin)
      as (s & f & Hsf & _).
    eauto.
  - inversion He; subst e'. change 0 with (Z.of_nat 0) in El.
    destruct (eval_loop_inv astype_float32 post_process_heatmap
                invert_transform_kp skeleton model model_format eval_dataset
                class_names score_threshold normalize conf_threshold
                save_result skeleton_lines fuel 0 init trl (Raise e) El)
      as (k & c1 & tr1 & Hrun & [(Hr & _) | (smp & tr2 & e' & Hg & Hsz & Hstep
                                             & Hr & Htr)]);
      [discriminate |].
    inversion Hr; subst e'.
    apply (eval_sample_raises smp c1 Hm).
    + intros name Hin.
      destruct (loop_run_has_counters astype_float32 post_process_heatmap
                  invert_transform_kp skeleton model model_format
                  eval_dataset class_names score_threshold normalize
                  conf_threshold save_result skeleton_lines k c1 tr1 Hrun
                  name Hin)
        as (s & f & [Hs1 Hf1] & _).
      split; congruence.
    + now rewrite Hstep.
Qed.

(** X15. The evaluation of a model that [load_eval_model] has loaded can end
    with an exception of the listed kinds only: never with
    [AttributeError], which a model object of the wrong kind gives, never
    with the [ValueError] of an unknown format, and never with the
    [KeyError] of a counter. *)
Theorem eval_PCK_loaded_exceptions (path : string) (fuel : nat)
    (tr : list event) (e : exn) :
  load path = Ok (model, model_format) ->
  evalPCK fuel = Some (tr, Raise e) ->
  In e eval_exceptions
  /\ e <> AttributeError
  /\ e <> ValueError "invalid model format".
Proof.
  intros Hload H.
  assert (Hin : In e eval_exceptions).
  { apply (eval_PCK_raises fuel _ (load_eval_model_matches _ _ _ Hload) H).
    reflexivity. }
  split; [exact Hin |].
  split; intros ->; unfold eval_exceptions in Hin; simpl in Hin;
    repeat (destruct Hin as [Hin | Hin]; [discriminate |]); exact Hin.
Qed.

End EvalExceptions.

End Exceptions.

Lemma eval_PCK_loaded_exceptions_witness :
  In (AssertionError "keypoint number mismatch") eval_exceptions
  /\ AssertionError "keypoint number mismatch" <> AttributeError
  /\ AssertionError "keypoint number mismatch"
     <> ValueError "invalid model format".
Proof.
  apply (eval_PCK_loaded_exceptions astype_float32 post_process_heatmap
           invert_transform_kp unit tflite_Interpreter MNN_Interpreter
           tf_import_graph_def load_model keras "H5" dataset_mismatch
           class_names (fl 1) (fl 10) f64_1em6 false None "model.h5" 2
           [EvPbarOpen 1; EvInference "model.predict" image]);
    reflexivity.
Defined.

(* ================================================================== *)
(** * The command line *)

Section MoreMain.
Import PyDict PyDictFacts.

Variable astype_float32 : ndarray -> ndarray.
Variable post_process_heatmap : ndarray -> float64 -> list keypoint.
Variable invert_transform_kp :
  list keypoint -> list R -> R -> list nat -> R -> list keypoint.
Variable skeleton : Type.
Variable tflite_Interpreter : string -> tflite_interpreter.
Variable MNN_Interpreter : string -> mnn_interpreter.
Variable tf_import_graph_def : string -> tf_graph.
Variable load_model : string -> keras_model.
Variable py_float : string -> option float64.
Variable py_int : string -> option Z.
Variable get_skeleton : string -> skeleton.
Variable get_classes : string -> list string.
Variable get_normalize : Z * Z -> float64.
Variable hourglass_dataset :
  string -> list string -> Z * Z -> bool -> hourglass_dataset_t.

Local Abbreviation parse := (parse_args py_float).
Local Abbreviation load :=
  (load_eval_model tflite_Interpreter MNN_Interpreter tf_import_graph_def
                   load_model).
Local Abbreviation setup :=
  (main_setup skeleton tflite_Interpreter MNN_Interpreter tf_import_graph_def
              load_model py_int get_skeleton get_classes get_normalize
              hourglass_dataset).
Local Abbreviation mainf :=
  (main astype_float32 post_process_heatmap invert_transform_kp skeleton
        tflite_Interpreter MNN_Interpreter tf_import_graph_def load_model
        py_float py_int get_skeleton get_classes get_normalize
        hourglass_dataset).
Local Abbreviation evalf :=
  (eval_PCK astype_float32 post_process_heatmap invert_transform_kp skeleton).

(** ** The exceptions of [main] *)

Lemma main_setup_raises (ns : namespace) (e : exn) :
  (exists s, get ns "classes_path" = Some (VStr s))
  /\ (exists s, get ns "model_image_size" = Some (VStr s))
  /\ (exists s, get ns "model_path" = Some (VStr s))
  /\ (exists s, get ns "dataset_path" = Some (VStr s))
  /\ (exists x, get ns "score_threshold" = Some (VFloat x))
  /\ (exists x, get ns "conf_threshold" = Some (VFloat x))
  /\ (get ns "skeleton_path" = Some VNone
      \/ exists s, get ns "skeleton_path" = Some (VStr s))
  /\ (exists b, get ns "save_result" = Some (VBool b)) ->
  setup ns = Raise e ->
  In e setup_exceptions.
Proof.
  intros ((cp & Hcp) & (ms & Hms) & (mp & Hmp) & (dp & Hdp) & (st & Hst)
          & (ct & Hct) & Hsk & (sr & Hsr)) H.
  unfold main_setup, getattr in H.
  rewrite Hcp, Hms, Hmp, Hdp, Hst, Hct, Hsr in H.
  assert (Hload : forall e', load mp = Raise e' ->
                             e' = ValueError "invalid model file").
  { unfold load_eval_model.
    repeat (destruct (endswith mp _); [discriminate |]).
    intros e' E. now inversion E. }
  assert (Hrest :
            forall (sk : option skeleton),
              (try skeleton_lines <- Ok sk ;;
               try classes_path <- rbind (Ok (VStr cp)) as_str ;;
               try size_str <- rbind (Ok (VStr ms)) as_str ;;
               try (height, width) <-
                 match str_split "x"%char size_str with
                 | [h; w] => Ok (h, w)
                 | [] | [_] => Raise (ValueError "not enough values to unpack")
                 | _ => Raise (ValueError "too many values to unpack")
                 end ;;
               try height <- match py_int height with
                             | Some n => Ok n
                             | None => Raise (ValueError "invalid literal for int()")
                             end ;;
               try width <- match py_int width with
                            | Some n => Ok n
                            | None => Raise (ValueError "invalid literal for int()")
                            end ;;
               try model_path <- rbind (Ok (VStr mp)) as_str ;;
               try loaded <- load model_path ;;
               try dataset_path <- rbind (Ok (VStr dp)) as_str ;;
               try score_threshold <- rbind (Ok (VFloat st)) as_float ;;
               try conf_threshold <- rbind (Ok (VFloat ct)) as_float ;;
               try save_result <- Ok (VBool sr) ;;
               Ok (skeleton_lines, get_classes classes_path,
                   get_normalize (height, width), loaded,
                   hourglass_dataset dataset_path (get_classes classes_path)
                                     (height, width) false,
                   (score_threshold, conf_threshold, truthy save_result)))%result
              = Raise e ->
              In e setup_exceptions).
  { intros sk. cbn [rbind as_str as_float].
    destruct (str_split "x" ms) as [| h [| w [| x l]]]; cbn [rbind];
      try (intros E; inversion E; subst; simpl; tauto).
    destruct (py_int h); cbn [rbind];
      [| intros E; inversion E; subst; simpl; tauto].
    destruct (py_int w); cbn [rbind];
      [| intros E; inversion E; subst; simpl; tauto].
    destruct (load mp) as [loaded | e'] eqn:El; cbn [rbind];
      [discriminate |].
    intros E. inversion E; subst.
    rewrite (Hload e eq_refl). simpl. tauto. }
  destruct Hsk as [Hsk | (s & Hsk)]; rewrite Hsk in H;
    cbn [rbind truthy as_str] in H.
  - exact (Hrest None H).
  - destruct (negb (String.eqb s EmptyString)); cbn [rbind] in H;
      [exact (Hrest (Some (get_skeleton s)) H) | exact (Hrest None H)].
Qed.

(** X17. [main] ends with an exception in one of two ways: before the
    evaluation, with an exit of argparse or an error of the image size or
    of the model file, and then nothing has happened yet; or in the
    evaluation, with one of its exceptions.  In neither case has anything
    been printed: there is no partial report. *)
Theorem main_exceptions (fuel : nat) (cl : command_line) (tr : list event)
    (e : exn) :
  mainf fuel cl = Some (tr, Raise e) ->
  ((In e setup_exceptions /\ tr = []) \/ In e eval_exceptions)
  /\ filter is_print_event tr = [].
Proof.
  intros H.
  destruct (main_inv astype_float32 post_process_heatmap invert_transform_kp
              skeleton tflite_Interpreter MNN_Interpreter tf_import_graph_def
              load_model py_float py_int get_skeleton get_classes
              get_normalize hourglass_dataset fuel cl tr _ H)
    as [(e' & Hr & -> & He)
       | (ns & sk & cn & nz & model & fmt & ds & st & ct & tr_e & r_e
          & Hp & Hs & He & Hm)].
  - inversion He; subst e'. split; [left; split; [| reflexivity] | reflexivity].
    destruct (parse cl) as [ns | e0] eqn:Ep; cbn [rbind] in Hr.
    + apply (main_setup_raises ns e); [| exact Hr].
      destruct (parse_args_typed py_float _ _ Ep)
        as (H1 & H2 & H3 & H4 & H5 & H6 & H7 & H8).
      repeat split; eauto.
    + inversion Hr; subst.
      destruct (parse_args_raises py_float _ _ Ep) as [-> | ->]; simpl; tauto.
  - destruct r_e as [[total acc] | e']; [destruct Hm as [_ Hm]; discriminate |].
    destruct Hm as [-> Hm]. inversion Hm; subst e'. split.
    + right.
      destruct (main_setup_inv _ _ _ _ _ _ _ _ _ _ _ _ _ _ _ _ _ _ _ _ Hs)
        as ((path & Hload) & _).
      apply (eval_PCK_raises _ _ _ _ _ _ _ _ _ _ _ _ _ _ _
               (load_eval_model_matches _ _ _ _ _ _ _ Hload) He).
      reflexivity.
    + apply filter_nil_Forall.
      pose proof (eval_PCK_events _ _ _ _ _ _ _ _ _ _ _ _ _ _ _ He) as Hev.
      cbn [trace fst] in Hev.
      eapply Forall_impl; [| exact Hev].
      intros ev [Hok _]. destruct ev; simpl in *; congruence.
Qed.

(** ** The image size *)

(** [main_setup] on a namespace whose attributes have their types. *)
Lemma main_setup_typed (ns : namespace) (cp ms mp dp : string)
    (st ct : float64)
    (sr : bool) (skv : arg_value) (sk : option skeleton) :
  get ns "classes_path" = Some (VStr cp) ->
  get ns "model_image_size" = Some (VStr ms) ->
  get ns "model_path" = Some (VStr mp) ->
  get ns "dataset_path" = Some (VStr dp) ->
  get ns "score_threshold" = Some (VFloat st) ->
  get ns "conf_threshold" = Some (VFloat ct) ->
  get ns "save_result" = Some (VBool sr) ->
  get ns "skeleton_path" = Some skv ->
  (skv = VNone /\ sk = None)
  \/ (exists s, skv = VStr s
                /\ sk = if negb (String.eqb s EmptyString)
                        then Some (get_skeleton s) else None) ->
  setup ns
  = match str_split "x" ms with
    | [h; w] =>
        match py_int h with
        | None => Raise (ValueError "invalid literal for int()")
        | Some height =>
            match py_int w with
            | None => Raise (ValueError "invalid literal for int()")
            | Some width =>
                match load mp with
                | Raise e => Raise e
                | Ok loaded =>
                    Ok (sk, get_classes cp, get_normalize (height, width),
                        loaded,
                        hourglass_dataset dp (get_classes cp) (height, width)
                                          false,
                        (st, ct, sr))
                end
            end
        end
    | [] | [_] => Raise (ValueError "not enough values to unpack")
    | _ => Raise (ValueError "too many values to unpack")
    end.
Proof.
  intros Hcp Hms Hmp Hdp Hst Hct Hsr Hskv Hsk.
  unfold main_setup, getattr.
  rewrite Hcp, Hms, Hmp, Hdp, Hst, Hct, Hsr, Hskv.
  assert (E : (if truthy skv
               then (try p <- as_str skv ;; Ok (Some (get_skeleton p)))%result
               else Ok None) = Ok sk).
  { destruct Hsk as [[-> ->] | (s & -> & ->)]; [reflexivity |].
    cbn [truthy as_str rbind]. now destruct (negb _). }
  cbn [rbind]. rewrite E. cbn [rbind as_str as_float truthy].
  destruct (str_split "x" ms) as [| h [| w [| x l]]]; cbn [rbind];
    try reflexivity.
  destruct (py_int h); cbn [rbind]; [| reflexivity].
  destruct (py_int w); cbn [rbind]; [| reflexivity].
  destruct (load mp); reflexivity.
Qed.

(** X19. The model image size is read as [<height>x<width>]: a size without
    an [x] is refused; the part before the [x] is the height and the part
    after it the width, both of which must be integers, and they are what
    the normalisation and the dataset are built from.  The size is checked
    before the model file is looked at. *)
Theorem main_image_size (cl : command_line) (ns : namespace) (size : string) :
  parse cl = Ok ns ->
  get ns "model_image_size" = Some (VStr size) ->
  (str_contains "x" size = false ->
   setup ns = Raise (ValueError "not enough values to unpack"))
  /\ (forall h w,
         size = String.append h (String "x" w) ->
         str_contains "x" h = false ->
         str_contains "x" w = false ->
         match py_int h, py_int w with
         | Some height, Some width =>
             forall sk cn nz loaded ds rest,
               setup ns = Ok (sk, cn, nz, loaded, ds, rest) ->
               nz = get_normalize (height, width)
               /\ exists dp,
                    ds = hourglass_dataset dp cn (height, width) false
         | _, _ => setup ns = Raise (ValueError "invalid literal for int()")
         end).
Proof.
  intros Hp Hsize.
  destruct (parse_args_typed py_float cl ns Hp)
    as ((cp & Hcp) & (ms & Hms) & (mp & Hmp) & (dp & Hdp) & (st & Hst)
        & (ct & Hct) & Hsk & Hsr).
  assert (ms = size) by congruence. subst ms.
  assert (Heq : exists sk,
             setup ns
             = match str_split "x" size with
               | [h; w] =>
                   match py_int h with
                   | None => Raise (ValueError "invalid literal for int()")
                   | Some height =>
                       match py_int w with
                       | None => Raise (ValueError "invalid literal for int()")
                       | Some width =>
                           match load mp with
                           | Raise e => Raise e
                           | Ok loaded =>
                               Ok (sk, get_classes cp,
                                   get_normalize (height, width), loaded,
                                   hourglass_dataset dp (get_classes cp)
                                                     (height, width) false,
                                   (st, ct, option_given "save_result" cl))
                           end
                       end
                   end
               | [] | [_] => Raise (ValueError "not enough values to unpack")
               | _ => Raise (ValueError "too many values to unpack")
               end).
  { destruct Hsk as [Hsk | (s & Hsk)].
    - exists None.
      apply (main_setup_typed ns cp size mp dp st ct
               (option_given "save_result" cl) VNone); auto.
    - eexists.
      apply (main_setup_typed ns cp size mp dp st ct
               (option_given "save_result" cl) (VStr s)); eauto. }
  destruct Heq as (sk0 & Heq). rewrite Heq. split.
  - intros Hx. now rewrite (str_split_single _ _ Hx).
  - intros h w -> Hh Hw.
    rewrite str_split_append, (str_split_single _ _ Hh),
      (str_split_single _ _ Hw).
    cbn [app].
    destruct (py_int h) as [height |]; [| reflexivity].
    destruct (py_int w) as [width |]; [| reflexivity].
    intros sk cn nz loaded ds rest H.
    destruct (load mp) as [l |]; [| discriminate].
    inversion H; subst. split; [reflexivity | eauto].
Qed.

End MoreMain.

Lemma main_exceptions_witness :
  ((In (ValueError "not enough values to unpack") setup_exceptions
    /\ @nil event = [])
   \/ In (ValueError "not enough values to unpack") eval_exceptions)
  /\ filter is_print_event (@nil event) = [].
Proof.
  exact (main_exceptions astype_float32 post_process_heatmap
           invert_transform_kp unit tflite_Interpreter MNN_Interpreter
           tf_import_graph_def load_model py_float py_int get_skeleton
           get_classes get_normalize hourglass_dataset 2 cl_bad_size _ _
           run_main_bad_size).
Defined.

(* ================================================================== *)
(** * The runtimes *)

Section MoreBackends.

Variable astype_float32 : ndarray -> ndarray.







End MoreBackends.


Lemma main_image_size_witness :
  main_setup unit tflite_Interpreter MNN_Interpreter tf_import_graph_def
             load_model py_int get_skeleton get_classes get_normalize
             hourglass_dataset
             [("classes_path", VStr "configs/mpii_classes.txt");
              ("score_threshold", VFloat f64_0_5);
              ("conf_threshold", VFloat f64_1em6);
              ("model_image_size", VStr "256");
              ("save_result", VBool false);
              ("skeleton_path", VNone);
              ("model_path", VStr "model.h5");
              ("dataset_path", VStr "val")]
  = Raise (ValueError "not enough values to unpack").
Proof.
  apply (main_image_size unit tflite_Interpreter MNN_Interpreter
           tf_import_graph_def load_model py_float py_int get_skeleton
           get_classes get_normalize hourglass_dataset cl_bad_size _ "256");
    reflexivity.
Defined.

(* ================================================================== *)
(** * The path of the model *)

Section MoreLoading.

Variable tflite_Interpreter : string -> tflite_interpreter.
Variable MNN_Interpreter : string -> mnn_interpreter.
Variable tf_import_graph_def : string -> tf_graph.
Variable load_model : string -> keras_model.

Local Abbreviation load :=
  (load_eval_model tflite_Interpreter MNN_Interpreter tf_import_graph_def
                   load_model).

Lemma string_length_append (s1 s2 : string) :
  String.length (String.append s1 s2)
  = (String.length s1 + String.length s2)%nat.
Proof. induction s1 as [| c s1 IH]; simpl; [reflexivity | now rewrite IH]. Qed.

Lemma substring_all (s : string) : substring 0 (String.length s) s = s.
Proof. induction s as [| c s IH]; simpl; [reflexivity | now rewrite IH]. Qed.

Lemma substring_append_skip (s suffix : string) :
  substring (String.length s) (String.length suffix) (String.append s suffix)
  = suffix.
Proof. induction s as [| c s IH]; simpl; [apply substring_all | exact IH]. Qed.

Lemma endswith_append (s suffix : string) :
  endswith (String.append s suffix) suffix = true.
Proof.
  unfold endswith. rewrite string_length_append.
  replace (String.length s + String.length suffix - String.length suffix)%nat
    with (String.length s) by lia.
  rewrite substring_append_skip, String.eqb_refl, andb_true_r.
  apply Nat.leb_le. lia.
Qed.

Lemma substring_split (s : string) :
  forall k,
    (k <= String.length s)%nat ->
    s = String.append (substring 0 k s) (substring k (String.length s - k) s).
Proof.
  induction s as [| c s IH]; intros [| k] Hk; simpl in *; try lia.
  - reflexivity.
  - now rewrite substring_all.
  - rewrite <- IH by lia. reflexivity.
Qed.

Lemma endswith_inv (s suffix : string) :
  endswith s suffix = true -> exists stem, s = String.append stem suffix.
Proof.
  unfold endswith. intros H. apply andb_true_iff in H. destruct H as [Hle Heq].
  apply Nat.leb_le in Hle. apply String.eqb_eq in Heq.
  exists (substring 0 (String.length s - String.length suffix) s).
  rewrite <- Heq at 2.
  rewrite (substring_split s (String.length s - String.length suffix)) at 1
    by lia.
  f_equal. f_equal. lia.
Qed.

(** X20. The format is read off the end of the path, and off nothing else:
    whatever comes before it, a path that ends with one of the four
    extensions is loaded in the format of that extension, and every path
    that is loaded is of that form. *)
Theorem load_eval_model_extension :
  (forall stem,
      load (String.append stem ".tflite")
      = Ok (TFLiteInterpreter
              (tflite_Interpreter (String.append stem ".tflite")), "TFLITE")
      /\ load (String.append stem ".mnn")
         = Ok (MNNInterpreter (MNN_Interpreter (String.append stem ".mnn")),
               "MNN")
      /\ load (String.append stem ".pb")
         = Ok (TFGraph (load_graph tf_import_graph_def
                                   (String.append stem ".pb")), "PB")
      /\ load (String.append stem ".h5")
         = Ok (KerasModel (load_model (String.append stem ".h5")), "H5"))
  /\ (forall path model model_format,
         load path = Ok (model, model_format) ->
         exists stem,
           (path = String.append stem ".tflite" /\ model_format = "TFLITE")
           \/ (path = String.append stem ".mnn" /\ model_format = "MNN")
           \/ (path = String.append stem ".pb" /\ model_format = "PB")
           \/ (path = String.append stem ".h5" /\ model_format = "H5")).
Proof.
  split.
  - intros stem. repeat split.
    + apply load_eval_model_tflite, endswith_append.
    + apply load_eval_model_mnn, endswith_append.
    + apply load_eval_model_pb, endswith_append.
    + apply load_eval_model_h5, endswith_append.
  - intros path model model_format. unfold load_eval_model.
    destruct (endswith path ".tflite") eqn:E1.
    { intros H. inversion H; subst. destruct (endswith_inv _ _ E1) as (stem & ->).
      exists stem. auto. }
    destruct (endswith path ".mnn") eqn:E2.
    { intros H. inversion H; subst. destruct (endswith_inv _ _ E2) as (stem & ->).
      exists stem. auto. }
    destruct (endswith path ".pb") eqn:E3.
    { intros H. inversion H; subst. destruct (endswith_inv _ _ E3) as (stem & ->).
      exists stem. auto. }
    destruct (endswith path ".h5") eqn:E4; [| discriminate].
    intros H. inversion H; subst. destruct (endswith_inv _ _ E4) as (stem & ->).
    exists stem. auto 10.
Qed.

End MoreLoading.

Lemma load_eval_model_extension_witness :
  load_eval_model tflite_Interpreter MNN_Interpreter tf_import_graph_def
                  load_model "weights/model.tflite.h5"
  = Ok (keras, "H5")
  /\ exists stem,
       ("model.h5" = String.append stem ".tflite" /\ "H5" = "TFLITE")
       \/ ("model.h5" = String.append stem ".mnn" /\ "H5" = "MNN")
       \/ ("model.h5" = String.append stem ".pb" /\ "H5" = "PB")
       \/ ("model.h5" = String.append stem ".h5" /\ "H5" = "H5").
Proof.
  destruct (load_eval_model_extension tflite_Interpreter MNN_Interpreter
              tf_import_graph_def load_model) as [Hext Hinv].
  split.
  - apply (Hext "weights/model.tflite").
  - apply (Hinv "model.h5" keras "H5"). reflexivity.
Defined.

(* ================================================================== *)
(** * The accuracy as a function of the threshold *)

Lemma check_pred_keypoints_mono (p g : keypoint) (t t' normalize : float64) :
  f64_le t t' = true ->
  check_le (check_pred_keypoints p g t normalize)
           (check_pred_keypoints p g t' normalize).
Proof.
  intros Ht. unfold check_le. rewrite !check_pred_keypoints_eq.
  destruct (f64_gt (kp_x g) (f64_of_Z 1) && f64_gt (kp_y g) (f64_of_Z 1));
    [| now left].
  destruct (f64_lt (computed_distance p g normalize) t) eqn:E;
    destruct (f64_lt (computed_distance p g normalize) t') eqn:E'.
  - right. right. auto.
  - rewrite (f64_lt_le_trans _ _ _ E Ht) in E'. discriminate.
  - right. left. auto.
  - right. left. auto.
Qed.

Lemma Forall2_map_same {A B} (P : B -> B -> Prop) (f f' : A -> B)
    (l : list A) :
  (forall a, P (f a) (f' a)) -> Forall2 P (map f l) (map f' l).
Proof. intros H. induction l; simpl; constructor; auto. Qed.

Lemma Forall2_nth_error {A} (P : A -> A -> Prop) (l l' : list A) :
  Forall2 P l l' ->
  forall i,
    match nth_error l i, nth_error l' i with
    | Some a, Some b => P a b
    | None, None => True
    | _, _ => False
    end.
Proof.
  induction 1 as [| a b l l' Hab _ IH]; intros [| i]; simpl; auto.
  apply IH.
Qed.

Section CountersOrder.
Import PyDict PyDictFacts.

Variables rl rl' : list Z.
Hypothesis Hrl : Forall2 check_le rl rl'.

Lemma hits_le (name : string) :
  forall (enum : list (nat * string)),
    hits 1 enum rl name <= hits 1 enum rl' name
    /\ hits 1 enum rl name + hits 0 enum rl name
       = hits 1 enum rl' name + hits 0 enum rl' name.
Proof.
  induction enum as [| [i n] enum [IH1 IH2]]; cbn [hits]; [lia |].
  pose proof (Forall2_nth_error _ _ _ Hrl i) as Hi.
  destruct (String.eqb name n); cbn [andb]; [| lia].
  destruct (nth_error rl i) as [r |], (nth_error rl' i) as [r' |];
    try contradiction; [| lia].
  destruct Hi as [[-> ->] | [[-> [-> | ->]] | [-> ->]]];
    cbn [Z.eqb Pos.eqb]; lia.
Qed.

Lemma result_count_le :
  forall (enum : list (nat * string)),
    result_count 1 enum rl <= result_count 1 enum rl'
    /\ result_count 1 enum rl + result_count 0 enum rl
       = result_count 1 enum rl' + result_count 0 enum rl'.
Proof.
  induction enum as [| [i n] enum [IH1 IH2]]; cbn [result_count]; [lia |].
  pose proof (Forall2_nth_error _ _ _ Hrl i) as Hi.
  destruct (nth_error rl i) as [r |], (nth_error rl' i) as [r' |];
    try contradiction; [| lia].
  destruct Hi as [[-> ->] | [[-> [-> | ->]] | [-> ->]]];
    cbn [Z.eqb Pos.eqb]; lia.
Qed.

End CountersOrder.

Section CountersSum.
Import PyDict PyDictFacts.

Lemma np_sum_set (d : t Z) (k : string) (v v0 : Z) :
  get d k = Some v0 ->
  np_sum (values (set d k v)) = np_sum (values d) - v0 + v.
Proof.
  induction d as [| [k' v'] d IH]; simpl; [discriminate |].
  destruct (String.eqb k k'); simpl.
  - intros H. inversion H; subst. lia.
  - intros H. rewrite (IH H). lia.
Qed.

(** A sample adds to the sum of the succeed counters the number of
    classes whose result is 1, and to the sum of the fail counters the
    number of those whose result is 0. *)
Lemma update_counters_sum (result_list : list Z) :
  forall (enum : list (nat * string)) (c c1 : counters),
    update_counters enum result_list c = Ok c1 ->
    np_sum (values (succeed_dict c1))
    = np_sum (values (succeed_dict c)) + result_count 1 enum result_list
    /\ np_sum (values (fail_dict c1))
       = np_sum (values (fail_dict c)) + result_count 0 enum result_list.
Proof.
  induction enum as [| [i n] enum IH]; intros c c1 H.
  - simpl in H. inversion H; subst. simpl. lia.
  - cbn [update_counters] in H.
    apply rbind_Ok_inv in H. destruct H as (r & Hr & H).
    unfold Py.getitem in Hr.
    destruct (nth_error result_list i) as [r' |] eqn:Er; [| discriminate].
    inversion Hr; subst r'. clear Hr.
    cbn [result_count]. rewrite Er.
    destruct (r =? 0) eqn:E0.
    + apply rbind_Ok_inv in H. destruct H as (v & Hv & H).
      apply getitem_Ok in Hv.
      destruct (IH _ _ H) as [H1 H2]. cbn [succeed_dict fail_dict] in H1, H2.
      rewrite (np_sum_set _ _ _ _ Hv) in H2.
      apply Z.eqb_eq in E0. subst r. cbn [Z.eqb Pos.eqb]. lia.
    + destruct (r =? 1) eqn:E1.
      * apply rbind_Ok_inv in H. destruct H as (v & Hv & H).
        apply getitem_Ok in Hv.
        destruct (IH _ _ H) as [H1 H2]. cbn [succeed_dict fail_dict] in H1, H2.
        rewrite (np_sum_set _ _ _ _ Hv) in H1. lia.
      * destruct (IH _ _ H) as [H1 H2]. lia.
Qed.

End CountersSum.

Section ThresholdMonotone.
Import PyDict PyDictFacts.

Variable astype_float32 : ndarray -> ndarray.
Variable post_process_heatmap : ndarray -> float64 -> list keypoint.
Variable invert_transform_kp :
  list keypoint -> list R -> R -> list nat -> R -> list keypoint.
Variable skeleton : Type.
Variable model : model_object.
Variable model_format : string.
Variable eval_dataset : hourglass_dataset_t.
Variable class_names : list string.
Variables normalize conf_threshold : float64.
Variable save_result : bool.
Variable skeleton_lines : option skeleton.

Local Abbreviation step th :=
  (eval_sample astype_float32 post_process_heatmap invert_transform_kp
               skeleton model model_format class_names th
               normalize conf_threshold save_result skeleton_lines tt).
Local Abbreviation loop th :=
  (eval_loop astype_float32 post_process_heatmap invert_transform_kp
             skeleton model model_format eval_dataset class_names
             th normalize conf_threshold save_result skeleton_lines).
Local Abbreviation finish th := (eval_finish class_names th save_result).
Local Abbreviation evalPCK th :=
  (eval_PCK astype_float32 post_process_heatmap invert_transform_kp
            skeleton model model_format eval_dataset class_names
            th normalize conf_threshold save_result skeleton_lines).
Local Abbreviation init := (init_counters class_names).

(** The body of the loop, stage by stage. *)
Lemma eval_sample_stages (th : float64) (smp : sample) (c : counters) :
  step th smp c
  = match predict_heatmap astype_float32 model model_format tt
                          (image_data smp) with
    | (tr_h, Raise e) => (tr_h, Raise e)
    | (tr_h, Ok heatmap) =>
        match Py.getitem (metainfo smp) 0 with
        | Raise e => (tr_h, Raise e)
        | Ok m0 =>
            match keypoint_accuracy
                    (post_process_heatmap heatmap conf_threshold)
                    (meta_tpts m0) th normalize with
            | Raise e => (tr_h, Raise e)
            | Ok result_list =>
                match update_counters (enumerate class_names) result_list c with
                | Raise e => (tr_h, Raise e)
                | Ok c1 =>
                    match (if save_result
                           then save_keypoints_detection skeleton
                                  (revert_keypoints invert_transform_kp
                                     (post_process_heatmap heatmap conf_threshold)
                                     m0 (firstn 2 (shape heatmap)))
                                  m0 class_names skeleton_lines
                           else ret tt) with
                    | (tr_s, Raise e) => (tr_h ++ tr_s, Raise e)
                    | (tr_s, Ok _) =>
                        (tr_h ++ tr_s ++ [EvPbarUpdate batch_size], Ok c1)
                    end
                end
            end
        end
    end.
Proof.
  unfold eval_sample.
  destruct (predict_heatmap _ _ _ _ _) as [tr_h [h | e]]; [| reflexivity].
  cbn [bind]. rewrite bind_lift.
  destruct (Py.getitem (metainfo smp) 0) as [m0 | e];
    [| now rewrite app_nil_r].
  rewrite bind_lift.
  destruct (keypoint_accuracy _ _ _ _) as [rl | e]; [| now rewrite app_nil_r].
  rewrite bind_lift.
  destruct (update_counters _ _ _) as [c1 | e]; [| now rewrite app_nil_r].
  destruct (if save_result then _ else _) as [tr_s [u | e]]; reflexivity.
Qed.

Lemma eval_sample_threshold (t t' : float64) (smp : sample) (c c' c1 : counters)
    (tr : list event) :
  f64_le t t' = true ->
  counters_le class_names c c' ->
  step t smp c = (tr, Ok c1) ->
  exists c1', step t' smp c' = (tr, Ok c1') /\ counters_le class_names c1 c1'.
Proof.
  intros Ht (Hnames & Hs & Hsum) H.
  rewrite eval_sample_stages in H. rewrite eval_sample_stages.
  destruct (predict_heatmap _ _ _ _ _) as [tr_h [h | e]]; [| discriminate].
  destruct (Py.getitem (metainfo smp) 0) as [m0 | e]; [| discriminate].
  destruct (keypoint_accuracy _ _ t _) as [rl | e] eqn:Ek; [| discriminate].
  pose proof (keypoint_accuracy_Ok_length _ _ _ _ _ Ek) as Hlen.
  rewrite (keypoint_accuracy_map _ _ t normalize Hlen) in Ek.
  rewrite (keypoint_accuracy_map _ _ t' normalize Hlen).
  inversion Ek as [Erl]. clear Ek.
  set (rl' := map (fun pg => check_pred_keypoints (fst pg) (snd pg) t' normalize)
                  (combine (post_process_heatmap h conf_threshold)
                           (meta_tpts m0))) in *.
  assert (Hrel : Forall2 check_le rl rl').
  { subst rl rl'. apply Forall2_map_same. intros pg.
    now apply check_pred_keypoints_mono. }
  assert (Hll : List.length rl' = List.length rl).
  { subst rl rl'. now rewrite !length_map. }
  destruct (update_counters _ rl c) as [c1_ |] eqn:Eu; [| discriminate].
  assert (Hkeys : forall name, In name class_names ->
                    get (succeed_dict c) name <> None
                    /\ get (fail_dict c) name <> None).
  { intros name Hin.
    destruct (Hnames name Hin) as (s & f & s' & f' & [H1 H2] & _).
    split; congruence. }
  assert (Hkeys' : forall name, In name class_names ->
                     get (succeed_dict c') name <> None
                     /\ get (fail_dict c') name <> None).
  { intros name Hin.
    destruct (Hnames name Hin) as (s & f & s' & f' & _ & [H1 H2] & _).
    split; congruence. }
  assert (Hfit : (List.length class_names <= List.length rl)%nat).
  { destruct (le_lt_dec (List.length class_names) (List.length rl))
      as [Hle | Hlt]; [exact Hle |].
    destruct (update_counters_from rl class_names 0 c (Nat.le_0_l _) Hkeys)
      as [_ Hr].
    unfold enumerate in Eu. rewrite (Hr Hlt) in Eu. discriminate. }
  destruct (update_counters_from rl' class_names 0 c' (Nat.le_0_l _) Hkeys')
    as [Hok _].
  destruct Hok as (c1' & Eu'); [simpl; lia |].
  fold (enumerate class_names) in Eu'. rewrite Eu'.
  destruct (if save_result then _ else _) as [tr_s [u | e]]; [| discriminate].
  inversion H; subst tr c1_. clear H.
  exists c1'. split; [reflexivity |].
  destruct (update_counters_sum _ _ _ _ Eu) as [S1 F1].
  destruct (update_counters_sum _ _ _ _ Eu') as [S1' F1'].
  destruct (result_count_le rl rl' Hrel (enumerate class_names)) as [C1 C2].
  split; [| split; lia].
  intros name Hin.
  destruct (Hnames name Hin) as (s & f & s' & f' & [Hs1 Hf1] & [Hs1' Hf1']
                                 & Hle & Heq).
  destruct (update_counters_spec _ _ _ _ Eu name) as [G1 G2].
  destruct (update_counters_spec _ _ _ _ Eu' name) as [G1' G2'].
  rewrite Hs1 in G1. rewrite Hf1 in G2. rewrite Hs1' in G1'. rewrite Hf1' in G2'.
  destruct (hits_le rl rl' Hrel name (enumerate class_names)) as [K1 K2].
  eexists _, _, _, _. split; [split; eassumption |].
  split; [split; eassumption |]. lia.
Qed.

Lemma eval_loop_threshold (t t' : float64) :
  f64_le t t' = true ->
  forall (fuel k : nat) (count : Z) (c c' c1 : counters) (tr : list event),
    counters_le class_names c c' ->
    loop t fuel tt k count c = Some (tr, Ok c1) ->
    exists c1',
      loop t' fuel tt k count c' = Some (tr, Ok c1')
      /\ counters_le class_names c1 c1'.
Proof.
  intros Ht. induction fuel as [| fuel IH]; intros k count c c' c1 tr Hc H;
    [discriminate |].
  cbn [eval_loop] in *.
  destruct (eval_generator eval_dataset k) as [smp |].
  - destruct (count + batch_size >? get_dataset_size eval_dataset).
    + inversion H; subst. exists c'. split; [reflexivity | exact Hc].
    + destruct (step t smp c) as [tr1 [c2 | e]] eqn:Es; cbn [obind] in H;
        [| discriminate].
      destruct (loop t fuel tt (S k) (count + batch_size) c2)
        as [[tr2 r2] |] eqn:El; [| discriminate].
      inversion H; subst tr r2. clear H.
      destruct (eval_sample_threshold t t' smp c c' c2 tr1 Ht Hc Es)
        as (c2' & Es' & Hc2).
      destruct (IH _ _ _ _ _ _ Hc2 El) as (c1' & El' & Hc1).
      exists c1'. split; [| exact Hc1].
      rewrite Es'. cbn [obind]. now rewrite El'.
  - inversion H; subst. exists c'. split; [reflexivity | exact Hc].
Qed.

(** What [eval_PCK] does after the loop, case by case. *)
Lemma eval_finish_cases (th : float64) (c : counters) :
  finish th c
  = match accuracy_loop (enumerate class_names) c
                        (from_keys class_names 0%R) with
    | Raise e => ([EvPbarClose], Raise e)
    | Ok acc =>
        let total :=
          np_true_divide
            (IZR (np_sum (values (succeed_dict c))) * 1.0)%R
            (IZR (np_sum (values (fail_dict c))
                  + np_sum (values (succeed_dict c)))) in
        if save_result
        then match acc with
             | [] => ([EvPbarClose; EvTouchDir "result"],
                      Raise (ValueError
                               "not enough values to unpack (expected 2, got 0)"))
             | _ => ([EvPbarClose; EvTouchDir "result";
                      EvSaveFig (os_path_join "result" "PCK.jpg") acc th total],
                     Ok (total, acc))
             end
        else ([EvPbarClose], Ok (total, acc))
    end.
Proof.
  unfold eval_finish.
  destruct (accuracy_loop _ _ _) as [acc | e]; [| reflexivity].
  destruct save_result; [| reflexivity].
  unfold draw_plot_func. destruct acc; reflexivity.
Qed.

Lemma ratio_le (s s' d : Z) :
  s <= s' -> 0 < d -> (IZR s / IZR d <= IZR s' / IZR d)%R.
Proof.
  intros Hs Hd. unfold Rdiv. apply Rmult_le_compat_r.
  - left. apply Rinv_0_lt_compat. now apply IZR_lt.
  - now apply IZR_le.
Qed.

Lemma eval_finish_threshold (t t' : float64) (c c' : counters) (tr : list event)
    (total : option R) (acc : PyDict.t R) :
  counters_le class_names c c' ->
  nonneg_counters c ->
  finish t c = (tr, Ok (total, acc)) ->
  exists tr' total' acc',
    finish t' c' = (tr', Ok (total', acc'))
    /\ (forall name v,
           get acc name = Some v ->
           exists v', get acc' name = Some v' /\ (v <= v')%R)
    /\ (forall x, total = Some x ->
                  exists x', total' = Some x' /\ (x <= x')%R).
Proof.
  intros (Hnames & Hs & Hsum) [Hnn_s Hnn_f] H.
  rewrite eval_finish_cases in H. rewrite eval_finish_cases.
  destruct (accuracy_loop _ c _) as [acc0 |] eqn:Ea; [| discriminate].
  assert (Hacc : forall name, In name class_names ->
             exists s f s' f',
               has_counters c name s f /\ has_counters c' name s' f'
               /\ s <= s' /\ s + f = s' + f' /\ 0 < s + f
               /\ get acc0 name = Some (IZR s / IZR (s + f))%R).
  { intros name Hin.
    destruct (Hnames name Hin)
      as (s & f & s' & f' & [Hs1 Hf1] & [Hs1' Hf1'] & Hle & Heq).
    destruct (accuracy_loop_Ok c _ _ _ Ea name) as [Hok _].
    rewrite map_snd_enumerate in Hok.
    destruct (Hok Hin) as (s0 & f0 & [Hs0 Hf0] & Hne & Hget).
    assert (s0 = s) by congruence. assert (f0 = f) by congruence. subst.
    pose proof (nonneg_dict_get _ _ _ Hnn_s Hs1).
    pose proof (nonneg_dict_get _ _ _ Hnn_f Hf1).
    exists s, f, s', f'. repeat split; try assumption; try lia. }
  destruct (accuracy_loop_complete c' (enumerate class_names)
              (from_keys class_names 0%R)) as (acc' & Ea').
  { rewrite map_snd_enumerate. intros name Hin.
    destruct (Hacc name Hin) as (s & f & s' & f' & _ & Hc' & _ & Heq & Hpos & _).
    exists s', f'. split; [exact Hc' | lia]. }
  rewrite Ea'.
  assert (Hk : keys acc' = keys acc0).
  { assert (Hin0 : forall name, In name (map snd (enumerate class_names)) ->
                     In name (keys (from_keys class_names 0%R))).
    { intros name Hin. rewrite map_snd_enumerate in Hin.
      apply get_In_keys. rewrite get_from_keys by exact Hin. discriminate. }
    rewrite (accuracy_loop_keys _ _ _ _ Ea Hin0).
    now rewrite (accuracy_loop_keys _ _ _ _ Ea' Hin0). }
  assert (Hvals : forall name v,
             get acc0 name = Some v ->
             exists v', get acc' name = Some v' /\ (v <= v')%R).
  { intros name v Hv.
    destruct (in_dec string_dec name class_names) as [Hin | Hin].
    - destruct (Hacc name Hin)
        as (s & f & s' & f' & _ & [Hs1' Hf1'] & Hle & Heq & Hpos & Hget).
      destruct (accuracy_loop_Ok c' _ _ _ Ea' name) as [Hok _].
      rewrite map_snd_enumerate in Hok.
      destruct (Hok Hin) as (s0 & f0 & [Hs0 Hf0] & Hne & Hget').
      assert (s0 = s') by congruence. assert (f0 = f') by congruence. subst.
      rewrite Hget in Hv. inversion Hv; subst v.
      eexists. split; [exact Hget' |].
      rewrite <- Heq. apply ratio_le; assumption.
    - destruct (accuracy_loop_Ok c _ _ _ Ea name) as [_ Hout].
      rewrite map_snd_enumerate in Hout.
      rewrite (Hout Hin), get_from_keys_notin in Hv by exact Hin.
      discriminate. }
  assert (Htot : forall x,
             np_true_divide
               (IZR (np_sum (values (succeed_dict c))) * 1.0)%R
               (IZR (np_sum (values (fail_dict c))
                     + np_sum (values (succeed_dict c)))) = Some x ->
             exists x',
               np_true_divide
                 (IZR (np_sum (values (succeed_dict c'))) * 1.0)%R
                 (IZR (np_sum (values (fail_dict c'))
                       + np_sum (values (succeed_dict c')))) = Some x'
               /\ (x <= x')%R).
  { intros x Hx.
    pose proof (np_sum_nonneg _ Hnn_s) as Hs0.
    pose proof (np_sum_nonneg _ Hnn_f) as Hf0.
    unfold np_true_divide in *.
    destruct (Req_dec_T (IZR (np_sum (values (fail_dict c))
                              + np_sum (values (succeed_dict c)))) 0)
      as [| Hne]; [discriminate |].
    inversion Hx; subst x. clear Hx.
    replace (np_sum (values (fail_dict c'))
             + np_sum (values (succeed_dict c')))
      with (np_sum (values (fail_dict c))
            + np_sum (values (succeed_dict c))) by lia.
    destruct (Req_dec_T _ 0) as [| _]; [contradiction |].
    eexists. split; [reflexivity |].
    replace (IZR (np_sum (values (succeed_dict c))) * 1.0)%R
      with (IZR (np_sum (values (succeed_dict c)))) by lra.
    replace (IZR (np_sum (values (succeed_dict c'))) * 1.0)%R
      with (IZR (np_sum (values (succeed_dict c')))) by lra.
    apply ratio_le; [exact Hs |].
    assert (np_sum (values (fail_dict c)) + np_sum (values (succeed_dict c))
            <> 0).
    { intros E. apply Hne. now rewrite E. }
    lia. }
  cbv zeta in H. cbv zeta.
  destruct save_result.
  - destruct acc0 as [| item acc0]; [discriminate |].
    destruct acc' as [| item' acc']; [discriminate |].
    inversion H; subst tr total acc. clear H.
    eexists _, _, _. split; [reflexivity |]. split; assumption.
  - inversion H; subst tr total acc. clear H.
    eexists _, _, _. split; [reflexivity |]. split; assumption.
Qed.

(** X21. The accuracy does not decrease with the threshold: when the
    evaluation returns at a threshold, it returns at every larger
    threshold too, and there the accuracy of each class and the total
    accuracy are at least what they were. *)
Theorem eval_PCK_threshold_monotone (t t' : float64) (fuel : nat)
    (tr : list event) (total : option R) (acc : PyDict.t R) :
  f64_le t t' = true ->
  evalPCK t fuel = Some (tr, Ok (total, acc)) ->
  exists tr' total' acc',
    evalPCK t' fuel = Some (tr', Ok (total', acc'))
    /\ (forall name v,
           get acc name = Some v ->
           exists v', get acc' name = Some v' /\ (v <= v')%R)
    /\ (forall x, total = Some x ->
                  exists x', total' = Some x' /\ (x <= x')%R).
Proof.
  intros Ht H. rewrite eval_PCK_eq in H. rewrite eval_PCK_eq.
  destruct (String.eqb model_format "MNN" && negb (is_mnn_interpreter model));
    [discriminate |].
  destruct (loop t fuel tt 0 0 init) as [[trl [c | e]] |] eqn:El;
    [| discriminate | discriminate].
  assert (Hinit : counters_le class_names init init).
  { split; [| split; lia].
    intros name Hin. destruct (init_counters_get class_names name Hin) as [H1 H2].
    exists 0, 0, 0, 0. repeat split; assumption || lia. }
  destruct (eval_loop_threshold t t' Ht fuel 0 0 init init c trl Hinit El)
    as (c' & El' & Hc).
  rewrite El'.
  destruct (loop_Ok_run astype_float32 post_process_heatmap
              invert_transform_kp skeleton model model_format eval_dataset
              class_names t normalize conf_threshold save_result
              skeleton_lines fuel trl c El) as (k & Hrun & _).
  pose proof (loop_run_nonneg astype_float32 post_process_heatmap
                invert_transform_kp skeleton model model_format eval_dataset
                class_names t normalize conf_threshold save_result
                skeleton_lines _ _ _ _ _ Hrun
                (init_counters_nonneg class_names)) as Hnn.
  inversion H as [[Htr Hout]]. clear H.
  destruct (eval_finish_threshold t t' c c' (trace (finish t c)) total acc
              Hc Hnn) as (tr' & total' & acc' & Hf' & Hacc & Htot).
  { rewrite (M_eta (finish t c)) at 1. now rewrite Hout. }
  rewrite Hf'. cbn [trace outcome fst snd]. eauto 10.
Qed.

End ThresholdMonotone.

Lemma eval_PCK_threshold_monotone_witness :
  exists tr' total' acc',
    eval_PCK astype_float32 post_process_heatmap invert_transform_kp unit
             keras "H5" dataset class_names (fl 2) (fl 10) f64_1em6 false None 2
    = Some (tr', Ok (total', acc'))
    /\ (forall name v,
           PyDict.get accuracy_after name = Some v ->
           exists v', PyDict.get acc' name = Some v' /\ (v <= v')%R)
    /\ (forall x, Some (1 / 2)%R = Some x ->
                  exists x', total' = Some x' /\ (x <= x')%R).
Proof.
  exact (eval_PCK_threshold_monotone astype_float32 post_process_heatmap
           invert_transform_kp unit keras "H5" dataset class_names (fl 10)
           f64_1em6 false None (fl 1) (fl 2) 2 _ _ _ eq_refl
           run_eval_PCK_example).
Defined.

(* ================================================================== *)
(** * The evaluation with and without saved results *)

Lemma filter_id_Forall {A} (f : A -> bool) (l : list A) :
  Forall (fun a => f a = true) l -> filter f l = l.
Proof.
  induction 1 as [| a l Ha _ IH]; simpl; [reflexivity |].
  now rewrite Ha, IH.
Qed.

Section SaveResult.

Variable astype_float32 : ndarray -> ndarray.
Variable post_process_heatmap : ndarray -> float64 -> list keypoint.
Variable invert_transform_kp :
  list keypoint -> list R -> R -> list nat -> R -> list keypoint.
Variable skeleton : Type.
Variable model : model_object.
Variable model_format : string.
Variable eval_dataset : hourglass_dataset_t.
Variable class_names : list string.
Variables score_threshold normalize conf_threshold : float64.
Variable skeleton_lines : option skeleton.

Local Abbreviation step save :=
  (eval_sample astype_float32 post_process_heatmap invert_transform_kp
               skeleton model model_format class_names score_threshold
               normalize conf_threshold save skeleton_lines tt).
Local Abbreviation loop save :=
  (eval_loop astype_float32 post_process_heatmap invert_transform_kp
             skeleton model model_format eval_dataset class_names
             score_threshold normalize conf_threshold save skeleton_lines).
Local Abbreviation finish save := (eval_finish class_names score_threshold save).
Local Abbreviation evalPCK save :=
  (eval_PCK astype_float32 post_process_heatmap invert_transform_kp
            skeleton model model_format eval_dataset class_names
            score_threshold normalize conf_threshold save skeleton_lines).
Local Abbreviation init := (init_counters class_names).

Lemma predict_heatmap_no_file (img : ndarray) :
  Forall (fun e => not_file_event e = true)
         (trace (predict_heatmap astype_float32 model model_format tt img)).
Proof.
  eapply Forall_impl;
    [| exact (predict_heatmap_events astype_float32 false model model_format
                                     img)].
  intros e H. unfold not_file_event.
  destruct e; cbn [eval_event_ok is_file_event negb] in *; congruence.
Qed.

Lemma save_keypoints_detection_file (pred : list keypoint) (m : metainfo_t) :
  Forall (fun e => not_file_event e = false)
    (trace (save_keypoints_detection skeleton pred m class_names skeleton_lines)).
Proof. unfold save_keypoints_detection. trace_forall. Qed.

Lemma eval_sample_saved (smp : sample) (c c1 : counters) (tr : list event) :
  step true smp c = (tr, Ok c1) ->
  step false smp c = (filter not_file_event tr, Ok c1).
Proof.
  intros H. rewrite eval_sample_stages in H. rewrite eval_sample_stages.
  pose proof (predict_heatmap_no_file (image_data smp)) as Hp.
  destruct (predict_heatmap _ _ _ _ _) as [tr_h [h | e]]; [| discriminate].
  cbn [trace fst] in Hp.
  destruct (getitem (metainfo smp) 0) as [m0 | e]; [| discriminate].
  destruct (keypoint_accuracy _ _ _ _) as [rl | e]; [| discriminate].
  destruct (update_counters _ _ _) as [c1_ | e]; [| discriminate].
  match type of H with
  | context [save_keypoints_detection ?sk ?p ?m ?cn ?sl] =>
      pose proof (save_keypoints_detection_file p m) as Hs;
      destruct (save_keypoints_detection sk p m cn sl) as [tr_s [u | e]];
      [| discriminate]
  end.
  cbn [trace fst] in Hs. inversion H; subst tr c1_. clear H.
  cbn [ret app]. rewrite !filter_app.
  rewrite (filter_id_Forall _ _ Hp), (filter_nil_Forall _ _ Hs).
  reflexivity.
Qed.

Lemma eval_loop_saved :
  forall (fuel k : nat) (count : Z) (c c1 : counters) (tr : list event),
    loop true fuel tt k count c = Some (tr, Ok c1) ->
    loop false fuel tt k count c = Some (filter not_file_event tr, Ok c1).
Proof.
  induction fuel as [| fuel IH]; intros k count c c1 tr H; [discriminate |].
  cbn [eval_loop] in *.
  destruct (eval_generator eval_dataset k) as [smp |].
  - destruct (count + batch_size >? get_dataset_size eval_dataset).
    + inversion H; subst. reflexivity.
    + destruct (step true smp c) as [tr1 [c2 | e]] eqn:Es; cbn [obind] in H;
        [| discriminate].
      destruct (loop true fuel tt (S k) (count + batch_size) c2)
        as [[tr2 r2] |] eqn:El; [| discriminate].
      inversion H; subst tr r2. clear H.
      rewrite (eval_sample_saved _ _ _ _ Es). cbn [obind].
      rewrite (IH _ _ _ _ _ El). now rewrite filter_app.
  - inversion H; subst. reflexivity.
Qed.

(** X22. Saving the results does not change the result: when the evaluation
    with [save_result] returns, the evaluation without it returns the same
    accuracies, and its events are those of the first without the writes
    to the file system. *)
Theorem eval_PCK_save_result_independent (fuel : nat) (tr : list event)
    (res : option R * PyDict.t R) :
  evalPCK true fuel = Some (tr, Ok res) ->
  evalPCK false fuel = Some (filter not_file_event tr, Ok res).
Proof.
  intros H. rewrite eval_PCK_eq in H. rewrite eval_PCK_eq.
  destruct (String.eqb model_format "MNN" && negb (is_mnn_interpreter model));
    [discriminate |].
  destruct (loop true fuel tt 0 0 init) as [[trl [c | e]] |] eqn:El;
    [| discriminate | discriminate].
  rewrite (eval_loop_saved _ _ _ _ _ _ El).
  rewrite eval_finish_cases in H. rewrite eval_finish_cases.
  destruct (accuracy_loop _ _ _) as [acc |]; [| discriminate].
  cbv zeta in *. destruct acc as [| item acc]; [discriminate |].
  cbn [trace outcome fst snd] in *. inversion H; subst tr res. clear H.
  cbn [filter not_file_event is_file_event negb]. rewrite filter_app.
  reflexivity.
Qed.

End SaveResult.

Lemma eval_PCK_save_result_independent_witness :
  exists tr,
    eval_PCK astype_float32 post_process_heatmap invert_transform_kp unit
             keras "H5" dataset class_names (fl 1) (fl 10) f64_1em6 true None 2
    = Some (tr, Ok (Some (1 / 2)%R, accuracy_after))
    /\ eval_PCK astype_float32 post_process_heatmap invert_transform_kp unit
                keras "H5" dataset class_names (fl 1) (fl 10) f64_1em6 false None 2
       = Some (filter not_file_event tr, Ok (Some (1 / 2)%R, accuracy_after)).
Proof.
  destruct run_eval_PCK_example_saved as (tr & Htr).
  exists tr. split; [exact Htr |].
  exact (eval_PCK_save_result_independent astype_float32 post_process_heatmap
           invert_transform_kp unit keras "H5" dataset class_names (fl 1) (fl 10) f64_1em6
           None 2 tr _ Htr).
Defined.

(* ================================================================== *)
(** * The detection images of an evaluation *)

Lemma image_save_paths_app (tr1 tr2 : list event) :
  image_save_paths (tr1 ++ tr2) = image_save_paths tr1 ++ image_save_paths tr2.
Proof. unfold image_save_paths. apply flat_map_app. Qed.

Lemma image_save_paths_nil (tr : list event) :
  Forall (fun e => is_image_save e = false) tr -> image_save_paths tr = [].
Proof.
  induction 1 as [| e tr He _ IH]; [reflexivity |].
  cbn [image_save_paths flat_map]. fold (image_save_paths tr). rewrite IH.
  destruct e; try reflexivity. discriminate.
Qed.

Section DetectionImages.

Variable astype_float32 : ndarray -> ndarray.
Variable post_process_heatmap : ndarray -> float64 -> list keypoint.
Variable invert_transform_kp :
  list keypoint -> list R -> R -> list nat -> R -> list keypoint.
Variable skeleton : Type.
Variable model : model_object.
Variable model_format : string.
Variable eval_dataset : hourglass_dataset_t.
Variable class_names : list string.
Variables score_threshold normalize conf_threshold : float64.
Variable skeleton_lines : option skeleton.

Local Abbreviation step :=
  (eval_sample astype_float32 post_process_heatmap invert_transform_kp
               skeleton model model_format class_names score_threshold
               normalize conf_threshold true skeleton_lines tt).
Local Abbreviation loop :=
  (eval_loop astype_float32 post_process_heatmap invert_transform_kp
             skeleton model model_format eval_dataset class_names
             score_threshold normalize conf_threshold true skeleton_lines).
Local Abbreviation gen := (eval_generator eval_dataset).
Local Abbreviation size := (get_dataset_size eval_dataset).
Local Abbreviation evalPCK :=
  (eval_PCK astype_float32 post_process_heatmap invert_transform_kp
            skeleton model model_format eval_dataset class_names
            score_threshold normalize conf_threshold true skeleton_lines).
Local Abbreviation init := (init_counters class_names).

Lemma save_keypoints_detection_path (pred : list keypoint) (m : metainfo_t)
    (tr : list event) (u : unit) :
  save_keypoints_detection skeleton pred m class_names skeleton_lines
  = (tr, Ok u) ->
  exists file_name,
    getitem_last (str_split os_path_sep (meta_name m)) = Ok file_name
    /\ image_save_paths tr = [String.append "result/detection/" file_name].
Proof.
  unfold save_keypoints_detection. intros H.
  do 4 bind_inv H. apply emit_inv in H. destruct H as [-> _].
  eexists. split; [eassumption |].
  cbn [image_save_paths flat_map app].
  assert (Hsep : str_contains os_path_sep a2 = false).
  { pose proof (str_split_no_sep os_path_sep (meta_name m)) as Hall.
    rewrite Forall_forall in Hall. apply Hall. now apply getitem_last_In. }
  now destruct (os_path_join_detection a2 Hsep) as [-> _].
Qed.

Lemma predict_heatmap_no_image_save (img : ndarray) :
  Forall (fun e => is_image_save e = false)
         (trace (predict_heatmap astype_float32 model model_format tt img)).
Proof.
  eapply Forall_impl;
    [| exact (predict_heatmap_events astype_float32 false model model_format
                                     img)].
  intros e H. destruct e; cbn [eval_event_ok is_image_save] in *; congruence.
Qed.

Lemma eval_sample_detection_path (smp : sample) (c c1 : counters)
    (tr : list event) :
  step smp c = (tr, Ok c1) ->
  image_save_paths tr = detection_path smp.
Proof.
  intros H. rewrite eval_sample_stages in H.
  pose proof (predict_heatmap_no_image_save (image_data smp)) as Hp.
  destruct (predict_heatmap _ _ _ _ _) as [tr_h [h | e]]; [| discriminate].
  cbn [trace fst] in Hp. unfold detection_path.
  unfold getitem in H.
  destruct (metainfo smp) as [| m0 ms]; [discriminate |].
  cbn [nth_error] in H.
  destruct (keypoint_accuracy _ _ _ _) as [rl | e]; [| discriminate].
  destruct (update_counters _ _ _) as [c1_ | e]; [| discriminate].
  destruct (save_keypoints_detection _ _ _ _ _) as [tr_s [u | e]] eqn:Es;
    [| discriminate].
  inversion H; subst tr c1_. clear H.
  destruct (save_keypoints_detection_path _ _ _ _ Es) as (file & Hfile & Hpath).
  rewrite Hfile, !image_save_paths_app, (image_save_paths_nil _ Hp), Hpath.
  reflexivity.
Qed.

Lemma loop_run_detection_paths (k k' : nat) (c c' : counters)
    (tr : list event) :
  loop_run step gen size k c tr k' c' ->
  image_save_paths tr
  = flat_map detection_path (generator_samples gen k (k' - k)).
Proof.
  induction 1 as [k c | k c smp tr1 c1 tr2 k' c' Hg Hsz Hstep Hrun IH].
  - now rewrite Nat.sub_diag.
  - pose proof (loop_run_le astype_float32 post_process_heatmap
                  invert_transform_kp skeleton model model_format
                  eval_dataset class_names score_threshold normalize
                  conf_threshold true skeleton_lines _ _ _ _ _ Hrun)
      as (Hle & _).
    rewrite image_save_paths_app, (eval_sample_detection_path _ _ _ _ Hstep), IH.
    replace (k' - k)%nat with (S (k' - S k)) by lia.
    unfold generator_samples. cbn [seq flat_map]. rewrite Hg.
    cbn [app flat_map]. reflexivity.
Qed.

(** X23. With [save_result], an evaluation that returns has saved one
    detection image for each sample that it has processed, in order, each
    in [result/detection] under the last piece of the name of the image of
    the sample: images of the same base name in different directories go
    to the same file. *)
Theorem eval_PCK_detection_images (fuel : nat) (tr : list event)
    (res : option R * PyDict.t R) :
  evalPCK fuel = Some (tr, Ok res) ->
  exists k,
    loop_stops gen size k
    /\ image_save_paths tr
       = flat_map detection_path (generator_samples gen 0 k)
    /\ forall smp m dir base,
         metainfo smp = [m] ->
         meta_name m = String.append dir (String "/" base) ->
         str_contains "/" base = false ->
         detection_path smp = [String.append "result/detection/" base].
Proof.
  intros H.
  destruct (eval_PCK_Ok_inv astype_float32 post_process_heatmap
              invert_transform_kp skeleton model model_format eval_dataset
              class_names score_threshold normalize conf_threshold true
              skeleton_lines fuel tr res H)
    as (trl & c & Hloop & Hfin & ->).
  destruct (loop_Ok_run astype_float32 post_process_heatmap
              invert_transform_kp skeleton model model_format eval_dataset
              class_names score_threshold normalize conf_threshold true
              skeleton_lines fuel trl c Hloop) as (k & Hrun & Hstop).
  exists k. split; [exact Hstop |]. split.
  - destruct res as [total acc].
    rewrite (eval_finish_Ok_trace class_names score_threshold true c _ _ _ Hfin).
    cbn [image_save_paths flat_map app]. fold (image_save_paths (trl ++
      [EvPbarClose; EvTouchDir "result";
       EvSaveFig "result/PCK.jpg" acc score_threshold total])).
    rewrite image_save_paths_app, (loop_run_detection_paths _ _ _ _ _ Hrun).
    cbn [image_save_paths flat_map app]. now rewrite app_nil_r, Nat.sub_0_r.
  - intros smp m dir base Hm Hname Hbase. unfold detection_path.
    rewrite Hm, Hname. unfold os_path_sep.
    now rewrite (str_split_last "/" dir base Hbase).
Qed.

End DetectionImages.

Lemma eval_PCK_detection_images_witness :
  exists tr k,
    eval_PCK astype_float32 post_process_heatmap invert_transform_kp unit
             keras "H5" dataset class_names (fl 1) (fl 10) f64_1em6 true None 2
    = Some (tr, Ok (Some (1 / 2)%R, accuracy_after))
    /\ loop_stops (eval_generator dataset) 1 k
    /\ image_save_paths tr
       = flat_map detection_path (generator_samples (eval_generator dataset) 0 k)
    /\ detection_path smp = ["result/detection/a.jpg"].
Proof.
  destruct run_eval_PCK_example_saved as (tr & Htr).
  destruct (eval_PCK_detection_images astype_float32 post_process_heatmap
              invert_transform_kp unit keras "H5" dataset class_names (fl 1)
              (fl 10) f64_1em6 None 2 tr _ Htr) as (k & Hstop & Hpaths & Hbase).
  exists tr, k. split; [exact Htr |]. split; [exact Hstop |].
  split; [exact Hpaths |].
  apply (Hbase smp meta "images" "a.jpg"); reflexivity.
Defined.
